(* ===== verification/_CoqProject ===== *)
-Q . S2P
Prelude.v
Util.v
Bmem.v
BmemInit.v
Bparm.v
BmemFini.v
MemMap.v
Paging.v
Va.v
AddrSpace.v
VaLive.v
Tlb.v
Kb.v
Rimg.v
Phys.v
RunStage2.v
Rm16.v
X86.v
Rm16Call.v
Start.v
Clib.v
Time.v
Vecs.v
Hello.v
Fv.v
Pci.v
Elf.v
Handover.v
Acpi.v
Irq.v
Stage2.v
Calls.v
Mp.v
Stage1.v
Boot.v
RomDump.v
Mbr.v
