(* ===== verification/Prelude.v ===== *)
(** * Verification development for biefircate

    biefircate boots a PC with UEFI firmware into the environment of a legacy BIOS.  Stage 1 is a
    UEFI application (src/stage1/): it takes all of base memory (below 1 MiB) from the firmware,
    checks the ACPI tables, brings the option ROMs of the PCI devices to base memory, loads stage 2
    from an ELF file, and leaves the boot services.  Stage 2 is a 32-bit program (src/stage2/): it
    sets up memory and paging, masks the APICs and brings up the legacy interrupt controllers, and
    calls the option ROMs in 16-bit mode; src/stage2/16/ is the 16-bit code, of which the keyboard
    interrupt is C and the rest assembly: the clock, the interrupt vectors, the way to real mode and
    back.  The two stages share a linked list of boot parameters (src/bparm.h), and the assembly
    code src/stage1/run-stage2.asm leads from the one to the other.

    ** Parts and files

    - [Prelude]: outcomes, machine integers, arrays, address ranges, the interface [Allocator], and
      the constants of src/common.h.  [Util]: memcmp and checksums (src/stage1/util.c).
    - [Bmem], [BmemInit], [BmemFini]: base memory (src/stage1/bmem.c, bit vectors of
      src/stage1/stage1.h).  [bmem] is the block table with its two marks; [bmem_init] takes the
      pages from the firmware, [bmem_alloc] and [bmem_alloc_boottime] hand memory out from the two
      ends, [bmem_fini] describes it to stage 2.
    - [Bparm]: boot parameters (src/stage1/bparm.c, src/bparm.h) as a store of nodes by address.
      [lseg] says which list a store represents.
    - [Rimg], [Fv], [Pci]: option ROM images, their cache from firmware volumes, and PCI devices
      (src/pci.h, src/stage1/pci.c, src/stage1/fv.c).
    - [Acpi]: the checks of the ACPI tables (src/stage1/acpi.c, src/acpi.h).
    - [Elf], [Handover], [Mp], [Stage1]: src/stage1/main.c, with src/elf.h and src/mp.h: the loader,
      the last steps before stage 2, the tables made up for one operating system (XV6_COMPAT), and
      [efi_main] itself.
    - [MemMap], [Paging], [Va]: the parts of src/stage2/mem.c: the physical memory map and
      [mem_alloc]; page tables; ranges of virtual addresses, [mem_va_map] and [mem_va_unmap].
      [AddrSpace] is the interface these give to their clients, [VaLive] proves that they keep it, and
      [Tlb] that they keep it on a processor that caches translations.
    - [Irq]: src/stage2/irq.c, against [AddrSpace] and an interface to I/O APICs.
    - [Phys]: physical memory as the assembly code and its clients see it.
    - [RunStage2]: src/stage1/run-stage2.asm.  [Start]: src/stage2/start.asm, and the control
      registers at the end of [va_init] (src/stage2/mem.c).  [Rm16]: [rm16_init] of
      src/stage2/rm16.asm, with src/stage2/16/16.ld.  [Rm16Call]: [rm16_call], whose halves are in
      src/stage2/rm16.asm and src/stage2/16/do-rm16-call.asm.  [Clib]: src/stage2/clib.asm.
    - [Stage2]: src/stage2/main.c.  [Calls]: the calls of real-mode code that it makes, run one after
      the other on the processor of [Rm16Call].
    - [Kb]: the keyboard interrupt (src/stage2/16/kb.c, BIOS data area of src/stage2/stage2.h).
    - [X86]: the 16-bit instructions that src/stage2/16 uses, as an executable semantics, with
      the tactics that step through code.  [Time] (src/stage2/16/time.asm), [Vecs]
      (src/stage2/16/vecs16.asm) and [Hello] ([hello16] of src/stage2/16/do-rm16-call.asm) are lists
      of these instructions, line by line those of the files, and the theorems are about what a
      processor does that runs them.
    - [Boot]: the two stages one after the other.
    - [RomDump]: the separate program src/romdumper.c.  [Mbr]: the boot sector src/legacy-mbr.asm.

    Calls between the parts are calls between the definitions: [efi_main] runs [bmem_init],
    [fv_init], [acpi_init], [process_pci], [load_stage2], [fake_mp_table] and
    [prepare_to_hand_over] on one state, [stage2_main] runs [mem_init], [rm16_init], [irq_init] and
    [rimg_init].  [bparm_add] is proved against the interface [Allocator], whose instance in stage 1
    is base memory; the page tables use the same interface, whose instance in stage 2 is the memory
    map.  [machine_boots] of [Boot] runs [efi_main], [run_stage2] on what it returns, and
    [stage2_main] on the memory and the list that [run_stage2] enters it with; all it asks of that
    state beyond what stage 1 guarantees is that the ACPI tables are still in memory, above 1 MiB and
    below 2^52, and that their MADT, whose entries stage 1 does not look at, is well formed.
    [rm16_init] works on the same memory, and leaves the vectors of [Vecs] and the keyboard buffer of
    [Kb] in it; the calls of option ROMs are events of [stage2_main], [Rm16Call] says what happens to
    the processor in each, and [Calls] runs them, from the state that [_start] and [va_init] have made,
    up to [hello16].  The interrupt handlers of [Time] and [Vecs] run on the BIOS
    data area in that memory, [irq_c_code] of [Vecs] being what calls the C function of [Kb].

    ** How the C code is represented

    An unsigned integer of w bits is a [Z] with its wrap-around written out where it can happen.
    A function that may not return is a [result]: [Error] is a call of [error] (stage 1), [Hlt] the
    [hlt()] of stage 2, where interrupts are off, so that it stops the machine; [OutOfBounds] is an
    access outside an array or object, [PageFault] one to an unmapped address, [Diverges] a loop
    that has used up its fuel.  Static variables are records passed along.  Physical memory is a
    function from addresses to bytes, pages of tables a map of words, the nodes of boot parameters a
    map from addresses: pointers are addresses, so aliasing is the machine's.  What the firmware,
    the file system, the devices and the clock answer is a parameter; what the code relies on about
    them is a class with laws or a named hypothesis ([BootServicesLaws], [IoApicLaws], [prog_ok],
    [pages_ok], [clock], [machine_ok]), and each has an instance that the witnesses run on.

    Assembly code is represented in two ways.  Straight code that moves much data ([RunStage2],
    [Start], [Rm16], [Rm16Call], [Clib], [Mbr]) is a function, each instruction or string instruction a binding.
    Code with branches, loops and calls ([Time], [Vecs], [Hello]) is a list of the instructions of [X86] with
    the file's labels; addresses of code are positions in the list, and the stack of the
    interrupted program is a list of words.  What ports answer and what an interrupt or a C function
    does that the code calls are the parameters [outb], [inb] and [soft].

    ** What is shown

    - Memory of stage 1: [bmem_init] ends and its table describes exactly the pages the firmware had
      free; what the two allocators return on every branch, and that no two blocks of a run overlap;
      the marks of [bmem_fini] and what it reports.
    - Boot parameters: [bparm_add] appends to the list that the store represents; a walk visits
      exactly that list.
    - Option ROMs: which images are accepted, and that nothing outside an image is read; the cache
      gives back what was put in; after [process_pci] every device's option ROM is callable and
      nothing will overwrite it.
    - [acpi_init] accepts exactly the good tables; [load_stage2] places every segment byte for byte;
      the hand-over reports all memory, and waits as long as it means to; the multiprocessor tables
      are found and valid; [efi_main] composes all this.
    - Memory of stage 2: [shellsort] sorts; the memory map describes every byte as the parameters
      did; [mem_alloc] on every branch, and that blocks never overlap; the map is in order, and only
      below 1 MiB, where stage 1 reports memory twice, may entries overlap, never two of RAM; mapping
      and unmapping do to the translation of every address what they should, and any sequence of them
      keeps all live mappings intact.
    - From stage 1 to stage 2: [run_stage2] enters the program at its entry point with the list, a stack and
      an initialized BIOS data area; [_start] enters [stage2_main] with flat segments on its own stack;
      [rm16_init] places the real-mode code and data byte for byte where
      stage 1 has left room; [rm16_call] brings its caller back to where it was, whatever real-mode
      code did to the processor; [memmove] copies overlapping areas right.
    - [irq_init] masks exactly the inputs of the listed I/O APICs and leaves no mapping behind; the
      8259s and the timer end up in legacy mode; [stage2_main] composes memory, interrupts and the
      calls of option ROMs, which it makes in the right order as far as each comes back.
    - [Calls]: the option ROMs of the displays are entered in turn, with the registers they are to have
      and what is in memory intact, and come back; then [hello16] is entered, writes its message and
      stays, so that the option ROMs of the other devices are never called.
    - [Boot]: on a machine whose firmware lists no byte of memory twice, stage 2 works on the list of
      stage 1 to its end, in an address space that maps memory to itself, and calls the option ROMs
      that stage 1 has placed, each intact unless the real-mode code of stage 2 was put over it.
    - The keyboard interrupt refines an abstract keyboard on every sequence of scan codes, and always
      ends.
    - The clock: [n] timer interrupts move it on by [n] ticks and count the midnights; interrupts leave
      no trace in the interrupted program; int 0x1a gives back the time that was set, and reports
      what it cannot do; the real-time clock is read in bounded time.  Function 2 of int 0x1a does
      not return to its caller, and two theorems say where it goes.
    - The interrupt vectors: interrupts that are not implemented stop the machine with a message that
      names them; the wrapper around the keyboard handler calls it as C expects and is transparent.
    - [X86] with [Time]: the code is well typed, and well-typed code keeps registers, stack and memory
      within their widths.
    - [RomDump]: the files that are written are the ROMs, chunk by chunk.  [Mbr]: the sector shows its
      message to the end and resets the machine.

    ** Fuel

    [grab_pages] has 16648 iterations: 256 pages, at most one grant and 64 refusals each, and eight
    halvings more; [bmem_init_terminates] shows that it is enough.  [attr_loop] has twice the capacity
    of the memory map and one more: each step moves on by one entry or adds one to the table, which
    cannot grow past its capacity.  The walks of firmware volumes and images
    use the length of the bytes they walk, which every step shortens; the block loops use the
    length of the table.  [shellsort], the page-table loops and the walk over an MADT have fuel
    whose sufficiency is part of their theorems.  Walks over boot parameters need more fuel than the
    list has nodes, the waits of [prepare_to_hand_over] as many readings of the clock as [ticking]
    says, and both are hypotheses or chosen in the theorems' statements.

    ** Not modelled

    src/stage2/16/head.asm only reserves the 16-bit stack.  Of the control registers, [RunStage2] takes
    for granted that paging and long mode are off when its second half goes on.  The compiled C code of
    stage 2 between two calls of real-mode code is a parameter of [Calls], with the invariant
    [c_state].  Console output (src/stage1/util.c), with the exception of what the base address
    registers are printed as.  The empty functions [fv_fini], [start_upd_leds] and [argh].
    src/fv-proto.h only declares a firmware protocol; gnu-efi and the ACPI table definitions are
    packages outside the repository. *)

From stdpp Require Export base list gmap strings.
From Stdlib Require Export ZArith Lia.
From stdpp Require Import sorting.
#[global] Open Scope Z_scope.

(** ** Outcomes

    The program has four ways not to return: stage 1 calls [error] (stage1/util.c),
    stage 2 executes [hlt] with interrupts disabled (common.h), C code reads or writes
    outside an array, and a loop runs for ever.  They are kept apart. *)

Inductive failure :=
  | Error (msg : string)
  | Hlt
  | OutOfBounds
  | PageFault
  | Diverges.

Inductive result (A : Type) :=
  | Ok (a : A)
  | Fail (f : failure).
Arguments Ok {A} _.
Arguments Fail {A} _.

#[export] Instance failure_eq_dec : EqDecision failure.
Proof. solve_decision. Defined.

#[export] Instance result_ret : MRet result := fun A a => Ok a.
#[export] Instance result_bind : MBind result :=
  fun A B f m => match m with Ok a => f a | Fail e => Fail e end.

(** A read of an array or of a memory cell that the C code performs without a check. *)
Definition checked {A} (o : option A) : result A :=
  match o with Some a => Ok a | None => Fail OutOfBounds end.

Lemma bind_Ok {A B} (m : result A) (k : A -> result B) (b : B) :
  (m ≫= k = Ok b) <-> exists a, m = Ok a /\ k a = Ok b.
Proof.
  destruct m as [a|e]; cbn; split.
  - eauto.
  - by intros (a' & [= <-] & ?).
  - done.
  - by intros (a' & ? & ?).
Qed.

Lemma checked_Ok {A} (o : option A) (a : A) : checked o = Ok a <-> o = Some a.
Proof. destruct o; cbn; split; congruence. Qed.

Lemma Ok_inj {A} (a b : A) : Ok a = Ok b -> a = b.
Proof. congruence. Qed.

(** A computation that ends in [Q], or fails with a failure in [E]. *)
Definition post {A} (r : result A) (Q : A -> Prop) (E : failure -> Prop) : Prop :=
  match r with Ok a => Q a | Fail f => E f end.

Lemma post_bind {A B} (m : result A) (k : A -> result B) (P : A -> Prop) (Q : B -> Prop) (E : failure -> Prop) :
  post m P E -> (forall a, P a -> post (k a) Q E) -> post (m ≫= k) Q E.
Proof. destruct m as [a|f]; cbn; [intros Ha Hk; by apply Hk|done]. Qed.

Lemma post_mono {A} (m : result A) (P Q : A -> Prop) (E E' : failure -> Prop) :
  post m P E -> (forall a, P a -> Q a) -> (forall f, E f -> E' f) -> post m Q E'.
Proof. destruct m as [a|f]; cbn; auto. Qed.

Lemma post_Ok {A} (m : result A) (Q : A -> Prop) E a : m = Ok a -> Q a -> post m Q E.
Proof. by intros ->. Qed.

(** A computation that does not run for ever. *)
Definition ends {A} (r : result A) : Prop := r <> Fail Diverges.

Lemma ends_Ok {A} (a : A) : ends (Ok a).
Proof. done. Qed.

Lemma ends_Error {A} msg : ends (Fail (A := A) (Error msg)).
Proof. done. Qed.

Lemma ends_checked {A} (o : option A) : ends (checked o).
Proof. by destruct o. Qed.

Lemma ends_bind {A B} (m : result A) (k : A -> result B) :
  ends m -> (forall a, m = Ok a -> ends (k a)) -> ends (m ≫= k).
Proof. destruct m as [a|f]; unfold ends; cbn; [auto|congruence]. Qed.

Create HintDb ends.
#[export] Hint Resolve ends_Ok ends_Error ends_checked : ends.

(** [inv_result] takes every [m ≫= k = Ok b] hypothesis apart. *)
Ltac inv_result :=
  repeat match goal with
  | H : Ok _ = Ok _ |- _ => apply Ok_inj in H; simplify_eq
  | H : Fail _ = Ok _ |- _ => discriminate H
  | H : Ok _ = Fail _ |- _ => discriminate H
  | H : (_ ≫= _) = Ok _ |- _ =>
      apply bind_Ok in H;
      let a := fresh "a" in let Ha := fresh "Hm" in destruct H as (a & Ha & H); cbn beta in H
  | H : checked _ = Ok _ |- _ => apply checked_Ok in H
  | H : (match ?p with (_, _) => _ end) = Ok _ |- _ => destruct p eqn:?
  end.

(** ** Machine integers

    An unsigned C integer of [w] bits is a [Z] in [0, 2^w); every operation that may leave
    the range is written with its wrap-around. *)

Definition wrap (w x : Z) : Z := x mod 2 ^ w.
Abbreviation u8 := (wrap 8).
Abbreviation u16 := (wrap 16).
Abbreviation u32 := (wrap 32).
Abbreviation u64 := (wrap 64).

Definition is_pow2 (a : Z) : Prop := exists k, 0 <= k /\ a = 2 ^ k.
Definition align_down (x a : Z) : Z := x - x mod a.
Definition align_up (x a : Z) : Z := align_down (x + a - 1) a.

Lemma wrap_range w x : 0 <= w -> 0 <= wrap w x < 2 ^ w.
Proof. intros Hw. apply Z.mod_pos_bound. by apply Z.pow_pos_nonneg. Qed.

Lemma wrap_small w x : 0 <= x < 2 ^ w -> wrap w x = x.
Proof. apply Z.mod_small. Qed.

Lemma wrap_idemp w x : wrap w (wrap w x) = wrap w x.
Proof. unfold wrap. destruct (Z.eq_dec (2 ^ w) 0) as [->|?]; [by rewrite !Z.mod_0_r|]. by rewrite Zmod_mod. Qed.

Lemma is_pow2_pos a : is_pow2 a -> 0 < a.
Proof. intros (k & Hk & ->). by apply Z.pow_pos_nonneg. Qed.

Lemma is_pow2_divide a b : is_pow2 a -> is_pow2 b -> a <= b -> (a | b).
Proof.
  intros (j & Hj & ->) (k & Hk & ->) Hle.
  exists (2 ^ (k - j)). rewrite <- Z.pow_add_r; [f_equal; lia| |lia].
  destruct (decide (j <= k)); [lia|].
  enough (2 ^ k < 2 ^ j) by lia. apply Z.pow_lt_mono_r; lia.
Qed.

Lemma align_down_le x a : 0 < a -> align_down x a <= x.
Proof. intros Ha. unfold align_down. pose proof (Z.mod_pos_bound x a Ha). lia. Qed.

Lemma align_down_gt x a : 0 < a -> x - a < align_down x a.
Proof. intros Ha. unfold align_down. pose proof (Z.mod_pos_bound x a Ha). lia. Qed.

Lemma align_down_divide x a : (a | align_down x a).
Proof.
  unfold align_down. exists (x / a).
  destruct (Z.eq_dec a 0) as [->|Ha]; [rewrite Z.mod_0_r; lia|].
  pose proof (Z.div_mod x a Ha). lia.
Qed.

Lemma align_down_nonneg x a : 0 < a -> 0 <= x -> 0 <= align_down x a.
Proof. intros. unfold align_down. pose proof (Z.mod_le x a). lia. Qed.

Lemma align_up_ge x a : 0 < a -> x <= align_up x a.
Proof. intros Ha. unfold align_up. pose proof (align_down_gt (x + a - 1) a Ha). lia. Qed.

Lemma align_up_lt x a : 0 < a -> align_up x a < x + a.
Proof. intros Ha. unfold align_up. pose proof (align_down_le (x + a - 1) a Ha). lia. Qed.

Lemma align_down_aligned x a : 0 < a -> (a | x) -> align_down x a = x.
Proof. intros Ha Hd. unfold align_down. apply Z.mod_divide in Hd; lia. Qed.

Lemma align_down_mono x y a : 0 < a -> x <= y -> align_down x a <= align_down y a.
Proof.
  intros Ha Hle. pose proof (Z.div_le_mono x y a Ha Hle). unfold align_down.
  pose proof (Z.div_mod x a ltac:(lia)). pose proof (Z.div_mod y a ltac:(lia)). nia.
Qed.

(** The greatest multiple of [a] below [x]. *)
Lemma align_down_greatest x y a : 0 < a -> (a | y) -> y <= x -> y <= align_down x a.
Proof. intros Ha Hd Hle. rewrite <- (align_down_aligned y a) by done. by apply align_down_mono. Qed.

(** The C idiom [x & -align]. *)
Lemma land_wrap_opp w x a :
  0 <= x < 2 ^ w -> is_pow2 a -> a <= 2 ^ w -> Z.land x (wrap w (- a)) = align_down x a.
Proof.
  intros Hx (k & Hk & ->) Hle.
  assert (Hw : 0 <= w).
  { destruct (decide (0 <= w)); [done|]. rewrite (Z.pow_neg_r 2 w) in Hx by lia. lia. }
  unfold wrap. rewrite <- Z.land_ones, Z.land_assoc by done.
  rewrite (Z.land_comm x), <- Z.land_assoc, (Z.land_ones x) by done.
  rewrite (Z.mod_small x) by done. rewrite Z.land_comm.
  replace (- 2 ^ k) with (Z.lnot (Z.ones k)) by (rewrite Z.ones_equiv; unfold Z.lnot; lia).
  rewrite <- Z.ldiff_land, Z.ldiff_ones_r by done.
  rewrite Z.shiftl_mul_pow2, Z.shiftr_div_pow2 by done.
  unfold align_down. pose proof (Z.div_mod x (2 ^ k)). lia.
Qed.

(** [lor] of a multiple of [2^k] and a value below [2^k] is their sum. *)
Lemma lor_add_low k x y : 0 <= k -> (2 ^ k | x) -> 0 <= y < 2 ^ k -> Z.lor x y = x + y.
Proof.
  intros Hk [q ->] Hy. symmetry. apply Z.add_nocarry_lor.
  apply Z.bits_inj'. intros n Hn. rewrite Z.land_spec, Z.bits_0, <- Z.shiftl_mul_pow2 by done.
  destruct (decide (n < k)) as [Hlt|Hge].
  - by rewrite Z.shiftl_spec_low.
  - rewrite <- (Z.mod_small y (2 ^ k)), Z.mod_pow2_bits_high by lia. by rewrite andb_false_r.
Qed.

(** [zify] with division and remainder, used where a goal is linear once they are named. *)
Ltac dlia := Z.div_mod_to_equations; lia.

(** ** Arrays

    [l !!! i]-style reads of C arrays go through [checked (l !! Z.to_nat i)]; the lemmas
    below are the ones several components need. *)

Section arrays.
Context {A : Type}.
Implicit Types l : list A.

Lemma insert_swap_perm l i j x y :
  l !! i = Some x -> i <> j -> (j < length l)%nat ->
  <[i:=y]> (<[j:=x]> l) ≡ₚ <[j:=y]> l.
Proof.
  intros Hi Hij Hj.
  destruct (lookup_lt_is_Some_2 l j Hj) as [z Hz].
  apply Permutation_inj. rewrite !length_insert. split; [done|].
  exists (fun n => if decide (n = i) then j else if decide (n = j) then i else n).
  split.
  - intros a b. repeat case_decide; subst; congruence.
  - intros n. assert (Hil : (i < length l)%nat) by (by eapply lookup_lt_Some).
    repeat case_decide; subst.
    + rewrite list_lookup_insert_eq, list_lookup_insert_eq; [done|lia|rewrite length_insert; lia].
    + rewrite list_lookup_insert_ne, list_lookup_insert_eq, list_lookup_insert_ne by (done || lia). done.
    + rewrite !list_lookup_insert_ne by done. done.
Qed.

(** A filter that loses at least one element is shorter. *)
Lemma length_filter_lt (P Q : A -> bool) l x :
  (forall y, Q y = true -> P y = true) -> x ∈ l -> P x = true -> Q x = false ->
  (length (List.filter Q l) < length (List.filter P l))%nat.
Proof.
  intros HQP Hx HP HQ.
  assert (Hle : forall k : list A, (length (List.filter Q k) <= length (List.filter P k))%nat).
  { induction k as [|y k IH]; cbn; [done|].
    destruct (Q y) eqn:Ey; [rewrite (HQP _ Ey); cbn; lia|destruct (P y); cbn; lia]. }
  induction l as [|y l IH]; [by apply not_elem_of_nil in Hx|].
  cbn. apply elem_of_cons in Hx as [<-|Hx].
  - rewrite HP, HQ. cbn. specialize (Hle l). lia.
  - specialize (IH Hx).
    destruct (Q y) eqn:Ey; [rewrite (HQP _ Ey); cbn; lia|destruct (P y); cbn; lia].
Qed.
End arrays.

(** C arrays indexed by an integer: an index outside the array is [OutOfBounds]. *)
Definition aget {A} (l : list A) (i : Z) : result A :=
  if i <? 0 then Fail OutOfBounds else checked (l !! Z.to_nat i).

Definition aset {A} (l : list A) (i : Z) (x : A) : result (list A) :=
  if (i <? 0) || (Z.of_nat (length l) <=? i) then Fail OutOfBounds
  else Ok (<[Z.to_nat i := x]> l).

Lemma aget_Ok {A} (l : list A) (i : Z) x :
  aget l i = Ok x <-> 0 <= i /\ l !! Z.to_nat i = Some x.
Proof.
  unfold aget. destruct (Z.ltb_spec i 0); rewrite ?checked_Ok; split; try done; [by intros [? _]; lia|by intros [_ ?]].
Qed.

Lemma aget_total {A} (l : list A) (i : Z) :
  0 <= i < Z.of_nat (length l) -> exists x, aget l i = Ok x /\ l !! Z.to_nat i = Some x.
Proof.
  intros Hi. destruct (lookup_lt_is_Some_2 l (Z.to_nat i) ltac:(lia)) as [x Hx].
  exists x. split; [apply aget_Ok; split; [lia|done]|done].
Qed.

Lemma aset_Ok {A} (l : list A) (i : Z) x :
  0 <= i < Z.of_nat (length l) -> aset l i x = Ok (<[Z.to_nat i := x]> l).
Proof.
  intros Hi. unfold aset.
  destruct (Z.ltb_spec i 0), (Z.leb_spec (Z.of_nat (length l)) i); try lia; done.
Qed.

(** ** Half-open address ranges *)

Definition in_range (a n x : Z) : Prop := a <= x < a + n.
Definition disjoint_ranges (a n b m : Z) : Prop := a + n <= b \/ b + m <= a.

Lemma disjoint_ranges_spec a n b m :
  0 < n -> 0 < m ->
  disjoint_ranges a n b m <-> forall x, in_range a n x -> ~ in_range b m x.
Proof.
  intros Hn Hm. unfold disjoint_ranges, in_range. split; [lia|].
  intros H. destruct (decide (a + n <= b)); [lia|]. destruct (decide (b + m <= a)); [lia|].
  exfalso. apply (H (Z.max a b)); lia.
Qed.

(** Lists whose entries are related in pairs. *)
Lemma sorted_impl {A} (R S : relation A) l : (forall x y, R x y -> S x y) -> StronglySorted R l -> StronglySorted S l.
Proof. intros H. induction 1 as [|x l _ IH Hx]; constructor; [done|]. eapply Forall_impl; [exact Hx|]. intros y. apply H. Qed.

Lemma sorted_all {A} (R : relation A) l : (forall x y, x ∈ l -> y ∈ l -> R x y) -> StronglySorted R l.
Proof.
  induction l as [|x l IH]; intros H; constructor.
  - apply IH. intros y z Hy Hz. apply H; apply elem_of_cons; by right.
  - apply List.Forall_forall. intros y Hy%list_elem_of_In. apply H; apply elem_of_cons; [by left|by right].
Qed.

Lemma sorted_map_filter {A B} (R : relation B) (f : A -> B) (p : A -> bool) l :
  StronglySorted (fun x y => R (f x) (f y)) l -> StronglySorted R (f <$> List.filter p l).
Proof.
  induction 1 as [|x l _ IH Hx]; [constructor|]. cbn. destruct (p x); [|done]. cbn. constructor; [done|].
  apply Forall_fmap, Forall_forall. intros y Hy. apply list_elem_of_In, filter_In in Hy as [Hy _].
  rewrite Forall_forall in Hx. by apply Hx, list_elem_of_In.
Qed.

Lemma sorted_mjoin {A B} (R : relation A) (S : relation B) (f : A -> list B) l :
  (forall x, StronglySorted S (f x)) -> (forall x y a b, R x y -> a ∈ f x -> b ∈ f y -> S a b) ->
  StronglySorted R l -> StronglySorted S (mjoin (f <$> l)).
Proof.
  intros Hf HS. induction 1 as [|x l _ IH Hx]; [constructor|]. cbn.
  apply StronglySorted_app; split_and!; [|done|done]. intros a b Ha Hb.
  apply list_elem_of_join in Hb as (l' & Hb & (y & -> & Hy)%list_elem_of_fmap). rewrite Forall_forall in Hx.
  by eapply HS; [apply Hx| |].
Qed.

(** For [StronglySorted] on a concrete list: one goal for each pair of entries. *)
Ltac sorted_pairs :=
  repeat first [apply Stdlib.Sorting.Sorted.SSorted_nil | apply Stdlib.Sorting.Sorted.SSorted_cons | apply List.Forall_nil | apply List.Forall_cons].

(** ** The allocator interface

    Both stages hand out memory from a pool and never take it back: [bmem_alloc_boottime]
    (stage1/bmem.c) serves [bparm_add], and [mem_alloc] (stage2/mem.c) serves the page-table
    code.  What the clients rely on is stated once, here: a block that was handed out lies in
    memory that was free, and is not free afterwards. *)

Class Allocator (S : Type) := {
  alc_alloc : S -> Z -> Z -> result (Z * S);
  alc_inv : S -> Prop;
  alc_free : S -> Z -> Prop;
  (** blocks lie between these *)
  alc_base : Z;
  alc_limit : Z;
}.

Class AllocatorLaws (S : Type) `{Allocator S} := {
  alc_base_nonneg : 0 <= alc_base;
  alc_alloc_inv : forall s sz al a s',
    alc_inv s -> 0 < sz -> is_pow2 al -> al <= 4096 ->
    alc_alloc s sz al = Ok (a, s') -> alc_inv s';
  alc_alloc_block : forall s sz al a s',
    alc_inv s -> 0 < sz -> is_pow2 al -> al <= 4096 ->
    alc_alloc s sz al = Ok (a, s') ->
    alc_base <= a /\ a + sz <= alc_limit /\ (al | a) /\
    (forall x, in_range a sz x -> alc_free s x /\ ~ alc_free s' x);
  alc_alloc_free : forall s sz al a s' x,
    alc_inv s -> 0 < sz -> is_pow2 al -> al <= 4096 ->
    alc_alloc s sz al = Ok (a, s') -> alc_free s' x -> alc_free s x;
}.

(** No block is at the null pointer, so that clients can tell a block from none. *)
Class NonNull (S : Type) `{Allocator S} : Prop := alc_base_pos : 0 < alc_base.

Section allocator_run.
Context {S : Type} `{HA : Allocator S} `{HL : !AllocatorLaws S}.

(** A sequence of requests (size and alignment), answered in order. *)
Fixpoint alc_run (s : S) (reqs : list (Z * Z)) : result (list (Z * Z) * S) :=
  match reqs with
  | [] => Ok ([], s)
  | (sz, al) :: reqs =>
      '(a, s) ← alc_alloc s sz al;
      '(blks, s) ← alc_run s reqs;
      Ok ((a, sz) :: blks, s)
  end.

Definition req_ok (r : Z * Z) : Prop := 0 < r.1 /\ is_pow2 r.2 /\ r.2 <= 4096.

Lemma alc_run_facts s reqs blks s' :
  alc_inv s -> Forall req_ok reqs -> alc_run s reqs = Ok (blks, s') ->
  alc_inv s' /\ (forall x, alc_free s' x -> alc_free s x) /\
  (forall b, b ∈ blks -> 0 < b.2) /\
  (forall b x, b ∈ blks -> in_range b.1 b.2 x -> alc_free s x /\ ~ alc_free s' x) /\
  (forall i j b c, (i < j)%nat -> blks !! i = Some b -> blks !! j = Some c ->
    disjoint_ranges b.1 b.2 c.1 c.2).
Proof.
  revert s blks. induction reqs as [|[sz al] reqs IH]; intros s blks Hinv Hreqs E; cbn in E.
  { inv_result. split_and!; [done|done|by intros ? ?%not_elem_of_nil|by intros ? ? ?%not_elem_of_nil|by intros]. }
  apply Forall_cons in Hreqs as [(Hsz & Hal & Hle) Hreqs].
  destruct (alc_alloc s sz al) as [[a s1]|] eqn:Ha; [|done]. cbn in E.
  destruct (alc_run s1 reqs) as [[bs s2]|] eqn:Hrun; [|done]. cbn in E. simplify_eq. cbn in *.
  pose proof (alc_alloc_inv _ _ _ _ _ Hinv Hsz Hal Hle Ha) as Hinv1.
  destruct (alc_alloc_block _ _ _ _ _ Hinv Hsz Hal Hle Ha) as (_ & _ & _ & Hblk).
  pose proof (fun x => alc_alloc_free _ _ _ _ _ x Hinv Hsz Hal Hle Ha) as Hfree.
  destruct (IH _ _ Hinv1 Hreqs Hrun) as (Hinv2 & Hfree2 & Hpos & Hblks & Hdisj).
  split_and!; [done|auto| | |].
  - by intros b [->|Hb]%elem_of_cons; [|apply Hpos].
  - intros b x [->|Hb]%elem_of_cons Hx; cbn in *.
    + destruct (Hblk x Hx). auto.
    + destruct (Hblks b x Hb Hx). auto.
  - intros [|i] [|j] b c Hij Hb Hc; cbn in Hb, Hc; simplify_eq; try lia.
    + cbn. apply list_elem_of_lookup_2 in Hc. apply disjoint_ranges_spec; [done|by apply Hpos|].
      intros x Hx Hx'. destruct (Hblks c x Hc Hx') as [Hf _]. by destruct (Hblk x Hx).
    + by apply (Hdisj i j); [lia|..].
Qed.
End allocator_run.

(** ** Constants of common.h *)

Definition PARA_SIZE : Z := 0x10.
Definition KIBYTE : Z := 1024.
Definition HKIBYTE : Z := KIBYTE / 2.
Definition BMEM_MAX_ADDR : Z := 0x100000.

Definition MAGIC32 (a b c d : Z) : Z :=
  Z.lor (Z.lor (Z.lor (u8 a) (Z.shiftl (u8 b) 8)) (Z.shiftl (u8 c) 16)) (Z.shiftl (u8 d) 24).

Definition E820_RAM : Z := 1.
Definition E820_RESERVED : Z := 2.
Definition E820_ACPI : Z := 3.
Definition E820_NVS : Z := 4.
Definition E820_UNUSABLE : Z := 5.
Definition E820_DISABLED : Z := 6.
Definition E820_PMEM : Z := 7.

(** [zsolve] unfolds the named constants before calling [lia]. *)
Create HintDb consts.
#[export] Hint Unfold PARA_SIZE KIBYTE HKIBYTE BMEM_MAX_ADDR : consts.
#[export] Hint Unfold E820_RAM E820_RESERVED E820_ACPI E820_NVS E820_PMEM : consts.
Ltac unfold_consts := autounfold with consts in *.
Ltac zsolve := unfold_consts; lia.
