(* ===== verification/Util.v ===== *)
(** * Checksums and byte comparison (src/stage1/util.c)

    A buffer is the list of its bytes, from the address the C pointer holds; reading past its
    end is [Fail OutOfBounds].  [memcmp] and [compute_cksum] are the loops of the source, one
    iteration per step of the recursion, with the [uint8_t] accumulator wrapped at 8 bits. *)

From S2P Require Import Prelude.

Definition byte_ok (b : Z) : Prop := 0 <= b < 256.
Definition bytes_ok (l : list Z) : Prop := Forall byte_ok l.

(** [while (n-- != 0) { c1 = *p1++, c2 = *p2++; ... }] *)
Fixpoint memcmp (p1 p2 : list Z) (n : nat) : result Z :=
  match n with
  | O => Ok 0
  | S n =>
      c1 ← checked (head p1);
      c2 ← checked (head p2);
      if c1 <? c2 then Ok (-1)
      else if c1 >? c2 then Ok 1
      else memcmp (tail p1) (tail p2) n
  end.

(** [while (n-- != 0) cksum -= *p++;] *)
Fixpoint cksum_loop (cksum : Z) (p : list Z) (n : nat) : result Z :=
  match n with
  | O => Ok cksum
  | S n => b ← checked (head p); cksum_loop (u8 (cksum - b)) (tail p) n
  end.

Definition compute_cksum (buf : list Z) (n : nat) : result Z := cksum_loop 0 buf n.

(** [p_cksum] is the index, from [buf], of the byte the pointer argument designates. *)
Definition update_cksum (buf : list Z) (n p_cksum : nat) : result (list Z) :=
  _ ← checked (buf !! p_cksum);
  let buf := <[p_cksum := 0]> buf in
  cksum ← compute_cksum buf n;
  Ok (<[p_cksum := cksum]> buf).

(** ** Lemmas *)

Fixpoint byte_sum (l : list Z) : Z :=
  match l with [] => 0 | b :: l => b + byte_sum l end.

Lemma byte_sum_app l k : byte_sum (l ++ k) = byte_sum l + byte_sum k.
Proof. induction l; cbn; lia. Qed.

Lemma cksum_loop_ok c p n :
  (n <= length p)%nat -> u8 c = c -> cksum_loop c p n = Ok (u8 (c - byte_sum (take n p))).
Proof.
  revert c p. induction n as [|n IH]; intros c p Hn Hc.
  { cbn. by rewrite Z.sub_0_r, Hc. }
  destruct p as [|b p]; cbn in *; [lia|].
  rewrite IH by (lia || apply wrap_idemp). f_equal. unfold wrap.
  rewrite Zminus_mod_idemp_l. f_equal. lia.
Qed.

Lemma compute_cksum_ok p n :
  (n <= length p)%nat -> compute_cksum p n = Ok (u8 (- byte_sum (take n p))).
Proof. intros. unfold compute_cksum. by rewrite cksum_loop_ok. Qed.

Lemma cksum_loop_short c p n :
  (length p < n)%nat -> cksum_loop c p n = Fail OutOfBounds.
Proof.
  revert c p. induction n as [|n IH]; intros c p Hn; [lia|].
  destruct p as [|b p]; cbn in *; [done|]. apply IH. lia.
Qed.

Lemma compute_cksum_Ok_inv p n c :
  compute_cksum p n = Ok c -> (n <= length p)%nat /\ c = u8 (- byte_sum (take n p)).
Proof.
  intros H. destruct (decide (n <= length p)%nat) as [Hle|Hgt].
  - rewrite compute_cksum_ok in H by done. by inv_result.
  - unfold compute_cksum in H. rewrite cksum_loop_short in H by lia. done.
Qed.

Lemma byte_sum_insert l i x y :
  l !! i = Some y -> byte_sum (<[i:=x]> l) = byte_sum l - y + x.
Proof.
  intros Hi. rewrite <- (take_drop_middle l i y) by done.
  assert (i < length l)%nat by by eapply lookup_lt_Some.
  rewrite insert_app_r_alt by (rewrite length_take; lia).
  rewrite length_take, Nat.min_l, Nat.sub_diag by lia. cbn.
  rewrite !byte_sum_app. cbn. lia.
Qed.

Lemma neg_mod_zero s : u8 (- s) = 0 <-> s mod 256 = 0.
Proof. unfold wrap. change (2 ^ 8) with 256. dlia. Qed.

Lemma update_cksum_ok (buf : list Z) (n k : nat) :
  (k < n)%nat -> (n <= length buf)%nat ->
  exists c, 0 <= c < 256 /\ update_cksum buf n k = Ok (<[k:=c]> buf) /\ byte_sum (take n (<[k:=c]> buf)) mod 256 = 0.
Proof.
  intros Hk Hn. destruct (lookup_lt_is_Some_2 buf k ltac:(lia)) as [b Hb].
  unfold update_cksum. rewrite Hb. cbn [checked mbind result_bind].
  rewrite compute_cksum_ok by (rewrite length_insert; lia). cbn [mbind result_bind]. rewrite list_insert_insert_eq.
  eexists. split; [apply (wrap_range 8); lia|]. split; [done|].
  assert (Hl : take n buf !! k = Some b) by by rewrite lookup_take_lt.
  rewrite !take_insert_lt, !(byte_sum_insert _ _ _ _ Hl) by done. unfold wrap. change (2 ^ 8) with 256. dlia.
Qed.

(** ** Properties *)

(** [compute_cksum] returns the byte that makes the sum of the first [n] bytes vanish
    modulo 256; it reads all [n] bytes, and fails exactly when the buffer is shorter. *)
Theorem compute_cksum_complement (buf : list Z) (n : nat) :
  (forall c, compute_cksum buf n = Ok c ->
     0 <= c < 256 /\ (byte_sum (take n buf) + c) mod 256 = 0) /\
  (compute_cksum buf n = Fail OutOfBounds <-> (length buf < n)%nat).
Proof.
  split.
  - intros c [Hn ->]%compute_cksum_Ok_inv. split; [by apply (wrap_range 8)|].
    unfold wrap. change (2 ^ 8) with 256. dlia.
  - split; [|apply cksum_loop_short].
    intros H. destruct (decide (n <= length buf)%nat); [|lia].
    by rewrite compute_cksum_ok in H.
Qed.

(** After [update_cksum] the area checks to zero, whatever stood in the checksum byte and
    even though that byte is part of the summed area. *)
Theorem update_cksum_valid (buf buf' : list Z) (n k : nat) :
  (k < n)%nat -> update_cksum buf n k = Ok buf' ->
  compute_cksum buf' n = Ok 0 /\
  length buf' = length buf /\ (forall j, j <> k -> buf' !! j = buf !! j).
Proof.
  unfold update_cksum. intros Hk H. inv_result.
  apply compute_cksum_Ok_inv in Hm0 as [Hn ->]. rewrite length_insert in Hn.
  split_and!.
  - rewrite compute_cksum_ok by (rewrite !length_insert; done). f_equal.
    rewrite list_insert_insert_eq, !take_insert_lt by done.
    assert (Hl : take n buf !! k = Some a) by by rewrite lookup_take_lt.
    rewrite !(byte_sum_insert _ _ _ _ Hl). unfold wrap. change (2 ^ 8) with 256. dlia.
  - by rewrite !length_insert.
  - intros j Hj. by rewrite !list_lookup_insert_ne.
Qed.

Lemma update_cksum_valid_witness :
  exists buf', update_cksum [1; 2; 77; 250] 4 2 = Ok buf' /\ compute_cksum buf' 4 = Ok 0.
Proof.
  exists [1; 2; 3; 250]. split; [vm_compute; reflexivity|].
  apply (update_cksum_valid [1; 2; 77; 250] [1; 2; 3; 250] 4 2); [lia|vm_compute; reflexivity].
Defined.

(** [memcmp] returns 0 exactly on equal prefixes, and otherwise the sign of the first
    difference. *)
Theorem memcmp_spec (p1 p2 : list Z) (n : nat) :
  (n <= length p1)%nat -> (n <= length p2)%nat ->
  exists r, memcmp p1 p2 n = Ok r /\
    (r = 0 /\ take n p1 = take n p2 \/
     exists i a b, (i < n)%nat /\ take i p1 = take i p2 /\
       p1 !! i = Some a /\ p2 !! i = Some b /\ a <> b /\ r = if a <? b then -1 else 1).
Proof.
  revert p1 p2. induction n as [|n IH]; intros p1 p2 H1 H2; [eauto|].
  destruct p1 as [|a p1], p2 as [|b p2]; cbn in *; try lia.
  destruct (Z.ltb_spec a b); [|rewrite Z.gtb_ltb; destruct (Z.ltb_spec b a)].
  1,2: eexists; split; [done|]; right; exists 0%nat, a, b; cbn; split_and!; try (done || lia);
       destruct (Z.ltb_spec a b); (done || lia).
  assert (a = b) as -> by lia.
  destruct (IH p1 p2) as (r & -> & [[-> He]|(i & x & y & Hi & He & Hx & Hy & Hne & Hr)]); try lia.
  - eexists; split; [done|]. left. by rewrite He.
  - eexists; split; [done|]. right. exists (S i), x, y. cbn. rewrite He. split_and!; try done; lia.
Qed.

Lemma memcmp_spec_witness :
  (2 <= length [82; 83; 68])%nat /\
  exists r, memcmp [82; 83; 68] [82; 84; 68] 2 = Ok r /\
    (r = 0 /\ take 2 [82; 83; 68] = take 2 [82; 84; 68] \/
     exists i a b, (i < 2)%nat /\ take i [82; 83; 68] = take i [82; 84; 68] /\
       [82; 83; 68] !! i = Some a /\ [82; 84; 68] !! i = Some b /\ a <> b /\
       r = if a <? b then -1 else 1).
Proof. split; [cbn; lia|]. apply (memcmp_spec [82; 83; 68] [82; 84; 68] 2); cbn; lia. Defined.
