(* ===== verification/Bmem.v ===== *)
(** * Base memory allocation in stage 1 (src/stage1/bmem.c, bit vectors of src/stage1/stage1.h)

    [bmem] is the module's static state: the [num_blks] entries of [blk[]] in use, and the three
    counters.  [bmem_init] is parameterised by the UEFI boot services it calls; [bmem_alloc] and
    [bmem_alloc_boottime] are translated with their 32/64-bit arithmetic.  The theorems give the
    block invariant, what each allocator returns on every branch, that no two allocations of a
    run ever overlap, and that [bmem_init] terminates and describes exactly the pages it was
    granted. *)

From S2P Require Import Prelude.

(** ** UEFI constants (UEFI specification: EFI_PAGE_SIZE, memory attributes and types) *)

Definition EFI_PAGE_SIZE : Z := 4096.
#[export] Hint Unfold EFI_PAGE_SIZE : consts.

Inductive efi_memory_type :=
  | EfiLoaderCode | EfiLoaderData | EfiBootServicesCode | EfiBootServicesData
  | EfiRuntimeServicesCode | EfiRuntimeServicesData
  | EfiConventionalMemory | EfiACPIReclaimMemory | EfiACPIMemoryNVS | EfiPersistentMemory
  | EfiOtherMemoryType (code : Z).

#[export] Instance efi_memory_type_eq_dec : EqDecision efi_memory_type.
Proof. solve_decision. Defined.

(** An [EFI_MEMORY_DESCRIPTOR]; a memory map is the list of its entries, in order, which is what
    [FOR_EACH_MEM_DESC] steps through. *)
Record mem_desc := {
  Type_ : efi_memory_type;
  PhysicalStart : Z;
  NumberOfPages : Z;
  Attribute : Z;
}.

(** ** Bit vectors ([BVEC_TYPE], [bvec_test], [bvec_set], [bvec_clear]) *)

Definition bvec_new (num_ents : Z) : list Z := replicate (Z.to_nat ((num_ents + 32 - 1) / 32)) 0.

Definition bvec_test (bvec : list Z) (idx : Z) : result bool :=
  w ← checked (bvec !! Z.to_nat (idx / 32)); Ok (Z.testbit w (idx mod 32)).

Definition bvec_set (bvec : list Z) (idx : Z) : result (list Z) :=
  w ← checked (bvec !! Z.to_nat (idx / 32));
  Ok (<[Z.to_nat (idx / 32) := Z.lor w (Z.shiftl 1 (idx mod 32))]> bvec).

Definition bvec_clear (bvec : list Z) (idx : Z) : result (list Z) :=
  w ← checked (bvec !! Z.to_nat (idx / 32));
  Ok (<[Z.to_nat (idx / 32) := Z.ldiff w (Z.shiftl 1 (idx mod 32))]> bvec).

(** ** Real-mode segments ([addr_to_rm_seg]) *)

Definition addr_to_rm_seg (p : Z) : Z := u16 (p / PARA_SIZE).

(** ** State *)

Definition MAX_BMEM_BLKS : Z := BMEM_MAX_ADDR / EFI_PAGE_SIZE / 2.

Record blk_info := { start : Z; end_ : Z; orig_end : Z }.

Record bmem := {
  blk : list blk_info;
  boottime_bmem_bot : Z;
  runtime_bmem_top : Z;
  bmem_uefi_attr : Z;
}.

(** [EFI_MEMORY_UC | WC | WB | UCE | WP | RP | XP | RO | CPU_CRYPTO] *)
Definition bmem_uefi_attr_init : Z :=
  Z.lor (Z.lor (Z.lor (Z.lor (Z.lor (Z.lor (Z.lor (Z.lor
    0x1 0x2) 0x8) 0x10) 0x1000) 0x2000) 0x4000) (Z.shiftl 1 17)) (Z.shiftl 1 19).

Definition bmem_state0 : bmem :=
  {| blk := []; boottime_bmem_bot := EFI_PAGE_SIZE; runtime_bmem_top := 0;
     bmem_uefi_attr := bmem_uefi_attr_init |}.

Definition not_enough : string := "not enough base mem.!".
Definition cannot_alloc : string := "cannot alloc. from base mem.!".
Definition cannot_alloc_boottime : string := "cannot alloc. for boot time from base mem.!".

Definition bmem_check_enough (s : bmem) : result unit :=
  if (runtime_bmem_top s <? 192 * KIBYTE) ||
     (boottime_bmem_bot s >? u32 (runtime_bmem_top s - 128 * KIBYTE))
  then Fail (Error not_enough) else Ok ().

(** ** [bmem_alloc] *)

Fixpoint bmem_alloc_loop (s : bmem) (size align : Z) (blk_idx : nat) : result (Z * bmem) :=
  match blk_idx with
  | O => Fail (Error cannot_alloc)
  | S blk_idx =>
      b ← checked (blk s !! blk_idx);
      let bstart := start b in let bend := end_ b in
      if u32 (bend - bstart) <? size then bmem_alloc_loop s size align blk_idx
      else
        let astart := u32 (Z.land (u64 (bend - size)) (u32 (- u32 align))) in
        if astart <? bstart then bmem_alloc_loop s size align blk_idx
        else Ok (astart,
          {| blk := <[blk_idx := {| start := bstart; end_ := astart; orig_end := orig_end b |}]> (blk s);
             boottime_bmem_bot := boottime_bmem_bot s;
             runtime_bmem_top :=
               if runtime_bmem_top s >? astart then astart else runtime_bmem_top s;
             bmem_uefi_attr := bmem_uefi_attr s |})
  end.

Definition bmem_alloc (s : bmem) (size align : Z) : result (Z * bmem) :=
  bmem_alloc_loop s size align (length (blk s)).

(** ** [bmem_alloc_boottime] *)

(** [while (blk_idx < num_blks - 1) { blk[blk_idx] = blk[blk_idx + 1]; ++blk_idx; }]
    run for [n] steps. *)
Fixpoint shift_down (l : list blk_info) (blk_idx n : nat) : list blk_info :=
  match n with
  | O => l
  | S n =>
      match l !! S blk_idx with
      | Some b => shift_down (<[blk_idx := b]> l) (S blk_idx) n
      | None => l
      end
  end.

(** ... followed by [--num_blks]. *)
Definition remove_blk (l : list blk_info) (blk_idx : nat) : list blk_info :=
  take (pred (length l)) (shift_down l blk_idx (pred (length l) - blk_idx)).

Fixpoint bmem_alloc_boottime_loop (s : bmem) (size align : Z) (blk_idx n : nat) : result (Z * bmem) :=
  match n with
  | O => Fail (Error cannot_alloc_boottime)
  | S n =>
      b ← checked (blk s !! blk_idx);
      let bstart := start b in let bend := end_ b in
      if u32 (bend - bstart) <? size then bmem_alloc_boottime_loop s size align (S blk_idx) n
      else
        let astart := Z.land (u32 (bstart + u32 align - 1)) (u32 (- u32 align)) in
        if astart >? bend then bmem_alloc_boottime_loop s size align (S blk_idx) n
        else if u32 (bend - astart) <? size then
          bmem_alloc_boottime_loop s size align (S blk_idx) n
        else if astart >=? runtime_bmem_top s then Fail (Error cannot_alloc_boottime)
        else
          let aend := u32 (astart + size) in
          Ok (astart,
            {| blk :=
                 if aend =? bend then remove_blk (blk s) blk_idx
                 else <[blk_idx := {| start := aend; end_ := bend; orig_end := orig_end b |}]> (blk s);
               boottime_bmem_bot :=
                 if boottime_bmem_bot s <? aend then aend else boottime_bmem_bot s;
               runtime_bmem_top := runtime_bmem_top s;
               bmem_uefi_attr := bmem_uefi_attr s |})
  end.

Definition bmem_alloc_boottime (s : bmem) (size align : Z) : result (Z * bmem) :=
  bmem_alloc_boottime_loop s size align 0 (length (blk s)).

(** ** The invariant of the block table *)

Definition blk_ok (top : Z) (b : blk_info) : Prop :=
  EFI_PAGE_SIZE <= start b /\ start b <= end_ b /\ end_ b <= orig_end b /\
  orig_end b <= BMEM_MAX_ADDR /\ (end_ b <= top \/ top <= start b).

Record bmem_inv (s : bmem) : Prop := {
  inv_blk : forall i b, blk s !! i = Some b -> blk_ok (runtime_bmem_top s) b;
  inv_order : forall i j b c, (i < j)%nat ->
    blk s !! i = Some b -> blk s !! j = Some c -> orig_end b <= start c;
  inv_top : 0 <= runtime_bmem_top s <= BMEM_MAX_ADDR;
  inv_bot : EFI_PAGE_SIZE <= boottime_bmem_bot s <= BMEM_MAX_ADDR;
}.

(** Byte [x] is still available in some block. *)
Definition bmem_free (s : bmem) (x : Z) : Prop :=
  exists i b, blk s !! i = Some b /\ start b <= x < end_ b.

Lemma rm_seg_addr a : 0 <= a < BMEM_MAX_ADDR -> (PARA_SIZE | a) -> PARA_SIZE * addr_to_rm_seg a = a.
Proof.
  intros Ha [q ->]. unfold addr_to_rm_seg. change PARA_SIZE with 16 in *. change BMEM_MAX_ADDR with 0x100000 in Ha.
  rewrite Z.div_mul, wrap_small; lia.
Qed.

(** ** Lemmas on the two searches *)

Lemma shift_down_length l i n : length (shift_down l i n) = length l.
Proof.
  revert l i. induction n as [|n IH]; intros l i; cbn; [done|].
  destruct (l !! S i); [|done]. by rewrite IH, length_insert.
Qed.

Lemma shift_down_lookup l i n j :
  (i + n < length l)%nat ->
  shift_down l i n !! j =
    if decide (i <= j < i + n)%nat then l !! S j else l !! j.
Proof.
  revert l i. induction n as [|n IH]; intros l i Hn; cbn.
  { rewrite decide_False by lia. done. }
  destruct (l !! S i) as [b|] eqn:Hb; [|apply lookup_ge_None in Hb; lia].
  rewrite IH by (rewrite length_insert; lia).
  destruct (decide (j = i)) as [->|Hj].
  - rewrite list_lookup_insert_eq by lia. repeat case_decide; (done || lia).
  - repeat case_decide; rewrite ?list_lookup_insert_ne by lia; (done || lia).
Qed.

Lemma remove_blk_delete l i : (i < length l)%nat -> remove_blk l i = delete i l.
Proof.
  intros Hi. unfold remove_blk. apply list_eq. intros j.
  destruct (decide (j < pred (length l))%nat) as [Hj|Hj].
  - rewrite lookup_take_lt, shift_down_lookup by lia.
    destruct (decide (j < i)%nat).
    + rewrite decide_False, list_lookup_delete_lt by lia. done.
    + rewrite decide_True, list_lookup_delete_ge by lia. done.
  - rewrite lookup_take_ge by lia. symmetry. apply lookup_ge_None.
    rewrite length_delete; [lia|]. by apply lookup_lt_is_Some_2.
Qed.

(** Where [bmem_alloc] places [size] bytes in block [b], and when it can. *)
Definition top_place (b : blk_info) (size align : Z) : Z := align_down (end_ b - size) align.
Definition top_fits (b : blk_info) (size align : Z) : Prop :=
  size <= end_ b - start b /\ start b <= top_place b size align.

(** The same for [bmem_alloc_boottime]. *)
Definition bot_place (b : blk_info) (align : Z) : Z := align_up (start b) align.
Definition bot_fits (b : blk_info) (size align : Z) : Prop :=
  bot_place b align + size <= end_ b.

#[export] Instance top_fits_dec b size align : Decision (top_fits b size align).
Proof. unfold top_fits. apply _. Defined.
#[export] Instance bot_fits_dec b size align : Decision (bot_fits b size align).
Proof. unfold bot_fits. apply _. Defined.

(** The state after placing a run-time block at [a] in block number [i]. *)
Definition place_top (s : bmem) (i : nat) (b : blk_info) (a : Z) : bmem :=
  {| blk := <[i := {| start := start b; end_ := a; orig_end := orig_end b |}]> (blk s);
     boottime_bmem_bot := boottime_bmem_bot s;
     runtime_bmem_top := Z.min a (runtime_bmem_top s);
     bmem_uefi_attr := bmem_uefi_attr s |}.

Definition place_bot (s : bmem) (i : nat) (b : blk_info) (aend : Z) : bmem :=
  {| blk := if decide (aend = end_ b) then delete i (blk s)
            else <[i := {| start := aend; end_ := end_ b; orig_end := orig_end b |}]> (blk s);
     boottime_bmem_bot := Z.max (boottime_bmem_bot s) aend;
     runtime_bmem_top := runtime_bmem_top s;
     bmem_uefi_attr := bmem_uefi_attr s |}.

Definition valid_align (align : Z) : Prop := is_pow2 align /\ align <= 2 ^ 31.

Lemma valid_align_u32 align : valid_align align -> u32 align = align.
Proof. intros [Hp Hle]. apply is_pow2_pos in Hp. apply wrap_small. lia. Qed.

Lemma top_arith b top size align :
  blk_ok top b -> 0 <= size -> valid_align align ->
  u32 (end_ b - start b) = end_ b - start b /\
  (size <= end_ b - start b ->
   u32 (Z.land (u64 (end_ b - size)) (u32 (- u32 align))) = top_place b size align).
Proof.
  intros (H1 & H2 & H3 & H4 & _) Hs Ha. unfold top_place. unfold_consts.
  split; [apply wrap_small; lia|]. intros Hle.
  pose proof Ha as [Hp Hle2]. pose proof (is_pow2_pos _ Hp).
  rewrite (valid_align_u32 align) by done.
  rewrite (wrap_small 64) by lia.
  rewrite land_wrap_opp by (done || lia). apply wrap_small.
  pose proof (align_down_le (end_ b - size) align).
  pose proof (align_down_nonneg (end_ b - size) align). lia.
Qed.

Lemma bot_arith b top align :
  blk_ok top b -> valid_align align ->
  Z.land (u32 (start b + u32 align - 1)) (u32 (- u32 align)) = bot_place b align /\
  start b <= bot_place b align.
Proof.
  intros (H1 & H2 & H3 & H4 & _) Ha. unfold_consts.
  pose proof Ha as [Hp Hle2]. pose proof (is_pow2_pos _ Hp).
  rewrite (valid_align_u32 align) by done.
  rewrite (wrap_small 32 (start b + align - 1)) by lia.
  rewrite land_wrap_opp by (done || lia).
  split; [done|]. by apply align_up_ge.
Qed.

(** [bmem_alloc] takes the highest-numbered block that fits. *)
Lemma bmem_alloc_loop_spec s size align n :
  bmem_inv s -> 0 <= size -> valid_align align -> (n <= length (blk s))%nat ->
  (exists i b, (i < n)%nat /\ blk s !! i = Some b /\ top_fits b size align /\
     (forall j c, (i < j < n)%nat -> blk s !! j = Some c -> ~ top_fits c size align) /\
     bmem_alloc_loop s size align n = Ok (top_place b size align, place_top s i b (top_place b size align)))
  \/ ((forall j c, (j < n)%nat -> blk s !! j = Some c -> ~ top_fits c size align) /\
      bmem_alloc_loop s size align n = Fail (Error cannot_alloc)).
Proof.
  intros Hinv Hs Ha. induction n as [|n IH]; intros Hn; [right; split; [lia|done]|].
  destruct (lookup_lt_is_Some_2 (blk s) n ltac:(lia)) as [b Hb]. cbn. rewrite Hb. cbn.
  destruct (top_arith b _ size align (inv_blk _ Hinv _ _ Hb) Hs Ha) as [-> Hplace].
  destruct (Z.ltb_spec (end_ b - start b) size) as [Hlt|Hge].
  2: rewrite Hplace by lia; destruct (Z.ltb_spec (top_place b size align) (start b)) as [Hlt|Hge2].
  3: { left. exists n, b. split_and!; [lia|done|split; [lia|done]|intros; lia|].
       unfold place_top. rewrite Z.gtb_ltb.
       destruct (Z.ltb_spec (top_place b size align) (runtime_bmem_top s)); do 3 f_equal; lia. }
  all: assert (Hnf : ~ top_fits b size align) by (unfold top_fits; lia).
  all: destruct (IH ltac:(lia)) as [(i & c & Hi & Hc & Hf & Hhi & ->)|[Hno ->]];
    [left; exists i, c; split_and!; [lia|done|done| |done]|right; split; [|done]].
  all: intros j d Hj Hd; destruct (decide (j = n)) as [->|]; [congruence|];
    first [eapply Hhi; [|exact Hd]; lia | eapply Hno; [|exact Hd]; lia].
Qed.

(** [bmem_alloc_boottime] takes the lowest-numbered block that fits, and gives up when that
    block lies above the run-time top. *)
Lemma bmem_alloc_boottime_loop_spec s size align i n :
  bmem_inv s -> 0 <= size -> valid_align align -> (i + n = length (blk s))%nat ->
  (exists j b, (i <= j)%nat /\ blk s !! j = Some b /\ bot_fits b size align /\
     (forall k c, (i <= k < j)%nat -> blk s !! k = Some c -> ~ bot_fits c size align) /\
     bmem_alloc_boottime_loop s size align i n =
       if decide (bot_place b align < runtime_bmem_top s)
       then Ok (bot_place b align, place_bot s j b (bot_place b align + size))
       else Fail (Error cannot_alloc_boottime))
  \/ ((forall k c, (i <= k)%nat -> blk s !! k = Some c -> ~ bot_fits c size align) /\
      bmem_alloc_boottime_loop s size align i n = Fail (Error cannot_alloc_boottime)).
Proof.
  intros Hinv Hs Ha. revert i. induction n as [|n IH]; intros i Hn.
  { right. split; [|done]. intros k c Hk Hc. apply lookup_lt_Some in Hc. lia. }
  destruct (lookup_lt_is_Some_2 (blk s) i ltac:(lia)) as [b Hb]. cbn. rewrite Hb. cbn.
  pose proof (inv_blk _ Hinv _ _ Hb) as Hok.
  destruct (bot_arith b _ align Hok Ha) as [-> Hge].
  assert (Hnext : ~ bot_fits b size align -> forall r,
    bmem_alloc_boottime_loop s size align (S i) n = r ->
    (exists j c, (i <= j)%nat /\ blk s !! j = Some c /\ bot_fits c size align /\
       (forall k d, (i <= k < j)%nat -> blk s !! k = Some d -> ~ bot_fits d size align) /\
       r = if decide (bot_place c align < runtime_bmem_top s)
           then Ok (bot_place c align, place_bot s j c (bot_place c align + size))
           else Fail (Error cannot_alloc_boottime))
    \/ ((forall k c, (i <= k)%nat -> blk s !! k = Some c -> ~ bot_fits c size align) /\
        r = Fail (Error cannot_alloc_boottime))).
  { intros Hnf r <-.
    destruct (IH (S i) ltac:(lia)) as [(j & c & Hj & Hc & Hf & Hlo & ->)|[Hno ->]];
      [left; exists j, c; split_and!; [lia|done|done| |done]|right; split; [|done]].
    all: intros k d Hk Hd; destruct (decide (k = i)) as [->|];
      [by assert (d = b) as -> by congruence|];
      first [eapply Hlo; [|exact Hd]; lia | eapply Hno; [|exact Hd]; lia]. }
  destruct Hok as (H1 & H2 & H3 & H4 & _). unfold bot_fits in Hnext. unfold_consts.
  rewrite (wrap_small 32 (end_ b - start b)) by lia.
  destruct (Z.ltb_spec (end_ b - start b) size); [by apply Hnext; [lia|]|].
  rewrite Z.gtb_ltb. destruct (Z.ltb_spec (end_ b) (bot_place b align)); [by apply Hnext; [lia|]|].
  rewrite (wrap_small 32 (end_ b - bot_place b align)) by lia.
  destruct (Z.ltb_spec (end_ b - bot_place b align) size); [by apply Hnext; [lia|]|].
  left. exists i, b. split_and!; [lia|done|unfold bot_fits; lia|intros; lia|].
  rewrite Z.geb_leb. destruct (Z.leb_spec (runtime_bmem_top s) (bot_place b align)).
  { by rewrite decide_False by lia. }
  rewrite decide_True by lia. rewrite wrap_small by lia. unfold place_bot. do 3 f_equal.
  - assert (i < length (blk s))%nat by by eapply lookup_lt_Some.
    case_decide as Hd; [rewrite Hd, Z.eqb_refl, remove_blk_delete by done; done|].
    destruct (Z.eqb_spec (bot_place b align + size) (end_ b)); done.
  - destruct (Z.ltb_spec (boottime_bmem_bot s) (bot_place b align + size)); lia.
Qed.

Lemma bmem_alloc_Ok_inv s size align a s' :
  bmem_inv s -> 0 <= size -> valid_align align -> bmem_alloc s size align = Ok (a, s') ->
  exists i b, blk s !! i = Some b /\ top_fits b size align /\
    a = top_place b size align /\ s' = place_top s i b a.
Proof.
  intros Hi Hs Ha H. unfold bmem_alloc in H.
  destruct (bmem_alloc_loop_spec s size align (length (blk s)) Hi Hs Ha ltac:(done))
    as [(i & b & ? & ? & ? & ? & E)|[_ E]]; rewrite E in H; inv_result; eauto 10.
Qed.

Lemma bmem_alloc_boottime_Ok_inv s size align a s' :
  bmem_inv s -> 0 <= size -> valid_align align -> bmem_alloc_boottime s size align = Ok (a, s') ->
  exists i b, blk s !! i = Some b /\ bot_fits b size align /\ a < runtime_bmem_top s /\
    a = bot_place b align /\ s' = place_bot s i b (a + size).
Proof.
  intros Hi Hs Ha H. unfold bmem_alloc_boottime in H.
  destruct (bmem_alloc_boottime_loop_spec s size align 0 (length (blk s)) Hi Hs Ha ltac:(done))
    as [(i & b & ? & ? & ? & ? & E)|[_ E]]; rewrite E in H; [|done].
  case_decide; inv_result. eauto 10.
Qed.

(** ** Preservation of the invariant *)

Lemma lookup_insert_inv {A} (l : list A) i x j y :
  <[i:=x]> l !! j = Some y -> (j = i /\ y = x) \/ (j <> i /\ l !! j = Some y).
Proof.
  intros H. destruct (decide (j = i)) as [->|Hne].
  - assert (i < length l)%nat by (apply lookup_lt_Some in H; by rewrite length_insert in H).
    rewrite list_lookup_insert_eq in H by done. left. split; congruence.
  - right. by rewrite list_lookup_insert_ne in H.
Qed.

Lemma lookup_delete_inv {A} (l : list A) i j y :
  delete i l !! j = Some y ->
  exists k, l !! k = Some y /\ k = (if decide (j < i)%nat then j else S j).
Proof.
  intros H. case_decide.
  - rewrite list_lookup_delete_lt in H by done. eauto.
  - rewrite list_lookup_delete_ge in H by lia. eauto.
Qed.

(** The blocks after a boot-time allocation are blocks from before, none further to the front and
    none starting lower. *)
Lemma bmem_alloc_boottime_later s size align a s' k b' :
  bmem_inv s -> 0 <= size -> valid_align align -> bmem_alloc_boottime s size align = Ok (a, s') ->
  blk s' !! k = Some b' -> exists j b, (k <= j)%nat /\ blk s !! j = Some b /\ start b <= start b'.
Proof.
  intros Hi Hs Ha E Hk. destruct (bmem_alloc_boottime_Ok_inv s size align a s' Hi Hs Ha E) as (i & b & Hb & Hf & _ & -> & ->).
  destruct (bot_arith b _ align (inv_blk _ Hi _ _ Hb) Ha) as [_ Hle].
  unfold place_bot in Hk. cbn [blk] in Hk. case_decide.
  - apply lookup_delete_inv in Hk as (j & Hj & ->). eexists _, b'. split; [|split; [exact Hj|lia]]. case_decide; lia.
  - apply lookup_insert_inv in Hk as [[-> ->]|[_ Hk]]; [exists i, b; cbn; split_and!; [lia|done|lia]|].
    exists k, b'. split_and!; [lia|done|lia].
Qed.

Lemma place_top_inv s i b a :
  bmem_inv s -> blk s !! i = Some b -> start b <= a <= end_ b -> bmem_inv (place_top s i b a).
Proof.
  intros Hinv Hb Ha. pose proof (inv_blk _ Hinv _ _ Hb) as (B1 & B2 & B3 & B4 & B5).
  pose proof (inv_top _ Hinv). pose proof (inv_bot _ Hinv). unfold_consts.
  split; cbn; [| |zsolve|zsolve].
  - intros j c [[-> ->]|[Hne Hc]]%lookup_insert_inv; unfold blk_ok; unfold_consts; cbn; [lia|].
    pose proof (inv_blk _ Hinv _ _ Hc) as (C1 & C2 & C3 & C4 & C5). unfold_consts.
    destruct (decide (i < j)%nat) as [Hij|Hij].
    + pose proof (inv_order _ Hinv i j b c Hij Hb Hc). lia.
    + pose proof (inv_order _ Hinv j i c b ltac:(lia) Hc Hb). lia.
  - intros j k c d Hjk [[-> ->]|[Hj Hc]]%lookup_insert_inv [[-> ->]|[Hk Hd]]%lookup_insert_inv;
      cbn; [lia| | |]; eapply (inv_order _ Hinv); eauto.
Qed.

Lemma place_bot_inv s i b a :
  bmem_inv s -> blk s !! i = Some b -> start b <= a <= end_ b -> bmem_inv (place_bot s i b a).
Proof.
  intros Hinv Hb Ha. pose proof (inv_blk _ Hinv _ _ Hb) as (B1 & B2 & B3 & B4 & B5).
  pose proof (inv_top _ Hinv). pose proof (inv_bot _ Hinv). unfold_consts.
  split; cbn; [| |zsolve|zsolve].
  - intros j c. case_decide.
    + intros (k & Hk & _)%lookup_delete_inv. by eapply (inv_blk _ Hinv).
    + intros [[-> ->]|[Hne Hc]]%lookup_insert_inv; [|by eapply (inv_blk _ Hinv)].
      unfold blk_ok; unfold_consts; cbn. lia.
  - intros j k c d Hjk. case_decide.
    + intros (m & Hm & Em)%lookup_delete_inv (n & Hn & En)%lookup_delete_inv.
      eapply (inv_order _ Hinv m n); [repeat case_decide; lia|done|done].
    + intros [[-> ->]|[Hj Hc]]%lookup_insert_inv [[-> ->]|[Hk Hd]]%lookup_insert_inv;
        cbn; [lia|eapply (inv_order _ Hinv); eauto| |eapply (inv_order _ Hinv); eauto].
      pose proof (inv_order _ Hinv _ _ _ _ Hjk Hc Hb). lia.
Qed.

(** Blocks do not share bytes. *)
Lemma blk_unique s i j b c x :
  bmem_inv s -> blk s !! i = Some b -> blk s !! j = Some c ->
  start b <= x < end_ b -> start c <= x < end_ c -> i = j.
Proof.
  intros Hinv Hb Hc Hx Hy.
  pose proof (inv_blk _ Hinv _ _ Hb) as (_ & _ & B3 & _).
  pose proof (inv_blk _ Hinv _ _ Hc) as (_ & _ & C3 & _).
  destruct (Nat.lt_trichotomy i j) as [H|[H|H]]; [|done|].
  - pose proof (inv_order _ Hinv _ _ _ _ H Hb Hc). lia.
  - pose proof (inv_order _ Hinv _ _ _ _ H Hc Hb). lia.
Qed.

Lemma place_top_free s i b a x :
  bmem_inv s -> blk s !! i = Some b -> start b <= a <= end_ b ->
  bmem_free (place_top s i b a) x <-> bmem_free s x /\ ~ a <= x < end_ b.
Proof.
  intros Hinv Hb Ha. split.
  - intros (j & c & Hc & Hx). apply lookup_insert_inv in Hc as [[-> ->]|[Hne Hc]]; cbn in Hx.
    + split; [exists i, b; split; [done|lia]|lia].
    + split; [by exists j, c|]. intros Hx2. apply Hne.
      eapply (blk_unique s j i c b x); eauto. lia.
  - intros ((j & c & Hc & Hx) & Hn). exists j. cbn.
    destruct (decide (j = i)) as [->|Hne].
    + assert (c = b) as -> by congruence.
      eexists. rewrite list_lookup_insert_eq by by eapply lookup_lt_Some. split; [done|]. cbn. lia.
    + exists c. by rewrite list_lookup_insert_ne.
Qed.

Lemma place_bot_free s i b a x :
  bmem_inv s -> blk s !! i = Some b -> start b <= a <= end_ b ->
  bmem_free (place_bot s i b a) x <-> bmem_free s x /\ ~ start b <= x < a.
Proof.
  intros Hinv Hb Ha. split.
  - intros (j & c & Hc & Hx). cbn in Hc. case_decide as Hae.
    + apply lookup_delete_inv in Hc as (k & Hk & Ek).
      split; [by exists k, c|]. intros Hx2.
      assert (k = i) by (eapply (blk_unique s k i c b x); eauto; lia).
      subst k. case_decide; lia.
    + apply lookup_insert_inv in Hc as [[-> ->]|[Hne Hc]]; cbn in Hx.
      * split; [exists i, b; split; [done|lia]|lia].
      * split; [by exists j, c|]. intros Hx2. apply Hne.
        eapply (blk_unique s j i c b x); eauto. lia.
  - intros ((j & c & Hc & Hx) & Hn). unfold bmem_free, place_bot. cbn. case_decide as Hae.
    + assert (j <> i) by (intros ->; assert (c = b) as -> by congruence; lia).
      destruct (decide (j < i)%nat).
      * exists j, c. by rewrite list_lookup_delete_lt.
      * exists (pred j), c. rewrite list_lookup_delete_ge by lia. by replace (S (pred j)) with j by lia.
    + exists j. destruct (decide (j = i)) as [->|Hne].
      * assert (c = b) as -> by congruence.
        eexists. rewrite list_lookup_insert_eq by by eapply lookup_lt_Some. split; [done|]. cbn. lia.
      * exists c. by rewrite list_lookup_insert_ne.
Qed.

Lemma top_fits_place s i b size align :
  bmem_inv s -> 0 <= size -> valid_align align -> blk s !! i = Some b -> top_fits b size align ->
  start b <= top_place b size align /\ top_place b size align + size <= end_ b.
Proof.
  intros Hinv Hs [Hp _] Hb [Hf1 Hf2]. split; [done|].
  unfold top_place. pose proof (align_down_le (end_ b - size) align (is_pow2_pos _ Hp)). lia.
Qed.

Lemma bot_fits_place s i b size align :
  bmem_inv s -> 0 <= size -> valid_align align -> blk s !! i = Some b -> bot_fits b size align ->
  start b <= bot_place b align /\ bot_place b align + size <= end_ b.
Proof.
  intros Hinv Hs [Hp _] Hb Hf. split; [|done]. apply align_up_ge. by apply is_pow2_pos.
Qed.

(** Whatever the state, the search ends, and the table does not grow. *)
Lemma bmem_alloc_boottime_ends s size align : ends (bmem_alloc_boottime s size align).
Proof.
  unfold bmem_alloc_boottime. generalize 0%nat (length (blk s)). intros i n. revert i.
  induction n as [|n IH]; intros i; cbn [bmem_alloc_boottime_loop]; [apply ends_Error|].
  apply ends_bind; [apply ends_checked|]. intros b _. cbv zeta. repeat case_match; (apply IH || done).
Qed.

Lemma remove_blk_length l i : (length (remove_blk l i) <= length l)%nat.
Proof. unfold remove_blk. rewrite length_take. lia. Qed.

Lemma bmem_alloc_boottime_shrinks s size align a s' :
  bmem_alloc_boottime s size align = Ok (a, s') -> (length (blk s') <= length (blk s))%nat.
Proof.
  unfold bmem_alloc_boottime. generalize (length (blk s)) at 1. generalize 0%nat. intros i n. revert i.
  induction n as [|n IH]; intros i H; cbn [bmem_alloc_boottime_loop] in H; [done|].
  apply bind_Ok in H as (b & _ & H). cbv zeta in H. repeat case_match; try done; try by eapply IH.
  all: injection H as _ <-; cbn; try apply remove_blk_length; by rewrite length_insert.
Qed.

(** ** What the two allocators promise *)

(** [bmem_alloc] on every branch. *)
Lemma bmem_alloc_spec (s : bmem) (size align : Z) :
  bmem_inv s -> 0 <= size -> valid_align align ->
  match bmem_alloc s size align with
  | Ok (a, s') =>
      bmem_inv s' /\ (align | a) /\ EFI_PAGE_SIZE <= a /\ a + size <= BMEM_MAX_ADDR /\
      (forall x, in_range a size x -> bmem_free s x /\ ~ bmem_free s' x) /\
      (forall x, bmem_free s' x -> bmem_free s x) /\
      runtime_bmem_top s' = Z.min a (runtime_bmem_top s) /\
      boottime_bmem_bot s' = boottime_bmem_bot s
  | Fail f =>
      f = Error cannot_alloc /\
      (forall i b, blk s !! i = Some b -> ~ top_fits b size align)
  end.
Proof.
  intros Hi Hs Ha. unfold bmem_alloc.
  destruct (bmem_alloc_loop_spec s size align (length (blk s)) Hi Hs Ha ltac:(done))
    as [(i & b & _ & Hb & Hf & _ & ->)|[Hno ->]].
  2: { split; [done|]. intros j c Hc. eapply Hno; [|done]. by eapply lookup_lt_Some. }
  destruct (top_fits_place s i b size align Hi Hs Ha Hb Hf) as [P1 P2].
  pose proof (inv_blk _ Hi _ _ Hb) as (B1 & B2 & B3 & B4 & _).
  pose proof (place_top_free s i b (top_place b size align)) as Hfree.
  split_and!; cbn; try done; try lia.
  - apply place_top_inv; (done || lia).
  - apply align_down_divide.
  - intros x Hx. unfold in_range in Hx. split; [by exists i, b; split; [|lia]|].
    rewrite Hfree by (done || lia). intros [_ Hn]. lia.
  - intros x. rewrite Hfree by (done || lia). by intros [? _].
Qed.

(** [bmem_alloc_boottime] on every branch. *)
Lemma bmem_alloc_boottime_spec (s : bmem) (size align : Z) :
  bmem_inv s -> 0 <= size -> valid_align align ->
  match bmem_alloc_boottime s size align with
  | Ok (a, s') =>
      bmem_inv s' /\ (align | a) /\ EFI_PAGE_SIZE <= a /\ a + size <= runtime_bmem_top s /\
      (forall x, in_range a size x -> bmem_free s x /\ ~ bmem_free s' x) /\
      (forall x, bmem_free s' x -> bmem_free s x) /\
      runtime_bmem_top s' = runtime_bmem_top s /\
      boottime_bmem_bot s' = Z.max (a + size) (boottime_bmem_bot s)
  | Fail f =>
      f = Error cannot_alloc_boottime /\
      (forall i b, blk s !! i = Some b -> bot_fits b size align ->
         exists j c, (j <= i)%nat /\ blk s !! j = Some c /\ bot_fits c size align /\
           runtime_bmem_top s <= bot_place c align)
  end.
Proof.
  intros Hi Hs Ha. unfold bmem_alloc_boottime.
  destruct (bmem_alloc_boottime_loop_spec s size align 0 (length (blk s)) Hi Hs Ha ltac:(done))
    as [(i & b & _ & Hb & Hf & Hlo & ->)|[Hno ->]].
  2: { split; [done|]. intros j c Hc Hf. exfalso. eapply Hno; [|done|done]. lia. }
  destruct (decide _) as [Hlt|Hge].
  2: { split; [done|]. intros j c Hc Hcf. exists i, b. split_and!; try (done || lia).
       destruct (decide (j < i)%nat); [|lia]. exfalso. eapply Hlo; [|done|done]. lia. }
  destruct (bot_fits_place s i b size align Hi Hs Ha Hb Hf) as [P1 P2].
  pose proof (inv_blk _ Hi _ _ Hb) as (B1 & B2 & B3 & B4 & B5).
  pose proof (place_bot_free s i b (bot_place b align + size)) as Hfree.
  split_and!; cbn; try done; try lia.
  - apply place_bot_inv; (done || lia).
  - apply align_down_divide.
  - intros x Hx. unfold in_range in Hx. split; [by exists i, b; split; [|lia]|].
    rewrite Hfree by (done || lia). intros [_ Hn]. lia.
  - intros x. rewrite Hfree by (done || lia). by intros [? _].
Qed.

(** C9: [bmem_alloc], on every branch.  A block that is returned is aligned, lies in memory that
    was available and no longer is, and pushes the run-time top down to at most its start; it is
    the highest place in the highest block that fits; the invariant is kept and no other byte
    becomes available.  The only failure is the documented error, and it occurs only when no
    block can hold the request. *)
Theorem bmem_alloc_correct (s : bmem) (size align : Z) :
  bmem_inv s -> 0 <= size -> valid_align align ->
  match bmem_alloc s size align with
  | Ok (a, s') =>
      bmem_inv s' /\ (align | a) /\ EFI_PAGE_SIZE <= a /\ a + size <= BMEM_MAX_ADDR /\
      (forall x, in_range a size x -> bmem_free s x /\ ~ bmem_free s' x) /\
      (forall x, bmem_free s' x -> bmem_free s x) /\
      runtime_bmem_top s' = Z.min a (runtime_bmem_top s) /\
      boottime_bmem_bot s' = boottime_bmem_bot s /\
      exists i b, blk s !! i = Some b /\ a = top_place b size align /\
        forall j c, (i < j)%nat -> blk s !! j = Some c -> ~ top_fits c size align
  | Fail f =>
      f = Error cannot_alloc /\
      (forall i b, blk s !! i = Some b -> ~ top_fits b size align)
  end.
Proof.
  intros Hi Hs Ha. pose proof (bmem_alloc_spec s size align Hi Hs Ha) as Hspec.
  destruct (bmem_alloc s size align) as [[a s']|f] eqn:E; [|done].
  split_and!; try apply Hspec. unfold bmem_alloc in E.
  destruct (bmem_alloc_loop_spec s size align (length (blk s)) Hi Hs Ha ltac:(done))
    as [(i & b & _ & Hb & Hf & Hhi & E2)|[_ E2]]; rewrite E2 in E; inv_result.
  exists i, b. split_and!; try done. intros j c Hj Hc.
  eapply Hhi; [|done]. split; [done|]. by eapply lookup_lt_Some.
Qed.

(** [bmem_alloc_boottime], on every branch.  The block is aligned, was available and no longer
    is, ends at or below the run-time top and raises the boot-time bottom to at least its end; it
    is the lowest place in the lowest block that fits.  The call fails only when no block fits,
    or when the lowest one that does would start its block at or above the run-time top. *)
Theorem bmem_alloc_boottime_correct (s : bmem) (size align : Z) :
  bmem_inv s -> 0 <= size -> valid_align align ->
  match bmem_alloc_boottime s size align with
  | Ok (a, s') =>
      bmem_inv s' /\ (align | a) /\ EFI_PAGE_SIZE <= a /\ a + size <= runtime_bmem_top s /\
      (forall x, in_range a size x -> bmem_free s x /\ ~ bmem_free s' x) /\
      (forall x, bmem_free s' x -> bmem_free s x) /\
      runtime_bmem_top s' = runtime_bmem_top s /\
      boottime_bmem_bot s' = Z.max (a + size) (boottime_bmem_bot s) /\
      exists i b, blk s !! i = Some b /\ a = bot_place b align /\
        forall j c, (j < i)%nat -> blk s !! j = Some c -> ~ bot_fits c size align
  | Fail f =>
      f = Error cannot_alloc_boottime /\
      (forall i b, blk s !! i = Some b -> bot_fits b size align ->
         exists j c, (j <= i)%nat /\ blk s !! j = Some c /\ bot_fits c size align /\
           runtime_bmem_top s <= bot_place c align)
  end.
Proof.
  intros Hi Hs Ha. pose proof (bmem_alloc_boottime_spec s size align Hi Hs Ha) as Hspec.
  destruct (bmem_alloc_boottime s size align) as [[a s']|f] eqn:E; [|done].
  split_and!; try apply Hspec. unfold bmem_alloc_boottime in E.
  destruct (bmem_alloc_boottime_loop_spec s size align 0 (length (blk s)) Hi Hs Ha ltac:(done))
    as [(i & b & _ & Hb & Hf & Hlo & E2)|[_ E2]]; rewrite E2 in E; [|done].
  case_decide; inv_result. exists i, b. split_and!; try done. intros j c Hj Hc.
  eapply Hlo; [|done]. lia.
Qed.

(** The boot-time allocator as an instance of the shared interface. *)
#[export] Instance bmem_allocator : Allocator bmem := {|
  alc_alloc := bmem_alloc_boottime;
  alc_inv := bmem_inv;
  alc_free := bmem_free;
  alc_base := EFI_PAGE_SIZE;
  alc_limit := BMEM_MAX_ADDR;
|}.

Lemma valid_align_page al : is_pow2 al -> al <= 4096 -> valid_align al.
Proof. intros. split; [done|lia]. Qed.

#[export] Instance bmem_allocator_laws : AllocatorLaws bmem.
Proof.
  split; cbn; [done|..].
  1, 2: intros s sz al a s' Hi Hsz Hp Hle E.
  3: intros s sz al a s' x Hi Hsz Hp Hle E.
  all: pose proof (inv_top _ Hi) as Ht.
  all: pose proof (bmem_alloc_boottime_spec s sz al Hi ltac:(lia) (valid_align_page al Hp Hle)) as H.
  all: rewrite E in H; destruct H as (? & ? & ? & ? & ? & ? & _); try by eauto.
  split_and!; try done; zsolve.
Qed.

#[export] Instance bmem_nonnull : NonNull bmem.
Proof. done. Qed.

(** ** Runs of allocations *)

Inductive bmem_req :=
  | RuntimeReq (size align : Z)
  | BoottimeReq (size align : Z).

Definition req_size (r : bmem_req) : Z :=
  match r with RuntimeReq size _ | BoottimeReq size _ => size end.
Definition req_align (r : bmem_req) : Z :=
  match r with RuntimeReq _ align | BoottimeReq _ align => align end.
Definition req_ok (r : bmem_req) : Prop := 0 < req_size r /\ valid_align (req_align r).

Definition bmem_step (s : bmem) (r : bmem_req) : result (Z * bmem) :=
  match r with
  | RuntimeReq size align => bmem_alloc s size align
  | BoottimeReq size align => bmem_alloc_boottime s size align
  end.

(** The calls stage 1 makes, in order, with the address each one returned. *)
Fixpoint bmem_run (s : bmem) (reqs : list bmem_req) : result (list (bmem_req * Z) * bmem) :=
  match reqs with
  | [] => Ok ([], s)
  | r :: reqs =>
      '(a, s) ← bmem_step s r;
      '(l, s) ← bmem_run s reqs;
      Ok ((r, a) :: l, s)
  end.

Lemma bmem_step_facts s r a s' :
  bmem_inv s -> req_ok r -> bmem_step s r = Ok (a, s') ->
  bmem_inv s' /\
  (forall x, in_range a (req_size r) x -> bmem_free s x /\ ~ bmem_free s' x) /\
  (forall x, bmem_free s' x -> bmem_free s x) /\
  runtime_bmem_top s' <= runtime_bmem_top s /\ boottime_bmem_bot s <= boottime_bmem_bot s' /\
  match r with
  | RuntimeReq _ _ => runtime_bmem_top s' <= a
  | BoottimeReq size _ => EFI_PAGE_SIZE <= a /\ a + size <= boottime_bmem_bot s'
  end.
Proof.
  intros Hi [Hs Ha] H. destruct r as [size align|size align]; cbn in *.
  - pose proof (bmem_alloc_spec s size align Hi ltac:(lia) Ha) as P.
    rewrite H in P. destruct P as (? & ? & ? & ? & ? & ? & ? & ?). split_and!; (done || lia).
  - pose proof (bmem_alloc_boottime_spec s size align Hi ltac:(lia) Ha) as P.
    rewrite H in P. destruct P as (? & ? & ? & ? & ? & ? & ? & ?). split_and!; (done || lia).
Qed.

Lemma bmem_run_facts reqs s l s' :
  bmem_inv s -> Forall req_ok reqs -> bmem_run s reqs = Ok (l, s') ->
  bmem_inv s' /\ runtime_bmem_top s' <= runtime_bmem_top s /\
  boottime_bmem_bot s <= boottime_bmem_bot s' /\
  (forall r a x, (r, a) ∈ l -> in_range a (req_size r) x -> bmem_free s x /\ ~ bmem_free s' x) /\
  (forall x, bmem_free s' x -> bmem_free s x).
Proof.
  revert s l. induction reqs as [|r reqs IH]; intros s l Hi Hok H; cbn in H; inv_result.
  { split_and!; try (done || lia). intros r a x Hin. by apply not_elem_of_nil in Hin. }
  apply Forall_cons in Hok as [Hr Hok].
  destruct (bmem_step_facts _ _ _ _ Hi Hr Hm) as (Hi1 & Hblk & Hsub & Ht & Hb & _).
  destruct (IH _ _ Hi1 Hok Hm0) as (Hi2 & Ht2 & Hb2 & Hblk2 & Hsub2).
  split_and!; try (done || lia); [|by eauto].
  intros r' a x [[= -> ->]|Hin]%elem_of_cons Hx.
  - destruct (Hblk x Hx) as [? Hnf]. split; [done|]. intros Hf. by apply Hnf, Hsub2.
  - destruct (Hblk2 _ _ _ Hin Hx). eauto.
Qed.

Lemma bmem_run_req_ok reqs s l s' r a :
  Forall req_ok reqs -> bmem_run s reqs = Ok (l, s') -> (r, a) ∈ l -> req_ok r.
Proof.
  revert s l. induction reqs as [|q reqs IH]; intros s l Hok H; cbn in H; inv_result.
  { by intros ?%not_elem_of_nil. }
  apply Forall_cons in Hok as [Hq Hok].
  intros [[= -> ->]|Hin]%elem_of_cons; [done|]. by eapply IH.
Qed.

(** C8: over any sequence of run-time and boot-time allocations, no two blocks overlap; every
    run-time block ends up at or above the final run-time top (so it is outside the base memory
    reported as free) and every boot-time block below the final boot-time bottom (so stage 2
    releases it by raising that mark). *)
Theorem bmem_run_disjoint (s s' : bmem) (reqs : list bmem_req) (l : list (bmem_req * Z)) :
  bmem_inv s -> Forall req_ok reqs -> bmem_run s reqs = Ok (l, s') ->
  (forall i j ri ai rj aj, (i < j)%nat -> l !! i = Some (ri, ai) -> l !! j = Some (rj, aj) ->
     disjoint_ranges ai (req_size ri) aj (req_size rj)) /\
  (forall size align a, (RuntimeReq size align, a) ∈ l -> runtime_bmem_top s' <= a) /\
  (forall size align a, (BoottimeReq size align, a) ∈ l ->
     EFI_PAGE_SIZE <= a /\ a + size <= boottime_bmem_bot s').
Proof.
  revert s l. induction reqs as [|r reqs IH]; intros s l Hi Hok H; cbn in H; inv_result.
  { split_and!; try done; intros ? ? ? Hin; by apply not_elem_of_nil in Hin. }
  apply Forall_cons in Hok as [Hr Hok].
  destruct (bmem_step_facts _ _ _ _ Hi Hr Hm) as (Hi1 & Hblk & Hsub & Ht & Hb & Hpos).
  destruct (bmem_run_facts _ _ _ _ Hi1 Hok Hm0) as (Hi2 & Ht2 & Hb2 & Hblk2 & Hsub2).
  destruct (IH _ _ Hi1 Hok Hm0) as (Hdis & Hrun & Hboot).
  split_and!.
  - intros [|i] [|j] ri ai rj aj Hij Hli Hlj; try lia; cbn in *; [|eapply Hdis; [|done..]; lia].
    injection Hli as -> ->. apply list_elem_of_lookup_2 in Hlj.
    pose proof (bmem_run_req_ok _ _ _ _ _ _ Hok Hm0 Hlj) as [Hsj _]. destruct Hr as [Hsi _].
    apply disjoint_ranges_spec; [done..|]. intros x Hx Hy.
    destruct (Hblk x Hx) as [_ Hn]. apply Hn. by eapply Hblk2.
  - intros size align a [[= <- <-]|Hin]%elem_of_cons; [cbn in Hpos; lia|eauto].
  - intros size align a [[= <- <-]|Hin]%elem_of_cons; [cbn in *; lia|eauto].
Qed.

(** ** Witnesses: a table with two blocks below the run-time top and one above it *)

Definition demo_bmem : bmem :=
  {| blk := [ {| start := 0x1000; end_ := 0x60000; orig_end := 0x60000 |};
              {| start := 0x70000; end_ := 0xa0000; orig_end := 0xa0000 |};
              {| start := 0xc0000; end_ := 0xc8000; orig_end := 0xc8000 |} ];
     boottime_bmem_bot := 0x1000; runtime_bmem_top := 0xa0000; bmem_uefi_attr := 0xf |}.

Lemma demo_bmem_inv : bmem_inv demo_bmem.
Proof.
  split; [| |vm_compute; split; discriminate|vm_compute; split; discriminate].
  - intros [|[|[|i]]] b; cbn; intros [= <-]; unfold blk_ok; unfold_consts; cbn; lia.
  - intros [|[|[|i]]] [|[|[|j]]] b c Hij; cbn; intros [= <-] [= <-]; cbn; lia.
Qed.

Lemma align16_ok : valid_align 16.
Proof. split; [by exists 4|lia]. Qed.

Lemma bmem_alloc_correct_witness :
  match bmem_alloc demo_bmem 0x9000 16 with
  | Ok (a, s') => a = 0x97000 /\ runtime_bmem_top s' = Z.min a 0xa0000
  | Fail _ => False
  end.
Proof.
  pose proof (bmem_alloc_correct demo_bmem 0x9000 16 demo_bmem_inv ltac:(lia) align16_ok) as H.
  destruct (bmem_alloc demo_bmem 0x9000 16) as [[a s']|f] eqn:E; [|vm_compute in E; discriminate E].
  split; [vm_compute in E; by injection E as <- _|].
  destruct H as (_ & _ & _ & _ & _ & _ & Htop & _). exact Htop.
Defined.

Lemma bmem_alloc_boottime_correct_witness :
  match bmem_alloc_boottime demo_bmem 0x20 8 with
  | Ok (a, s') => a = 0x1000 /\ boottime_bmem_bot s' = Z.max (a + 0x20) 0x1000
  | Fail _ => False
  end.
Proof.
  pose proof (bmem_alloc_boottime_correct demo_bmem 0x20 8 demo_bmem_inv ltac:(lia)
                (valid_align_page 8 ltac:(by exists 3) ltac:(lia))) as H.
  destruct (bmem_alloc_boottime demo_bmem 0x20 8) as [[a s']|f] eqn:E; [|vm_compute in E; discriminate E].
  split; [vm_compute in E; by injection E as <- _|].
  destruct H as (_ & _ & _ & _ & _ & _ & _ & Hbot & _). exact Hbot.
Defined.

Lemma bmem_run_disjoint_witness :
  exists l s', bmem_run demo_bmem [BoottimeReq 0x28 16; RuntimeReq 0x9000 16] = Ok (l, s') /\
    forall size align a, (RuntimeReq size align, a) ∈ l -> runtime_bmem_top s' <= a.
Proof.
  eexists _, _. split; [vm_compute; reflexivity|].
  eapply (bmem_run_disjoint demo_bmem _ [BoottimeReq 0x28 16; RuntimeReq 0x9000 16]);
    [apply demo_bmem_inv| |vm_compute; reflexivity].
  repeat constructor; try (cbn; lia); apply align16_ok.
Defined.
