(* ===== verification/BmemInit.v ===== *)
(** * Setting up base memory: [bmem_init] (src/stage1/bmem.c, [get_mem_map] of src/stage1/util.c)

    The UEFI boot services are a parameter: [AllocatePages] with [AllocateMaxAddress], and the
    memory map.  What the code relies on is the class [BootServicesLaws]; a small concrete
    firmware at the end of the file satisfies it.  The theorems: the page-grabbing loop
    terminates, whatever the firmware grants; [bmem_init] never leaves its arrays; and what it
    sets up is exactly the set of pages that were free. *)

From S2P Require Import Prelude Bmem.

(** ** The boot services used *)

Class BootServices (fw : Type) := {
  (** [AllocatePages max_addr pages]: the address granted, if any. *)
  AllocatePages : fw -> Z -> Z -> option (Z * fw);
  LibMemoryMap : fw -> list mem_desc;
}.

(** UEFI specification, EFI_BOOT_SERVICES.AllocatePages: a granted range is page-aligned, ends
    at or below the maximum, was free and is no longer; one page is granted whenever a free
    page lies below the maximum. *)
Class BootServicesLaws (fw : Type) `{BootServices fw} := {
  page_free : fw -> Z -> bool;
  AllocatePages_grant : forall w max n a w', 0 < n -> AllocatePages w max n = Some (a, w') ->
    exists p, a = p * EFI_PAGE_SIZE /\ 0 <= p /\ (p + n) * EFI_PAGE_SIZE - 1 <= max /\
      (forall q, p <= q < p + n -> page_free w q = true) /\
      (forall q, page_free w' q = page_free w q && negb ((p <=? q) && (q <? p + n)));
  AllocatePages_one : forall w max q, page_free w q = true -> 0 <= q ->
    (q + 1) * EFI_PAGE_SIZE - 1 <= max -> AllocatePages w max 1 <> None;
}.

Section bmem_init.
Context {fw : Type} `{BootServices fw}.

(** [while (page_count-- != 0) { bvec_set(&avail, idx); ++idx; }], and the same loop over
    [idx < end_idx] further down. *)
Fixpoint set_run (avail : list Z) (idx : Z) (n : nat) : result (list Z) :=
  match n with
  | O => Ok avail
  | S n => avail ← bvec_set avail idx; set_run avail (idx + 1) n
  end.

(** The [do { for (;;) ... } while (page_count)] loop.  After a grant the inner [while] has run
    [page_count] down past zero, so the next request is for [(UINTN)-1] pages. *)
Fixpoint grab_pages (fuel : nat) (w : fw) (avail : list Z) (page_count : Z)
    : result (list Z * fw) :=
  match fuel with
  | O => Fail Diverges
  | S fuel =>
      match AllocatePages w BMEM_MAX_ADDR page_count with
      | Some (start, w) =>
          avail ← set_run avail (u32 (start / EFI_PAGE_SIZE)) (Z.to_nat page_count);
          grab_pages fuel w avail (u64 (-1))
      | None =>
          let page_count := page_count / 2 in
          if page_count =? 0 then Ok (avail, w) else grab_pages fuel w avail page_count
      end
  end.

(** 256 pages, each at most one grant and 64 refusals, after the first 8 halvings. *)
Definition grab_fuel : nat := Z.to_nat 16648.

(** [blk[num_blks].start = start; ...; ++num_blks;] *)
Definition push_blk (l : list blk_info) (start end_ : Z) : result (list blk_info) :=
  if Z.of_nat (length l) <? MAX_BMEM_BLKS
  then Ok (l ++ [{| Bmem.start := u32 start; Bmem.end_ := u32 end_; orig_end := u32 end_ |}])
  else Fail OutOfBounds.

(** The grouping loop; [start == BMEM_MAX_ADDR] means that no run is open. *)
Fixpoint group_loop (avail : list Z) (l : list blk_info) (start idx : Z) (n : nat)
    : result (list blk_info * Z * Z) :=
  match n with
  | O => Ok (l, start, idx)
  | S n =>
      t ← bvec_test avail idx;
      if t : bool then
        let start := if start =? BMEM_MAX_ADDR then u32 (idx * EFI_PAGE_SIZE) else start in
        group_loop avail l start (idx + 1) n
      else if negb (start =? BMEM_MAX_ADDR) then
        l ← push_blk l start (u32 (idx * EFI_PAGE_SIZE));
        group_loop avail l BMEM_MAX_ADDR (idx + 1) n
      else group_loop avail l start (idx + 1) n
  end.

Definition group_blocks (avail : list Z) : result (list blk_info) :=
  '(l, start, idx) ←
    group_loop avail [] BMEM_MAX_ADDR 1 (Z.to_nat (BMEM_MAX_ADDR / EFI_PAGE_SIZE - 1));
  if negb (start =? BMEM_MAX_ADDR) then push_blk l start (u32 (idx * EFI_PAGE_SIZE)) else Ok l.

(** [get_mem_map] of util.c. *)
Definition get_mem_map (w : fw) : result (list mem_desc) :=
  match LibMemoryMap w with
  | [] => Fail (Error "cannot get mem. map!")
  | descs => Ok descs
  end.

(** Memory that is free once boot services have exited. *)
Definition freed_on_exit (t : efi_memory_type) : bool :=
  match t with
  | EfiLoaderCode | EfiLoaderData | EfiBootServicesCode | EfiBootServicesData
  | EfiConventionalMemory => true
  | _ => false
  end.

(** The [FOR_EACH_MEM_DESC] loop. *)
Fixpoint mark_descs (avail : list Z) (attr : Z) (descs : list mem_desc) : result (list Z * Z) :=
  match descs with
  | [] => Ok (avail, attr)
  | desc :: descs =>
      if freed_on_exit (Type_ desc) then
        let start := PhysicalStart desc in
        if start >=? BMEM_MAX_ADDR then mark_descs avail attr descs
        else
          let idx := u32 (start / EFI_PAGE_SIZE) in
          let end_idx := u32 (idx + NumberOfPages desc) in
          let end_idx :=
            if end_idx >? BMEM_MAX_ADDR / EFI_PAGE_SIZE
            then BMEM_MAX_ADDR / EFI_PAGE_SIZE else end_idx in
          avail ← set_run avail idx (Z.to_nat (end_idx - idx));
          mark_descs avail (Z.land attr (Attribute desc)) descs
      else mark_descs avail attr descs
  end.

(** [while (idx < BMEM_MAX_ADDR / EFI_PAGE_SIZE && bvec_test(&avail, idx)) ++idx;] *)
Fixpoint count_prefix (avail : list Z) (idx : Z) (n : nat) : result Z :=
  match n with
  | O => Ok idx
  | S n => t ← bvec_test avail idx; if t : bool then count_prefix avail (idx + 1) n else Ok idx
  end.

Definition bmem_init (w : fw) : result (bmem * fw) :=
  let pages := BMEM_MAX_ADDR / EFI_PAGE_SIZE in
  '(avail, w) ← grab_pages grab_fuel w (bvec_new pages) (pages / 2);
  l ← group_blocks avail;
  descs ← get_mem_map w;
  '(avail, attr) ← mark_descs avail bmem_uefi_attr_init descs;
  idx ← count_prefix avail 0 (Z.to_nat pages);
  if idx <? 192 * KIBYTE / EFI_PAGE_SIZE then Fail (Error not_enough)
  else
    let s := {| blk := l; boottime_bmem_bot := EFI_PAGE_SIZE;
                runtime_bmem_top := u32 (idx * EFI_PAGE_SIZE); bmem_uefi_attr := attr |} in
    _ ← bmem_check_enough s;
    Ok (s, w).
End bmem_init.

(** ** Bit-vector lemmas *)

Definition bvec_bit (bv : list Z) (i : Z) : bool :=
  match bv !! Z.to_nat (i / 32) with Some w => Z.testbit w (i mod 32) | None => false end.

Lemma bvec_lookup (bv : list Z) i :
  0 <= i < 32 * Z.of_nat (length bv) -> exists w, bv !! Z.to_nat (i / 32) = Some w.
Proof. intros Hi. apply lookup_lt_is_Some_2. dlia. Qed.

Lemma bvec_test_bit bv i :
  0 <= i < 32 * Z.of_nat (length bv) -> bvec_test bv i = Ok (bvec_bit bv i).
Proof. intros Hi. destruct (bvec_lookup bv i Hi) as [w Hw]. unfold bvec_test, bvec_bit. by rewrite Hw. Qed.

Lemma bvec_set_bit bv i :
  0 <= i < 32 * Z.of_nat (length bv) ->
  exists bv', bvec_set bv i = Ok bv' /\ length bv' = length bv /\
    forall j, 0 <= j -> bvec_bit bv' j = (i =? j) || bvec_bit bv j.
Proof.
  intros Hi. destruct (bvec_lookup bv i Hi) as [w Hw]. unfold bvec_set. rewrite Hw. cbn.
  eexists. split; [done|]. rewrite length_insert. split; [done|].
  intros j Hj. unfold bvec_bit.
  destruct (decide (i / 32 = j / 32)) as [He|Hne].
  - rewrite <- He, Hw, list_lookup_insert_eq by dlia.
    rewrite Z.lor_spec, Z.shiftl_1_l, Z.pow2_bits_eqb, orb_comm by dlia.
    f_equal. destruct (Z.eqb_spec (i mod 32) (j mod 32)), (Z.eqb_spec i j); (done || dlia).
  - rewrite list_lookup_insert_ne by dlia.
    destruct (Z.eqb_spec i j); [by subst|]. done.
Qed.

Lemma bvec_new_bit n i : bvec_bit (bvec_new n) i = false.
Proof.
  unfold bvec_bit, bvec_new. case_match eqn:E; [|done].
  apply lookup_replicate_1 in E as [-> _]. apply Z.bits_0.
Qed.

Lemma set_run_bits n bv i :
  0 <= i -> i + Z.of_nat n <= 32 * Z.of_nat (length bv) ->
  exists bv', set_run bv i n = Ok bv' /\ length bv' = length bv /\
    forall j, 0 <= j -> bvec_bit bv' j = ((i <=? j) && (j <? i + Z.of_nat n)) || bvec_bit bv j.
Proof.
  revert bv i. induction n as [|n IH]; intros bv i Hi Hn.
  { eexists. split_and!; [done..|]. intros j Hj.
    destruct (Z.leb_spec i j), (Z.ltb_spec j (i + Z.of_nat 0)); (done || lia). }
  destruct (bvec_set_bit bv i ltac:(lia)) as (bv1 & E1 & L1 & B1).
  destruct (IH bv1 (i + 1) ltac:(lia) ltac:(lia)) as (bv2 & E2 & L2 & B2).
  exists bv2. cbn [set_run]. rewrite E1. cbn. split_and!; [done|lia|].
  intros j Hj. rewrite B2, B1, orb_assoc by done. f_equal.
  destruct (Z.leb_spec (i + 1) j), (Z.ltb_spec j (i + 1 + Z.of_nat n)), (Z.leb_spec i j),
    (Z.ltb_spec j (i + Z.of_nat (S n))), (Z.eqb_spec i j); (done || lia).
Qed.

(** ** The page-grabbing loop *)

Section grab.
Context {fw : Type} `{HB : BootServices fw} `{HL : !BootServicesLaws fw}.

Definition free_count (w : fw) : nat := length (List.filter (page_free w) (seqZ 0 256)).

Lemma free_count_le w : (free_count w <= 256)%nat.
Proof. unfold free_count. etrans; [apply List.filter_length_le|]. by rewrite length_seqZ. Qed.

(** [65] per free page plus [k] is enough fuel when the next request is below [2^k] pages. *)
Lemma grab_pages_spec fuel w avail pc k :
  length avail = 8%nat -> 1 <= pc < 2 ^ Z.of_nat k -> (65 * free_count w + k <= fuel)%nat ->
  exists avail' w', grab_pages fuel w avail pc = Ok (avail', w') /\ length avail' = 8%nat /\
    forall j, 0 <= j < 256 ->
      bvec_bit avail' j = bvec_bit avail j || page_free w j /\ page_free w' j = false.
Proof.
  revert w avail pc k. induction fuel as [|fuel IH]; intros w avail pc k Hlen Hpc Hfuel.
  { destruct k; [cbn in Hpc; lia|lia]. }
  cbn [grab_pages]. destruct (AllocatePages w BMEM_MAX_ADDR pc) as [[a w1]|] eqn:Ha.
  - destruct (AllocatePages_grant w BMEM_MAX_ADDR pc a w1 ltac:(lia) Ha) as (p & -> & Hp & Hmax & Hfree & Hfree1).
    unfold_consts. rewrite Z.div_mul, (wrap_small 32 p) by lia.
    destruct (set_run_bits (Z.to_nat pc) avail p) as (avail1 & -> & Hlen1 & Hbits1); [lia..|]. cbn.
    destruct (IH w1 avail1 (u64 (-1)) 64%nat) as (avail' & w' & -> & Hlen' & Hall);
      [lia|done| |].
    { assert (free_count w1 < free_count w)%nat; [|lia].
      apply (length_filter_lt _ _ _ p); [|apply elem_of_seqZ; lia|apply Hfree; lia|].
      - intros y. rewrite Hfree1. by intros [? _]%andb_prop.
      - rewrite Hfree1. destruct (Z.leb_spec p p), (Z.ltb_spec p (p + pc)); (lia || apply andb_false_r). }
    exists avail', w'. split_and!; [done..|]. intros j Hj. destruct (Hall j Hj) as [-> ?].
    split; [|done]. rewrite Hbits1, Hfree1 by lia. rewrite Z2Nat.id by lia.
    destruct (Z.leb_spec p j), (Z.ltb_spec j (p + pc)); cbn; rewrite ?andb_true_r; try done.
    rewrite (Hfree j) by lia. by rewrite orb_true_r.
  - destruct (Z.eqb_spec (pc / 2) 0) as [H0|H0].
    + exists avail, w. split_and!; [done..|]. intros j Hj.
      assert (pc = 1) as -> by dlia.
      destruct (page_free w j) eqn:Ej; [|by rewrite orb_false_r].
      exfalso. eapply AllocatePages_one; [exact Ej| | |exact Ha]; zsolve.
    + destruct k as [|k]; [cbn in Hpc; lia|].
      apply (IH w avail (pc / 2) k); [done| |lia].
      rewrite Nat2Z.inj_succ, Z.pow_succ_r in Hpc by lia. dlia.
Qed.
End grab.

(** ** The grouping loop *)

(** What the blocks built so far say about the pages below [cur]. *)
Record grouped (avail : list Z) (l : list blk_info) (cur : Z) : Prop := {
  gr_blk : forall i b, l !! i = Some b -> exists p q, 1 <= p < q /\ q < cur /\
    Bmem.start b = p * EFI_PAGE_SIZE /\ Bmem.end_ b = q * EFI_PAGE_SIZE /\
    orig_end b = q * EFI_PAGE_SIZE /\ forall r, p <= r < q -> bvec_bit avail r = true;
  gr_order : forall i j b c, (i < j)%nat -> l !! i = Some b -> l !! j = Some c ->
    orig_end b <= Bmem.start c;
  gr_cover : forall p, 1 <= p < cur -> bvec_bit avail p = true ->
    exists i b, l !! i = Some b /\ Bmem.start b <= p * EFI_PAGE_SIZE < Bmem.end_ b;
  gr_count : 2 * Z.of_nat (length l) <= cur - 1;
}.

Lemma grouped_skip avail l cur :
  grouped avail l cur -> 1 <= cur -> bvec_bit avail cur = false -> grouped avail l (cur + 1).
Proof.
  intros [Hb Ho Hc Hn] Hcur Hbit. split; [|done| |lia].
  - intros i b Hi. destruct (Hb i b Hi) as (p & q & ? & ? & Hrest). exists p, q. split; [lia|]. split; [lia|done].
  - intros p Hp Hpb. destruct (decide (p = cur)); [congruence|]. apply Hc; [lia|done].
Qed.

Lemma push_blk_grouped avail l cur idx :
  grouped avail l cur -> 1 <= cur < idx -> idx <= 256 ->
  (forall r, cur <= r < idx -> bvec_bit avail r = true) ->
  exists l', push_blk l (cur * EFI_PAGE_SIZE) (idx * EFI_PAGE_SIZE) = Ok l' /\
    (bvec_bit avail idx = false -> grouped avail l' (idx + 1)).
Proof.
  intros [Hb Ho Hc Hn] Hcur Hidx Hbits. unfold push_blk. unfold_consts.
  destruct (Z.ltb_spec (Z.of_nat (length l)) MAX_BMEM_BLKS) as [Hlt|Hge].
  2: { change MAX_BMEM_BLKS with 128 in Hge. lia. }
  rewrite (wrap_small 32 (cur * 4096)), (wrap_small 32 (idx * 4096)) by lia.
  eexists. split; [done|]. intros Hend. split.
  - intros i b [[_ Hi]|[-> <-]]%lookup_snoc_Some.
    + destruct (Hb i b Hi) as (p & q & ? & ? & Hrest). exists p, q. split; [lia|]. split; [lia|done].
    + exists cur, idx. unfold_consts. cbn. split_and!; (done || lia).
  - intros i j b c Hij [[_ Hi]|[-> <-]]%lookup_snoc_Some [[_ Hj]|[-> <-]]%lookup_snoc_Some;
      [by eauto| | |lia].
    2: { apply lookup_lt_Some in Hj. lia. }
    destruct (Hb i b Hi) as (p & q & ? & ? & ? & ? & Eq & _). cbn. rewrite Eq. zsolve.
  - intros p Hp Hpb. destruct (decide (p < cur)) as [Hlt2|Hge2].
    + destruct (Hc p ltac:(lia) Hpb) as (i & b & Hi & Hx). exists i, b.
      split; [by apply lookup_app_l_Some|done].
    + assert (p < idx) by (destruct (decide (p = idx)) as [->|]; [congruence|lia]).
      exists (length l). eexists. rewrite lookup_snoc_Some. split; [by right|]. cbn. zsolve.
  - rewrite length_app. cbn. lia.
Qed.

(** The grouping loop with [cur = idx] when no run is open, and [cur] the run's first page
    otherwise. *)
Lemma group_loop_spec avail n l cur idx start :
  length avail = 8%nat -> grouped avail l cur -> 1 <= cur <= idx ->
  (forall r, cur <= r < idx -> bvec_bit avail r = true) ->
  start = (if decide (cur = idx) then BMEM_MAX_ADDR else cur * EFI_PAGE_SIZE) ->
  idx + Z.of_nat n = 256 ->
  exists l' cur', group_loop avail l start idx n =
      Ok (l', if decide (cur' = 256) then BMEM_MAX_ADDR else cur' * EFI_PAGE_SIZE, 256) /\
    grouped avail l' cur' /\ 1 <= cur' <= 256 /\
    forall r, cur' <= r < 256 -> bvec_bit avail r = true.
Proof.
  intros Hlen. revert l cur idx start. induction n as [|n IH]; intros l cur idx start Hg Hcur Hbits -> Hn.
  { assert (idx = 256) as -> by lia. cbn. eauto 10. }
  cbn [group_loop]. rewrite bvec_test_bit by lia. cbn. unfold_consts.
  destruct (bvec_bit avail idx) eqn:Hbit.
  - apply (IH l cur (idx + 1)); [done|lia| | |lia].
    + intros r Hr. destruct (decide (r = idx)) as [->|]; [done|apply Hbits; lia].
    + rewrite (decide_False (P := cur = idx + 1)) by lia. case_decide.
      * subst. rewrite Z.eqb_refl, wrap_small by lia. done.
      * destruct (Z.eqb_spec (cur * 4096) 1048576); lia.
  - destruct (decide (cur = idx)) as [->|Hne].
    + cbn. apply (IH l (idx + 1) (idx + 1)); [by apply grouped_skip; [|lia|]|lia|lia| |lia].
      by rewrite decide_True.
    + destruct (Z.eqb_spec (cur * 4096) 1048576); [lia|]. cbn.
      rewrite (wrap_small 32 (idx * 4096)) by lia.
      destruct (push_blk_grouped avail l cur idx Hg ltac:(lia) ltac:(lia) Hbits) as (l' & E & Hg').
      unfold_consts. rewrite E. cbn.
      apply (IH l' (idx + 1) (idx + 1)); [auto|lia|lia| |lia]. by rewrite decide_True.
Qed.

Lemma group_blocks_spec avail :
  length avail = 8%nat -> exists l, group_blocks avail = Ok l /\ grouped avail l 257.
Proof.
  intros Hlen. unfold group_blocks.
  assert (H256 : bvec_bit avail 256 = false).
  { unfold bvec_bit. by rewrite lookup_ge_None_2 by (rewrite Hlen; done). }
  destruct (group_loop_spec avail 255 [] 1 1 BMEM_MAX_ADDR) as (l & cur & E & Hg & Hcur & Hbits);
    [done| |lia|lia|done|done|].
  { split; cbn; try done; lia. }
  change (Z.to_nat (BMEM_MAX_ADDR / EFI_PAGE_SIZE - 1)) with 255%nat. rewrite E. cbn.
  unfold_consts. case_decide as Hc.
  - subst. cbn. exists l. split; [done|]. by apply (grouped_skip avail l 256).
  - destruct (Z.eqb_spec (cur * 4096) 1048576); [lia|]. cbn.
    destruct (push_blk_grouped avail l cur 256 Hg ltac:(lia) ltac:(lia) Hbits) as (l' & E' & Hg').
    exists l'. split; [|by apply Hg']. unfold_consts. by rewrite (wrap_small 32 (256 * 4096)) by lia.
Qed.

(** ** The memory map *)

(** Descriptor [d] makes page [p] usable at run time. *)
Definition desc_covers (d : mem_desc) (p : Z) : bool :=
  freed_on_exit (Type_ d) && (PhysicalStart d / EFI_PAGE_SIZE <=? p) &&
  (p <? PhysicalStart d / EFI_PAGE_SIZE + NumberOfPages d).

Definition desc_ok (d : mem_desc) : Prop :=
  0 <= PhysicalStart d /\ 0 <= NumberOfPages d /\
  PhysicalStart d / EFI_PAGE_SIZE + NumberOfPages d < 2 ^ 32.

Lemma mark_descs_spec descs avail attr :
  length avail = 8%nat -> Forall desc_ok descs ->
  exists avail' attr', mark_descs avail attr descs = Ok (avail', attr') /\ length avail' = 8%nat /\
    forall p, 0 <= p < 256 ->
      bvec_bit avail' p = bvec_bit avail p || existsb (fun d => desc_covers d p) descs.
Proof.
  revert avail attr. induction descs as [|d descs IH]; intros avail attr Hlen Hok; cbn [mark_descs].
  { eexists _, _. split_and!; [done..|]. intros p Hp. cbn. by rewrite orb_false_r. }
  apply Forall_cons in Hok as [(Hs & Hn & Hsn) Hok]. cbn [existsb].
  assert (Hskip : forall avail' p, (forall q, desc_covers d q = true -> ~ 0 <= q < 256) ->
    0 <= p < 256 -> bvec_bit avail' p || existsb (fun d => desc_covers d p) descs =
    bvec_bit avail' p || (desc_covers d p || existsb (fun d => desc_covers d p) descs)).
  { intros avail' p Hno Hp. destruct (desc_covers d p) eqn:E; [|done]. by apply Hno in E. }
  destruct (freed_on_exit (Type_ d)) eqn:Ht.
  2: { destruct (IH avail attr Hlen Hok) as (av & at' & E & L & Hbits). exists av, at'.
       split_and!; [done..|]. intros p Hp. rewrite Hbits by done. apply Hskip; [|done].
       intros q. unfold desc_covers. by rewrite Ht. }
  rewrite Z.geb_leb. destruct (Z.leb_spec BMEM_MAX_ADDR (PhysicalStart d)) as [Hge|Hlt].
  { destruct (IH avail attr Hlen Hok) as (av & at' & E & L & Hbits). exists av, at'.
    split_and!; [done..|]. intros p Hp. rewrite Hbits by done. apply Hskip; [|done].
    intros q. unfold desc_covers. rewrite Ht. cbn. intros [Hq%Z.leb_le _]%andb_prop.
    unfold_consts. dlia. }
  unfold_consts. set (idx := PhysicalStart d / 4096) in *.
  assert (Hidx : 0 <= idx < 256) by (unfold idx; dlia).
  change (1048576 / 4096) with 256.
  rewrite (wrap_small 32 idx), (wrap_small 32 (idx + NumberOfPages d)) by lia.
  set (e := if _ : bool then 256 else _).
  assert (He : e = Z.min 256 (idx + NumberOfPages d)).
  { unfold e. rewrite Z.gtb_ltb. destruct (Z.ltb_spec 256 (idx + NumberOfPages d)); lia. }
  destruct (set_run_bits (Z.to_nat (e - idx)) avail idx) as (av1 & -> & L1 & B1); [lia..|]. cbn.
  destruct (IH av1 (Z.land attr (Attribute d)) ltac:(lia) Hok) as (av & at' & E & L & Hbits).
  exists av, at'. split_and!; [done..|]. intros p Hp. rewrite Hbits, B1 by lia.
  assert (desc_covers d p = (idx <=? p) && (p <? idx + NumberOfPages d)) as ->
    by (unfold desc_covers; by rewrite Ht).
  rewrite Z2Nat.id by lia. rewrite (orb_comm (_ && _)), orb_assoc. f_equal. f_equal.
  destruct (Z.leb_spec idx p); [|done]. cbn.
  destruct (Z.ltb_spec p (idx + (e - idx))), (Z.ltb_spec p (idx + NumberOfPages d)); (done || lia).
Qed.

Lemma count_prefix_spec avail n idx :
  length avail = 8%nat -> 0 <= idx -> idx + Z.of_nat n <= 256 ->
  exists i, count_prefix avail idx n = Ok i /\ idx <= i <= idx + Z.of_nat n /\
    (forall p, idx <= p < i -> bvec_bit avail p = true) /\
    (i < idx + Z.of_nat n -> bvec_bit avail i = false).
Proof.
  intros Hlen. revert idx. induction n as [|n IH]; intros idx Hi Hn; cbn [count_prefix].
  { exists idx. split_and!; (done || lia). }
  rewrite bvec_test_bit by lia. cbn. destruct (bvec_bit avail idx) eqn:Hbit.
  - destruct (IH (idx + 1)) as (i & -> & Hr & Hall & Hend); [lia..|].
    exists i. split_and!; [done|lia|lia| |intros; apply Hend; lia].
    intros p Hp. destruct (decide (p = idx)) as [->|]; [done|apply Hall; lia].
  - exists idx. split_and!; (done || lia).
Qed.

(** ** [bmem_init] *)

Section init.
Context {fw : Type} `{HB : BootServices fw} `{HL : !BootServicesLaws fw}.

(** Page [p] can be used at run time, given the memory map read after the grab. *)
Definition usable (w w' : fw) (p : Z) : bool :=
  page_free w p || existsb (fun d => desc_covers d p) (LibMemoryMap w').

Lemma grouped_inv avail l top :
  grouped avail l 257 -> EFI_PAGE_SIZE <= top <= BMEM_MAX_ADDR ->
  (forall i b, l !! i = Some b -> Bmem.end_ b <= top \/ top <= Bmem.start b) ->
  forall attr, bmem_inv {| blk := l; boottime_bmem_bot := EFI_PAGE_SIZE;
                           runtime_bmem_top := top; bmem_uefi_attr := attr |}.
Proof.
  intros Hg Htop Hside attr. split; cbn; [|apply Hg|zsolve|zsolve].
  intros i b Hi. destruct (gr_blk _ _ _ Hg i b Hi) as (p & q & ? & ? & E1 & E2 & E3 & _).
  specialize (Hside i b Hi). unfold blk_ok. zsolve.
Qed.

Lemma grouped_free avail l s x :
  grouped avail l 257 -> length avail = 8%nat -> blk s = l ->
  bmem_free s x <->
  EFI_PAGE_SIZE <= x < BMEM_MAX_ADDR /\ bvec_bit avail (x / EFI_PAGE_SIZE) = true.
Proof.
  intros Hg Hlen Hl. unfold bmem_free. rewrite Hl. unfold_consts. split.
  - intros (i & b & Hi & Hx).
    destruct (gr_blk _ _ _ Hg i b Hi) as (p & q & ? & ? & E1 & E2 & E3 & Hbits). unfold_consts.
    split; [lia|]. apply Hbits. dlia.
  - intros [Hx Hbit].
    destruct (gr_cover _ _ _ Hg (x / 4096) ltac:(dlia) Hbit) as (i & b & Hi & Hb).
    exists i, b. split; [done|].
    destruct (gr_blk _ _ _ Hg i b Hi) as (p & q & ? & ? & E1 & E2 & E3 & Hbits). unfold_consts. dlia.
Qed.

Lemma bmem_init_spec (w : fw) :
  (forall w', Forall desc_ok (LibMemoryMap w')) ->
  exists w' n, (forall p, 0 <= p < 256 -> page_free w' p = false) /\ 0 <= n <= 256 /\
    (forall p, 0 <= p < n -> usable w w' p = true) /\ (n < 256 -> usable w w' n = false) /\
    ((LibMemoryMap w' = [] /\ bmem_init w = Fail (Error "cannot get mem. map!")) \/
     (n < 48 /\ bmem_init w = Fail (Error not_enough)) \/
     (48 <= n /\ exists s, bmem_init w = Ok (s, w') /\ bmem_inv s /\
        runtime_bmem_top s = n * EFI_PAGE_SIZE /\ boottime_bmem_bot s = EFI_PAGE_SIZE /\
        Z.of_nat (length (blk s)) <= MAX_BMEM_BLKS /\
        forall x, bmem_free s x <->
          EFI_PAGE_SIZE <= x < BMEM_MAX_ADDR /\ page_free w (x / EFI_PAGE_SIZE) = true)).
Proof.
  intros Hmap. unfold bmem_init.
  destruct (grab_pages_spec grab_fuel w (bvec_new (BMEM_MAX_ADDR / EFI_PAGE_SIZE))
              (BMEM_MAX_ADDR / EFI_PAGE_SIZE / 2) 8) as (av & w' & E & L & Hbits).
  { done. } { done. } { pose proof (free_count_le w). unfold grab_fuel. lia. }
  rewrite E. cbn beta iota delta [mbind result_bind].
  destruct (group_blocks_spec av L) as (l & -> & Hg). cbn beta iota delta [mbind result_bind].
  assert (Hav : forall p, 0 <= p < 256 -> bvec_bit av p = page_free w p).
  { intros p Hp. destruct (Hbits p Hp) as [-> _]. by rewrite bvec_new_bit. }
  destruct (mark_descs_spec (LibMemoryMap w') av bmem_uefi_attr_init L (Hmap w'))
    as (av2 & attr & E2 & L2 & Hbits2).
  destruct (count_prefix_spec av2 256 0 L2) as (n & E3 & Hn & Hpre & Hend); [lia..|].
  assert (Hus : forall p, 0 <= p < 256 -> bvec_bit av2 p = usable w w' p).
  { intros p Hp. unfold usable. by rewrite Hbits2, Hav. }
  exists w', n. split_and!; [by intros p Hp; apply Hbits|lia|lia| | |].
  { intros p Hp. rewrite <- Hus by lia. by apply Hpre. }
  { intros Hlt. rewrite <- Hus by lia. apply Hend. lia. }
  unfold get_mem_map. destruct (LibMemoryMap w') as [|d ds] eqn:Hds; [by left|right].
  cbn beta iota delta [mbind result_bind]. rewrite E2. cbn beta iota delta [mbind result_bind].
  change (Z.to_nat (BMEM_MAX_ADDR / EFI_PAGE_SIZE)) with 256%nat. rewrite E3.
  cbn beta iota delta [mbind result_bind]. change (192 * KIBYTE / EFI_PAGE_SIZE) with 48.
  destruct (Z.ltb_spec n 48) as [Hlt|Hge]; [by left|right]. split; [done|].
  unfold_consts. rewrite wrap_small by lia. unfold bmem_check_enough. cbn [runtime_bmem_top boottime_bmem_bot].
  unfold_consts. rewrite Z.gtb_ltb, (wrap_small 32) by lia.
  destruct (Z.ltb_spec (n * 4096) (192 * 1024)); [lia|].
  destruct (Z.ltb_spec (n * 4096 - 128 * 1024) 4096); [lia|]. cbn.
  eexists. split; [done|]. split; [|split_and!; [done|done|by pose proof (gr_count _ _ _ Hg); cbn; change MAX_BMEM_BLKS with 128; lia|]].
  - apply (grouped_inv av l (n * 4096) Hg); [zsolve|].
    intros i b Hi. destruct (gr_blk _ _ _ Hg i b Hi) as (p & q & ? & ? & E1 & E2' & E3' & Hr).
    unfold_consts. destruct (decide (q <= n)); [lia|]. destruct (decide (n <= p)); [lia|].
    assert (bvec_bit av2 n = false) as Hf by (apply Hend; lia).
    rewrite Hbits2, (Hr n) in Hf by lia. done.
  - intros x. rewrite (grouped_free av l) by done. unfold_consts.
    split; intros [Hx Hb]; (split; [done|]); [rewrite <- Hav by dlia|rewrite Hav by dlia]; done.
Qed.
End init.

(** C11: for every firmware that keeps the AllocatePages contract, [bmem_init] terminates (the
    page-count loop included, although a grant leaves the count at its maximum), and it never
    writes outside [blk[]] or the page bit vector: it ends in a state or in one of its two
    error messages. *)
Theorem bmem_init_terminates {fw : Type} `{HB : BootServices fw} `{HL : !BootServicesLaws fw} (w : fw) :
  (forall w', Forall desc_ok (LibMemoryMap w')) ->
  (exists s w', bmem_init w = Ok (s, w')) \/
  bmem_init w = Fail (Error not_enough) \/ bmem_init w = Fail (Error "cannot get mem. map!").
Proof.
  intros Hmap. destruct (bmem_init_spec w Hmap) as (w' & n & _ & _ & _ & _ & [[_ E]|[[_ E]|[_ (s & E & _)]]]); eauto.
Qed.

(** C10: when [bmem_init] succeeds, the block invariant holds, the available memory is exactly the
    pages the firmware had free below 1 MiB (page 0 excepted), none of them is left to the
    firmware, and the run-time top is the end of the longest usable prefix of base memory,
    which has at least 192 KiB. *)
Theorem bmem_init_exact {fw : Type} `{HB : BootServices fw} `{HL : !BootServicesLaws fw}
    (w w' : fw) (s : bmem) :
  (forall w', Forall desc_ok (LibMemoryMap w')) -> bmem_init w = Ok (s, w') ->
  bmem_inv s /\ boottime_bmem_bot s = EFI_PAGE_SIZE /\
  (forall x, bmem_free s x <->
     EFI_PAGE_SIZE <= x < BMEM_MAX_ADDR /\ page_free w (x / EFI_PAGE_SIZE) = true) /\
  (forall p, 0 <= p < 256 -> page_free w' p = false) /\
  exists n, runtime_bmem_top s = n * EFI_PAGE_SIZE /\ 192 * KIBYTE <= runtime_bmem_top s /\
    n <= 256 /\ (forall p, 0 <= p < n -> usable w w' p = true) /\
    (n < 256 -> usable w w' n = false).
Proof.
  intros Hmap E.
  destruct (bmem_init_spec w Hmap) as (w2 & n & Hnone & Hn & Hpre & Hend & [[_ E2]|[[_ E2]|[Hge (s2 & E2 & Hrest)]]]);
    rewrite E2 in E; try done.
  injection E as -> ->. destruct Hrest as (Hinv & Htop & Hbot & _ & Hfree).
  split_and!; try done. exists n. split_and!; try done; [rewrite Htop|]; zsolve.
Qed.

(** ** A concrete firmware

    The state is the list of free pages; a request takes the first run of free pages that starts
    in the list and fits below the maximum.  It satisfies the laws and serves the witnesses. *)

Definition fw_free (w : list Z) (q : Z) : bool := bool_decide (q ∈ w).

Definition fw_alloc (w : list Z) (max n : Z) : option (Z * list Z) :=
  if n <=? Z.of_nat (length w) then
    match List.find (fun p => (0 <=? p) && ((p + n) * EFI_PAGE_SIZE - 1 <=? max) &&
                              forallb (fw_free w) (seqZ p n)) w with
    | Some p => Some (p * EFI_PAGE_SIZE, List.filter (fun q => negb ((p <=? q) && (q <? p + n))) w)
    | None => None
    end
  else None.

(** Pages 100 to 109 hold boot-services data; from 0xa0000 to 1 MiB there is no memory. *)
Definition fw_map (w : list Z) : list mem_desc :=
  [ {| Type_ := EfiRuntimeServicesData; PhysicalStart := 0; NumberOfPages := 100; Attribute := 0xf |};
    {| Type_ := EfiBootServicesData; PhysicalStart := 100 * 4096; NumberOfPages := 10; Attribute := 0xf |};
    {| Type_ := EfiRuntimeServicesData; PhysicalStart := 110 * 4096; NumberOfPages := 50; Attribute := 0xf |};
    {| Type_ := EfiConventionalMemory; PhysicalStart := 0x100000; NumberOfPages := 0x700; Attribute := 0xf |} ].

#[export] Instance fw_services : BootServices (list Z) :=
  {| AllocatePages := fw_alloc; LibMemoryMap := fw_map |}.

#[export] Instance fw_services_laws : BootServicesLaws (list Z).
Proof.
  refine {| page_free := fw_free |}; cbn.
  - intros w max n a w' Hn Ha. unfold fw_alloc in Ha. case_match; [|done].
    case_match eqn:Hf; [|done]. injection Ha as <- <-. rename z into p.
    apply List.find_some in Hf as [_ Hf].
    apply andb_prop in Hf as [[H1%Z.leb_le H2%Z.leb_le]%andb_prop H3].
    exists p. split_and!; [done|done|done| |].
    + intros q Hq. apply (proj1 (List.forallb_forall _ _) H3).
      apply list_elem_of_In, elem_of_seqZ. lia.
    + intros q. unfold fw_free. apply Bool.eq_iff_eq_true.
      rewrite andb_true_iff, !bool_decide_eq_true, !list_elem_of_In, List.filter_In. tauto.
  - intros w max q Hq Hq0 Hmax Ha. unfold fw_alloc in Ha.
    unfold fw_free in Hq. apply bool_decide_eq_true in Hq.
    assert (Hl : (0 < length w)%nat) by (destruct w; [by apply not_elem_of_nil in Hq|cbn; lia]).
    destruct (Z.leb_spec 1 (Z.of_nat (length w))); [|lia].
    case_match eqn:Hf; [done|].
    apply (fun H => List.find_none _ _ H q) in Hf; [|by apply list_elem_of_In].
    apply not_true_iff_false in Hf. apply Hf. rewrite !andb_true_iff, !Z.leb_le.
    split_and!; [done|done|]. rewrite seqZ_cons, seqZ_nil by lia. cbn.
    unfold fw_free. by rewrite bool_decide_true.
Defined.

Definition fw_pages : list Z := seqZ 0 100 ++ seqZ 110 50.

Lemma fw_map_ok (w : list Z) : Forall desc_ok (LibMemoryMap w).
Proof. repeat constructor; cbn; vm_compute; done. Qed.

Definition init_result : result (bmem * list Z) := Eval vm_compute in bmem_init fw_pages.

Lemma bmem_init_terminates_witness :
  (exists s w', bmem_init fw_pages = Ok (s, w')) \/
  bmem_init fw_pages = Fail (Error not_enough) \/
  bmem_init fw_pages = Fail (Error "cannot get mem. map!").
Proof. apply (bmem_init_terminates fw_pages). intros w'. apply fw_map_ok. Defined.

Lemma bmem_init_exact_witness :
  exists s w', bmem_init fw_pages = Ok (s, w') /\ runtime_bmem_top s = 0xa0000 /\
    (bmem_free s 0x64000 -> page_free fw_pages 100 = true).
Proof.
  destruct init_result as [[s w']|] eqn:E; [|discriminate E]. unfold init_result in E.
  exists s, w'. assert (Hinit : bmem_init fw_pages = Ok (s, w')) by (rewrite <- E; vm_compute; reflexivity).
  split; [done|]. split; [injection E as <- _; reflexivity|].
  intros Hf. destruct (bmem_init_exact fw_pages w' s fw_map_ok Hinit) as (_ & _ & Hfree & _).
  by apply Hfree in Hf as [_ Hf].
Defined.
