(* ===== verification/Bparm.v ===== *)
(** * Boot parameters (src/bparm.h, src/stage1/bparm.c)

    Boot parameters are a linked list of nodes in memory; [bparm_add] takes the memory for a node
    from the boot-time allocator and links it at the tail.  The nodes live in a store indexed by
    address, so the [next] pointers and the writes through the pointer that [bparm_add] returns
    are the C program's.  The theorems show that the store represents a list, that [bparm_add]
    appends to it without disturbing or overlapping earlier nodes, and that a walk along [next]
    (the [for (bp = bparms; bp; bp = bp->next)] loops of stage 2) visits exactly that list.  The
    allocator is any instance of [Allocator]. *)

From S2P Require Import Prelude.

(** ** Boot data *)

Record bdat_pci_dev_t := {
  pci_locn : Z; pci_id : Z; class_if : Z; rimg_seg : Z; rimg_rt_seg : Z; rimg_sz : Z;
}.

Record bdat_bmem_t := { boottime_bmem_bot_seg : Z; runtime_bmem_top_seg : Z }.

Record bdat_mem_range_t := {
  mr_start : Z; mr_len : Z; mr_e820_type : Z; mr_e820_ext_attr : Z; mr_uefi_attr : Z;
}.

Record bdat_rsdp_t := { rsdp_phy_addr : Z; rsdp_sz : Z }.

(** The union [u]; [BdatZero n] is [n] zero bytes, as [memset] leaves them. *)
Inductive bdat :=
  | BdatZero (n : Z)
  | BdatPci (d : bdat_pci_dev_t)
  | BdatBmem (d : bdat_bmem_t)
  | BdatMrng (d : bdat_mem_range_t)
  | BdatRsdp (d : bdat_rsdp_t).

(** Sizes of the packed structures. *)
Definition sizeof_bdat_pci_dev_t : Z := 4 + 4 + 4 + 2 + 2 + 4.
Definition sizeof_bdat_bmem_t : Z := 2 + 2.
Definition sizeof_bdat_mem_range_t : Z := 8 + 8 + 4 + 4 + 8.
Definition sizeof_bdat_rsdp_t : Z := 8 + 4.

Record bparm_t := { next : Z; type : Z; size : Z; u : bdat }.

(** [next], [type] and [size]; the flexible array [u] follows. *)
Definition sizeof_bparm_t : Z := 8 + 4 + 4.

(** The characters of a four-letter tag. *)
Definition BP_PCID : Z := MAGIC32 80 67 73 68.
Definition BP_BMEM : Z := MAGIC32 66 77 69 77.
Definition BP_MRNG : Z := MAGIC32 77 82 78 71.
Definition BP_RSDP : Z := MAGIC32 82 83 68 80.

(** ** Operations *)

Definition NULL : Z := 0.

(** [bp_head], [bp_tail], the nodes in memory, and the allocator's own state. *)
Record bparms (A : Type) := {
  bp_alloc : A;
  bp_heap : gmap Z bparm_t;
  bp_head : Z;
  bp_tail : Z;
}.
Arguments bp_alloc {A} _.
Arguments bp_heap {A} _.
Arguments bp_head {A} _.
Arguments bp_tail {A} _.

Section operations.
Context {A : Type} `{Allocator A}.

Definition bparms0 (a : A) : bparms A :=
  {| bp_alloc := a; bp_heap := ∅; bp_head := NULL; bp_tail := NULL |}.

(** Returns the pointer to the data field. *)
Definition bparm_add (st : bparms A) (ty sz : Z) : result (Z * bparms A) :=
  '(bp, a) ← alc_alloc (bp_alloc st) (sizeof_bparm_t + sz) 8;
  '(heap, head) ←
    (if bp_head st =? NULL then Ok (bp_heap st, bp)
     else
       t ← checked (bp_heap st !! bp_tail st);
       Ok (<[bp_tail st := {| next := bp; type := type t; size := size t; u := u t |}]> (bp_heap st),
           bp_head st));
  Ok (bp + sizeof_bparm_t,
      {| bp_alloc := a;
         bp_heap := <[bp := {| next := NULL; type := ty; size := sz; u := BdatZero sz |}]> heap;
         bp_head := head; bp_tail := bp |}).

(** The stores through the data pointer [p] that [bparm_add] returned. *)
Definition bparm_store (st : bparms A) (p : Z) (d : bdat) : result (bparms A) :=
  n ← checked (bp_heap st !! (p - sizeof_bparm_t));
  Ok {| bp_alloc := bp_alloc st;
        bp_heap := <[p - sizeof_bparm_t := {| next := next n; type := type n; size := size n; u := d |}]> (bp_heap st);
        bp_head := bp_head st; bp_tail := bp_tail st |}.

Definition bparm_add_mem_range (st : bparms A) (start len e820_type e820_ext_attr uefi_attr : Z)
    : result (Z * bparms A) :=
  if len =? 0 then Ok (NULL, st)
  else
    '(bd, st) ← bparm_add st BP_MRNG sizeof_bdat_mem_range_t;
    st ← bparm_store st bd (BdatMrng
      {| mr_start := start; mr_len := len; mr_e820_type := e820_type;
         mr_e820_ext_attr := e820_ext_attr; mr_uefi_attr := uefi_attr |});
    Ok (bd, st).

Definition bparm_get (st : bparms A) : Z := bp_head st.
End operations.

(** A walk along [next], as the loops over boot parameters do it; the nodes it meets. *)
Fixpoint bparm_walk (fuel : nat) (heap : gmap Z bparm_t) (bp : Z) : result (list (Z * bparm_t)) :=
  match fuel with
  | O => Fail Diverges
  | S fuel =>
      if bp =? NULL then Ok []
      else n ← checked (heap !! bp);
           l ← bparm_walk fuel heap (next n);
           Ok ((bp, n) :: l)
  end.

(** ** The list a store represents *)

(** One node as its readers see it: address, type, size, data. *)
Record bp_view := { v_addr : Z; v_type : Z; v_size : Z; v_data : bdat }.

Definition view_of (an : Z * bparm_t) : bp_view :=
  {| v_addr := an.1; v_type := type an.2; v_size := size an.2; v_data := u an.2 |}.

Definition node_at (heap : gmap Z bparm_t) (v : bp_view) (nx : Z) : Prop :=
  heap !! v_addr v = Some {| next := nx; type := v_type v; size := v_size v; u := v_data v |}.

(** [p] points to the nodes of [l], linked in that order and ending in [q]. *)
Fixpoint lseg (heap : gmap Z bparm_t) (p : Z) (l : list bp_view) (q : Z) : Prop :=
  match l with
  | [] => p = q
  | v :: l => p = v_addr v /\ p <> NULL /\ exists nx, node_at heap v nx /\ lseg heap nx l q
  end.

Section represents.
Context {A : Type} `{HA : Allocator A} `{HL : !AllocatorLaws A}.

Record bparms_repr (st : bparms A) (l : list bp_view) : Prop := {
  repr_inv : alc_inv (bp_alloc st);
  repr_seg : lseg (bp_heap st) (bp_head st) l NULL;
  repr_tail : forall v, last l = Some v -> bp_tail st = v_addr v;
  repr_size : forall v, v ∈ l -> 0 <= v_size v;
  repr_used : forall v x, v ∈ l -> in_range (v_addr v) (sizeof_bparm_t + v_size v) x ->
    ~ alc_free (bp_alloc st) x;
  repr_disj : forall i j v w, (i < j)%nat -> l !! i = Some v -> l !! j = Some w ->
    disjoint_ranges (v_addr v) (sizeof_bparm_t + v_size v) (v_addr w) (sizeof_bparm_t + v_size w);
}.

Lemma bparms0_repr a : alc_inv a -> bparms_repr (bparms0 a) [].
Proof.
  intros Ha. split; [done|done|done| | |done].
  - by intros v ?%not_elem_of_nil.
  - by intros v x ?%not_elem_of_nil.
Qed.
End represents.

(** Different addresses: a new node or new data leaves a segment alone. *)
Lemma lseg_insert heap p l q a n :
  (forall v, v ∈ l -> v_addr v <> a) -> lseg heap p l q -> lseg (<[a:=n]> heap) p l q.
Proof.
  revert p. induction l as [|v l IH]; intros p Hne; [done|].
  intros (-> & Hnn & nx & Hn & Hl). split_and!; [done|done|]. exists nx. split.
  - unfold node_at. rewrite lookup_insert_ne; [done|]. intros ->. by eapply (Hne v); [left|].
  - apply IH; [|done]. intros w Hw. apply Hne. by right.
Qed.

Lemma lseg_app heap p l1 l2 q :
  lseg heap p (l1 ++ l2) q <-> exists m, lseg heap p l1 m /\ lseg heap m l2 q.
Proof.
  revert p. induction l1 as [|v l1 IH]; intros p; cbn.
  - split; [eauto|]. by intros (m & -> & ?).
  - setoid_rewrite IH. split.
    + intros (? & ? & nx & ? & m & ? & ?). eauto 10.
    + intros (m & (? & ? & nx & ? & ?) & ?). eauto 10.
Qed.

Lemma lseg_walk heap p l fuel :
  lseg heap p l NULL -> (length l < fuel)%nat ->
  exists ns, bparm_walk fuel heap p = Ok ns /\ view_of <$> ns = l.
Proof.
  revert p fuel. induction l as [|v l IH]; intros p [|fuel] Hl Hf; cbn in Hf; try lia.
  - cbn in Hl. subst. by exists [].
  - destruct Hl as (-> & Hnn & nx & Hn & Hl).
    destruct (IH nx fuel Hl ltac:(lia)) as (ns & E & Hv).
    cbn. destruct (Z.eqb_spec (v_addr v) NULL); [done|]. rewrite Hn. cbn. rewrite E. cbn.
    eexists. split; [done|]. cbn. rewrite Hv. by destruct v.
Qed.

(** A list is determined by its nodes, so that it cannot meet a node twice. *)
Lemma lseg_unique heap p l1 l2 : lseg heap p l1 NULL -> lseg heap p l2 NULL -> l1 = l2.
Proof.
  revert p l2. induction l1 as [|v l1 IH]; intros p [|w l2]; cbn; [done|by intros -> (_ & ? & _)|by intros (_ & ? & _) ->|].
  intros (-> & _ & nx & Hv & H1) (E & _ & ny & Hw & H2). unfold node_at in *. rewrite E, Hw in Hv.
  injection Hv as <- Et Es Eu. f_equal; [destruct v, w; cbn in *; congruence|by apply (IH ny)].
Qed.

Lemma lseg_NoDup heap p l : lseg heap p l NULL -> NoDup (v_addr <$> l).
Proof.
  revert p. induction l as [|v l IH]; intros p Hl; [constructor|]. rewrite fmap_cons. pose proof Hl as (-> & _ & nx & _ & Hl').
  constructor; [|by apply (IH nx)]. intros (w & E & (l1 & l2 & ->)%list_elem_of_split)%list_elem_of_fmap.
  apply lseg_app in Hl' as (m & _ & Hw). pose proof Hw as (-> & _).
  rewrite E in Hl. pose proof (lseg_unique _ _ _ _ Hl Hw) as H. apply (f_equal length) in H.
  cbn in H. rewrite length_app in H. cbn in H. lia.
Qed.

(** A walk that ends has met the list. *)
Lemma lseg_walk_Ok heap p l fuel ns :
  lseg heap p l NULL -> bparm_walk fuel heap p = Ok ns -> view_of <$> ns = l /\ (length l < fuel)%nat.
Proof.
  revert p fuel ns. induction l as [|v l IH]; intros p [|fuel] ns Hl E; cbn in E; try done.
  - cbn in Hl. subst p. cbn in E. injection E as <-. cbn. split; [done|lia].
  - destruct Hl as (-> & Hnn & nx & Hn & Hl). destruct (Z.eqb_spec (v_addr v) NULL); [done|].
    unfold node_at in Hn. rewrite Hn in E. cbn [checked mbind result_bind next] in E.
    apply bind_Ok in E as (ns' & E' & E). injection E as <-. destruct (IH _ _ _ Hl E') as [<- ?].
    cbn. split; [by destruct v|lia].
Qed.

Section lemmas.
Context {A : Type} `{HA : Allocator A} `{HL : !AllocatorLaws A}.
Implicit Types st : bparms A.

Lemma repr_addr_ne st l i j v w :
  bparms_repr st l -> i <> j -> l !! i = Some v -> l !! j = Some w -> v_addr v <> v_addr w.
Proof.
  intros Hr Hne Hv Hw E.
  pose proof (repr_size _ _ Hr v ltac:(by eapply list_elem_of_lookup_2)).
  pose proof (repr_size _ _ Hr w ltac:(by eapply list_elem_of_lookup_2)).
  destruct (decide (i < j)%nat).
  - pose proof (repr_disj _ _ Hr i j v w ltac:(lia) Hv Hw) as Hd.
    unfold disjoint_ranges, sizeof_bparm_t in Hd. lia.
  - pose proof (repr_disj _ _ Hr j i w v ltac:(lia) Hw Hv) as Hd.
    unfold disjoint_ranges, sizeof_bparm_t in Hd. lia.
Qed.

(** A block fresh from the allocator misses every node. *)
Lemma repr_fresh st l ty_sz a v bp sz :
  bparms_repr st l -> v ∈ l -> 0 < sz ->
  alc_alloc (bp_alloc st) sz 8 = Ok (bp, a) -> ty_sz = sizeof_bparm_t + v_size v ->
  disjoint_ranges (v_addr v) ty_sz bp sz.
Proof.
  intros Hr Hv Hsz Ha ->.
  destruct (alc_alloc_block _ _ 8 _ _ (repr_inv _ _ Hr) Hsz ltac:(by exists 3) ltac:(lia) Ha)
    as (_ & _ & _ & Hblk).
  pose proof (repr_size _ _ Hr v Hv).
  apply disjoint_ranges_spec; [unfold sizeof_bparm_t; lia|done|].
  intros x Hx Hy. destruct (Hblk x Hy) as [Hf _]. by eapply repr_used.
Qed.

(** Linking [bp] behind the tail and writing the new node. *)
Lemma lseg_snoc heap p l v bp n :
  lseg heap p (l ++ [v]) NULL ->
  (forall w, w ∈ l -> v_addr w <> v_addr v) -> (forall w, w ∈ l ++ [v] -> v_addr w <> bp) ->
  bp <> NULL -> next n = NULL ->
  exists t, heap !! v_addr v = Some t /\
    lseg (<[bp:=n]> (<[v_addr v := {| next := bp; type := type t; size := size t; u := u t |}]> heap))
      p ((l ++ [v]) ++ [view_of (bp, n)]) NULL.
Proof.
  intros Hl Hne Hfr Hbp Hnx. apply lseg_app in Hl as (m & Hl & -> & Hnn & nx & Hn & ->).
  eexists. split; [exact Hn|]. cbn. apply lseg_app. exists bp. split.
  - apply lseg_app. exists (v_addr v). split.
    + apply lseg_insert; [intros w Hw; apply Hfr, elem_of_app; by left|].
      by apply lseg_insert.
    + cbn. split_and!; [done|done|]. exists bp. split; [|done]. unfold node_at.
      rewrite lookup_insert_ne by (intros E; by eapply (Hfr v); [apply elem_of_app; right; left|]).
      by rewrite lookup_insert_eq.
  - cbn. split_and!; [done|done|]. exists NULL. split; [|done]. unfold node_at. cbn.
    rewrite lookup_insert_eq. destruct n; cbn in *. by rewrite Hnx.
Qed.
End lemmas.

(** ** What the operations do to the list *)

Section properties.
Context {A : Type} `{HA : Allocator A} `{HL : !AllocatorLaws A} `{HN : !NonNull A}.
Implicit Types st : bparms A.

Lemma bparm_add_repr st l ty sz :
  bparms_repr st l -> 0 <= sz ->
  match bparm_add st ty sz with
  | Ok (p, st') =>
      bparms_repr st' (l ++ [{| v_addr := p - sizeof_bparm_t; v_type := ty; v_size := sz;
                                v_data := BdatZero sz |}]) /\
      exists a, alc_alloc (bp_alloc st) (sizeof_bparm_t + sz) 8 = Ok (p - sizeof_bparm_t, a) /\
        bp_alloc st' = a
  | Fail f => alc_alloc (bp_alloc st) (sizeof_bparm_t + sz) 8 = Fail f
  end.
Proof.
  intros Hr Hsz. unfold bparm_add.
  assert (Hpos : 0 < sizeof_bparm_t + sz) by (unfold sizeof_bparm_t; lia).
  destruct (alc_alloc (bp_alloc st) (sizeof_bparm_t + sz) 8) as [[bp a]|f] eqn:Ha; [|done].
  cbn [mbind result_bind].
  destruct (alc_alloc_block _ _ 8 _ _ (repr_inv _ _ Hr) Hpos ltac:(by exists 3) ltac:(lia) Ha)
    as (Hbp & Hlim & Hal & Hblk).
  pose proof (alc_base_pos (S := A)) as Hbase.
  assert (Hfresh : forall v, v ∈ l ->
    disjoint_ranges (v_addr v) (sizeof_bparm_t + v_size v) bp (sizeof_bparm_t + sz)).
  { intros v Hv. by eapply repr_fresh. }
  assert (Hne : forall v, v ∈ l -> v_addr v <> bp).
  { intros v Hv. pose proof (repr_size _ _ Hr v Hv). specialize (Hfresh v Hv).
    unfold disjoint_ranges, sizeof_bparm_t in *. lia. }
  set (n := {| next := NULL; type := ty; size := sz; u := BdatZero sz |}).
  assert (Hseg : exists heap head,
    (if bp_head st =? NULL then Ok (bp_heap st, bp)
     else t ← checked (bp_heap st !! bp_tail st);
          Ok (<[bp_tail st := {| next := bp; type := type t; size := size t; u := u t |}]> (bp_heap st),
              bp_head st)) = Ok (heap, head) /\
    lseg (<[bp:=n]> heap) head (l ++ [view_of (bp, n)]) NULL).
  { destruct l as [|v l _] using rev_ind.
    - pose proof (repr_seg _ _ Hr) as Hs. cbn in Hs. rewrite Hs. eexists _, _. split; [done|].
      cbn. split_and!; [done|unfold NULL; lia|]. exists NULL. split; [|done].
      unfold node_at. by rewrite lookup_insert_eq.
    - pose proof (repr_seg _ _ Hr) as Hs.
      assert (Hhd : bp_head st <> NULL) by (destruct l; cbn in Hs; destruct Hs as (? & ? & _); congruence).
      destruct (Z.eqb_spec (bp_head st) NULL); [done|].
      rewrite (repr_tail _ _ Hr v) by apply last_snoc.
      destruct (lseg_snoc _ _ _ _ bp n Hs) as (t & Ht & Hseg); [| |unfold NULL; lia|done|].
      + intros w [i Hi]%list_elem_of_lookup. assert (i < length l)%nat by by eapply lookup_lt_Some.
        apply (repr_addr_ne _ _ i (length l) _ _ Hr); [lia|by apply lookup_app_l_Some|].
        by apply list_lookup_middle.
      + exact Hne.
      + rewrite Ht. cbn. by eexists _, _. }
  destruct Hseg as (heap & head & -> & Hseg). cbn.
  replace (bp + sizeof_bparm_t - sizeof_bparm_t) with bp by lia.
  split; [|by eexists]. split; cbn [bp_alloc bp_heap bp_head bp_tail].
  - by eapply (alc_alloc_inv _ _ 8 _ _ (repr_inv _ _ Hr) Hpos ltac:(by exists 3) ltac:(lia)).
  - exact Hseg.
  - intros v. rewrite last_snoc. by intros [= <-].
  - intros v [Hv| ->%list_elem_of_singleton]%elem_of_app; [by eapply repr_size|done].
  - intros v x [Hv| ->%list_elem_of_singleton]%elem_of_app Hx Hf.
    + eapply (repr_used _ _ Hr v x Hv Hx).
      by eapply (alc_alloc_free _ _ 8 _ _ _ (repr_inv _ _ Hr) Hpos ltac:(by exists 3) ltac:(lia)).
    + by destruct (Hblk x Hx).
  - intros i j v w Hij [[? Hv]|[-> <-]]%lookup_snoc_Some [[? Hw]|[-> <-]]%lookup_snoc_Some; cbn.
    + by eapply (repr_disj _ _ Hr i j).
    + apply Hfresh. by eapply list_elem_of_lookup_2.
    + lia.
    + lia.
Qed.

(** A store through the data pointer of the last node. *)
Lemma bparm_store_repr st l v d :
  bparms_repr st (l ++ [v]) ->
  exists st', bparm_store st (v_addr v + sizeof_bparm_t) d = Ok st' /\
    bp_alloc st' = bp_alloc st /\
    bparms_repr st' (l ++ [{| v_addr := v_addr v; v_type := v_type v; v_size := v_size v; v_data := d |}]).
Proof.
  intros Hr. unfold bparm_store. replace (v_addr v + sizeof_bparm_t - sizeof_bparm_t) with (v_addr v) by lia.
  pose proof (repr_seg _ _ Hr) as Hs.
  apply lseg_app in Hs as (m & Hl & -> & Hnn & nx & Hn & ->).
  unfold node_at in Hn. rewrite Hn. cbn. eexists. split; [done|]. split; [done|].
  split; cbn [bp_alloc bp_heap bp_head bp_tail].
  - apply Hr.
  - apply lseg_app. exists (v_addr v). split.
    + apply lseg_insert; [|done]. intros w [i Hi]%list_elem_of_lookup.
      assert (i < length l)%nat by by eapply lookup_lt_Some.
      apply (repr_addr_ne _ _ i (length l) _ _ Hr); [lia|by apply lookup_app_l_Some|].
      by apply list_lookup_middle.
    + cbn. split_and!; [done|done|]. exists NULL. split; [|done]. unfold node_at. by rewrite lookup_insert_eq.
  - intros w. rewrite last_snoc. intros [= <-]. cbn. apply (repr_tail _ _ Hr). by rewrite last_snoc.
  - intros w [Hw| ->%list_elem_of_singleton]%elem_of_app; cbn; eapply (repr_size _ _ Hr);
      apply elem_of_app; [by left|right; by apply list_elem_of_singleton].
  - intros w x [Hw| ->%list_elem_of_singleton]%elem_of_app; cbn; eapply (repr_used _ _ Hr);
      apply elem_of_app; [by left|right; by apply list_elem_of_singleton].
  - intros i j w z Hij [[? Hw]|[-> <-]]%lookup_snoc_Some [[? Hz]|[-> <-]]%lookup_snoc_Some; cbn; try lia.
    + eapply (repr_disj _ _ Hr i j); [done|by apply lookup_app_l_Some..].
    + eapply (repr_disj _ _ Hr i (length l) w v);
        [done|by apply lookup_app_l_Some|by apply list_lookup_middle].
Qed.
End properties.

(** The view of a memory-range node. *)
Definition mrng_view (a start len ty ext attr : Z) : bp_view :=
  {| v_addr := a; v_type := BP_MRNG; v_size := sizeof_bdat_mem_range_t;
     v_data := BdatMrng {| mr_start := start; mr_len := len; mr_e820_type := ty;
                           mr_e820_ext_attr := ext; mr_uefi_attr := attr |} |}.

Definition mrng_node_size : Z := sizeof_bparm_t + sizeof_bdat_mem_range_t.

Section mem_range.
Context {A : Type} `{HA : Allocator A} `{HL : !AllocatorLaws A} `{HN : !NonNull A}.
Implicit Types st : bparms A.

Lemma bparm_add_mem_range_repr st l start len ty ext attr :
  bparms_repr st l ->
  match bparm_add_mem_range st start len ty ext attr with
  | Ok (p, st') =>
      (len = 0 /\ p = NULL /\ st' = st) \/
      (len <> 0 /\
       alc_alloc (bp_alloc st) mrng_node_size 8 = Ok (p - sizeof_bparm_t, bp_alloc st') /\
       bparms_repr st' (l ++ [mrng_view (p - sizeof_bparm_t) start len ty ext attr]))
  | Fail f => len <> 0 /\ alc_alloc (bp_alloc st) mrng_node_size 8 = Fail f
  end.
Proof.
  intros Hr. unfold bparm_add_mem_range.
  destruct (Z.eqb_spec len 0) as [->|Hlen]; [by left|].
  pose proof (bparm_add_repr st l BP_MRNG sizeof_bdat_mem_range_t Hr ltac:(done)) as Hadd.
  destruct (bparm_add st BP_MRNG sizeof_bdat_mem_range_t) as [[p st1]|f]; cbn; [|done].
  destruct Hadd as (Hr1 & a & Ha & Ea).
  destruct (bparm_store_repr st1 l _ (BdatMrng
    {| mr_start := start; mr_len := len; mr_e820_type := ty;
       mr_e820_ext_attr := ext; mr_uefi_attr := attr |}) Hr1) as (st2 & E & Eal & Hr2).
  cbn in E. replace (p - sizeof_bparm_t + sizeof_bparm_t) with p in E by lia.
  rewrite E. cbn. right. split_and!; [done| |done]. by rewrite Eal, Ea.
Qed.

(** C12: [bparm_add] appends a node to the list the store represents, fresh and overlapping no
    earlier node, with the tail pointer, the [next] links and the earlier nodes intact; it
    fails only when the allocator does. *)
Theorem bparm_add_appends st l ty sz :
  bparms_repr st l -> 0 <= sz ->
  match bparm_add st ty sz with
  | Ok (p, st') =>
      bparms_repr st' (l ++ [{| v_addr := p - sizeof_bparm_t; v_type := ty; v_size := sz;
                                v_data := BdatZero sz |}]) /\
      bp_head st' = (if bp_head st =? NULL then p - sizeof_bparm_t else bp_head st)
  | Fail f => alc_alloc (bp_alloc st) (sizeof_bparm_t + sz) 8 = Fail f
  end.
Proof.
  intros Hr Hsz. pose proof (bparm_add_repr st l ty sz Hr Hsz) as Hadd.
  destruct (bparm_add st ty sz) as [[p st']|f] eqn:E; [|done].
  destruct Hadd as (Hr' & _). split; [done|].
  unfold bparm_add in E. inv_result. cbn.
  destruct (bp_head st =? NULL); inv_result; lia.
Qed.

(** A walk along [next] from [bparm_get] ends, and visits exactly the nodes added, in the
    order of the calls, with the data stored last. *)
Theorem bparm_walk_list st l start len ty ext attr p st' :
  bparms_repr st l -> len <> 0 ->
  bparm_add_mem_range st start len ty ext attr = Ok (p, st') ->
  exists ns, bparm_walk (length l + 2) (bp_heap st') (bparm_get st') = Ok ns /\
    view_of <$> ns = l ++ [mrng_view (p - sizeof_bparm_t) start len ty ext attr].
Proof.
  intros Hr Hlen E. pose proof (bparm_add_mem_range_repr st l start len ty ext attr Hr) as H.
  rewrite E in H. destruct H as [[? _]|(_ & _ & Hr')]; [done|].
  apply lseg_walk; [apply Hr'|]. rewrite length_app. cbn. lia.
Qed.
End mem_range.
