(* ===== verification/BmemFini.v ===== *)
(** * Closing base memory: [bmem_fini] and the base-memory ranges (src/stage1/bmem.c)

    [add_uefi_mem_bparms] and [add_our_mem_bparms] describe base memory to stage 2 as "MRNG" boot
    parameters.  They allocate those parameters from the very blocks they describe, so the state
    is the whole boot-parameter state over the base-memory allocator ([bparms bmem]).  The
    theorems: what [bmem_fini] guarantees about the two marks it returns, which ranges are
    reported, and two behaviours the comments do not announce. *)

From stdpp Require Import sorting.
From S2P Require Import Prelude Bmem BmemInit Bparm.

(** ** Operations *)

Definition e820_type_of (t : efi_memory_type) : Z :=
  match t with
  | EfiACPIReclaimMemory => E820_ACPI
  | EfiACPIMemoryNVS => E820_NVS
  | EfiPersistentMemory => E820_PMEM
  | _ => E820_RESERVED
  end.

Fixpoint add_uefi_mem_bparms (st : bparms bmem) (descs : list mem_desc) : result (bparms bmem) :=
  match descs with
  | [] => Ok st
  | desc :: descs =>
      let start := PhysicalStart desc in
      if start >=? BMEM_MAX_ADDR then add_uefi_mem_bparms st descs
      else
        let sz := u64 (NumberOfPages desc * EFI_PAGE_SIZE) in
        let sz := if sz >? BMEM_MAX_ADDR - start then BMEM_MAX_ADDR - start else sz in
        if freed_on_exit (Type_ desc) then add_uefi_mem_bparms st descs
        else
          '(_, st) ← bparm_add_mem_range st start sz (e820_type_of (Type_ desc)) 1 (Attribute desc);
          add_uefi_mem_bparms st descs
  end.

(** [while (blk_idx < num_blks && blk[blk_idx].start < runtime_bmem_top) ++blk_idx;] *)
Fixpoint skip_below (l : list blk_info) (top : Z) : nat :=
  match l with
  | [] => 0
  | b :: l => if Bmem.start b <? top then S (skip_below l top) else 0
  end.

(** [while (blk_idx < num_blks) { ... ++blk_idx; }]; [blk] and [num_blks] are read afresh in each
    round, since the two additions may change them. *)
Fixpoint our_blks_loop (fuel : nat) (st : bparms bmem) (blk_idx : nat) : result (bparms bmem) :=
  match fuel with
  | O => Fail Diverges
  | S fuel =>
      match blk (bp_alloc st) !! blk_idx with
      | None => Ok st
      | Some b =>
          '(_, st) ← bparm_add_mem_range st (Bmem.start b) (u32 (end_ b - Bmem.start b))
                       E820_RAM 1 (bmem_uefi_attr (bp_alloc st));
          '(_, st) ← bparm_add_mem_range st (end_ b) (u32 (orig_end b - end_ b))
                       E820_RESERVED 1 (bmem_uefi_attr (bp_alloc st));
          our_blks_loop fuel st (S blk_idx)
      end
  end.

Definition add_our_mem_bparms (st : bparms bmem) : result (bparms bmem) :=
  '(_, st) ← bparm_add_mem_range st 0 (runtime_bmem_top (bp_alloc st)) E820_RAM 1
               (bmem_uefi_attr (bp_alloc st));
  let s := bp_alloc st in
  our_blks_loop (S (length (blk s))) st (skip_below (blk s) (runtime_bmem_top s)).

(** Returns [*p_boottime_bmem_bot], [*p_runtime_bmem_top] and the boot parameters. *)
Definition bmem_fini (st : bparms bmem) (descs : list mem_desc) : result (Z * Z * bparms bmem) :=
  st ← add_uefi_mem_bparms st descs;
  st ← add_our_mem_bparms st;
  let s := bp_alloc st in
  let s := {| blk := blk s;
              boottime_bmem_bot :=
                Z.land (u32 (boottime_bmem_bot s + PARA_SIZE - 1)) (u32 (- PARA_SIZE));
              runtime_bmem_top := Z.land (runtime_bmem_top s) (u32 (- KIBYTE));
              bmem_uefi_attr := bmem_uefi_attr s |} in
  _ ← bmem_check_enough s;
  Ok (boottime_bmem_bot s, runtime_bmem_top s,
      {| bp_alloc := s; bp_heap := bp_heap st; bp_head := bp_head st; bp_tail := bp_tail st |}).

(** ** Adding a list of ranges *)

(** The nodes are in the part of base memory that stage 2 gives back. *)
Record stage1_repr (st : bparms bmem) (l : list bp_view) : Prop := {
  s1_repr : bparms_repr st l;
  s1_below : forall v, v ∈ l ->
    EFI_PAGE_SIZE <= v_addr v /\
    v_addr v + sizeof_bparm_t + v_size v <= boottime_bmem_bot (bp_alloc st);
}.

Definition is_mrng (v : bp_view) (d : bdat_mem_range_t) : Prop :=
  v_type v = BP_MRNG /\ v_size v = sizeof_bdat_mem_range_t /\ v_data v = BdatMrng d.

Definition some_mrng (v : bp_view) : Prop := exists d, is_mrng v d.

Lemma Forall2_some_mrng vs ds : Forall2 is_mrng vs ds -> Forall some_mrng vs.
Proof. induction 1; constructor; [by eexists|done]. Qed.

(** One addition to [bparms bmem]: what changes in the allocator and in the list. *)
Lemma add_mem_range_stage1 st l start len ty ext attr p st' :
  stage1_repr st l -> bparm_add_mem_range st start len ty ext attr = Ok (p, st') ->
  exists vs, stage1_repr st' (l ++ vs) /\
    runtime_bmem_top (bp_alloc st') = runtime_bmem_top (bp_alloc st) /\
    Forall2 is_mrng vs (if len =? 0 then [] else
      [{| mr_start := start; mr_len := len; mr_e820_type := ty;
          mr_e820_ext_attr := ext; mr_uefi_attr := attr |}]).
Proof.
  intros [Hr Hb] E. pose proof (bparm_add_mem_range_repr st l start len ty ext attr Hr) as H.
  rewrite E in H. destruct H as [(-> & -> & ->)|(Hlen & Ha & Hr')].
  { exists []. rewrite app_nil_r. by split_and!; [split| |constructor]. }
  destruct (Z.eqb_spec len 0); [done|]. cbn in Ha.
  pose proof (bmem_alloc_boottime_spec (bp_alloc st) mrng_node_size 8 (repr_inv _ _ Hr)
                ltac:(done) (valid_align_page 8 ltac:(by exists 3) ltac:(lia))) as Hspec.
  rewrite Ha in Hspec. destruct Hspec as (_ & _ & Hlo & _ & _ & _ & Htop & Hbot).
  exists [mrng_view (p - sizeof_bparm_t) start len ty ext attr].
  split_and!; [|done|by repeat constructor]. split; [done|].
  intros v [Hv| ->%list_elem_of_singleton]%elem_of_app.
  - destruct (Hb v Hv). split; lia.
  - cbn. unfold mrng_node_size in *. lia.
Qed.

(** The ranges [add_uefi_mem_bparms] reports, and those of [add_our_mem_bparms]. *)
Definition uefi_range (d : mem_desc) : list bdat_mem_range_t :=
  let start := PhysicalStart d in
  let sz := u64 (NumberOfPages d * EFI_PAGE_SIZE) in
  if (start >=? BMEM_MAX_ADDR) || freed_on_exit (Type_ d) || (sz =? 0) then []
  else [ {| mr_start := start; mr_len := Z.min sz (BMEM_MAX_ADDR - start);
            mr_e820_type := e820_type_of (Type_ d); mr_e820_ext_attr := 1;
            mr_uefi_attr := Attribute d |} ].

Definition bmem_range (start len ty attr : Z) : list bdat_mem_range_t :=
  if len =? 0 then []
  else [ {| mr_start := start; mr_len := len; mr_e820_type := ty; mr_e820_ext_attr := 1;
            mr_uefi_attr := attr |} ].

Definition our_blk_ranges (attr : Z) (b : blk_info) : list bdat_mem_range_t :=
  bmem_range (Bmem.start b) (end_ b - Bmem.start b) E820_RAM attr ++
  bmem_range (end_ b) (orig_end b - end_ b) E820_RESERVED attr.

Definition our_ranges (s : bmem) : list bdat_mem_range_t :=
  bmem_range 0 (runtime_bmem_top s) E820_RAM (bmem_uefi_attr s) ++
  mjoin (our_blk_ranges (bmem_uefi_attr s) <$>
           List.filter (fun b => runtime_bmem_top s <=? Bmem.start b) (blk s)).

Lemma add_uefi_stage1 descs st l st' :
  stage1_repr st l -> add_uefi_mem_bparms st descs = Ok st' ->
  exists vs, stage1_repr st' (l ++ vs) /\
    runtime_bmem_top (bp_alloc st') = runtime_bmem_top (bp_alloc st) /\
    Forall2 is_mrng vs (mjoin (uefi_range <$> descs)).
Proof.
  revert st l. induction descs as [|d descs IH]; intros st l Hr E; cbn in E.
  { inv_result. exists []. rewrite app_nil_r. by split_and!; [|done|constructor]. }
  rewrite fmap_cons. cbn [mjoin list_join].
  unfold uefi_range at 1. rewrite Z.geb_leb in *.
  destruct (Z.leb_spec BMEM_MAX_ADDR (PhysicalStart d)) as [|Hlt]; [by apply (IH st)|].
  destruct (freed_on_exit (Type_ d)) eqn:Hf; [by apply (IH st)|]. cbn. inv_result.
  destruct (add_mem_range_stage1 _ _ _ _ _ _ _ _ _ Hr Hm) as (vs1 & Hr1 & Ht1 & Hv1).
  destruct (IH _ _ Hr1 E) as (vs2 & Hr2 & Ht2 & Hv2).
  exists (vs1 ++ vs2). rewrite app_assoc. split_and!; [done|congruence|].
  apply Forall2_app; [|done]. revert Hv1. rewrite Z.gtb_ltb.
  set (sz := u64 _). assert (Hs : 0 <= sz) by (by apply wrap_range).
  destruct (Z.ltb_spec (BMEM_MAX_ADDR - PhysicalStart d) sz).
  - rewrite Z.min_r by lia. destruct (Z.eqb_spec (BMEM_MAX_ADDR - PhysicalStart d) 0), (Z.eqb_spec sz 0); (done || lia).
  - rewrite Z.min_l by lia. by destruct (Z.eqb_spec sz 0).
Qed.

(** Ranges of base memory, one after the other. *)
Definition range_after (d e : bdat_mem_range_t) : Prop := mr_start d + mr_len d <= mr_start e.

Definition low_range (from : Z) (d : bdat_mem_range_t) : Prop :=
  from <= mr_start d /\ 0 <= mr_len d /\ mr_start d + mr_len d <= BMEM_MAX_ADDR.

Definition in_order (from : Z) (l : list bdat_mem_range_t) : Prop :=
  StronglySorted range_after l /\ Forall (low_range from) l.

Lemma in_order_app from mid l1 l2 :
  from <= mid -> in_order from l1 -> Forall (fun d => mr_start d + mr_len d <= mid) l1 -> in_order mid l2 ->
  in_order from (l1 ++ l2).
Proof.
  intros Hle [Hs1 Hl1] Hm [Hs2 Hl2]. rewrite Forall_forall in Hm. split.
  - apply StronglySorted_app. split_and!; [|done|done]. intros d e Hd He. rewrite Forall_forall in Hl2.
    destruct (Hl2 e He). specialize (Hm d Hd). unfold range_after. lia.
  - apply Forall_app_2; [done|]. eapply Forall_impl; [exact Hl2|]. unfold low_range. intros d. lia.
Qed.

Lemma in_order_one vs from start len ty ext attr :
  from <= start -> 0 <= len -> start + len <= BMEM_MAX_ADDR ->
  Forall2 is_mrng vs (if len =? 0 then [] else
    [{| mr_start := start; mr_len := len; mr_e820_type := ty; mr_e820_ext_attr := ext; mr_uefi_attr := attr |}]) ->
  exists ds, Forall2 is_mrng vs ds /\ in_order from ds /\ Forall (fun d => mr_start d + mr_len d <= start + len) ds.
Proof.
  intros Hf Hl Hb Hv. eexists. split; [exact Hv|]. destruct (len =? 0); [by split; [split; constructor|constructor]|].
  split; [split|]; repeat constructor; cbn; lia.
Qed.

(** An addition of a node leaves the blocks from an index on where they are, or further on. *)
Lemma add_mem_range_later st l start len ty ext attr p st' from i :
  stage1_repr st l -> bparm_add_mem_range st start len ty ext attr = Ok (p, st') ->
  (forall k b, (i <= k)%nat -> blk (bp_alloc st) !! k = Some b -> from <= Bmem.start b) ->
  forall k b, (i <= k)%nat -> blk (bp_alloc st') !! k = Some b -> from <= Bmem.start b.
Proof.
  intros [Hr _] E Hfrom k b Hk Hb. pose proof (bparm_add_mem_range_repr st l start len ty ext attr Hr) as H.
  rewrite E in H. destruct H as [(_ & _ & ->)|(_ & Ha & _)]; [by apply (Hfrom k)|]. cbn in Ha.
  destruct (bmem_alloc_boottime_later (bp_alloc st) mrng_node_size 8 _ _ k b (repr_inv _ _ Hr) ltac:(done)
    (valid_align_page 8 ltac:(by exists 3) ltac:(lia)) Ha Hb) as (j & c & Hj & Hc & Hle).
  specialize (Hfrom j c ltac:(lia) Hc). lia.
Qed.

(** The loop reports ranges that lie one after the other, from where the blocks begin. *)
Lemma our_blks_stage1 fuel st l st' idx from :
  stage1_repr st l -> 0 <= from ->
  (forall k b, (idx <= k)%nat -> blk (bp_alloc st) !! k = Some b -> from <= Bmem.start b) ->
  our_blks_loop fuel st idx = Ok st' ->
  exists vs ds, stage1_repr st' (l ++ vs) /\
    runtime_bmem_top (bp_alloc st') = runtime_bmem_top (bp_alloc st) /\ Forall2 is_mrng vs ds /\ in_order from ds.
Proof.
  revert st l idx from. induction fuel as [|fuel IH]; intros st l idx from Hr H0 Hfrom E; cbn in E; [done|].
  destruct (blk (bp_alloc st) !! idx) as [b|] eqn:Hb; inv_result.
  2: { exists [], []. rewrite app_nil_r. split_and!; [done|done|constructor|split; constructor]. }
  assert (Hinv : bmem_inv (bp_alloc st)) by exact (repr_inv _ _ (s1_repr _ _ Hr)).
  pose proof (inv_blk _ Hinv idx b Hb) as (B1 & B2 & B3 & B4 & _).
  specialize (Hfrom idx b ltac:(lia) Hb) as Hfb. unfold_consts.
  rewrite (wrap_small 32) in Hm by lia. rewrite (wrap_small 32) in Hm0 by lia.
  destruct (add_mem_range_stage1 _ _ _ _ _ _ _ _ _ Hr Hm) as (vs1 & Hr1 & Ht1 & Hv1).
  destruct (add_mem_range_stage1 _ _ _ _ _ _ _ _ _ Hr1 Hm0) as (vs2 & Hr2 & Ht2 & Hv2).
  assert (Hnext : forall k c, (S idx <= k)%nat -> blk (bp_alloc st) !! k = Some c -> orig_end b <= Bmem.start c).
  { intros k c Hk Hc. apply (inv_order _ Hinv idx k b c); [lia|done|done]. }
  destruct (IH _ _ (S idx) (orig_end b) Hr2 ltac:(lia)
    (add_mem_range_later _ _ _ _ _ _ _ _ _ _ _ Hr1 Hm0 (add_mem_range_later _ _ _ _ _ _ _ _ _ _ _ Hr Hm Hnext)) E)
    as (vs3 & ds3 & Hr3 & Ht3 & Hv3 & Ho3).
  destruct (in_order_one vs1 from _ _ _ _ _ Hfb (proj2 (Z.le_0_sub _ _) B2) ltac:(zsolve) Hv1) as (ds1 & V1 & O1 & U1).
  destruct (in_order_one vs2 (end_ b) _ _ _ _ _ (Z.le_refl _) (proj2 (Z.le_0_sub _ _) B3) ltac:(zsolve) Hv2) as (ds2 & V2 & O2 & U2).
  exists (vs1 ++ vs2 ++ vs3), (ds1 ++ ds2 ++ ds3). rewrite !app_assoc in *.
  split_and!; [done|congruence|by repeat apply Forall2_app|]. rewrite <- app_assoc.
  apply (in_order_app from (end_ b)); [lia|done| |].
  - eapply Forall_impl; [exact U1|]. cbn. lia.
  - apply (in_order_app _ (orig_end b)); [lia|done| |done]. eapply Forall_impl; [exact U2|]. cbn. lia.
Qed.

(** The blocks of the loop begin at or above the run-time top. *)
Lemma skip_below_from l top k b :
  (forall i j b c, (i < j)%nat -> l !! i = Some b -> l !! j = Some c -> Bmem.start b <= Bmem.start c) ->
  (skip_below l top <= k)%nat -> l !! k = Some b -> top <= Bmem.start b.
Proof.
  revert k. induction l as [|c l IH]; intros k Hs Hk Hb; [done|]. cbn in Hk.
  destruct (Z.ltb_spec (Bmem.start c) top).
  - destruct k as [|k]; [lia|]. apply (IH k); [|lia|done]. intros i j x y Hij. apply (Hs (S i) (S j)). lia.
  - destruct k as [|k]; [cbn in Hb; simplify_eq; lia|]. pose proof (Hs 0%nat (S k) c b ltac:(lia) eq_refl Hb). lia.
Qed.

Lemma add_our_stage1 st l st' :
  stage1_repr st l -> add_our_mem_bparms st = Ok st' ->
  exists vs1 vs2 ds, stage1_repr st' (l ++ vs1 ++ vs2) /\
    runtime_bmem_top (bp_alloc st') = runtime_bmem_top (bp_alloc st) /\
    Forall2 is_mrng vs1 (bmem_range 0 (runtime_bmem_top (bp_alloc st)) E820_RAM
                           (bmem_uefi_attr (bp_alloc st))) /\
    Forall2 is_mrng vs2 ds /\ in_order (runtime_bmem_top (bp_alloc st)) ds.
Proof.
  intros Hr E. unfold add_our_mem_bparms in E. inv_result.
  destruct (add_mem_range_stage1 _ _ _ _ _ _ _ _ _ Hr Hm) as (vs1 & Hr1 & Ht1 & Hv1).
  pose proof (repr_inv _ _ (s1_repr _ _ Hr1)) as Hinv. cbn in Hinv. pose proof (inv_top _ Hinv).
  eapply (our_blks_stage1 _ _ _ _ _ (runtime_bmem_top (bp_alloc st)) Hr1) in E
    as (vs2 & ds & Hr2 & Ht2 & Hv2 & Ho); [|lia|].
  2: { intros k c Hk Hc. rewrite <- Ht1. refine (skip_below_from _ _ k c _ Hk Hc).
    intros i j d e Hij Hd He. pose proof (inv_order _ Hinv i j d e Hij Hd He).
    destruct (inv_blk _ Hinv i d Hd) as (_ & ? & ? & _). lia. }
  exists vs1, vs2, ds. rewrite app_assoc. split_and!; [done|congruence|done|done|done].
Qed.

(** All of base memory that stage 1 reports as its own. *)
Lemma in_order_base top attr ds :
  0 <= top <= BMEM_MAX_ADDR -> in_order top ds -> in_order 0 (bmem_range 0 top E820_RAM attr ++ ds).
Proof.
  intros Ht Ho. unfold bmem_range. destruct (Z.eqb_spec top 0) as [->|]; [done|].
  apply (in_order_app _ top); [lia| |by repeat constructor|done]. repeat constructor; cbn; lia.
Qed.

(** [bmem_fini] taken apart. *)
Lemma bmem_fini_facts st st' l descs bot top :
  stage1_repr st l -> bmem_fini st descs = Ok (bot, top, st') ->
  exists vs1 vs2 vs3 attr, lseg (bp_heap st') (bparm_get st') (l ++ vs1 ++ vs2 ++ vs3) NULL /\
    (exists st2, bparms_repr st2 (l ++ vs1 ++ vs2 ++ vs3) /\ bp_heap st' = bp_heap st2) /\
    Forall2 is_mrng vs1 (mjoin (uefi_range <$> descs)) /\
    Forall2 is_mrng vs2 (bmem_range 0 (runtime_bmem_top (bp_alloc st)) E820_RAM attr) /\
    (exists ds, Forall2 is_mrng vs3 ds /\ in_order (runtime_bmem_top (bp_alloc st)) ds) /\ (PARA_SIZE | bot) /\ (KIBYTE | top) /\ 192 * KIBYTE <= top /\
    top <= runtime_bmem_top (bp_alloc st) <= BMEM_MAX_ADDR /\ bot + 128 * KIBYTE <= top /\
    forall v, v ∈ l ++ vs1 ++ vs2 ++ vs3 ->
      EFI_PAGE_SIZE <= v_addr v /\ v_addr v + sizeof_bparm_t + v_size v <= bot.
Proof.
  intros Hr E. unfold bmem_fini in E. inv_result.
  destruct (add_uefi_stage1 _ _ _ _ Hr Hm) as (vs1 & Hr1 & Ht1 & Hv1).
  destruct (add_our_stage1 _ _ _ Hr1 Hm0) as (vs2 & vs3 & ds & Hr2 & Ht2 & Hv2 & Hv3 & Ho3).
  rewrite Ht1 in Hv2, Ho3.
  pose proof (repr_inv _ _ (s1_repr _ _ Hr2)) as Hinv. cbn in Hinv.
  pose proof (inv_top _ Hinv) as Htop. pose proof (inv_bot _ Hinv) as Hbot.
  exists vs1, vs2, vs3, (bmem_uefi_attr (bp_alloc a)). rewrite (app_assoc l).
  set (s := bp_alloc a0) in *. unfold_consts.
  assert (P16 : is_pow2 16) by by exists 4. assert (P1024 : is_pow2 1024) by by exists 10.
  cbn [runtime_bmem_top boottime_bmem_bot bp_heap] in *.
  rewrite (wrap_small 32 (boottime_bmem_bot s + 16 - 1)) in * by lia.
  rewrite !(land_wrap_opp 32) in * by (done || lia).
  unfold bmem_check_enough in Hm1. cbn [runtime_bmem_top boottime_bmem_bot] in *. unfold_consts.
  case_match eqn:Hc; [done|]. apply orb_false_elim in Hc as [Hc1%Z.ltb_ge Hc2].
  pose proof (align_down_le (runtime_bmem_top s) 1024 ltac:(lia)).
  rewrite Z.gtb_ltb, wrap_small in Hc2 by lia. apply Z.ltb_ge in Hc2.
  pose proof (align_up_ge (boottime_bmem_bot s) 16 ltac:(lia)) as Hge. unfold align_up in Hge.
  split_and!; try (done || lia); [apply Hr2|exists a0; split; [apply Hr2|done]|by exists ds|apply align_down_divide..|].
  intros v Hv. destruct (s1_below _ _ Hr2 v Hv) as [Hlo Hv2']. fold s in Hv2'. unfold_consts. lia.
Qed.

(** ** It ends *)

Lemma bparm_add_ends (st : bparms bmem) ty sz : ends (bparm_add st ty sz).
Proof.
  unfold bparm_add. apply ends_bind; [apply bmem_alloc_boottime_ends|]. intros [bp a] _.
  apply ends_bind; [|by intros [heap head] _]. destruct (_ =? _); [done|].
  apply ends_bind; [apply ends_checked|done].
Qed.

Lemma bparm_store_ends (st : bparms bmem) p d : ends (bparm_store st p d).
Proof. apply ends_bind; [apply ends_checked|done]. Qed.

Lemma bparm_add_blks (st : bparms bmem) ty sz p st' :
  bparm_add st ty sz = Ok (p, st') -> (length (blk (bp_alloc st')) <= length (blk (bp_alloc st)))%nat.
Proof.
  intros E. unfold bparm_add in E. inv_result. cbn. by eapply bmem_alloc_boottime_shrinks.
Qed.

Lemma add_mem_range_ends (st : bparms bmem) start len ty ext attr :
  ends (bparm_add_mem_range st start len ty ext attr).
Proof.
  unfold bparm_add_mem_range. destruct (_ =? _); [done|]. apply ends_bind; [apply bparm_add_ends|]. intros [bd st1] _.
  apply ends_bind; [apply bparm_store_ends|done].
Qed.

Lemma add_mem_range_blks (st : bparms bmem) start len ty ext attr p st' :
  bparm_add_mem_range st start len ty ext attr = Ok (p, st') ->
  (length (blk (bp_alloc st')) <= length (blk (bp_alloc st)))%nat.
Proof.
  unfold bparm_add_mem_range. destruct (_ =? _); [by intros [= _ <-]|]. intros E. unfold bparm_store in E. inv_result.
  cbn. by eapply bparm_add_blks.
Qed.

#[export] Hint Resolve bparm_add_ends bparm_store_ends add_mem_range_ends : ends.

Lemma add_uefi_ends descs : forall st, ends (add_uefi_mem_bparms st descs).
Proof.
  induction descs as [|d descs IH]; intros st; cbn [add_uefi_mem_bparms]; [done|].
  repeat case_match; try apply IH; (apply ends_bind; [auto with ends|]; intros [q st1] _; apply IH).
Qed.

Lemma our_blks_ends fuel : forall st i, (length (blk (bp_alloc st)) - i < fuel)%nat -> ends (our_blks_loop fuel st i).
Proof.
  induction fuel as [|fuel IH]; intros st i Hf; [lia|]. cbn [our_blks_loop].
  destruct (blk (bp_alloc st) !! i) as [b|] eqn:Hb; [|done]. apply lookup_lt_Some in Hb.
  apply ends_bind; [auto with ends|]. intros [q st1] E1. apply ends_bind; [auto with ends|]. intros [q2 st2] E2.
  apply add_mem_range_blks in E1, E2. apply IH. lia.
Qed.

Lemma bmem_fini_ends st descs : ends (bmem_fini st descs).
Proof.
  unfold bmem_fini. apply ends_bind; [apply add_uefi_ends|]. intros st1 _. apply ends_bind.
  - unfold add_our_mem_bparms. apply ends_bind; [auto with ends|]. intros [q st2] _. apply our_blks_ends. lia.
  - intros st2 _. apply ends_bind; [|done]. unfold bmem_check_enough. by case_match.
Qed.

(** ** Properties *)

(** C13: the marks that [bmem_fini] hands over: the boot-time bottom is a paragraph boundary above
    every boot parameter (those it adds itself included), the run-time top is a KiB boundary with
    at least 192 KiB below it, and between the two lie at least 128 KiB of scratch memory. *)
Theorem bmem_fini_marks (st st' : bparms bmem) (l : list bp_view) (descs : list mem_desc)
    (bot top : Z) :
  stage1_repr st l -> bmem_fini st descs = Ok (bot, top, st') ->
  exists vs, lseg (bp_heap st') (bparm_get st') (l ++ vs) NULL /\
    (PARA_SIZE | bot) /\ (KIBYTE | top) /\
    192 * KIBYTE <= top /\ top <= runtime_bmem_top (bp_alloc st) /\ bot + 128 * KIBYTE <= top /\
    forall v, v ∈ l ++ vs ->
      EFI_PAGE_SIZE <= v_addr v /\ v_addr v + sizeof_bparm_t + v_size v <= bot.
Proof.
  intros Hr E.
  destruct (bmem_fini_facts _ _ _ _ _ _ Hr E) as (vs1 & vs2 & vs3 & attr & ? & _ & _ & _ & _ & ? & ? & ? & [? _] & ? & ?).
  by exists (vs1 ++ vs2 ++ vs3).
Qed.

Definition ranges_overlap (d e : bdat_mem_range_t) : Prop :=
  exists x, in_range (mr_start d) (mr_len d) x /\ in_range (mr_start e) (mr_len e) x.

(** The map handed to stage 2 contradicts itself whenever the firmware's map lists a
    run-time-services range that starts below the run-time top.  [bmem_init] allocates all of
    base memory with exactly that type, so its own pages come back as such ranges: they are
    reported once as reserved and once, inside [0, runtime_bmem_top), as available. *)
Theorem bmem_fini_reports_twice (st st' : bparms bmem) (l : list bp_view) (descs : list mem_desc)
    (d : mem_desc) (bot top : Z) :
  stage1_repr st l -> bmem_fini st descs = Ok (bot, top, st') ->
  d ∈ descs -> Type_ d = EfiRuntimeServicesData -> 0 < NumberOfPages d < 2 ^ 52 ->
  0 <= PhysicalStart d < top ->
  exists v w dv dw vs, lseg (bp_heap st') (bparm_get st') (l ++ vs) NULL /\ v ∈ vs /\ w ∈ vs /\
    is_mrng v dv /\ mr_e820_type dv = E820_RESERVED /\
    is_mrng w dw /\ mr_e820_type dw = E820_RAM /\ ranges_overlap dv dw.
Proof.
  intros Hr E Hd Hty Hn Hs.
  destruct (bmem_fini_facts _ _ _ _ _ _ Hr E) as (vs1 & vs2 & vs3 & attr & Hseg & _ & Hv1 & Hv2 & _ & _ & _ & Hmin & Htop & _ & _).
  set (sz := NumberOfPages d * EFI_PAGE_SIZE). assert (Hsz : 0 < sz < 2 ^ 64) by (unfold sz; zsolve).
  set (dv := {| mr_start := PhysicalStart d; mr_len := Z.min sz (BMEM_MAX_ADDR - PhysicalStart d);
                mr_e820_type := E820_RESERVED; mr_e820_ext_attr := 1; mr_uefi_attr := Attribute d |}).
  set (dw := {| mr_start := 0; mr_len := runtime_bmem_top (bp_alloc st);
                mr_e820_type := E820_RAM; mr_e820_ext_attr := 1; mr_uefi_attr := attr |}).
  assert (Hdv : dv ∈ mjoin (uefi_range <$> descs)).
  { apply list_elem_of_join. exists (uefi_range d). split; [|by apply list_elem_of_fmap_2].
    unfold uefi_range. rewrite Hty, Z.geb_leb. fold sz. rewrite (wrap_small 64 sz) by lia.
    destruct (Z.leb_spec BMEM_MAX_ADDR (PhysicalStart d)); [lia|].
    destruct (Z.eqb_spec sz 0); [lia|]. by apply list_elem_of_singleton. }
  apply list_elem_of_lookup_1 in Hdv as [i Hi].
  destruct (Forall2_lookup_r _ _ _ _ _ Hv1 Hi) as (v & Hv & Hvd).
  unfold bmem_range in Hv2. destruct (Z.eqb_spec (runtime_bmem_top (bp_alloc st)) 0) as [H0|H0]; [zsolve|].
  fold dw in Hv2. apply Forall2_cons_inv_r in Hv2 as (w & ws & Hw & Hnil & ->).
  exists v, w, dv, dw, (vs1 ++ (w :: ws) ++ vs3). split_and!; try done.
  - apply elem_of_app. left. by eapply list_elem_of_lookup_2.
  - apply elem_of_app. right. left.
  - exists (PhysicalStart d). unfold in_range. cbn. lia.
Qed.

(** ** What [add_our_mem_bparms] reports *)

(** The first block, below the run-time top, holds [k] more range nodes with space to spare. *)
Definition room (s : bmem) (k : Z) : Prop :=
  exists b rest, blk s = b :: rest /\ end_ b <= runtime_bmem_top s /\
    align_up (Bmem.start b) 8 + mrng_node_size * k < end_ b.

Lemma room_low s b r k :
  blk s = b :: r -> 0 <= k -> room s k -> Bmem.start b < runtime_bmem_top s.
Proof.
  intros Hs Hk (b' & r' & E & Hend & Hlt). rewrite Hs in E. injection E as <- <-.
  pose proof (align_up_ge (Bmem.start b) 8 ltac:(lia)).
  unfold mrng_node_size, sizeof_bparm_t, sizeof_bdat_mem_range_t in *. nia.
Qed.

Lemma room_weaken s j k : j <= k -> room s k -> room s j.
Proof.
  intros Hle (b & rest & ? & ? & ?). exists b, rest. split_and!; [done..|].
  unfold mrng_node_size, sizeof_bparm_t, sizeof_bdat_mem_range_t in *. lia.
Qed.

Lemma room_alloc s k :
  bmem_inv s -> room s (k + 1) -> 0 <= k ->
  exists a s', bmem_alloc_boottime s mrng_node_size 8 = Ok (a, s') /\ room s' k /\
    tail (blk s') = tail (blk s) /\ bmem_uefi_attr s' = bmem_uefi_attr s.
Proof.
  intros Hinv (b & rest & Hb & Htop & Hroom) Hk.
  unfold mrng_node_size, sizeof_bparm_t, sizeof_bdat_mem_range_t in *.
  assert (Hb0 : blk s !! 0%nat = Some b) by by rewrite Hb.
  assert (Hfit : bot_fits b 48 8) by (unfold bot_fits, bot_place; lia).
  unfold bmem_alloc_boottime.
  destruct (bmem_alloc_boottime_loop_spec s 48 8 0 (length (blk s)) Hinv ltac:(lia)
             (valid_align_page 8 ltac:(by exists 3) ltac:(lia)) ltac:(done))
    as [(j & c & _ & Hc & _ & Hlo & E)|[Hno _]].
  2: { exfalso. by apply (Hno 0%nat b). }
  assert (j = 0)%nat as ->.
  { destruct j; [done|]. exfalso. apply (Hlo 0%nat b); [lia|done..]. }
  assert (c = b) as -> by congruence. unfold bot_place in *.
  rewrite decide_True in E by lia. eexists _, _. split; [exact E|].
  unfold place_bot, room, mrng_node_size, sizeof_bparm_t, sizeof_bdat_mem_range_t. cbn.
  rewrite decide_False, Hb by lia. cbn.
  split; [|done]. eexists _, _. split; [done|]. cbn. split; [done|].
  assert (align_up (align_up (Bmem.start b) 8 + 48) 8 = align_up (Bmem.start b) 8 + 48) as ->; [|lia].
  unfold align_up at 1. destruct (align_down_divide (Bmem.start b + 8 - 1) 8) as [q Hq].
  unfold align_up. rewrite Hq. unfold align_down. dlia.
Qed.

Lemma add_mem_range_room st l start len ty ext attr k :
  stage1_repr st l -> room (bp_alloc st) (k + 1) -> 0 <= k ->
  exists p st' vs, bparm_add_mem_range st start len ty ext attr = Ok (p, st') /\
    stage1_repr st' (l ++ vs) /\ room (bp_alloc st') k /\
    tail (blk (bp_alloc st')) = tail (blk (bp_alloc st)) /\
    bmem_uefi_attr (bp_alloc st') = bmem_uefi_attr (bp_alloc st) /\
    runtime_bmem_top (bp_alloc st') = runtime_bmem_top (bp_alloc st) /\
    Forall2 is_mrng vs (if len =? 0 then [] else
      [{| mr_start := start; mr_len := len; mr_e820_type := ty;
          mr_e820_ext_attr := ext; mr_uefi_attr := attr |}]).
Proof.
  intros Hr Hroom Hk.
  pose proof (bparm_add_mem_range_repr st l start len ty ext attr (s1_repr _ _ Hr)) as H.
  destruct (room_alloc (bp_alloc st) k (repr_inv _ _ (s1_repr _ _ Hr)) Hroom Hk)
    as (a & s' & Ha & Hroom' & Htl & Hattr).
  cbn in H. rewrite Ha in H.
  destruct (bparm_add_mem_range st start len ty ext attr) as [[p st']|f] eqn:E; [|by destruct H].
  destruct (add_mem_range_stage1 _ _ _ _ _ _ _ _ _ Hr E) as (vs & Hr' & Ht & Hv).
  exists p, st', vs. destruct H as [(-> & -> & ->)|(Hlen & [= _ Hs'] & _)].
  - split_and!; try done. by apply (room_weaken _ _ (k + 1)); [lia|].
  - rewrite <- Hs' in *. by split_and!.
Qed.

Lemma skip_below_drop l top :
  (forall i j b c, (i < j)%nat -> l !! i = Some b -> l !! j = Some c -> Bmem.start b <= Bmem.start c) ->
  List.filter (fun b => top <=? Bmem.start b) l = drop (skip_below l top) l.
Proof.
  induction l as [|b l IH]; intros Hs; [done|]. cbn.
  assert (IH' : List.filter (fun b => top <=? Bmem.start b) l = drop (skip_below l top) l).
  { apply IH. intros i j c d Hij Hc Hd. apply (Hs (S i) (S j)); [lia|done..]. }
  destruct (Z.ltb_spec (Bmem.start b) top), (Z.leb_spec top (Bmem.start b)); try lia; [done|].
  cbn. f_equal. rewrite IH'. destruct l as [|c l]; [done|]. cbn.
  pose proof (Hs 0%nat 1%nat b c ltac:(lia) eq_refl eq_refl).
  destruct (Z.ltb_spec (Bmem.start c) top); [lia|done].
Qed.

Lemma our_blks_room n st l i fuel :
  stage1_repr st l -> room (bp_alloc st) (2 * Z.of_nat n) ->
  n = (length (tail (blk (bp_alloc st))) - i)%nat -> (n < fuel)%nat ->
  exists st' vs, our_blks_loop fuel st (S i) = Ok st' /\ stage1_repr st' (l ++ vs) /\
    Forall2 is_mrng vs (mjoin (our_blk_ranges (bmem_uefi_attr (bp_alloc st)) <$>
                                 drop i (tail (blk (bp_alloc st))))).
Proof.
  revert st l i fuel. induction n as [|n IH]; intros st l i fuel Hr Hroom Hn Hf;
    (destruct fuel as [|fuel]; [lia|]); cbn [our_blks_loop];
    assert (Htl : blk (bp_alloc st) !! S i = tail (blk (bp_alloc st)) !! i)
      by (by destruct (blk (bp_alloc st))); rewrite Htl.
  { rewrite lookup_ge_None_2, drop_ge by lia. exists st, []. rewrite app_nil_r.
    by split_and!; [| |constructor]. }
  destruct (lookup_lt_is_Some_2 (tail (blk (bp_alloc st))) i ltac:(lia)) as [b Hb]. rewrite Hb.
  pose proof (inv_blk _ (repr_inv _ _ (s1_repr _ _ Hr)) (S i) b ltac:(by rewrite Htl)) as (B1 & B2 & B3 & B4 & _).
  unfold_consts. rewrite (wrap_small 32 (end_ b - _)), (wrap_small 32 (orig_end b - _)) by lia.
  destruct (add_mem_range_room st l (Bmem.start b) (end_ b - Bmem.start b) 1 1
              (bmem_uefi_attr (bp_alloc st)) (2 * Z.of_nat n + 1) Hr) as (p1 & st1 & vs1 & -> & Hr1 & Hroom1 & T1 & A1 & _ & V1);
    [by replace (2 * Z.of_nat n + 1 + 1) with (2 * Z.of_nat (S n)) by lia|lia|].
  cbn [mbind result_bind].
  destruct (add_mem_range_room st1 (l ++ vs1) (end_ b) (orig_end b - end_ b) 2 1
              (bmem_uefi_attr (bp_alloc st1)) (2 * Z.of_nat n) Hr1 Hroom1 ltac:(lia))
    as (p2 & st2 & vs2 & -> & Hr2 & Hroom2 & T2 & A2 & _ & V2).
  cbn [mbind result_bind].
  destruct (IH st2 _ (S i) fuel Hr2 Hroom2) as (st' & vs & E & Hr' & V); [rewrite T2, T1; lia|lia|].
  exists st', (vs1 ++ vs2 ++ vs). rewrite !app_assoc.
  split_and!; [done|done|].
  rewrite (drop_S _ b) by done. rewrite fmap_cons. cbn [mjoin list_join].
  rewrite T2, T1, A2, A1 in V. rewrite A1 in V2.
  unfold our_blk_ranges at 1. rewrite <- !app_assoc. by repeat apply Forall2_app.
Qed.

(** As long as the boot parameters it allocates do not use up the first block,
    [add_our_mem_bparms] succeeds and reports [0, runtime_bmem_top) as available and, of every
    block at or above the run-time top, the part still free as available and the part handed
    out by [bmem_alloc] as reserved, in address order and nothing else. *)
Theorem add_our_mem_bparms_reports (st : bparms bmem) (l : list bp_view) :
  stage1_repr st l -> room (bp_alloc st) (2 * Z.of_nat (length (blk (bp_alloc st))) - 1) ->
  exists st' vs, add_our_mem_bparms st = Ok st' /\ stage1_repr st' (l ++ vs) /\
    Forall2 is_mrng vs (our_ranges (bp_alloc st)).
Proof.
  intros Hr Hroom. unfold add_our_mem_bparms, our_ranges.
  destruct (blk (bp_alloc st)) as [|b0 rest] eqn:Hblk.
  { destruct Hroom as (b & r & E & _). congruence. }
  cbn [length] in Hroom. set (n := Z.of_nat (length rest)).
  destruct (add_mem_range_room st l 0 (runtime_bmem_top (bp_alloc st)) 1 1
              (bmem_uefi_attr (bp_alloc st)) (2 * n) Hr) as (p & st1 & vs1 & E1 & Hr1 & Hroom1 & T1 & A1 & Htop & V1);
    [by replace (2 * n + 1) with (2 * Z.of_nat (S (length rest)) - 1) by lia|lia|].
  unfold_consts. rewrite E1. cbn [mbind result_bind].
  rewrite Hblk in T1. cbn [tail] in T1.
  pose proof (repr_inv _ _ (s1_repr _ _ Hr)) as Hinv. cbn in Hinv.
  pose proof (repr_inv _ _ (s1_repr _ _ Hr1)) as Hinv1. cbn in Hinv1.
  destruct (blk (bp_alloc st1)) as [|c0 rest1] eqn:Hblk1.
  { destruct Hroom1 as (b & r & E & _). congruence. }
  cbn [tail] in T1. subst rest1.
  pose proof (room_low _ _ _ (2 * n) Hblk1 ltac:(lia) Hroom1) as Hc0.
  pose proof (room_low _ _ _ (2 * Z.of_nat (S (length rest)) - 1) Hblk ltac:(lia) Hroom) as Hb0.
  cbn [skip_below List.filter].
  destruct (Z.ltb_spec (Bmem.start c0) (runtime_bmem_top (bp_alloc st1))); [|lia].
  destruct (Z.leb_spec (runtime_bmem_top (bp_alloc st)) (Bmem.start b0)); [lia|].
  rewrite Htop.
  rewrite skip_below_drop.
  2: { intros i j b c Hij Hb Hc. pose proof (inv_order _ Hinv (S i) (S j) b c ltac:(lia)) as Ho.
       rewrite Hblk in Ho. specialize (Ho Hb Hc).
       pose proof (inv_blk _ Hinv (S i) b ltac:(by rewrite Hblk)) as (? & ? & ? & _). lia. }
  set (i := skip_below rest _).
  destruct (our_blks_room (length rest - i) st1 (l ++ vs1) i (S (S (length rest))) Hr1)
    as (st' & vs & E & Hr' & V); rewrite ?Hblk1; cbn [tail length]; [|done|lia|].
  { by apply (room_weaken _ _ (2 * n)); [lia|]. }
  rewrite Hblk1 in V. cbn [tail] in V. rewrite A1 in V.
  exists st', (vs1 ++ vs). rewrite app_assoc. split_and!; [done|done|]. by apply Forall2_app.
Qed.

(** The data of the nodes a walk from the head meets. *)
Definition reported (st : bparms bmem) : result (list bdat) :=
  l ← bparm_walk 64 (bp_heap st) (bparm_get st); Ok (List.map (fun an : Z * bparm_t => u an.2) l).

Definition bdat_overlaps (a n : Z) (d : bdat) : bool :=
  match d with
  | BdatMrng r => (mr_start r <? a + n) && (a <? mr_start r + mr_len r)
  | _ => false
  end.

(** Two lower blocks, the first with room for exactly two nodes, and three upper blocks. *)
Definition tight_bmem : bmem :=
  {| blk := [ {| Bmem.start := 0x1000; end_ := 0x1060; orig_end := 0x2000 |};
              {| Bmem.start := 0x3000; end_ := 0xa0000; orig_end := 0xa0000 |};
              {| Bmem.start := 0xc0000; end_ := 0xc4000; orig_end := 0xc4000 |};
              {| Bmem.start := 0xc8000; end_ := 0xcc000; orig_end := 0xcc000 |};
              {| Bmem.start := 0xd0000; end_ := 0xd4000; orig_end := 0xd4000 |} ];
     boottime_bmem_bot := 0x1000; runtime_bmem_top := 0xa0000; bmem_uefi_attr := 0xf |}.

Lemma tight_bmem_inv : bmem_inv tight_bmem.
Proof.
  split; [| |vm_compute; split; discriminate|vm_compute; split; discriminate].
  - intros [|[|[|[|[|i]]]]] b; cbn; intros [= <-]; unfold blk_ok; unfold_consts; cbn; lia.
  - intros [|[|[|[|[|i]]]]] [|[|[|[|[|j]]]]] b c Hij; cbn; intros [= <-] [= <-]; cbn; lia.
Qed.

(** The loop over the upper blocks keeps its index across the additions.  When an addition
    uses up a lower block, [bmem_alloc_boottime] moves the later blocks down by one and the
    loop passes over a block: available memory that no boot parameter mentions. *)
Theorem add_our_mem_bparms_skips_block :
  exists st st' ds b, bmem_inv (bp_alloc st) /\ add_our_mem_bparms st = Ok st' /\
    b ∈ blk (bp_alloc st) /\ runtime_bmem_top (bp_alloc st) <= Bmem.start b < end_ b /\
    reported st' = Ok ds /\ length ds = 3%nat /\
    forallb (fun d => negb (bdat_overlaps (Bmem.start b) (end_ b - Bmem.start b) d)) ds = true.
Proof.
  destruct (add_our_mem_bparms (bparms0 tight_bmem)) as [st'|f] eqn:E; [|vm_compute in E; discriminate E].
  destruct (reported st') as [ds|f] eqn:Ed.
  2: { vm_compute in E. injection E as <-. vm_compute in Ed. discriminate Ed. }
  exists (bparms0 tight_bmem), st', ds, {| Bmem.start := 0xc8000; end_ := 0xcc000; orig_end := 0xcc000 |}.
  vm_compute in E. injection E as <-. vm_compute in Ed. injection Ed as <-.
  split_and!; [apply tight_bmem_inv|vm_compute; reflexivity| |by vm_compute|by vm_compute|done|done|done].
  cbn. do 3 right. left.
Qed.

(** ** Witnesses *)

Lemma demo_stage1 : stage1_repr (bparms0 demo_bmem) [].
Proof.
  split; [apply bparms0_repr, demo_bmem_inv|]. by intros v ?%not_elem_of_nil.
Qed.

Definition demo_descs : list mem_desc :=
  [ {| Type_ := EfiRuntimeServicesData; PhysicalStart := 0x1000; NumberOfPages := 0x5f; Attribute := 0xf |} ].

Lemma bmem_fini_marks_witness :
  exists bot top st', bmem_fini (bparms0 demo_bmem) demo_descs = Ok (bot, top, st') /\
    bot = 0x1090 /\ (KIBYTE | top).
Proof.
  destruct (bmem_fini (bparms0 demo_bmem) demo_descs) as [[[bot top] st']|f] eqn:E;
    [|vm_compute in E; discriminate E].
  exists bot, top, st'. split; [done|]. split; [vm_compute in E; by injection E as <- _|].
  destruct (bmem_fini_marks _ _ _ _ _ _ demo_stage1 E) as (vs & _ & _ & Htop & _). exact Htop.
Defined.

Lemma bmem_fini_reports_twice_witness :
  exists bot top st', bmem_fini (bparms0 demo_bmem) demo_descs = Ok (bot, top, st') /\
    exists v w dv dw, is_mrng v dv /\ is_mrng w dw /\ mr_e820_type dv = E820_RESERVED /\
      mr_e820_type dw = E820_RAM /\ ranges_overlap dv dw.
Proof.
  destruct (bmem_fini (bparms0 demo_bmem) demo_descs) as [[[bot top] st']|f] eqn:E;
    [|vm_compute in E; discriminate E].
  exists bot, top, st'. split; [done|].
  assert (Htop : top = 0xa0000) by (vm_compute in E; by injection E as _ <- _).
  destruct (bmem_fini_reports_twice _ _ _ _ _ _ _ demo_stage1 E (list_elem_of_here _ _) eq_refl)
    as (v & w & dv & dw & vs & _ & _ & _ & H1 & H2 & H3 & H4 & H5); [cbn; lia|rewrite Htop; cbn; lia|].
  exists v, w, dv, dw. split_and!; assumption.
Defined.

Lemma demo_room : room demo_bmem (2 * Z.of_nat (length (blk demo_bmem)) - 1).
Proof.
  eexists _, _. split; [reflexivity|]. split; [vm_compute; discriminate|vm_compute; reflexivity].
Qed.

Lemma add_our_mem_bparms_reports_witness :
  exists st' vs, add_our_mem_bparms (bparms0 demo_bmem) = Ok st' /\
    Forall2 is_mrng vs (our_ranges demo_bmem) /\ length (our_ranges demo_bmem) = 2%nat.
Proof.
  destruct (add_our_mem_bparms_reports (bparms0 demo_bmem) [] demo_stage1 demo_room)
    as (st' & vs & E & _ & V).
  exists st', vs. split; [exact E|]. split; [exact V|reflexivity].
Defined.

Lemma bparm_add_appends_witness :
  match bparm_add (bparms0 demo_bmem) BP_BMEM sizeof_bdat_bmem_t with
  | Ok (p, st') => p = 0x1010 /\ bp_head st' = 0x1000
  | Fail _ => False
  end.
Proof.
  pose proof (bparm_add_appends (bparms0 demo_bmem) [] BP_BMEM sizeof_bdat_bmem_t
                (s1_repr _ _ demo_stage1) ltac:(done)) as H.
  destruct (bparm_add (bparms0 demo_bmem) BP_BMEM sizeof_bdat_bmem_t) as [[p st']|f] eqn:E;
    [|vm_compute in E; discriminate E].
  assert (Hp : p = 0x1010) by (vm_compute in E; by injection E as <- _).
  split; [exact Hp|]. destruct H as [_ ->]. by rewrite Hp.
Defined.

Lemma bparm_walk_list_witness :
  exists p st', bparm_add_mem_range (bparms0 demo_bmem) 0x100000 0x1000 E820_RAM 1 0xf = Ok (p, st') /\
    exists ns, bparm_walk 2 (bp_heap st') (bparm_get st') = Ok ns /\
      view_of <$> ns = [mrng_view (p - sizeof_bparm_t) 0x100000 0x1000 E820_RAM 1 0xf].
Proof.
  destruct (bparm_add_mem_range (bparms0 demo_bmem) 0x100000 0x1000 E820_RAM 1 0xf) as [[p st']|f] eqn:E;
    [|vm_compute in E; discriminate E].
  exists p, st'. split; [done|].
  exact (bparm_walk_list (bparms0 demo_bmem) [] 0x100000 0x1000 E820_RAM 1 0xf p st'
           (s1_repr _ _ demo_stage1) ltac:(done) E).
Defined.
