(* ===== verification/MemMap.v ===== *)
(** * Physical memory map of stage 2 (src/stage2/mem.c, [mem_range_t] of src/stage2/stage2.h)

    [mem_map] is the module's static state: the [num_mem_ranges] entries of [mem_ranges[]] in
    use, the array's address and its capacity.  [mem_map_init] builds it from the stage 1 boot
    parameters, [mem_alloc] takes memory from the top of the highest range that fits.  The
    theorems: [shellsort] sorts and terminates, [find_highest_range_below] finds the range it
    names, [mem_map_init] produces a map that describes every byte as the parameters did except
    for the array's own memory, and [mem_alloc] turns exactly the block it returns (and the
    alignment slack above it) from RAM into reserved memory.

    The map is in order ([before]) but it is not a partition: stage 1 reports base memory both as
    the firmware lists it and as it has handed it out, so entries that lie below 1 MiB may overlap
    as long as no two of them are RAM ([both_low]).  Above 1 MiB no byte has two entries. *)

From stdpp Require Import sorting.
From S2P Require Import Prelude Bparm.
#[local] Open Scope Z_scope.

(** ** State *)

Definition XM32_MAX_ADDR : Z := 0x100000000.
#[export] Hint Unfold XM32_MAX_ADDR : consts.

Record mem_range := {
  start : Z; len : Z; e820_type : Z; e820_ext_attr : Z; uefi_attr : Z;
}.

(** Two 64-bit fields, two of 32 bits, one of 64, packed. *)
Definition sizeof_mem_range_t : Z := 8 + 8 + 4 + 4 + 8.

Record mem_map := {
  mem_ranges : list mem_range;
  mem_ranges_at : Z;
  max_mem_ranges : Z;
}.

Definition num_mem_ranges (s : mem_map) : Z := Z.of_nat (length (mem_ranges s)).

Definition set_ranges (s : mem_map) (l : list mem_range) : mem_map :=
  {| mem_ranges := l; mem_ranges_at := mem_ranges_at s; max_mem_ranges := max_mem_ranges s |}.

(** ** [shellsort] *)

(** [while (h < nmr) h *= 2;] *)
Fixpoint gap (fuel : nat) (h nmr : Z) : result Z :=
  match fuel with
  | O => Fail Diverges
  | S fuel => if h <? nmr then gap fuel (u32 (h * 2)) nmr else Ok h
  end.

(** [while (j >= h && mrs[j - h].start > v.start) { mrs[j] = mrs[j - h]; j -= h; }] *)
Fixpoint sift (fuel : nat) (mrs : list mem_range) (v : mem_range) (h j : Z)
    : result (list mem_range * Z) :=
  match fuel with
  | O => Fail Diverges
  | S fuel =>
      if j >=? h then
        m ← aget mrs (j - h);
        if start m >? start v then
          mrs ← aset mrs j m;
          sift fuel mrs v h (j - h)
        else Ok (mrs, j)
      else Ok (mrs, j)
  end.

(** The [for (i = h; i < nmr; ++i)] loop; [n] is the number of iterations left. *)
Fixpoint gap_pass (n : nat) (mrs : list mem_range) (h i : Z) : result (list mem_range) :=
  match n with
  | O => Ok mrs
  | S n =>
      v ← aget mrs i;
      '(mrs, j) ← sift (S (Z.to_nat i)) mrs v h i;
      mrs ← aset mrs j v;
      gap_pass n mrs h (i + 1)
  end.

(** The [do ... while (h)] loop. *)
Fixpoint passes (fuel : nat) (mrs : list mem_range) (h nmr : Z) : result (list mem_range) :=
  match fuel with
  | O => Fail Diverges
  | S fuel =>
      mrs ← gap_pass (Z.to_nat (nmr - h)) mrs h h;
      let h := Z.shiftr h 1 in
      if h =? 0 then Ok mrs else passes fuel mrs h nmr
  end.

Definition shellsort (mrs : list mem_range) (nmr : Z) : result (list mem_range) :=
  if nmr <? 2 then Ok mrs
  else h ← gap 33 1 nmr; passes 32 mrs (h - 1) nmr.

(** ** [find_highest_range_below] *)

(** [mr->start + mr->len - 1 > max_addr - 1] *)
Definition ends_above (mr : mem_range) (max_addr : Z) : bool :=
  u64 (start mr + len mr - 1) >? u64 (max_addr - 1).

Fixpoint bisect (fuel : nat) (l : list mem_range) (max_addr left_ right_ : Z) : result Z :=
  match fuel with
  | O => Fail Diverges
  | S fuel =>
      if left_ <? u32 (right_ - 1) then
        let mid := u32 (left_ + right_) / 2 in
        mr ← aget l mid;
        if ends_above mr max_addr then bisect fuel l max_addr left_ mid
        else bisect fuel l max_addr mid right_
      else Ok left_
  end.

Fixpoint scan_down (l : list mem_range) (max_addr : Z) (left_ : nat) : result Z :=
  mr ← aget l (Z.of_nat left_);
  if ends_above mr max_addr then
    match left_ with
    | O => Fail Hlt
    | S left_ => scan_down l max_addr left_
    end
  else Ok (Z.of_nat left_).

(** Returns the index of the entry the pointer [mr] points to. *)
Definition find_highest_range_below (s : mem_map) (max_addr : Z) : result Z :=
  left_ ← bisect (S (length (mem_ranges s))) (mem_ranges s) max_addr 0 (num_mem_ranges s);
  scan_down (mem_ranges s) max_addr (Z.to_nat left_).

(** ** [split_range] *)

Definition set_type (mr : mem_range) (ty : Z) : mem_range :=
  {| start := start mr; len := len mr; e820_type := ty;
     e820_ext_attr := e820_ext_attr mr; uefi_attr := uefi_attr mr |}.

(** [while (mr2 != mr) { *mr2 = mr2[-1]; --mr2; }] for [n] steps, downwards from [mr2]. *)
Fixpoint shift_up (l : list mem_range) (mr2 : nat) (n : nat) : list mem_range :=
  match n, mr2 with
  | S n, S prev =>
      match l !! prev with
      | Some x => shift_up (<[mr2 := x]> l) prev n
      | None => l
      end
  | _, _ => l
  end.

Definition split_range (s : mem_map) (mr : nat) (split_point e820_type_below e820_type_above : Z)
    : result mem_map :=
  r ← checked (mem_ranges s !! mr);
  if start r =? split_point then
    Ok (set_ranges s (<[mr := set_type r e820_type_above]> (mem_ranges s)))
  else if u64 (start r + len r) =? split_point then
    Ok (set_ranges s (<[mr := set_type r e820_type_below]> (mem_ranges s)))
  else if num_mem_ranges s >=? max_mem_ranges s then Fail Hlt
  else
    (* one more entry, whose value the shift overwrites *)
    let l := mem_ranges s ++ [r] in
    let l := shift_up l (length (mem_ranges s)) (length (mem_ranges s) - mr) in
    let len_below := u64 (split_point - start r) in
    r2 ← checked (l !! S mr);
    let l := <[mr := {| start := start r; len := len_below; e820_type := e820_type_below;
                        e820_ext_attr := e820_ext_attr r; uefi_attr := uefi_attr r |}]> l in
    let l := <[S mr := {| start := split_point; len := u64 (len r2 - len_below);
                          e820_type := e820_type_above;
                          e820_ext_attr := e820_ext_attr r2; uefi_attr := uefi_attr r2 |}]> l in
    Ok (set_ranges s l).

(** ** [mem_alloc] *)

(** [for (mr = ...; ; --mr)]; [i] is the index of [mr].  Below the first entry the loop reads
    outside the array. *)
Fixpoint alloc_scan (l : list mem_range) (sz align : Z) (i : nat) : result (nat * Z) :=
  let below := match i with O => Fail OutOfBounds | S i => alloc_scan l sz align i end in
  mr ← checked (l !! i);
  if negb (e820_type mr =? E820_RAM) || (len mr <? sz) then below
  else
    let aend := u32 (start mr + len mr) in
    let astart := Z.land (u32 (aend - sz)) (u32 (- align)) in
    if astart >=? start mr then Ok (i, astart)
    else if start mr =? 0 then Fail Hlt
    else below.

Definition mem_alloc (s : mem_map) (sz align max_addr : Z) : result (Z * mem_map) :=
  if sz =? 0 then Ok (NULL, s)
  else
    let max_addr64 := if max_addr =? 0 then XM32_MAX_ADDR else max_addr in
    if max_addr64 <? sz then Fail Hlt
    else
      i ← find_highest_range_below s max_addr64;
      '(mr, astart) ← alloc_scan (mem_ranges s) sz align (Z.to_nat i);
      s ← split_range s mr astart E820_RAM E820_RESERVED;
      Ok (astart, s).

(** ** [mem_map_init] *)

(** [bp->u->mem_range], read when the type says that it is one. *)
Definition mem_range_data (n : bparm_t) : result bdat_mem_range_t :=
  match u n with BdatMrng d => Ok d | _ => Fail OutOfBounds end.

(** The memory ranges among the nodes of a walk, each with its node's address: what
    [if (bp->type != BP_MRNG) continue; bdmr = &bp->u->mem_range;] goes through. *)
Fixpoint mrng_nodes (ns : list (Z * bparm_t)) : result (list (Z * bdat_mem_range_t)) :=
  match ns with
  | [] => Ok []
  | (bp, n) :: ns =>
      if type n =? BP_MRNG then
        d ← mem_range_data n; l ← mrng_nodes ns; Ok ((bp, d) :: l)
      else mrng_nodes ns
  end.

(** The first loop, and the three statements after it. *)
Definition count_ranges (l : list (Z * bdat_mem_range_t)) : Z :=
  foldl (fun mmr bd => if mr_len bd.2 =? 0 then mmr else u32 (mmr + 1)) 1 l.

Definition map_capacity (l : list (Z * bdat_mem_range_t)) : Z :=
  let mmr := u32 (3 * count_ranges l + 1) / 2 in
  if mmr <? 16 then 16 else mmr.

Definition can_hold (need : Z) (d : bdat_mem_range_t) : bool :=
  negb (negb (mr_e820_type d =? E820_RAM) || (mr_start d >=? XM32_MAX_ADDR) ||
        (mr_len d >? XM32_MAX_ADDR - mr_start d) || (mr_len d <? need)).

(** The second loop; [chosen] is [bdmr_chosen]. *)
Fixpoint choose_range (need : Z) (chosen : option (Z * bdat_mem_range_t))
    (l : list (Z * bdat_mem_range_t)) : option (Z * bdat_mem_range_t) :=
  match l with
  | [] => chosen
  | (bp, d) :: l =>
      if can_hold need d then
        match chosen with
        | Some (_, c) =>
            if mr_start d >? mr_start c then choose_range need (Some (bp, d)) l
            else choose_range need chosen l
        | None => choose_range need (Some (bp, d)) l
        end
      else choose_range need chosen l
  end.

(** A store through [mr] followed by [++mr; ++nmr;]; the array ends at [mmr]. *)
Definition put_range (mmr : Z) (mrs : list mem_range) (r : mem_range) : result (list mem_range) :=
  if Z.of_nat (length mrs) <? mmr then Ok (mrs ++ [r]) else Fail OutOfBounds.

Definition of_bdat (d : bdat_mem_range_t) : mem_range :=
  {| start := mr_start d; len := mr_len d; e820_type := mr_e820_type d;
     e820_ext_attr := mr_e820_ext_attr d; uefi_attr := mr_uefi_attr d |}.

(** The third loop. *)
Fixpoint copy_ranges (mmr need mrs_at chosen : Z) (mrs : list mem_range)
    (l : list (Z * bdat_mem_range_t)) : result (list mem_range) :=
  match l with
  | [] => Ok mrs
  | (bp, d) :: l =>
      if mr_len d =? 0 then copy_ranges mmr need mrs_at chosen mrs l
      else if bp =? chosen then
        let len := u64 (mr_len d - need) in
        mrs ← (if len =? 0 then Ok mrs
               else put_range mmr mrs
                 {| start := mr_start d; len := len; e820_type := mr_e820_type d;
                    e820_ext_attr := mr_e820_ext_attr d; uefi_attr := mr_uefi_attr d |});
        mrs ← put_range mmr mrs
          {| start := mrs_at; len := need; e820_type := E820_RESERVED;
             e820_ext_attr := mr_e820_ext_attr d; uefi_attr := mr_uefi_attr d |};
        copy_ranges mmr need mrs_at chosen mrs l
      else
        mrs ← put_range mmr mrs (of_bdat d);
        copy_ranges mmr need mrs_at chosen mrs l
  end.

Definition mem_map_init (ns : list (Z * bparm_t)) : result mem_map :=
  l ← mrng_nodes ns;
  let mmr := map_capacity l in
  let e820_need_space := u32 (mmr * sizeof_mem_range_t) in
  match choose_range e820_need_space None l with
  | None => Fail Hlt
  | Some (chosen, d) =>
      let mrs_at := u32 (mr_start d + mr_len d - e820_need_space) in
      mrs ← copy_ranges mmr e820_need_space mrs_at chosen [] l;
      mrs ← shellsort mrs (Z.of_nat (length mrs));
      Ok {| mem_ranges := mrs; mem_ranges_at := mrs_at; max_mem_ranges := mmr |}
  end.

(** The parameter list as stage 1 linked it; stage 2 walks it three times without changing it. *)
Definition mem_map_init_at (fuel : nat) (heap : gmap Z bparm_t) (bparms : Z) : result mem_map :=
  ns ← bparm_walk fuel heap bparms; mem_map_init ns.

(** ** [shellsort] sorts *)

Lemma gap_spec fuel k nmr :
  0 <= k <= 31 -> 32 <= k + Z.of_nat fuel -> nmr <= 2 ^ 31 ->
  exists j, k <= j <= 31 /\ gap fuel (2 ^ k) nmr = Ok (2 ^ j) /\ nmr <= 2 ^ j.
Proof.
  revert k. induction fuel as [|fuel IH]; intros k Hk Hf Hn; [lia|]. cbn [gap].
  destruct (Z.ltb_spec (2 ^ k) nmr).
  - assert (k <> 31) by (intros ->; lia).
    destruct (IH (k + 1)) as (j & Hj & E & ?); [lia..|].
    exists j. split_and!; [lia..| |done].
    rewrite Z.pow_add_r in E by lia. change (2 ^ 1) with 2 in E.
    assert (2 ^ (k + 1) <= 2 ^ 31) by (apply Z.pow_le_mono_r; lia).
    rewrite Z.pow_add_r in * by lia. rewrite wrap_small by lia. done.
  - exists k. split_and!; [lia..|done|done].
Qed.

(** Sorted by starting address, below index [n]. *)
Definition sorted_upto (n : nat) (l : list mem_range) : Prop :=
  forall i j x y, (i < j < n)%nat -> l !! i = Some x -> l !! j = Some y -> start x <= start y.

Definition sorted_by_start (l : list mem_range) : Prop := sorted_upto (length l) l.

(** The inner loop for any gap: it returns, and [v] can be put where it stops. *)
Lemma sift_perm fuel mrs v h j :
  1 <= h -> 0 <= j < Z.of_nat (length mrs) -> (Z.to_nat j < fuel)%nat ->
  exists mrs' j', sift fuel mrs v h j = Ok (mrs', j') /\ length mrs' = length mrs /\
    0 <= j' <= j /\ <[Z.to_nat j' := v]> mrs' ≡ₚ <[Z.to_nat j := v]> mrs.
Proof.
  revert mrs j. induction fuel as [|fuel IH]; intros mrs j Hh Hj Hf; [lia|]. cbn.
  destruct (Z.geb_spec j h); [|by exists mrs, j; split_and!; try lia].
  destruct (aget_total mrs (j - h)) as (m & -> & Hm); [lia|]. cbn.
  destruct (start m >? start v); [|by exists mrs, j; split_and!; try lia].
  rewrite aset_Ok by done. cbn.
  destruct (IH (<[Z.to_nat j := m]> mrs) (j - h)) as (mrs' & j' & E & Hlen & Hj' & Hp).
  1: lia. 1: rewrite length_insert; lia. 1: lia.
  rewrite length_insert in Hlen.
  exists mrs', j'. split_and!; [done|done|lia..|]. rewrite Hp.
  apply insert_swap_perm; [done|lia|lia].
Qed.

(** The inner loop with gap 1: entries above [v] move up one place. *)
Lemma sift_one fuel mrs v j :
  (j < length mrs)%nat -> (j < fuel)%nat ->
  exists mrs' j', sift fuel mrs v 1 (Z.of_nat j) = Ok (mrs', Z.of_nat j') /\ (j' <= j)%nat /\
    length mrs' = length mrs /\
    (forall k, (k < j' \/ j < k)%nat -> mrs' !! k = mrs !! k) /\
    (forall k, (j' <= k < j)%nat -> mrs' !! S k = mrs !! k) /\
    (forall k x, (j' <= k < j)%nat -> mrs !! k = Some x -> start v < start x) /\
    (forall k x, (j' = S k)%nat -> mrs !! k = Some x -> start x <= start v).
Proof.
  revert mrs j. induction fuel as [|fuel IH]; intros mrs j Hj Hf; [lia|]. cbn.
  destruct (Z.geb_spec (Z.of_nat j) 1) as [Hge|Hlt];
    [|by exists mrs, j; split_and!; intros; try done; lia].
  destruct j as [|j]; [lia|]. replace (Z.of_nat (S j) - 1) with (Z.of_nat j) by lia.
  destruct (aget_total mrs (Z.of_nat j)) as (m & -> & Hm); [lia|]. rewrite Nat2Z.id in Hm. cbn.
  destruct (Z.gtb_spec (start m) (start v)) as [Hgt|Hle]; cycle 1.
  { exists mrs, (S j). split_and!; intros; try done; try lia. by simplify_eq. }
  rewrite aset_Ok by lia. cbn [mbind result_bind]. rewrite Nat2Z.id.
  destruct (IH (<[S j := m]> mrs) j) as (mrs' & j' & E & Hj' & Hlen & Hsame & Hup & Hgtv & Hstop).
  1: rewrite length_insert; lia. 1: lia.
  exists mrs', j'. rewrite length_insert in Hlen. split_and!; try done; try lia.
  - intros k Hk. rewrite Hsame by lia. apply list_lookup_insert_ne. lia.
  - intros k Hk. destruct (decide (k = j)) as [->|].
    + rewrite Hsame by lia. rewrite list_lookup_insert_eq by lia. done.
    + rewrite Hup by lia. apply list_lookup_insert_ne. lia.
  - intros k x Hk Hx. destruct (decide (k = j)) as [->|]; [simplify_eq; lia|].
    apply (Hgtv k); [lia|]. rewrite list_lookup_insert_ne by lia. done.
  - intros k x Hk Hx. apply (Hstop k); [done|]. rewrite list_lookup_insert_ne by lia. done.
Qed.

Lemma gap_pass_perm n mrs h i :
  1 <= h -> 0 <= i -> n = 0%nat \/ i + Z.of_nat n <= Z.of_nat (length mrs) ->
  exists mrs', gap_pass n mrs h i = Ok mrs' /\ mrs' ≡ₚ mrs.
Proof.
  revert mrs i. induction n as [|n IH]; intros mrs i Hh Hi Hn; cbn [gap_pass]; [by exists mrs|].
  destruct (aget_total mrs i) as (v & -> & Hv); [lia|]. cbn [mbind result_bind].
  destruct (sift_perm (S (Z.to_nat i)) mrs v h i) as (mrs1 & j & E & Hlen & Hj & Hp); [lia..|].
  rewrite E. cbn [mbind result_bind]. rewrite aset_Ok by lia. cbn [mbind result_bind].
  destruct (IH (<[Z.to_nat j := v]> mrs1) (i + 1)) as (mrs' & E' & Hp').
  1,2: lia. 1: rewrite length_insert; lia.
  exists mrs'. split; [done|]. rewrite Hp', Hp. by rewrite list_insert_id.
Qed.

Lemma gap_pass_sorts n mrs i mrs' :
  (i + n <= length mrs)%nat -> sorted_upto i mrs ->
  gap_pass n mrs 1 (Z.of_nat i) = Ok mrs' -> sorted_upto (i + n) mrs'.
Proof.
  revert mrs i. induction n as [|n IH]; intros mrs i Hn Hs; cbn [gap_pass].
  { intros [= ->]. by rewrite Nat.add_0_r. }
  destruct (aget_total mrs (Z.of_nat i)) as (v & -> & Hv); [lia|]. cbn [mbind result_bind].
  rewrite Nat2Z.id in *.
  destruct (sift_one (S i) mrs v i) as (mrs1 & j & E & Hj & Hlen & Hsame & Hup & Hgt & Hstop); [lia..|].
  rewrite E. cbn [mbind result_bind]. rewrite aset_Ok by lia. cbn [mbind result_bind].
  rewrite Nat2Z.id. replace (Z.of_nat i + 1) with (Z.of_nat (S i)) by lia.
  intros E'. replace (i + S n)%nat with (S i + n)%nat by lia. eapply (IH _ _) in E'; [done| |].
  { rewrite length_insert. lia. }
  (* where the entries of the new prefix come from *)
  assert (Hfrom : forall k x, (k < S i)%nat -> <[j:=v]> mrs1 !! k = Some x ->
    (k = j /\ x = v) \/ (k < j /\ mrs !! k = Some x)%nat \/
    (j < k /\ exists k', k = S k' /\ mrs !! k' = Some x)%nat).
  { intros k x Hk Hx. destruct (decide (k = j)) as [->|Hne].
    - rewrite list_lookup_insert_eq in Hx by lia. left. by simplify_eq.
    - right. rewrite list_lookup_insert_ne in Hx by lia. destruct (decide (k < j)%nat).
      + left. split; [done|]. by rewrite <- Hsame by lia.
      + right. split; [lia|]. destruct k as [|k']; [lia|]. exists k'. split; [done|].
        by rewrite <- Hup by lia. }
  assert (Hlow : forall k x, (k < j)%nat -> mrs !! k = Some x -> start x <= start v).
  { intros k x Hk Hx. destruct j as [|j]; [lia|].
    destruct (lookup_lt_is_Some_2 mrs j ltac:(lia)) as [y Hy].
    specialize (Hstop j y eq_refl Hy).
    destruct (decide (k = j)) as [->|]; [by simplify_eq|].
    specialize (Hs k j x y ltac:(lia) Hx Hy). lia. }
  intros a b x y Hab Hx Hy.
  destruct (Hfrom a x ltac:(lia) Hx) as [[-> ->]|[[Ha Hx']|(Ha & a' & -> & Hx')]],
    (Hfrom b y ltac:(lia) Hy) as [[-> ->]|[[Hb Hy']|(Hb & b' & -> & Hy')]]; try lia.
  - specialize (Hgt b' y ltac:(lia) Hy'). lia.
  - by apply (Hlow a).
  - apply (Hs a b); [lia|done|done].
  - destruct (decide (a = b')) as [->|]; [simplify_eq; lia|]. apply (Hs a b'); [lia|done|done].
  - apply (Hs a' b'); [lia|done|done].
Qed.

Lemma passes_spec fuel mrs h :
  1 <= h < 2 ^ Z.of_nat fuel -> (1 <= length mrs)%nat ->
  exists mrs', passes fuel mrs h (Z.of_nat (length mrs)) = Ok mrs' /\ mrs' ≡ₚ mrs /\
    sorted_by_start mrs'.
Proof.
  revert mrs h. induction fuel as [|fuel IH]; intros mrs h Hh Hle; [cbn in Hh; lia|]. cbn [passes].
  destruct (gap_pass_perm (Z.to_nat (Z.of_nat (length mrs) - h)) mrs h h) as (mrs1 & E & Hp); [lia..|].
  rewrite E. cbn [mbind result_bind]. rewrite Z.shiftr_div_pow2 by lia. change (2 ^ 1) with 2.
  assert (Hlen : length mrs1 = length mrs) by by apply Permutation_length.
  destruct (Z.eqb_spec (h / 2) 0) as [E0|Hne].
  - exists mrs1. split_and!; [done|done|]. assert (h = 1) as -> by dlia.
    eapply (gap_pass_sorts _ _ 1) in E; [|lia|by intros ? ? ? ? ?; lia].
    unfold sorted_by_start. rewrite Hlen. by replace (length mrs) with (1 + Z.to_nat (Z.of_nat (length mrs) - 1))%nat by lia.
  - destruct (IH mrs1 (h / 2)) as (mrs' & E' & Hp' & Hs).
    + rewrite Nat2Z.inj_succ, Z.pow_succ_r in Hh by lia. dlia.
    + rewrite Hlen. dlia.
    + rewrite Hlen in E'. exists mrs'. split_and!; [done|by rewrite Hp'|done].
Qed.

Lemma shellsort_spec mrs :
  Z.of_nat (length mrs) <= 2 ^ 31 ->
  exists mrs', shellsort mrs (Z.of_nat (length mrs)) = Ok mrs' /\ mrs' ≡ₚ mrs /\ sorted_by_start mrs'.
Proof.
  intros Hn. unfold shellsort. destruct (Z.ltb_spec (Z.of_nat (length mrs)) 2) as [Hlt|Hge].
  { exists mrs. split_and!; [done|done|]. intros i j x y Hij. lia. }
  destruct (gap_spec 33 0 (Z.of_nat (length mrs))) as (j & Hj & E & Hle); [lia..|].
  change (2 ^ 0) with 1 in E. rewrite E. cbn [mbind result_bind].
  assert (2 ^ j <= 2 ^ 31) by (apply Z.pow_le_mono_r; lia).
  apply passes_spec; [|lia]. change (Z.of_nat 32) with 32. lia.
Qed.

(** ** The invariant of the map *)

Definition range_end (r : mem_range) : Z := start r + len r.

Definition range_ok (r : mem_range) : Prop := 0 <= start r /\ 0 < len r /\ range_end r <= 2 ^ 64.

(** Two entries that both describe base memory; stage 1 reports part of it twice, but not twice
    as RAM. *)
Definition both_low (x y : mem_range) : Prop :=
  range_end x <= BMEM_MAX_ADDR /\ range_end y <= BMEM_MAX_ADDR /\ ~ (e820_type x = E820_RAM /\ e820_type y = E820_RAM).

(** The order of the entries: by address, except in base memory. *)
Definition before (x y : mem_range) : Prop := range_end x <= start y \/ both_low x y.

Record map_inv (s : mem_map) : Prop := {
  inv_ok : Forall range_ok (mem_ranges s);
  inv_order : StronglySorted before (mem_ranges s);
  inv_cap : num_mem_ranges s <= max_mem_ranges s < 2 ^ 27;
}.

(** Byte [x] of physical memory is in an entry with this type and these attributes. *)
Definition byte_is (l : list mem_range) (x ty ext attr : Z) : Prop :=
  exists r, r ∈ l /\ in_range (start r) (len r) x /\
    e820_type r = ty /\ e820_ext_attr r = ext /\ uefi_attr r = attr.

Lemma before_lookup l i j x y :
  StronglySorted before l -> (i < j)%nat -> l !! i = Some x -> l !! j = Some y -> before x y.
Proof.
  intros Hs Hij Hx Hy. rewrite <- (take_drop j l) in Hs.
  apply (StronglySorted_app_1_elem_of _ _ _ x y) in Hs; [done| |].
  - apply list_elem_of_lookup. exists i. by rewrite lookup_take_lt.
  - apply list_elem_of_lookup. exists 0%nat. by rewrite lookup_drop, Nat.add_0_r.
Qed.

Lemma ok_lookup l i r : Forall range_ok l -> l !! i = Some r -> range_ok r.
Proof. intros Hf. by apply Forall_lookup_1. Qed.

(** After an entry that ends above base memory the ends increase. *)
Lemma ends_mono l i j x y :
  Forall range_ok l -> StronglySorted before l -> (i <= j)%nat ->
  l !! i = Some x -> l !! j = Some y -> range_end x <= range_end y \/ range_end x <= BMEM_MAX_ADDR.
Proof.
  intros Hok Hs Hij Hx Hy. destruct (decide (i = j)) as [->|]; [simplify_eq; lia|].
  destruct (before_lookup l i j x y Hs ltac:(lia) Hx Hy) as [?|[? _]]; [|lia].
  destruct (ok_lookup _ _ _ Hok Hy) as (? & ? & ?). unfold range_end in *. lia.
Qed.

(** ** [find_highest_range_below] *)

Lemma ends_above_spec r max_addr :
  range_ok r -> 0 < max_addr <= 2 ^ 64 -> ends_above r max_addr = (range_end r >? max_addr).
Proof.
  intros (? & ? & ?) Hm. unfold ends_above, range_end in *.
  rewrite !wrap_small by lia. destruct (Z.gtb_spec (start r + len r - 1) (max_addr - 1)), (Z.gtb_spec (start r + len r) max_addr); lia.
Qed.

Definition ends_over (l : list mem_range) (max_addr : Z) (i : nat) : Prop :=
  forall r, l !! i = Some r -> range_end r > max_addr.

Section find.
Context (l : list mem_range) (max_addr : Z).
Hypothesis Hok : Forall range_ok l.
Hypothesis Hsorted : StronglySorted before l.
Hypothesis Hlen : Z.of_nat (length l) < 2 ^ 27.
Hypothesis Hmax : BMEM_MAX_ADDR <= max_addr <= 2 ^ 64.

Lemma aget_above i :
  0 <= i < Z.of_nat (length l) ->
  exists r, aget l i = Ok r /\ l !! Z.to_nat i = Some r /\ ends_above r max_addr = (range_end r >? max_addr).
Proof.
  intros Hi. destruct (aget_total l i Hi) as (r & E & Hr). exists r. split_and!; [done|done|].
  apply ends_above_spec; [by eapply ok_lookup|zsolve].
Qed.

Lemma bisect_spec fuel a b :
  0 <= a < b -> b <= Z.of_nat (length l) -> b - a < Z.of_nat fuel ->
  (forall j, b <= Z.of_nat j -> ends_over l max_addr j) ->
  exists i, bisect fuel l max_addr a b = Ok i /\ a <= i < b /\
    forall j, i < Z.of_nat j -> ends_over l max_addr j.
Proof.
  revert a b. induction fuel as [|fuel IH]; intros a b Hab Hb Hf Hover; [lia|]. cbn [bisect].
  rewrite wrap_small by lia. destruct (Z.ltb_spec a (b - 1)) as [Hlt|Hge]; cycle 1.
  { exists a. split_and!; [done|lia..|]. intros j Hj. apply Hover. lia. }
  rewrite wrap_small by lia. assert (Hmid : a < (a + b) / 2 < b) by dlia.
  destruct (aget_above ((a + b) / 2)) as (r & -> & Hr & Eab); [lia|]. cbn [mbind result_bind]. rewrite Eab.
  destruct (Z.gtb_spec (range_end r) max_addr) as [Hgt|Hle].
  - destruct (IH a ((a + b) / 2)) as (i & E & Hi & Ho); [lia|lia|lia| |exists i; split_and!; [done|lia..|done]].
    intros j Hj r' Hr'.
    pose proof (ends_mono l (Z.to_nat ((a + b) / 2)) j r r' Hok Hsorted ltac:(lia) Hr Hr'). lia.
  - destruct (IH ((a + b) / 2) b) as (i & E & Hi & Ho); [lia|lia|lia|done|].
    exists i; split_and!; [done|lia..|done].
Qed.

Lemma scan_down_spec i :
  (i < length l)%nat -> (forall j, (i < j)%nat -> ends_over l max_addr j) ->
  match scan_down l max_addr i with
  | Ok k => 0 <= k <= Z.of_nat i /\ (exists r, l !! Z.to_nat k = Some r /\ range_end r <= max_addr) /\
      forall j, k < Z.of_nat j -> ends_over l max_addr j
  | Fail Hlt => forall j, ends_over l max_addr j
  | Fail _ => False
  end.
Proof.
  revert i. induction i as [|i IH]; intros Hi Hover; cbn [scan_down].
  - destruct (aget_above (Z.of_nat 0)) as (r & -> & Hr & Eab); [lia|]. cbn [mbind result_bind]. rewrite Eab.
    destruct (Z.gtb_spec (range_end r) max_addr) as [Hgt|Hle].
    + intros [|j]; [intros r' Hr'; change (Z.to_nat (Z.of_nat 0)) with 0%nat in Hr; simplify_eq; lia|]. apply Hover. lia.
    + split_and!; [lia..|by eauto|]. intros j Hj. apply Hover. lia.
  - destruct (aget_above (Z.of_nat (S i))) as (r & -> & Hr & Eab); [lia|]. cbn [mbind result_bind]. rewrite Eab.
    destruct (Z.gtb_spec (range_end r) max_addr) as [Hgt|Hle].
    + assert (Hover' : forall j, (i < j)%nat -> ends_over l max_addr j).
      { intros j Hj. destruct (decide (j = S i)) as [->|]; [|apply Hover; lia].
        intros r' Hr'. rewrite Nat2Z.id in Hr. simplify_eq. lia. }
      specialize (IH ltac:(lia) Hover'). destruct (scan_down l max_addr i) as [k|[]]; try done.
      destruct IH as (? & ? & ?). split_and!; [lia..|done|done].
    + split_and!; [lia..|by eauto|]. intros j Hj. apply Hover. lia.
Qed.
End find.

Lemma find_highest_spec s max_addr :
  map_inv s -> (1 <= length (mem_ranges s))%nat -> BMEM_MAX_ADDR <= max_addr <= 2 ^ 64 ->
  match find_highest_range_below s max_addr with
  | Ok k => 0 <= k < num_mem_ranges s /\
      (exists r, mem_ranges s !! Z.to_nat k = Some r /\ range_end r <= max_addr) /\
      forall j, k < Z.of_nat j -> ends_over (mem_ranges s) max_addr j
  | Fail Hlt => forall j, ends_over (mem_ranges s) max_addr j
  | Fail _ => False
  end.
Proof.
  intros [Hok Hord Hcap] Hlen Hm. unfold find_highest_range_below, num_mem_ranges in *.
  destruct (bisect_spec (mem_ranges s) max_addr Hok Hord ltac:(lia) Hm (S (length (mem_ranges s))) 0
    (Z.of_nat (length (mem_ranges s)))) as (i & -> & Hi & Hover); [lia|lia|lia| |].
  { intros j Hj r Hr%lookup_lt_Some. lia. }
  cbn [mbind result_bind].
  pose proof (scan_down_spec (mem_ranges s) max_addr Hok Hm (Z.to_nat i) ltac:(lia)) as H.
  specialize (H ltac:(intros j Hj; apply Hover; lia)).
  destruct (scan_down (mem_ranges s) max_addr (Z.to_nat i)) as [k|[]]; try done.
  destruct H as (? & ? & ?). split_and!; [lia..|done|done].
Qed.

(** ** [split_range] *)

Lemma shift_up_lookup l m n k :
  (n <= m < length l)%nat ->
  shift_up l m n !! k = if decide (m - n < k <= m)%nat then l !! pred k else l !! k.
Proof.
  revert l m. induction n as [|n IH]; intros l m Hm.
  { destruct m; case_decide; try done; lia. }
  destruct m as [|m]; [lia|]. cbn [shift_up].
  destruct (lookup_lt_is_Some_2 l m ltac:(lia)) as [x Hx]. rewrite Hx.
  rewrite IH by (rewrite length_insert; lia).
  destruct (decide (k = S m)) as [->|Hne].
  - rewrite !decide_False by lia. rewrite decide_True by lia. cbn. by rewrite list_lookup_insert_eq by lia.
  - repeat case_decide; try lia; by rewrite list_lookup_insert_ne by lia.
Qed.

Lemma shift_up_snoc l x mr :
  (mr < length l)%nat ->
  shift_up (l ++ [x]) (length l) (length l - mr) = take (S mr) l ++ drop mr l.
Proof.
  intros Hmr. apply list_eq. intros k. rewrite shift_up_lookup by (rewrite length_app; cbn; lia).
  replace (length l - (length l - mr))%nat with mr by lia.
  case_decide.
  - rewrite lookup_app_l by lia. rewrite lookup_app_r by (rewrite length_take; lia).
    rewrite length_take, lookup_drop. f_equal. lia.
  - destruct (decide (k <= mr)%nat).
    + rewrite !lookup_app_l by (rewrite ?length_take; lia). by rewrite lookup_take_lt by lia.
    + rewrite (lookup_ge_None_2 (_ ++ [x])) by (rewrite length_app; cbn; lia).
      rewrite lookup_ge_None_2; [done|]. rewrite length_app, length_take, length_drop. lia.
Qed.

Definition part (r : mem_range) (st n ty : Z) : mem_range :=
  {| start := st; len := n; e820_type := ty; e820_ext_attr := e820_ext_attr r; uefi_attr := uefi_attr r |}.

(** The entries a range is replaced by when it is split at [sp]. *)
Definition pieces (r : mem_range) (sp below above : Z) : list mem_range :=
  if start r =? sp then [part r (start r) (len r) above]
  else [part r (start r) (sp - start r) below; part r sp (range_end r - sp) above].

Lemma split_range_spec s mr r sp below above :
  mem_ranges s !! mr = Some r -> range_ok r -> start r <= sp < range_end r ->
  split_range s mr sp below above =
    if negb (start r =? sp) && (num_mem_ranges s >=? max_mem_ranges s) then Fail Hlt
    else Ok (set_ranges s (take mr (mem_ranges s) ++ pieces r sp below above ++ drop (S mr) (mem_ranges s))).
Proof.
  intros Hr (Hs0 & Hl0 & Hend) Hsp. unfold split_range, pieces, range_end in *. rewrite Hr.
  pose proof (lookup_lt_Some _ _ _ Hr) as Hlen.
  cbn [checked mbind result_bind]. destruct (Z.eqb_spec (start r) sp) as [<-|Hne]; cbn [negb andb].
  { do 2 f_equal. by rewrite insert_take_drop. }
  destruct (Z.eqb_spec (u64 (start r + len r)) sp) as [E|_].
  { unfold wrap in E. destruct (decide (start r + len r = 2 ^ 64)) as [E2|].
    - rewrite E2, Z.mod_same in E by lia. lia.
    - rewrite Z.mod_small in E; lia. }
  destruct (num_mem_ranges s >=? max_mem_ranges s); [done|].
  rewrite shift_up_snoc by done.
  assert (Htk : length (take (S mr) (mem_ranges s)) = S mr) by (rewrite length_take; lia).
  rewrite lookup_app_r by lia. rewrite Htk, lookup_drop.
  replace (mr + (S mr - S mr))%nat with mr by lia. rewrite Hr. cbn [checked mbind result_bind].
  do 2 f_equal. rewrite (wrap_small 64 (sp - start r)) by lia. rewrite wrap_small by lia.
  rewrite (take_S_r _ _ r Hr), (drop_S _ _ _ Hr), <- app_assoc. cbn [app].
  assert (Htm : length (take mr (mem_ranges s)) = mr) by (rewrite length_take; lia).
  rewrite insert_app_r_alt, Htm, Nat.sub_diag by lia. cbn [insert list_insert].
  rewrite insert_app_r_alt, Htm by lia.
  replace (S mr - mr)%nat with 1%nat by lia. cbn. unfold part.
  do 3 f_equal. f_equal. lia.
Qed.

(** ** [alloc_scan] *)

(** Where a block of [sz] bytes goes in range [r]. *)
Definition block_at (r : mem_range) (sz al : Z) : Z := align_down (range_end r - sz) al.

Definition fits (r : mem_range) (sz al : Z) : bool :=
  (e820_type r =? E820_RAM) && (sz <=? len r) && (start r <=? block_at r sz al).

Definition none_fit (l : list mem_range) (sz al : Z) (from to : nat) : Prop :=
  forall j r, (from <= j <= to)%nat -> l !! j = Some r -> fits r sz al = false.

(** What the scan from entry [i] down comes to. *)
Definition scan_post (l : list mem_range) (sz al : Z) (i : nat) (res : result (nat * Z)) : Prop :=
  match res with
  | Ok (k, a) => (k <= i)%nat /\ none_fit l sz al (S k) i /\
      exists r, l !! k = Some r /\ fits r sz al = true /\ a = block_at r sz al
  | Fail Hlt => exists k r, (k <= i)%nat /\ none_fit l sz al k i /\
      l !! k = Some r /\ start r = 0 /\ e820_type r = E820_RAM /\ sz <= len r
  | Fail OutOfBounds => none_fit l sz al 0 i
  | Fail _ => False
  end.

Lemma none_fit_S l sz al i r from :
  none_fit l sz al from i -> l !! S i = Some r -> fits r sz al = false -> none_fit l sz al from (S i).
Proof.
  intros H Hr Hf j r' Hj Hr'. destruct (decide (j = S i)) as [->|]; [by simplify_eq|].
  apply (H j); [lia|done].
Qed.

Lemma scan_post_below l sz al i r :
  l !! i = Some r -> fits r sz al = false ->
  (forall i', i = S i' -> scan_post l sz al i' (alloc_scan l sz al i')) ->
  scan_post l sz al i (match i with O => Fail OutOfBounds | S i => alloc_scan l sz al i end).
Proof.
  intros Hr Hf IH. destruct i as [|i].
  - intros j r' Hj Hr'. replace j with 0%nat in Hr' by lia. by simplify_eq.
  - specialize (IH i eq_refl). unfold scan_post in *.
    destruct (alloc_scan l sz al i) as [[k a]|[]]; try done.
    + destruct IH as (? & ? & ?). split_and!; [lia| |done]. by eapply none_fit_S.
    + destruct IH as (k & r0 & ? & ? & ? & ? & ? & ?). exists k, r0. split_and!; [lia| |done..]. by eapply none_fit_S.
    + by eapply none_fit_S.
Qed.

(** One step of the scan, the arithmetic done. *)
Lemma alloc_scan_eq l sz al i r :
  l !! i = Some r -> range_ok r -> range_end r <= 2 ^ 32 -> 0 < sz -> is_pow2 al -> al <= 2 ^ 32 ->
  alloc_scan l sz al i =
    if negb (e820_type r =? E820_RAM) || (len r <? sz) then
      match i with O => Fail OutOfBounds | S i => alloc_scan l sz al i end
    else if block_at r sz al >=? start r then Ok (i, block_at r sz al)
    else if start r =? 0 then Fail Hlt
    else match i with O => Fail OutOfBounds | S i => alloc_scan l sz al i end.
Proof.
  intros Hr (Hs0 & Hl0 & _) Hend32 Hsz Hal Hal32.
  destruct i; cbn [alloc_scan]; rewrite Hr; cbn [checked mbind result_bind].
  all: destruct (Z.eqb_spec (e820_type r) E820_RAM), (Z.ltb_spec (len r) sz); try done; cbn [negb orb].
  all: rewrite land_wrap_opp; [|apply wrap_range; lia|done|done].
  all: replace (u32 (u32 (start r + len r) - sz)) with (range_end r - sz); [done|].
  all: unfold range_end in *; unfold wrap; rewrite Zminus_mod_idemp_l, Z.mod_small by lia; lia.
Qed.

Lemma alloc_scan_spec l sz al i :
  Forall range_ok l -> 0 < sz -> is_pow2 al -> al <= 2 ^ 32 -> (i < length l)%nat ->
  (forall j r, (j <= i)%nat -> l !! j = Some r -> range_end r <= 2 ^ 32) ->
  scan_post l sz al i (alloc_scan l sz al i).
Proof.
  intros Hok Hsz Hal Hal32. induction i as [i IH] using lt_wf_ind. intros Hi Hend.
  destruct (lookup_lt_is_Some_2 l i Hi) as [r Hr].
  pose proof (ok_lookup _ _ _ Hok Hr) as Hrok. specialize (Hend i r ltac:(lia) Hr) as Hend32.
  assert (Hbelow : fits r sz al = false -> scan_post l sz al i
    match i with O => Fail OutOfBounds | S i => alloc_scan l sz al i end).
  { intros Hno. apply (scan_post_below _ _ _ _ r Hr Hno). intros i' ->.
    apply IH; [lia..|]. intros j r' Hj. apply Hend. lia. }
  rewrite (alloc_scan_eq _ _ _ _ r) by done. unfold fits in Hbelow.
  destruct (Z.eqb_spec (e820_type r) E820_RAM) as [Ht|]; [|by apply Hbelow].
  destruct (Z.ltb_spec (len r) sz), (Z.leb_spec sz (len r)); try lia; [by apply Hbelow|]. cbn [negb orb].
  destruct (Z.geb_spec (block_at r sz al) (start r)), (Z.leb_spec (start r) (block_at r sz al)); try lia.
  - split_and!; [lia|intros j r' Hj; lia|]. exists r. split_and!; [done| |done]. unfold fits.
    repeat (apply andb_true_iff; split); lia.
  - destruct (Z.eqb_spec (start r) 0); [|by apply Hbelow].
    exists i, r. split_and!; [lia| |done..]. intros j r' Hj Hr'.
    replace j with i in Hr' by lia. simplify_eq. unfold fits.
    destruct (Z.leb_spec (start r) (block_at r sz al)); [lia|]. by rewrite andb_false_r.
Qed.

(** ** What replacing a range by its pieces does to the map *)

Lemma pieces_ok r sp below above :
  range_ok r -> start r <= sp < range_end r -> Forall range_ok (pieces r sp below above).
Proof.
  intros (? & ? & ?) Hsp. unfold pieces, range_ok, range_end in *.
  destruct (Z.eqb_spec (start r) sp); repeat constructor; cbn; lia.
Qed.

Lemma pieces_inside r sp below above p :
  range_ok r -> start r <= sp < range_end r -> p ∈ pieces r sp below above ->
  start r <= start p /\ range_end p <= range_end r.
Proof.
  intros (? & ? & ?) Hsp Hp. unfold pieces, range_end in *. destruct (start r =? sp).
  - apply list_elem_of_singleton in Hp as ->. cbn. lia.
  - apply elem_of_cons in Hp as [->| ->%list_elem_of_singleton]; cbn; lia.
Qed.

Lemma sorted_replace {A} (R : relation A) l1 r l2 ps :
  (forall x p, R x r -> p ∈ ps -> R x p) -> (forall y p, R r y -> p ∈ ps -> R p y) -> StronglySorted R ps ->
  StronglySorted R (l1 ++ r :: l2) -> StronglySorted R (l1 ++ ps ++ l2).
Proof.
  intros Hl Hr Hps (H12 & H1 & [Hr2 H2]%StronglySorted_cons)%StronglySorted_app. rewrite Forall_forall in Hr2.
  repeat (apply StronglySorted_app; split_and!); try done.
  - intros x y Hx [Hy|Hy]%elem_of_app; [|by apply H12; [|right]]. apply (Hl x y); [|done]. apply H12; [done|by left].
  - intros x y Hx Hy. apply (Hr y x); [by apply Hr2|done].
Qed.

Lemma pieces_sorted (R : relation mem_range) r sp below above :
  (forall x y, range_end x <= start y -> R x y) -> StronglySorted R (pieces r sp below above).
Proof.
  intros HR. unfold pieces. destruct (start r =? sp); repeat constructor. apply HR. unfold range_end. cbn. lia.
Qed.

Lemma pieces_order l1 r l2 sp below above :
  range_ok r -> start r <= sp < range_end r -> e820_type r = E820_RAM -> StronglySorted before (l1 ++ r :: l2) ->
  StronglySorted before (l1 ++ pieces r sp below above ++ l2).
Proof.
  intros Hok Hsp Hty. apply sorted_replace; [..|apply pieces_sorted; by left].
  all: intros x p Hx Hp; destruct (pieces_inside r sp below above p Hok Hsp Hp);
    unfold before, both_low in *; intuition lia.
Qed.

(** No address is in two of the ranges, except in base memory. *)
Definition apart (x y : mem_range) : Prop :=
  disjoint_ranges (start x) (len x) (start y) (len y) \/ both_low x y.

#[export] Instance apart_sym : Symmetric apart.
Proof. intros x y. unfold apart, both_low, disjoint_ranges. tauto. Qed.

Lemma before_apart l1 r l2 y :
  StronglySorted before (l1 ++ r :: l2) -> y ∈ l1 \/ y ∈ l2 -> apart r y.
Proof.
  intros (H12 & _ & H2)%StronglySorted_app Hy. apply StronglySorted_cons in H2 as [Hr2 _].
  rewrite Forall_forall in Hr2. destruct Hy as [Hy|Hy].
  - apply apart_sym. destruct (H12 y r Hy ltac:(by left)); [left|by right]. unfold disjoint_ranges, range_end in *. lia.
  - destruct (Hr2 y Hy); [left|by right]. unfold disjoint_ranges, range_end in *. lia.
Qed.

(** Every byte keeps its types and attributes, except that from [sp] on RAM becomes [above]. *)
Lemma pieces_byte l1 r l2 sp above x ty ext attr :
  start r <= sp < range_end r -> (forall y, y ∈ l1 \/ y ∈ l2 -> apart r y) -> e820_type r = E820_RAM ->
  byte_is (l1 ++ pieces r sp E820_RAM above ++ l2) x ty ext attr <->
  if decide (sp <= x < range_end r)
  then (ty = above /\ byte_is (l1 ++ r :: l2) x E820_RAM ext attr) \/
       (ty <> E820_RAM /\ byte_is (l1 ++ r :: l2) x ty ext attr)
  else byte_is (l1 ++ r :: l2) x ty ext attr.
Proof.
  intros Hsp Hapart Ht.
  assert (Hother : forall y, y ∈ l1 \/ y ∈ l2 -> in_range (start r) (len r) x -> in_range (start y) (len y) x ->
    e820_type y <> E820_RAM).
  { intros y Hy Hx Hxy Hty. destruct (Hapart y Hy) as [Hd|(_ & _ & Hn)]; [|by apply Hn].
    unfold disjoint_ranges, in_range in *. lia. }
  assert (Hin : forall y, y ∈ l1 ++ r :: l2 <-> y = r \/ y ∈ l1 \/ y ∈ l2) by (intros y; rewrite elem_of_app, elem_of_cons; tauto).
  unfold byte_is. split.
  - intros (y & Hy & Hx & <- & <- & <-).
    assert (Hy' : y ∈ pieces r sp E820_RAM above \/ y ∈ l1 \/ y ∈ l2) by (rewrite !elem_of_app in Hy; tauto).
    destruct Hy' as [Hp|Hy'].
    + unfold pieces in Hp. unfold range_end, in_range in *. destruct (Z.eqb_spec (start r) sp) as [E|].
      * apply list_elem_of_singleton in Hp as ->. cbn in *. rewrite decide_True by lia.
        left. split; [done|]. exists r. rewrite Hin. split_and!; (by left) || done || lia.
      * apply elem_of_cons in Hp as [->| ->%list_elem_of_singleton]; cbn in *.
        -- rewrite decide_False by lia. exists r. rewrite Hin. split_and!; (by left) || done || lia.
        -- rewrite decide_True by lia. left. split; [done|]. exists r. rewrite Hin. split_and!; (by left) || done || lia.
    + assert (Hex : exists r0, r0 ∈ l1 ++ r :: l2 /\ in_range (start r0) (len r0) x /\
        e820_type r0 = e820_type y /\ e820_ext_attr r0 = e820_ext_attr y /\ uefi_attr r0 = uefi_attr y)
        by (exists y; rewrite Hin; split_and!; auto).
      case_decide as Hc; [right; split; [|done]|done]. apply Hother; [done| |done]. unfold in_range, range_end in *. lia.
  - case_decide as Hx.
    + intros [(-> & y & Hy & Hxy & Hty & <- & <-)|(Hne & y & Hy & Hxy & <- & <- & <-)].
      * apply Hin in Hy as [->|Hy]; [|by destruct (Hother y Hy); [unfold in_range, range_end in *; lia|..]].
        unfold pieces. destruct (Z.eqb_spec (start r) sp) as [E|].
        -- exists (part r (start r) (len r) above). rewrite !elem_of_app, list_elem_of_singleton. split_and!; auto.
        -- exists (part r sp (range_end r - sp) above). rewrite !elem_of_app, !elem_of_cons. split_and!; auto.
           unfold in_range. cbn. lia.
      * apply Hin in Hy as [->|Hy]; [done|]. exists y. rewrite !elem_of_app. split_and!; auto. tauto.
    + intros (y & Hy & Hxy & <- & <- & <-). apply Hin in Hy as [->|Hy].
      * unfold pieces. unfold in_range, range_end in *. destruct (Z.eqb_spec (start r) sp) as [E|]; [lia|].
        exists (part r (start r) (sp - start r) E820_RAM). rewrite !elem_of_app, !elem_of_cons. split_and!; auto; cbn; lia.
      * exists y. rewrite !elem_of_app. split_and!; auto. tauto.
Qed.

(** ** [mem_alloc] *)

Definition limit_of (max_addr : Z) : Z := if max_addr =? 0 then XM32_MAX_ADDR else max_addr.

(** No limit below base memory's. *)
Definition limit_ok (max_addr : Z) : Prop := max_addr = 0 \/ BMEM_MAX_ADDR <= max_addr < 2 ^ 32.

Lemma limit_of_range max_addr : limit_ok max_addr -> BMEM_MAX_ADDR <= limit_of max_addr <= 2 ^ 32.
Proof.
  unfold limit_ok, limit_of, XM32_MAX_ADDR, BMEM_MAX_ADDR. destruct (Z.eqb_spec max_addr 0); lia.
Qed.

Lemma mem_alloc_spec s sz al max_addr :
  map_inv s -> (1 <= length (mem_ranges s))%nat -> 0 < sz -> is_pow2 al -> al <= 2 ^ 32 ->
  limit_ok max_addr ->
  match mem_alloc s sz al max_addr with
  | Ok (a, s') => exists l1 r l2, mem_ranges s = l1 ++ r :: l2 /\ range_ok r /\
      fits r sz al = true /\ a = block_at r sz al /\ range_end r <= limit_of max_addr /\
      (forall r', r' ∈ l2 -> fits r' sz al = false \/ range_end r' > limit_of max_addr) /\
      s' = set_ranges s (l1 ++ pieces r a E820_RAM E820_RESERVED ++ l2) /\
      num_mem_ranges s' <= max_mem_ranges s
  | Fail Hlt => limit_of max_addr < sz \/
      (forall r, r ∈ mem_ranges s -> range_end r > limit_of max_addr) \/
      (exists r, r ∈ mem_ranges s /\ start r = 0 /\ e820_type r = E820_RAM /\ sz <= len r) \/
      (num_mem_ranges s = max_mem_ranges s /\
       exists r, r ∈ mem_ranges s /\ range_end r <= limit_of max_addr /\ fits r sz al = true)
  | Fail OutOfBounds => forall r, r ∈ mem_ranges s -> range_end r <= limit_of max_addr -> fits r sz al = false
  | Fail _ => False
  end.
Proof.
  intros Hinv Hlen Hsz Hal Hal32 Hmax. unfold mem_alloc. fold (limit_of max_addr).
  pose proof (limit_of_range max_addr Hmax) as Hlim.
  destruct (Z.eqb_spec sz 0); [lia|]. destruct (Z.ltb_spec (limit_of max_addr) sz); [by left|].
  pose proof (find_highest_spec s (limit_of max_addr) Hinv Hlen ltac:(lia)) as Hf.
  destruct (find_highest_range_below s (limit_of max_addr)) as [i|[]]; try done; cbn [mbind result_bind];
    cycle 1. { right; left. intros r [j Hj]%list_elem_of_lookup. by apply (Hf j). }
  destruct Hf as (Hi & (ri & Hri & Hendi) & Hover). unfold num_mem_ranges in *.
  assert (Hend : forall j r, (j <= Z.to_nat i)%nat -> mem_ranges s !! j = Some r -> range_end r <= limit_of max_addr).
  { intros j r Hj Hr. pose proof (ends_mono _ j (Z.to_nat i) r ri (inv_ok _ Hinv) (inv_order _ Hinv) Hj Hr Hri). lia. }
  pose proof (alloc_scan_spec (mem_ranges s) sz al (Z.to_nat i) (inv_ok _ Hinv) Hsz Hal Hal32 ltac:(lia)
    ltac:(intros j r Hj Hr; specialize (Hend j r Hj Hr); lia)) as Hscan.
  destruct (alloc_scan (mem_ranges s) sz al (Z.to_nat i)) as [[k a]|[]]; try done; cbn [mbind result_bind scan_post] in *.
  - destruct Hscan as (Hk & Hnone & r & Hr & Hfit & ->).
    pose proof (ok_lookup _ _ _ (inv_ok _ Hinv) Hr) as Hrok.
    assert (Hin : start r <= block_at r sz al < range_end r).
    { pose proof Hfit as Hf2. unfold fits in Hf2. pose proof (align_down_le (range_end r - sz) al ltac:(by apply is_pow2_pos)).
      apply andb_true_iff in Hf2 as [_ Hge%Z.leb_le]. unfold block_at in *. lia. }
    rewrite (split_range_spec _ _ _ _ _ _ Hr Hrok Hin).
    pose proof (lookup_lt_Some _ _ _ Hr) as Hkl.
    destruct (negb (start r =? block_at r sz al) && (num_mem_ranges s >=? max_mem_ranges s)) eqn:Efull;
      cbn [mbind result_bind].
    { do 3 right. apply andb_true_iff in Efull as [_ Efull]. pose proof (inv_cap _ Hinv).
      unfold num_mem_ranges in *. split; [lia|]. exists r.
      split_and!; [by eapply list_elem_of_lookup_2|by apply (Hend k)|done]. }
    exists (take k (mem_ranges s)), r, (drop (S k) (mem_ranges s)). split_and!; try done.
    + by rewrite take_drop_middle.
    + by apply (Hend k).
    + intros r' [j Hj]%list_elem_of_lookup. rewrite lookup_drop in Hj.
      destruct (decide (S k + j <= Z.to_nat i)%nat).
      * left. apply (Hnone (S k + j)%nat); [lia|done].
      * right. apply (Hover (S k + j)%nat); [lia|done].
    + pose proof (inv_cap _ Hinv). unfold num_mem_ranges in *. cbn. unfold pieces.
      rewrite length_app, length_take, length_app, length_drop.
      destruct (start r =? block_at r sz al); cbn in *; lia.
  - destruct Hscan as (k & r & _ & _ & Hr & ? & ? & ?). do 2 right; left. exists r.
    split_and!; [by eapply list_elem_of_lookup_2|done..].
  - intros r [j Hj]%list_elem_of_lookup Hle. destruct (decide (j <= Z.to_nat i)%nat).
    + apply (Hscan j); [lia|done].
    + specialize (Hover j ltac:(lia) r Hj). lia.
Qed.

Section alloc_result.
Context (s : mem_map) (l1 l2 : list mem_range) (r : mem_range) (sz al lim : Z).
Hypothesis Hinv : map_inv s.
Hypothesis Hl : mem_ranges s = l1 ++ r :: l2.
Hypothesis Hok : range_ok r.
Hypothesis Hfit : fits r sz al = true.
Hypothesis Hsz : 0 < sz.
Hypothesis Hal : is_pow2 al.
Let s' := set_ranges s (l1 ++ pieces r (block_at r sz al) E820_RAM E820_RESERVED ++ l2).
Hypothesis Hcap : num_mem_ranges s' <= max_mem_ranges s.

Lemma block_bounds :
  (al | block_at r sz al) /\ start r <= block_at r sz al /\ block_at r sz al + sz <= range_end r /\
  e820_type r = E820_RAM.
Proof.
  pose proof Hfit as [[Ht%Z.eqb_eq _]%andb_true_iff Hge%Z.leb_le]%andb_true_iff.
  pose proof (align_down_le (range_end r - sz) al ltac:(by apply is_pow2_pos)).
  split_and!; [apply align_down_divide|done|unfold block_at; lia|done].
Qed.

Lemma alloc_inv : map_inv s'.
Proof.
  destruct block_bounds as (_ & ? & ? & _). pose proof (inv_ok _ Hinv) as Ho. rewrite Hl in Ho.
  split; cbn.
  - apply Forall_app in Ho as [Ho1 [_ Ho2]%Forall_cons]. rewrite !Forall_app. split_and!; [done| |done].
    apply pieces_ok; [done|lia].
  - apply pieces_order; [done|lia|apply block_bounds|]. rewrite <- Hl. apply Hinv.
  - pose proof (inv_cap _ Hinv). cbn. lia.
Qed.

Lemma alloc_bytes x ty ext attr :
  byte_is (mem_ranges s') x ty ext attr <->
  if decide (block_at r sz al <= x < range_end r)
  then (ty = E820_RESERVED /\ byte_is (mem_ranges s) x E820_RAM ext attr) \/
       (ty <> E820_RAM /\ byte_is (mem_ranges s) x ty ext attr)
  else byte_is (mem_ranges s) x ty ext attr.
Proof.
  destruct block_bounds as (_ & ? & ? & ?). rewrite Hl. apply pieces_byte; [lia| |done].
  intros y. apply before_apart. rewrite <- Hl. apply Hinv.
Qed.

Lemma alloc_was_ram x :
  block_at r sz al <= x < range_end r -> exists ext attr, byte_is (mem_ranges s) x E820_RAM ext attr.
Proof.
  intros Hx. destruct block_bounds as (_ & ? & _ & ?). exists (e820_ext_attr r), (uefi_attr r), r.
  rewrite Hl. split_and!; [apply elem_of_app; right; by left| |done..].
  unfold in_range, range_end in *. lia.
Qed.
End alloc_result.

(** C15: [mem_alloc] of a non-zero size.  On success the block is aligned, ends below the limit,
    and every byte from it up to the end [e] of its range turns from RAM into reserved memory
    with its attributes unchanged, while every other byte, and every other entry that describes
    the same byte of base memory, stays as it was; the map's invariant is preserved, and no RAM range that fits and ends below the limit ends higher.  It halts only
    if the limit is below the size, no range ends below the limit, a range of RAM at
    address 0 is long enough but not when aligned, or the table is full; and it runs off the front of the table only if no range fits. *)
Theorem mem_alloc_correct s sz al max_addr :
  map_inv s -> (1 <= length (mem_ranges s))%nat -> 0 < sz -> is_pow2 al -> al <= 2 ^ 32 ->
  limit_ok max_addr ->
  match mem_alloc s sz al max_addr with
  | Ok (a, s') => (al | a) /\ map_inv s' /\
      exists e, a + sz <= e <= limit_of max_addr /\
        (forall x, a <= x < e -> exists ext attr, byte_is (mem_ranges s) x E820_RAM ext attr) /\
        (forall x ty ext attr, byte_is (mem_ranges s') x ty ext attr <->
          if decide (a <= x < e)
          then (ty = E820_RESERVED /\ byte_is (mem_ranges s) x E820_RAM ext attr) \/
               (ty <> E820_RAM /\ byte_is (mem_ranges s) x ty ext attr)
          else byte_is (mem_ranges s) x ty ext attr) /\
        (forall r, r ∈ mem_ranges s -> fits r sz al = true -> range_end r <= limit_of max_addr -> range_end r <= e)
  | Fail Hlt => limit_of max_addr < sz \/
      (forall r, r ∈ mem_ranges s -> range_end r > limit_of max_addr) \/
      (exists r, r ∈ mem_ranges s /\ start r = 0 /\ e820_type r = E820_RAM /\ sz <= len r) \/
      num_mem_ranges s = max_mem_ranges s
  | Fail OutOfBounds => forall r, r ∈ mem_ranges s -> range_end r <= limit_of max_addr -> fits r sz al = false
  | Fail _ => False
  end.
Proof.
  intros Hinv Hlen Hsz Hal Hal32 Hmax. pose proof (mem_alloc_spec s sz al max_addr Hinv Hlen Hsz Hal Hal32 Hmax) as H.
  destruct (mem_alloc s sz al max_addr) as [[a s']|[]]; try done; [|tauto].
  destruct H as (l1 & r & l2 & Hl & Hok & Hfit & -> & Hlim & Hhigh & -> & Hcap).
  destruct (block_bounds r sz al Hfit Hal) as (? & ? & ? & ?).
  split_and!; [done|by eapply alloc_inv|]. exists (range_end r). split_and!; [lia|lia|..].
  - by eapply alloc_was_ram.
  - intros. by apply (alloc_bytes s l1 l2 r).
  - intros r' Hr' Hf Hle. rewrite Hl in Hr'. apply elem_of_app in Hr' as [Hr'|[->|Hr']%elem_of_cons]; [|done|].
    + pose proof (inv_order _ Hinv) as Hs. rewrite Hl in Hs.
      pose proof (StronglySorted_app_1_elem_of _ _ _ r' r Hs Hr' ltac:(by left)) as [Hb|(_ & _ & Hb)].
      * unfold range_end in *. destruct Hok. lia.
      * destruct Hb. split; [|tauto]. unfold fits in Hf. apply andb_true_iff in Hf as [[Hf%Z.eqb_eq _]%andb_true_iff _]. done.
    + destruct (Hhigh r' Hr') as [?|?]; [congruence|lia].
Qed.

(** When a range ends below the limit but none that does can hold the block, and the RAM at
    address 0, if any, is shorter than the block, [mem_alloc] does not halt: it goes on to read
    the table's entry -1. *)
Theorem mem_alloc_reads_below_table s sz al max_addr :
  map_inv s -> 0 < sz -> is_pow2 al -> al <= 2 ^ 32 -> limit_ok max_addr ->
  sz <= limit_of max_addr ->
  (exists r, r ∈ mem_ranges s /\ range_end r <= limit_of max_addr) ->
  (forall r, r ∈ mem_ranges s -> range_end r <= limit_of max_addr -> fits r sz al = false) ->
  (forall r, r ∈ mem_ranges s -> e820_type r = E820_RAM -> start r = 0 -> len r < sz) ->
  mem_alloc s sz al max_addr = Fail OutOfBounds.
Proof.
  intros Hinv Hsz Hal Hal32 Hmax Hlim (r0 & Hr0 & Hle) Hnofit Hno0.
  assert (Hlen : (1 <= length (mem_ranges s))%nat).
  { destruct (mem_ranges s); [by apply not_elem_of_nil in Hr0|cbn; lia]. }
  pose proof (mem_alloc_spec s sz al max_addr Hinv Hlen Hsz Hal Hal32 Hmax) as H.
  destruct (mem_alloc s sz al max_addr) as [[a s']|[]]; try done.
  - destruct H as (l1 & r & l2 & Hl & Hok & Hfit & -> & Hend & _).
    rewrite Hnofit in Hfit; [done| |done]. rewrite Hl. apply elem_of_app. right. by left.
  - destruct H as [?|[H|[(r & Hr & H0 & Ht & Hl)|(_ & r & Hr & Hend & Hfit)]]]; [lia| | |].
    + specialize (H r0 Hr0). lia.
    + specialize (Hno0 r Hr Ht H0). lia.
    + by rewrite Hnofit in Hfit.
Qed.

(** ** [mem_alloc] as the page-table code's allocator *)

Definition is_ram (s : mem_map) (x : Z) : Prop :=
  exists ext attr, byte_is (mem_ranges s) x E820_RAM ext attr.

Definition alloc_ready (s : mem_map) : Prop :=
  map_inv s /\ (1 <= length (mem_ranges s))%nat.

#[export] Instance mem_map_allocator : Allocator mem_map := {
  alc_alloc s sz al := mem_alloc s sz al 0;
  alc_inv := alloc_ready;
  alc_free := is_ram;
  alc_base := 0;
  alc_limit := XM32_MAX_ADDR;
}.

(** What the clients of [mem_alloc] rely on, whatever the limit. *)
Lemma mem_alloc_facts s sz al max_addr a s' :
  alloc_ready s -> 0 < sz -> is_pow2 al -> al <= 4096 -> limit_ok max_addr ->
  mem_alloc s sz al max_addr = Ok (a, s') ->
  alloc_ready s' /\ (0 <= a /\ a + sz <= limit_of max_addr /\ (al | a) /\
  (forall x, in_range a sz x -> is_ram s x /\ ~ is_ram s' x)) /\ (forall x, is_ram s' x -> is_ram s x).
Proof.
  intros (Hinv & Hlen) Hsz Hal Hal4 Hmax E.
  pose proof (mem_alloc_spec s sz al max_addr Hinv Hlen Hsz Hal ltac:(lia) Hmax) as H. rewrite E in H.
  destruct H as (l1 & r & l2 & Hl & Hok & Hfit & -> & Hlim & _ & -> & Hcap).
  destruct (block_bounds r sz al Hfit Hal) as (Hdiv & ? & ? & ?).
  pose proof (alloc_bytes s l1 l2 r sz al Hinv Hl Hfit Hsz Hal) as Hb.
  assert (Hback : forall x, is_ram (set_ranges s (l1 ++ pieces r (block_at r sz al) E820_RAM E820_RESERVED ++ l2)) x ->
    is_ram s x /\ ~ block_at r sz al <= x < range_end r).
  { intros x (ext & attr & Hx). apply Hb in Hx. case_decide; [by destruct Hx as [[? _]|[? _]]|]. split; [by exists ext, attr|done]. }
  split_and!; [split_and!|..].
  - by eapply alloc_inv.
  - cbn. rewrite !length_app. unfold pieces. destruct (_ =? _); cbn; lia.
  - destruct Hok as (? & ? & ?). lia.
  - lia.
  - done.
  - intros x Hx. unfold in_range in Hx. split.
    + apply (alloc_was_ram s l1 l2 r sz al Hl Hfit Hal). lia.
    + intros Hz. destruct (Hback x Hz). lia.
  - intros x Hx. by destruct (Hback x Hx).
Qed.

Lemma mem_alloc_failure s sz al max_addr f :
  alloc_ready s -> 0 < sz -> is_pow2 al -> al <= 4096 -> limit_ok max_addr ->
  mem_alloc s sz al max_addr = Fail f -> f = Hlt \/ f = OutOfBounds.
Proof.
  intros (Hinv & Hlen) Hsz Hal Hle Hmax E.
  pose proof (mem_alloc_spec s sz al max_addr Hinv Hlen Hsz Hal ltac:(lia) Hmax) as H. rewrite E in H.
  destruct f; try done; auto.
Qed.

#[export] Instance mem_map_allocator_laws : AllocatorLaws mem_map.
Proof.
  split; cbn; [done|intros s sz al a s'..].
  1, 2: intros Hi Hsz Hal Hle E; by apply (mem_alloc_facts s sz al 0 a s' Hi Hsz Hal Hle ltac:(by left) E).
  intros x Hi Hsz Hal Hle E. by apply (mem_alloc_facts s sz al 0 a s' Hi Hsz Hal Hle ltac:(by left) E).
Qed.

(** Between [b] and the end of a range of RAM below [lim] there are [k] bytes. *)
Definition headroom (s : mem_map) (b k lim : Z) : Prop :=
  exists r, r ∈ mem_ranges s /\ e820_type r = E820_RAM /\ start r <= b /\ b + k <= range_end r <= lim.

(** A block comes from above [b] as long as there is room for it there, wherever else there is
    RAM: [mem_alloc] looks at the highest ranges first, and takes the end of a range. *)
Lemma mem_alloc_headroom s sz al max_addr a s' b k :
  alloc_ready s -> 0 < sz -> is_pow2 al -> al <= 4096 -> limit_ok max_addr ->
  mem_alloc s sz al max_addr = Ok (a, s') ->
  headroom s b k (limit_of max_addr) -> sz + al <= k ->
  b <= a /\ headroom s' b (k - sz - al) (limit_of max_addr).
Proof.
  intros (Hinv & Hlen) Hsz Hal Hal4 Hmax E (r & Hr & Ht & Hb & Hk) Hle.
  pose proof (mem_alloc_spec s sz al max_addr Hinv Hlen Hsz Hal ltac:(lia) Hmax) as H. rewrite E in H.
  destruct H as (l1 & r' & l2 & Hl & _ & Hfit & -> & Hlim & Hhigh & -> & _).
  destruct (block_bounds r' sz al Hfit Hal) as (_ & H1 & H2 & H3). pose proof (is_pow2_pos al Hal) as Hpos.
  pose proof (inv_order _ Hinv) as Hs. rewrite Hl in Hr, Hs.
  apply elem_of_app in Hr as [Hr|[->|Hr]%elem_of_cons].
  - pose proof (StronglySorted_app_1_elem_of _ _ _ r r' Hs Hr ltac:(by left)) as [Hbe|(_ & _ & Hbe)]; [|by destruct Hbe].
    split; [lia|]. exists r. cbn [set_ranges mem_ranges]. split_and!; [apply elem_of_app; by left|done|done|lia|lia].
  - pose proof (align_down_gt (range_end r' - sz) al Hpos) as Hgt. fold (block_at r' sz al) in Hgt.
    split; [lia|]. exists (part r' (start r') (block_at r' sz al - start r') E820_RAM).
    cbn [set_ranges mem_ranges]. unfold pieces. destruct (Z.eqb_spec (start r') (block_at r' sz al)); [lia|].
    split_and!; [apply elem_of_app; right; by left|done|done|unfold range_end; cbn; lia|unfold range_end in *; cbn; lia].
  - exfalso. destruct (Hhigh r Hr) as [Hn|?]; [|lia].
    pose proof (align_down_gt (range_end r - sz) al Hpos) as Hgt. fold (block_at r sz al) in Hgt.
    unfold fits in Hn. rewrite Ht in Hn. cbn [Z.eqb Pos.eqb andb E820_RAM] in Hn.
    destruct (Z.leb_spec sz (len r)), (Z.leb_spec (start r) (block_at r sz al)); try done; unfold range_end in *; lia.
Qed.

(** ** What stays the same through a sequence of allocations *)

Definition covered (s : mem_map) (x : Z) : Prop := exists r, r ∈ mem_ranges s /\ in_range (start r) (len r) x.

Definition mem_step (s s' : mem_map) : Prop :=
  exists sz al a, 0 < sz /\ is_pow2 al /\ al <= 4096 /\ mem_alloc s sz al 0 = Ok (a, s').

Definition mem_reach : mem_map -> mem_map -> Prop := rtc mem_step.

(** The table grows, unless only types change. *)
Lemma pieces_starts l1 r l2 sp below above :
  let l := l1 ++ r :: l2 in let l' := l1 ++ pieces r sp below above ++ l2 in
  (length l < length l')%nat \/ start <$> l' = start <$> l.
Proof.
  unfold pieces. cbv zeta. destruct (start r =? sp); [right|left].
  - by rewrite !fmap_app.
  - rewrite !length_app. cbn. lia.
Qed.

Lemma mem_step_facts s s' :
  alloc_ready s -> mem_step s s' ->
  alloc_ready s' /\ max_mem_ranges s' = max_mem_ranges s /\ (forall x, covered s' x <-> covered s x) /\
  (num_mem_ranges s < num_mem_ranges s' \/ start <$> mem_ranges s' = start <$> mem_ranges s).
Proof.
  intros Hr (sz & al & a & Hsz & Hal & Hal4 & E).
  split; [by apply (@alc_alloc_inv mem_map mem_map_allocator mem_map_allocator_laws s sz al a s' Hr Hsz Hal Hal4 E)|].
  destruct Hr as (Hinv & Hlen).
  pose proof (mem_alloc_spec s sz al 0 Hinv Hlen Hsz Hal ltac:(lia) ltac:(by left)) as H. rewrite E in H.
  destruct H as (l1 & r & l2 & Hl & Hok & Hfit & -> & _ & _ & -> & Hcap).
  pose proof (alloc_bytes s l1 l2 r sz al Hinv Hl Hfit Hsz Hal) as Hb.
  split; [done|]. split.
  - intros x. unfold covered. split; intros (y & Hy & Hx).
    + assert (H : byte_is (l1 ++ pieces r (block_at r sz al) E820_RAM E820_RESERVED ++ l2) x
        (e820_type y) (e820_ext_attr y) (uefi_attr y)) by (by exists y).
      apply Hb in H. case_decide; [destruct H as [(_ & z & ? & ? & _)|(_ & z & ? & ? & _)]|destruct H as (z & ? & ? & _)]; by exists z.
    + assert (H : byte_is (mem_ranges s) x (e820_type y) (e820_ext_attr y) (uefi_attr y)) by (by exists y).
      assert (Hz : exists ty ext attr, byte_is (l1 ++ pieces r (block_at r sz al) E820_RAM E820_RESERVED ++ l2) x ty ext attr).
      { setoid_rewrite Hb. case_decide; [|by eexists _, _, _].
        destruct (alloc_was_ram s l1 l2 r sz al Hl Hfit Hal x ltac:(done)) as (ext & attr & ?).
        exists E820_RESERVED, ext, attr. by left. }
      destruct Hz as (ty & ext & attr & z & ? & ? & _). by exists z.
  - destruct (pieces_starts l1 r l2 (block_at r sz al) E820_RAM E820_RESERVED) as [Hlt|Heq].
    + left. unfold num_mem_ranges. rewrite Hl. cbn. lia.
    + right. by rewrite Hl.
Qed.

Lemma mem_reach_facts s s' :
  alloc_ready s -> mem_reach s s' ->
  alloc_ready s' /\ max_mem_ranges s' = max_mem_ranges s /\ (forall x, covered s' x <-> covered s x) /\
  (num_mem_ranges s < num_mem_ranges s' \/ start <$> mem_ranges s' = start <$> mem_ranges s).
Proof.
  intros Hr Hreach. induction Hreach as [s|s s1 s2 Hstep _ IH]; [split_and!; auto; by intros|].
  destruct (mem_step_facts s s1 Hr Hstep) as (Hr1 & Em & Hc & Hs).
  destruct (IH Hr1) as (Hr2 & Em2 & Hc2 & Hs2). split_and!; [done|congruence| |].
  - intros x. by rewrite Hc2.
  - assert (Hlen : forall l l' : list mem_range, start <$> l' = start <$> l -> length l' = length l)
      by (intros l l' E; by rewrite <- (length_fmap start l'), E, length_fmap).
    unfold num_mem_ranges in *.
    destruct Hs as [Hs|Hs], Hs2 as [Hs2|Hs2]; [left; lia|..|right; congruence]; left.
    + rewrite (Hlen _ _ Hs2). lia.
    + rewrite <- (Hlen _ _ Hs). lia.
Qed.

(** ** [mem_map_init] *)

Lemma StronglySorted_perm {A} (R : relation A) `{!Symmetric R} (l l' : list A) :
  l ≡ₚ l' -> StronglySorted R l -> StronglySorted R l'.
Proof.
  induction 1 as [|x l l' Hp IH|x y l|l l' l'' _ IH1 _ IH2]; [done| | |tauto].
  - rewrite !StronglySorted_cons, !Forall_forall. intros [Hx Hl]. split; [|by apply IH].
    intros y Hy. apply Hx. by rewrite Hp.
  - rewrite !StronglySorted_cons, !Forall_cons. naive_solver.
Qed.

Lemma sorted_apart_before l :
  Forall range_ok l -> StronglySorted apart l -> sorted_by_start l -> StronglySorted before l.
Proof.
  induction l as [|x l IH]; intros Hok Hap Hs; [constructor|].
  apply Forall_cons in Hok as [(? & ? & ?) Hok]. apply StronglySorted_cons in Hap as [Hx Hap].
  apply StronglySorted_cons. split.
  - apply Forall_forall. intros y Hy. rewrite Forall_forall in Hx, Hok.
    specialize (Hx y Hy). destruct (Hok y Hy) as (? & ? & ?).
    apply list_elem_of_lookup in Hy as [k Hk].
    specialize (Hs 0%nat (S k) x y ltac:(apply lookup_lt_Some in Hk; cbn; lia) eq_refl Hk).
    destruct Hx as [Hx|Hx]; [left|by right]. unfold disjoint_ranges, range_end in *. lia.
  - apply IH; [done..|]. intros i j y z Hij. apply (Hs (S i) (S j)). cbn. lia.
Qed.

Lemma pieces_apart l1 r l2 sp below above :
  range_ok r -> start r <= sp < range_end r -> e820_type r = E820_RAM -> StronglySorted apart (l1 ++ r :: l2) ->
  StronglySorted apart (l1 ++ pieces r sp below above ++ l2).
Proof.
  intros Hok Hsp Hty. apply sorted_replace; [..|apply pieces_sorted].
  3: { intros x y Hxy. left. unfold disjoint_ranges, range_end in *. lia. }
  all: intros x p Hx Hp; destruct (pieces_inside r sp below above p Hok Hsp Hp);
    unfold apart, both_low, disjoint_ranges, range_end in *; intuition lia.
Qed.

(** The entries the parameters name, those of length zero discarded. *)
Definition param_ranges (l : list (Z * bdat_mem_range_t)) : list mem_range :=
  of_bdat <$> List.filter (fun d => negb (mr_len d =? 0)) l.*2.

Record params_ok (l : list (Z * bdat_mem_range_t)) : Prop := {
  params_ranges : Forall range_ok (param_ranges l);
  params_apart : StronglySorted apart (param_ranges l);
  params_addr : NoDup l.*1;
  params_len : Z.of_nat (length l) <= 2 ^ 24;
}.

Lemma param_ranges_app l1 l2 : param_ranges (l1 ++ l2) = param_ranges l1 ++ param_ranges l2.
Proof. unfold param_ranges. by rewrite fmap_app, List.filter_app, fmap_app. Qed.

Lemma param_ranges_cons bp d l :
  mr_len d <> 0 -> param_ranges ((bp, d) :: l) = of_bdat d :: param_ranges l.
Proof. intros Hd. unfold param_ranges. cbn. by destruct (Z.eqb_spec (mr_len d) 0). Qed.

Lemma param_ranges_zero bp d l : mr_len d = 0 -> param_ranges ((bp, d) :: l) = param_ranges l.
Proof. intros Hd. unfold param_ranges. cbn. by rewrite Hd. Qed.

Lemma count_ranges_spec l :
  Z.of_nat (length l) <= 2 ^ 24 -> count_ranges l = 1 + Z.of_nat (length (param_ranges l)).
Proof.
  unfold count_ranges. intros Hl.
  enough (forall c, 0 <= c -> c + Z.of_nat (length l) < 2 ^ 32 ->
    foldl (fun mmr bd => if mr_len bd.2 =? 0 then mmr else u32 (mmr + 1)) c l =
      c + Z.of_nat (length (param_ranges l))) as H by (apply H; lia).
  clear Hl. induction l as [|[bp d] l IH]; intros c Hc Hlt; [cbn; lia|].
  cbn [foldl snd length] in *. destruct (Z.eqb_spec (mr_len d) 0).
  - rewrite IH, param_ranges_zero by (done || lia). done.
  - rewrite param_ranges_cons by done. cbn [length].
    rewrite wrap_small by lia. rewrite IH by lia. lia.
Qed.

(** What the second loop chooses from. *)
Definition candidate (need : Z) (chosen : option (Z * bdat_mem_range_t))
    (l : list (Z * bdat_mem_range_t)) (bd : Z * bdat_mem_range_t) : Prop :=
  chosen = Some bd \/ bd ∈ l /\ can_hold need bd.2 = true.

Lemma candidate_cons need chosen l bp d bd :
  candidate need chosen ((bp, d) :: l) bd <->
  candidate need chosen l bd \/ (bd = (bp, d) /\ can_hold need d = true).
Proof. unfold candidate. rewrite elem_of_cons. naive_solver. Qed.

Lemma choose_range_spec need chosen l :
  match choose_range need chosen l with
  | Some bd => candidate need chosen l bd /\
      forall bd', candidate need chosen l bd' -> mr_start bd'.2 <= mr_start bd.2
  | None => forall bd, ~ candidate need chosen l bd
  end.
Proof.
  revert chosen. induction l as [|[bp d] l IH]; intros chosen; cbn.
  { unfold candidate. destruct chosen as [bd|]; [split; [by left|]|]; intros ?;
      rewrite elem_of_nil; [intros [[= ->]|[[] _]]; lia|by intros [?|[[] _]]]. }
  assert (Hswap : forall c bd, candidate need (Some c) l bd <-> bd = c \/ candidate need None l bd)
    by (unfold candidate; naive_solver).
  assert (Hcons : forall bd, candidate need chosen ((bp, d) :: l) bd <->
    candidate need chosen l bd \/ (bd = (bp, d) /\ can_hold need d = true)) by apply candidate_cons.
  (* the loop goes on with [c], the better of the entry and the one chosen before *)
  assert (Hstep : forall c, (forall bd, candidate need c l bd -> candidate need chosen ((bp, d) :: l) bd) ->
    (forall bd, candidate need chosen ((bp, d) :: l) bd ->
      exists bd', candidate need c l bd' /\ mr_start bd.2 <= mr_start bd'.2) ->
    match choose_range need c l with
    | Some bd => candidate need chosen ((bp, d) :: l) bd /\
        forall bd', candidate need chosen ((bp, d) :: l) bd' -> mr_start bd'.2 <= mr_start bd.2
    | None => forall bd, ~ candidate need chosen ((bp, d) :: l) bd
    end).
  { intros c Hin Hout. specialize (IH c). destruct (choose_range need c l) as [bd|].
    - destruct IH as [H1 H2]. split; [by apply Hin|]. intros bd' Hbd'.
      destruct (Hout bd' Hbd') as (b & Hb & ?). specialize (H2 b Hb). lia.
    - intros bd Hbd. destruct (Hout bd Hbd) as (b & Hb & _). by apply (IH b). }
  destruct (can_hold need d) eqn:Eh.
  - destruct chosen as [[bpc c]|]; [destruct (Z.gtb_spec (mr_start d) (mr_start c))|]; apply Hstep.
    + intros bd. rewrite Hcons, !Hswap. tauto.
    + intros bd. rewrite Hcons, Hswap. setoid_rewrite Hswap.
      intros [[->|?]|[-> _]]; [exists (bp, d)|exists bd|exists (bp, d)]; cbn; split; auto; lia.
    + intros bd. rewrite Hcons, !Hswap. tauto.
    + intros bd. rewrite Hcons, Hswap. setoid_rewrite Hswap.
      intros [[->|?]|[-> _]]; [exists (bpc, c)|exists bd|exists (bpc, c)]; cbn; split; auto; lia.
    + intros bd. rewrite Hcons, Hswap. tauto.
    + intros bd. rewrite Hcons. intros Hb. exists bd. rewrite Hswap. split; [tauto|lia].
  - apply Hstep; intros bd; rewrite Hcons; [tauto|]. intros [?|[_ ?]]; [|done]. by exists bd.
Qed.

Lemma copy_plain mmr need mrs_at chosen acc l1 l2 :
  chosen ∉ l1.*1 -> Z.of_nat (length acc + length (param_ranges l1)) <= mmr ->
  copy_ranges mmr need mrs_at chosen acc (l1 ++ l2) =
  copy_ranges mmr need mrs_at chosen (acc ++ param_ranges l1) l2.
Proof.
  revert acc. induction l1 as [|[bp d] l1 IH]; intros acc Hc Hmmr; cbn [app copy_ranges].
  { by rewrite app_nil_r. }
  cbn in Hc. apply not_elem_of_cons in Hc as [Hne Hc]. destruct (Z.eqb_spec (mr_len d) 0).
  - rewrite param_ranges_zero in * by done. by apply IH.
  - rewrite param_ranges_cons in * by done. cbn [length] in Hmmr.
    destruct (Z.eqb_spec bp chosen); [done|]. unfold put_range.
    destruct (Z.ltb_spec (Z.of_nat (length acc)) mmr); [|lia]. cbn [mbind result_bind].
    rewrite IH; [by rewrite <- app_assoc|done|]. rewrite length_app. cbn. lia.
Qed.

Lemma copy_ranges_spec mmr need l1 bp d l2 :
  NoDup (l1 ++ (bp, d) :: l2).*1 -> range_ok (of_bdat d) -> 0 < need <= mr_len d -> mr_len d < 2 ^ 64 ->
  Z.of_nat (length (param_ranges (l1 ++ (bp, d) :: l2))) + 1 <= mmr -> e820_type (of_bdat d) = E820_RAM ->
  let at_ := mr_start d + mr_len d - need in
  copy_ranges mmr need at_ bp [] (l1 ++ (bp, d) :: l2) =
  Ok (param_ranges l1 ++ pieces (of_bdat d) at_ E820_RAM E820_RESERVED ++ param_ranges l2).
Proof.
  intros Hnd Hok Hneed Hlt Hmmr Hty at_. rewrite fmap_app in Hnd. cbn in Hnd.
  apply NoDup_app in Hnd as (_ & Hl1 & Hl2). apply NoDup_cons in Hl2 as [Hl2 _].
  assert (Hbp : bp ∉ l1.*1) by (intros Hin; apply (Hl1 bp Hin); by left).
  rewrite param_ranges_app, param_ranges_cons, length_app in Hmmr by lia. cbn [length] in Hmmr.
  rewrite copy_plain by (done || cbn; lia). cbn [app copy_ranges].
  destruct (Z.eqb_spec (mr_len d) 0); [lia|]. rewrite Z.eqb_refl, wrap_small by lia.
  unfold pieces. change (start (of_bdat d)) with (mr_start d). unfold put_range, part, range_end. cbn in Hty.
  destruct (Z.eqb_spec (mr_len d - need) 0), (Z.eqb_spec (mr_start d) at_); try (exfalso; lia); cbn [mbind result_bind].
  - destruct (Z.ltb_spec (Z.of_nat (length (param_ranges l1))) mmr); [|lia]. cbn [mbind result_bind].
    rewrite <- (app_nil_r l2) at 1. rewrite copy_plain by (done || rewrite length_app; cbn; lia).
    cbn [copy_ranges]. rewrite <- app_assoc. cbn. do 4 f_equal; lia.
  - destruct (Z.ltb_spec (Z.of_nat (length (param_ranges l1))) mmr); [|lia]. cbn [mbind result_bind].
    rewrite length_app. cbn [length].
    destruct (Z.ltb_spec (Z.of_nat (length (param_ranges l1) + 1)) mmr); [|lia]. cbn [mbind result_bind].
    rewrite <- (app_nil_r l2) at 1. rewrite copy_plain by (done || rewrite !length_app; cbn; lia).
    cbn [copy_ranges]. rewrite <- !app_assoc. cbn. rewrite Hty. do 3 f_equal; f_equal; try lia. f_equal. f_equal. lia.
Qed.

Lemma map_capacity_spec l :
  Z.of_nat (length l) <= 2 ^ 24 ->
  Z.of_nat (length (param_ranges l)) + 1 < map_capacity l < 2 ^ 27.
Proof.
  intros Hl. unfold map_capacity. rewrite count_ranges_spec by done.
  assert (Hn : Z.of_nat (length (param_ranges l)) <= Z.of_nat (length l)).
  { unfold param_ranges. rewrite length_fmap. pose proof (List.filter_length_le (fun d => negb (mr_len d =? 0)) l.*2).
    rewrite length_fmap in *. lia. }
  rewrite wrap_small by lia.
  destruct (Z.ltb_spec ((3 * (1 + Z.of_nat (length (param_ranges l))) + 1) / 2) 16); dlia.
Qed.

(** The byte's type and attributes as the boot parameters give them. *)
Definition param_byte (l : list (Z * bdat_mem_range_t)) (x ty ext attr : Z) : Prop :=
  exists bp d, (bp, d) ∈ l /\ in_range (mr_start d) (mr_len d) x /\
    mr_e820_type d = ty /\ mr_e820_ext_attr d = ext /\ mr_uefi_attr d = attr.

Lemma param_byte_ranges l x ty ext attr :
  byte_is (param_ranges l) x ty ext attr <-> param_byte l x ty ext attr.
Proof.
  unfold byte_is, param_byte, param_ranges. split.
  - intros (r & Hr & Hx & <- & <- & <-). apply list_elem_of_fmap in Hr as (d & -> & Hd).
    apply list_elem_of_In, List.filter_In in Hd as [Hd _].
    apply list_elem_of_In, list_elem_of_fmap in Hd as ([bp d'] & -> & Hd). by exists bp, d'.
  - intros (bp & d & Hd & Hx & <- & <- & <-). exists (of_bdat d). split_and!; [|done..].
    apply list_elem_of_fmap. exists d. split; [done|]. apply list_elem_of_In, List.filter_In. split.
    + apply list_elem_of_In, list_elem_of_fmap. by exists (bp, d).
    + destruct (Z.eqb_spec (mr_len d) 0); [unfold in_range in Hx; lia|done].
Qed.

Lemma byte_is_perm l l' x ty ext attr : l ≡ₚ l' -> byte_is l x ty ext attr <-> byte_is l' x ty ext attr.
Proof. intros Hp. unfold byte_is. by setoid_rewrite Hp. Qed.

Lemma can_hold_spec need d :
  can_hold need d = true <->
  mr_e820_type d = E820_RAM /\ mr_start d < XM32_MAX_ADDR /\
  mr_start d + mr_len d <= XM32_MAX_ADDR /\ need <= mr_len d.
Proof.
  unfold can_hold. rewrite negb_true_iff, !orb_false_iff, negb_false_iff, Z.eqb_eq. lia.
Qed.

Definition map_bytes (l : list (Z * bdat_mem_range_t)) : Z := map_capacity l * sizeof_mem_range_t.

Lemma apart_others l1 r l2 y : StronglySorted apart (l1 ++ r :: l2) -> y ∈ l1 \/ y ∈ l2 -> apart r y.
Proof.
  intros (H12 & _ & H2)%StronglySorted_app [Hy|Hy].
  - symmetry. apply H12; [done|by left].
  - apply StronglySorted_cons in H2 as [Hr _]. rewrite Forall_forall in Hr. by apply Hr.
Qed.

(** Sorting the copied entries gives a map that satisfies the invariant. *)
Lemma carved_map l1 r l2 sp mmr mrs_at :
  Forall range_ok (l1 ++ r :: l2) -> StronglySorted apart (l1 ++ r :: l2) ->
  start r <= sp < range_end r -> e820_type r = E820_RAM ->
  Z.of_nat (length (l1 ++ r :: l2)) + 1 < mmr < 2 ^ 27 ->
  let mrs := l1 ++ pieces r sp E820_RAM E820_RESERVED ++ l2 in
  exists mrs', shellsort mrs (Z.of_nat (length mrs)) = Ok mrs' /\
    let s := {| mem_ranges := mrs'; mem_ranges_at := mrs_at; max_mem_ranges := mmr |} in
    map_inv s /\ num_mem_ranges s < mmr /\
    forall x ty ext attr, byte_is mrs' x ty ext attr <->
      if decide (sp <= x < range_end r)
      then (ty = E820_RESERVED /\ byte_is (l1 ++ r :: l2) x E820_RAM ext attr) \/
           (ty <> E820_RAM /\ byte_is (l1 ++ r :: l2) x ty ext attr)
      else byte_is (l1 ++ r :: l2) x ty ext attr.
Proof.
  intros Hok Hap Hsp Hty Hcap mrs.
  assert (Hlen : Z.of_nat (length mrs) < mmr).
  { unfold mrs, pieces. rewrite !length_app in *. cbn [length] in *. destruct (start r =? sp); cbn [length]; lia. }
  pose proof Hok as [Hok1 [Hr Hok2]%Forall_cons]%Forall_app.
  assert (Hmok : Forall range_ok mrs).
  { unfold mrs. rewrite !Forall_app. split_and!; [done|by apply pieces_ok|done]. }
  destruct (shellsort_spec mrs) as (mrs' & E & Hp & Hs); [lia|].
  exists mrs'. split; [done|]. cbn. split_and!.
  - split; cbn.
    + by rewrite Hp.
    + apply sorted_apart_before; [by rewrite Hp| |done].
      eapply StronglySorted_perm; [apply _|by symmetry|]. by apply pieces_apart.
    + unfold num_mem_ranges. cbn. rewrite Hp. lia.
  - unfold num_mem_ranges. cbn. rewrite Hp. lia.
  - intros x ty ext attr. rewrite (byte_is_perm _ _ _ _ _ _ Hp). apply pieces_byte; [done| |done].
    intros y. by apply apart_others.
Qed.

(** [mem_map_init] on every outcome; [mem_map_init_correct] says it in words. *)
Lemma mem_map_init_spec ns l :
  mrng_nodes ns = Ok l -> params_ok l ->
  match mem_map_init ns with
  | Ok s => map_inv s /\ num_mem_ranges s < max_mem_ranges s /\
      exists bp d, (bp, d) ∈ l /\ can_hold (map_bytes l) d = true /\
        (forall bd, bd ∈ l -> can_hold (map_bytes l) bd.2 = true -> mr_start bd.2 <= mr_start d) /\
        max_mem_ranges s = map_capacity l /\
        mem_ranges_at s = mr_start d + mr_len d - map_bytes l /\
        forall x ty ext attr, byte_is (mem_ranges s) x ty ext attr <->
          if decide (mem_ranges_at s <= x < mem_ranges_at s + map_bytes l)
          then (ty = E820_RESERVED /\ param_byte l x E820_RAM ext attr) \/
               (ty <> E820_RAM /\ param_byte l x ty ext attr)
          else param_byte l x ty ext attr
  | Fail Hlt => forall bd, bd ∈ l -> can_hold (map_bytes l) bd.2 = false
  | Fail _ => False
  end.
Proof.
  intros El [Hranges Hapart Haddr Hlen]. unfold mem_map_init. rewrite El. cbn [mbind result_bind].
  pose proof (map_capacity_spec l Hlen) as Hcap.
  unfold sizeof_mem_range_t. change (8 + 8 + 4 + 4 + 8) with 32. rewrite (wrap_small 32) by lia.
  assert (Eneed : map_capacity l * 32 = map_bytes l) by done. rewrite Eneed.
  pose proof (choose_range_spec (map_bytes l) None l) as Hch.
  destruct (choose_range (map_bytes l) None l) as [[bp d]|]; cycle 1.
  { intros bd Hbd. apply not_true_is_false. intros Hh. apply (Hch bd). by right. }
  destruct Hch as [[?|[Hin Hhold]] Hbest]; [done|]. cbn [snd] in *.
  pose proof Hhold as (Hty & Hst & Hend & Hneed)%can_hold_spec. unfold XM32_MAX_ADDR in *.
  apply list_elem_of_split in Hin as (l1 & l2 & El12).
  assert (Hd : mr_len d <> 0) by lia.
  assert (Hdok : range_ok (of_bdat d)).
  { rewrite Forall_forall in Hranges. apply Hranges. rewrite El12, param_ranges_app, param_ranges_cons by done.
    apply elem_of_app. right. by left. }
  pose proof Hdok as (Hd0 & _ & _). cbn in Hd0. rewrite (wrap_small 32) by lia.
  set (at_ := mr_start d + mr_len d - map_bytes l).
  assert (Epr : param_ranges l = param_ranges l1 ++ of_bdat d :: param_ranges l2)
    by (by rewrite El12, param_ranges_app, param_ranges_cons).
  rewrite Epr in *.
  pose proof (copy_ranges_spec (map_capacity l) (map_bytes l) l1 bp d l2 ltac:(by rewrite <- El12) Hdok
    ltac:(unfold map_bytes, sizeof_mem_range_t in *; lia) ltac:(lia) ltac:(rewrite <- El12, Epr; lia) Hty) as Hcopy.
  cbv zeta in Hcopy. rewrite <- El12 in Hcopy. fold at_ in Hcopy. rewrite Hcopy. cbn [mbind result_bind].
  assert (Eend : range_end (of_bdat d) = at_ + map_bytes l) by (unfold at_, range_end; cbn; lia).
  destruct (carved_map (param_ranges l1) (of_bdat d) (param_ranges l2) at_ (map_capacity l) at_ Hranges Hapart)
    as (mrs' & -> & Hinv & Hnum & Hbytes); [|done|done|].
  { rewrite Eend. unfold at_ in *. cbn. unfold map_bytes, sizeof_mem_range_t in *. lia. }
  cbn [mbind result_bind]. split_and!; [done|done|]. exists bp, d. split_and!; [| | |done|done|].
  - rewrite El12. apply elem_of_app. right. by left.
  - done.
  - intros bd Hbd Hh. apply Hbest. by right.
  - intros x ty ext attr. cbn [mem_ranges mem_ranges_at]. rewrite Hbytes, Eend, <- Epr.
    case_decide; by rewrite !param_byte_ranges.
Qed.

(** C14: [mem_map_init], for parameters that describe no byte above 1 MiB twice, and none twice as
    RAM.  The map is in order and has an entry to spare; its array fills the top of the highest
    RAM range below 4 GiB that can hold it; and every byte of memory has the types and attributes
    the parameters give it, except that the array's own bytes have turned from RAM into reserved
    memory.  It halts exactly when no range can hold the array. *)
Theorem mem_map_init_correct ns l :
  mrng_nodes ns = Ok l -> params_ok l ->
  match mem_map_init ns with
  | Ok s => map_inv s /\ num_mem_ranges s < max_mem_ranges s /\
      exists bp d, (bp, d) ∈ l /\ can_hold (map_bytes l) d = true /\
        (forall bd, bd ∈ l -> can_hold (map_bytes l) bd.2 = true -> mr_start bd.2 <= mr_start d) /\
        max_mem_ranges s = map_capacity l /\
        mem_ranges_at s = mr_start d + mr_len d - map_bytes l /\
        forall x ty ext attr, byte_is (mem_ranges s) x ty ext attr <->
          if decide (mem_ranges_at s <= x < mem_ranges_at s + map_bytes l)
          then (ty = E820_RESERVED /\ param_byte l x E820_RAM ext attr) \/
               (ty <> E820_RAM /\ param_byte l x ty ext attr)
          else param_byte l x ty ext attr
  | Fail Hlt => forall bd, bd ∈ l -> can_hold (map_bytes l) bd.2 = false
  | Fail _ => False
  end.
Proof. exact (mem_map_init_spec ns l). Qed.

(** [shellsort] terminates on every table of up to [2^31] entries, never leaves the array, and
    returns a permutation of it sorted by starting address. *)
Theorem shellsort_sorts mrs :
  Z.of_nat (length mrs) <= 2 ^ 31 ->
  exists mrs', shellsort mrs (Z.of_nat (length mrs)) = Ok mrs' /\ mrs' ≡ₚ mrs /\ sorted_by_start mrs'.
Proof. apply shellsort_spec. Qed.

(** In a map that satisfies the invariant, [find_highest_range_below] terminates and returns
    the last range that ends at or below [max_addr]; it halts exactly when every range ends
    above it. *)
Theorem find_highest_range_below_correct s max_addr :
  map_inv s -> (1 <= length (mem_ranges s))%nat -> BMEM_MAX_ADDR <= max_addr <= 2 ^ 64 ->
  match find_highest_range_below s max_addr with
  | Ok k => (exists r, aget (mem_ranges s) k = Ok r /\ range_end r <= max_addr) /\
      forall j r, k < j -> aget (mem_ranges s) j = Ok r -> range_end r > max_addr
  | Fail Hlt => forall r, r ∈ mem_ranges s -> range_end r > max_addr
  | Fail _ => False
  end.
Proof.
  intros Hinv Hlen Hm. pose proof (find_highest_spec s max_addr Hinv Hlen Hm) as H.
  destruct (find_highest_range_below s max_addr) as [k|[]]; try done.
  - destruct H as (Hk & (r & Hr & Hle) & Hover). split.
    + exists r. split; [apply aget_Ok; split; [lia|done]|done].
    + intros j r' Hj [? Hr']%aget_Ok. apply (Hover (Z.to_nat j)); [lia|done].
  - intros r [j Hj]%list_elem_of_lookup. by apply (H j).
Qed.


(** ** Witnesses *)

(** A small machine as stage 1 reports it: base memory from address 0 on, most of it also as
    reserved, a hole up to 1 MiB, extended memory. *)
Definition demo_node (nx st ln ty : Z) : bparm_t :=
  {| next := nx; type := BP_MRNG; size := sizeof_bdat_mem_range_t;
     u := BdatMrng {| mr_start := st; mr_len := ln; mr_e820_type := ty; mr_e820_ext_attr := 1; mr_uefi_attr := 8 |} |}.

Definition demo_nodes : list (Z * bparm_t) :=
  [(0x9000, demo_node 0x9030 0x100000 0x1000000 E820_RAM);
   (0x9030, demo_node 0x9060 0 0x9f000 E820_RAM);
   (0x9060, demo_node 0x9090 0xfec00000 0x1000 E820_RESERVED);
   (0x9090, demo_node 0 0x1000 0x9e000 E820_RESERVED)].

Definition demo_params : list (Z * bdat_mem_range_t) :=
  match mrng_nodes demo_nodes with Ok l => l | _ => [] end.

Definition demo_map : mem_map :=
  match mem_map_init demo_nodes with
  | Ok s => s
  | _ => {| mem_ranges := []; mem_ranges_at := 0; max_mem_ranges := 0 |}
  end.

Lemma demo_params_ok : params_ok demo_params.
Proof.
  split; let l := eval vm_compute in (param_ranges demo_params) in
    try replace (param_ranges demo_params) with l by (vm_compute; reflexivity).
  - rewrite !Forall_cons, Forall_nil. unfold range_ok, range_end. cbn. lia.
  - sorted_pairs; unfold apart, both_low, disjoint_ranges, range_end; cbn; zsolve.
  - vm_compute. repeat constructor; rewrite ?elem_of_cons, ?elem_of_nil; intuition discriminate.
  - vm_compute. discriminate.
Qed.

Definition demo_ranges : list mem_range := Eval vm_compute in mem_ranges demo_map.

Lemma demo_ranges_eq : mem_ranges demo_map = demo_ranges.
Proof. vm_compute. reflexivity. Qed.

Lemma demo_ready : alloc_ready demo_map.
Proof.
  split_and!.
  - split; rewrite ?demo_ranges_eq; [unfold demo_ranges; rewrite !Forall_cons, Forall_nil; unfold range_ok, range_end; cbn; lia| |split; vm_compute; [discriminate|reflexivity]].
    sorted_pairs; unfold before, both_low, range_end; cbn; zsolve.
  - vm_compute. lia.
Qed.

Lemma mem_map_init_correct_witness : exists s, mem_map_init demo_nodes = Ok s /\ map_inv s /\
  mem_ranges_at s = 0x1100000 - 16 * 32.
Proof.
  pose proof (mem_map_init_correct demo_nodes demo_params eq_refl demo_params_ok) as H.
  exists demo_map. split; [vm_compute; reflexivity|]. split; [|vm_compute; reflexivity].
  replace (mem_map_init demo_nodes) with (Ok demo_map) in H by (vm_compute; reflexivity). exact (proj1 H).
Defined.

Lemma shellsort_sorts_witness : exists mrs', shellsort (rev (mem_ranges demo_map)) 5 = Ok mrs' /\
  sorted_by_start mrs'.
Proof.
  destruct (shellsort_sorts (rev (mem_ranges demo_map)) ltac:(vm_compute; discriminate)) as (m & E & _ & Hs).
  exists m. split; [exact E|exact Hs].
Defined.

Lemma find_highest_range_below_correct_witness :
  find_highest_range_below demo_map XM32_MAX_ADDR = Ok 4 /\
  exists r, aget (mem_ranges demo_map) 4 = Ok r /\ range_end r <= XM32_MAX_ADDR.
Proof.
  split; [vm_compute; reflexivity|].
  pose proof (find_highest_range_below_correct demo_map XM32_MAX_ADDR (proj1 demo_ready)
    ltac:(vm_compute; lia) ltac:(unfold XM32_MAX_ADDR, BMEM_MAX_ADDR; lia)) as H.
  replace (find_highest_range_below demo_map XM32_MAX_ADDR) with (Ok 4) in H by (vm_compute; reflexivity).
  exact (proj1 H).
Defined.

Lemma mem_alloc_correct_witness : exists s',
  mem_alloc demo_map 100 16 0 = Ok (0x1100000 - 16 * 32 - 112, s') /\ map_inv s'.
Proof.
  pose proof (mem_alloc_correct demo_map 100 16 0 (proj1 demo_ready) ltac:(vm_compute; lia) ltac:(lia)
    ltac:(exists 4; lia) ltac:(lia) ltac:(by left)) as H.
  destruct (mem_alloc demo_map 100 16 0) as [[a s']|f] eqn:E; [|vm_compute in E; discriminate E].
  exists s'. split; [|exact (proj1 (proj2 H))].
  vm_compute in E. injection E as <- _. reflexivity.
Defined.

Lemma mem_alloc_reads_below_table_witness : mem_alloc demo_map 0x2000000 4096 0 = Fail OutOfBounds.
Proof.
  apply (mem_alloc_reads_below_table demo_map 0x2000000 4096 0 (proj1 demo_ready));
    [lia|exists 12; lia|lia|by left|vm_compute; discriminate|..].
  - eexists. rewrite demo_ranges_eq. split; [apply list_elem_of_here|vm_compute; discriminate].
  - intros r Hr _. rewrite demo_ranges_eq in Hr. unfold demo_ranges in Hr. rewrite !elem_of_cons, elem_of_nil in Hr.
    destruct Hr as [->|[->|[->|[->|[->|[]]]]]]; vm_compute; reflexivity.
  - intros r Hr _. rewrite demo_ranges_eq in Hr. unfold demo_ranges in Hr. rewrite !elem_of_cons, elem_of_nil in Hr.
    destruct Hr as [->|[->|[->|[->|[->|[]]]]]]; vm_compute; discriminate || reflexivity.
Defined.

Definition demo_reqs : list (Z * Z) := [(32, 32); (4096, 4096); (4096, 4096); (100, 4)].

