(* ===== verification/Paging.v ===== *)
(** * PAE page tables of stage 2 (src/stage2/mem.c, constants of src/stage2/stage2.h)

    [ensure_pt], [do_va_map], [do_va_id_map] and [do_va_unmap] on a memory of 64-bit words, with
    pages from any [Allocator].  The specification is the processor's own: [pae_walk] reads the
    page-directory-pointer table, a page directory and a page table as the hardware does.  The
    theorems say what the operations do to that translation, at every address: mapping
    translates exactly the range asked for and leaves every other address alone, splitting a
    large page into small ones changes nothing, unmapping removes exactly the pages it can.  The
    code reads and writes its tables at their physical addresses, as it may since va_init
    maps physical memory below 4 GiB to itself. *)

From S2P Require Import Prelude.

Definition PAGE_SIZE : Z := 0x1000.
Definition LARGE_PAGE_SIZE : Z := 0x200000.
Definition PDPT_ALIGN : Z := 0x20.

Definition PTE_P : Z := 1.
Definition PTE_RW : Z := 2.
Definition PTE_US : Z := 4.
Definition PTE_WT : Z := 8.
Definition PTE_CD : Z := 16.
Definition PDE_PS : Z := 128.

(** ** State: the allocator, the words of memory that hold tables, and [pdpt] *)

Record pgt (A : Type) := { pg_alloc : A; pg_mem : gmap Z Z; pdpt : Z }.
Arguments pg_alloc {A} _.
Arguments pg_mem {A} _.
Arguments pdpt {A} _.

Definition set_mem {A} (st : pgt A) (m : gmap Z Z) : pgt A :=
  {| pg_alloc := pg_alloc st; pg_mem := m; pdpt := pdpt st |}.

(** A read of a word; one that was never written is an error. *)
Definition rd {A} (st : pgt A) (a : Z) : result Z := checked (pg_mem st !! a).

Definition wr {A} (st : pgt A) (a v : Z) : pgt A := set_mem st (<[a := v]> (pg_mem st)).

(** [n] words from address [a] on: [v], [v + step], ... *)
Fixpoint fill_words (n : nat) (m : gmap Z Z) (a v step : Z) : gmap Z Z :=
  match n with
  | O => m
  | S n => fill_words n (<[a := v]> m) (a + 8) (u64 (v + step)) step
  end.

Section operations.
Context {A : Type} `{Allocator A}.

Definition alloc_page (st : pgt A) : result (Z * pgt A) :=
  '(p, a) ← alc_alloc (pg_alloc st) PAGE_SIZE PAGE_SIZE;
  Ok (p, {| pg_alloc := a; pg_mem := pg_mem st; pdpt := pdpt st |}).

Definition ensure_pt (st : pgt A) (p_pde : Z) : result (Z * pgt A) :=
  pde ← rd st p_pde;
  if negb (pde =? 0) && (Z.land pde PDE_PS =? 0) then
    Ok (Z.land (u32 pde) (u32 (- PAGE_SIZE)), st)
  else
    '(pt, st) ← alloc_page st;
    let st :=
      if negb (pde =? 0) then
        let pte := Z.land pde (u64 (Z.lnot PDE_PS)) in
        set_mem st (fill_words 512 (pg_mem st) pt pte PAGE_SIZE)
      else set_mem st (fill_words 512 (pg_mem st) pt 0 0) in
    let pde := Z.lor (Z.lor (Z.lor (u32 pt) PTE_P) PTE_RW) PTE_US in
    Ok (pt, wr st p_pde pde).

(** The directory for [vstart]: [(uint32_t)pdpte & -PDPT_ALIGN] of its PDPT entry. *)
Definition pd_of (st : pgt A) (vstart : Z) : result Z :=
  pdpte ← rd st (pdpt st + 8 * Z.shiftr vstart 30);
  Ok (Z.land (u32 pdpte) (u32 (- PDPT_ALIGN))).

Definition pdi_of (vstart : Z) : Z := Z.land (Z.shiftr vstart 21) 0x1ff.
Definition pti_of (vstart : Z) : Z := Z.land (Z.shiftr vstart 12) 0x1ff.

(** One iteration of the loop; [len] is not zero.  Returns the size mapped. *)
Definition va_map_step (st : pgt A) (vstart pstart len pte_flags : Z) : result (Z * pgt A) :=
  pd ← pd_of st vstart;
  pde ← rd st (pd + 8 * pdi_of vstart);
  if (vstart mod LARGE_PAGE_SIZE =? 0) && (pstart mod LARGE_PAGE_SIZE =? 0) &&
     (len >=? LARGE_PAGE_SIZE) && ((pde =? 0) || negb (Z.land pde PDE_PS =? 0))
  then
    let pde := Z.lor (Z.lor (Z.lor (Z.lor (Z.lor pstart PTE_P) PTE_RW) PTE_US) PDE_PS) pte_flags in
    Ok (LARGE_PAGE_SIZE, wr st (pd + 8 * pdi_of vstart) pde)
  else
    '(pt, st) ← ensure_pt st (pd + 8 * pdi_of vstart);
    let pte := Z.lor (Z.lor (Z.lor (Z.lor pstart PTE_P) PTE_RW) PTE_US) pte_flags in
    Ok (PAGE_SIZE, wr st (pt + 8 * pti_of vstart) pte).

(** A length that is not a multiple of the page size never reaches zero; for the others,
    [len / PAGE_SIZE] iterations are enough. *)
Fixpoint va_map_loop (fuel : nat) (st : pgt A) (vstart pstart len pte_flags : Z) : result (pgt A) :=
  if len =? 0 then Ok st
  else match fuel with
  | O => Fail Diverges
  | S fuel =>
      '(n, st) ← va_map_step st vstart pstart len pte_flags;
      va_map_loop fuel st (u32 (vstart + n)) (u64 (pstart + n)) (u32 (len - n)) pte_flags
  end.

Definition do_va_map (st : pgt A) (vstart pstart len pte_flags : Z) : result (pgt A) :=
  va_map_loop (Z.to_nat (len / PAGE_SIZE)) st vstart pstart len pte_flags.

Definition do_va_id_map (st : pgt A) (start len pte_flags : Z) : result (pgt A) :=
  do_va_map st start start len pte_flags.

(** One iteration of [do_va_unmap]'s loop; returns the size passed over. *)
Definition va_unmap_step (st : pgt A) (vstart len : Z) : result (Z * pgt A) :=
  pd ← pd_of st vstart;
  pde ← rd st (pd + 8 * pdi_of vstart);
  if negb (Z.land pde PDE_PS =? 0) then
    if (vstart mod LARGE_PAGE_SIZE =? 0) && (len >=? LARGE_PAGE_SIZE) then
      Ok (LARGE_PAGE_SIZE, wr st (pd + 8 * pdi_of vstart) 0)
    else Ok (PAGE_SIZE, st)
  else if negb (pde =? 0) then
    let pt := Z.land (u32 pde) (u32 (- PAGE_SIZE)) in
    Ok (PAGE_SIZE, wr st (pt + 8 * pti_of vstart) 0)
  else Ok (PAGE_SIZE, st).

Fixpoint va_unmap_loop (fuel : nat) (st : pgt A) (vstart len : Z) : result (pgt A) :=
  if len =? 0 then Ok st
  else match fuel with
  | O => Fail Diverges
  | S fuel =>
      '(n, st) ← va_unmap_step st vstart len;
      va_unmap_loop fuel st (u32 (vstart + n)) (u32 (len - n))
  end.

Definition do_va_unmap (st : pgt A) (vstart len : Z) : result (pgt A) :=
  va_unmap_loop (Z.to_nat (len / PAGE_SIZE)) st vstart len.
End operations.

(** ** The processor's page walk (PAE, 32-bit linear addresses) *)

(** Bits 12 to 51 of an entry, and its write, user, write-through and cache-disable bits. *)
Definition entry_addr (e : Z) : Z := align_down e 4096 mod 2 ^ 52.
Definition entry_flags (e : Z) : Z := Z.land e 0x1e.

(** From the page-directory entry on. *)
Definition walk_pde (m : gmap Z Z) (pde v : Z) : option (Z * Z) :=
  if negb (Z.testbit pde 0) then None
  else if Z.testbit pde 7 then
    Some (align_down (entry_addr pde) (2 ^ 21) + v mod 2 ^ 21, entry_flags pde)
  else
    pte ← m !! (entry_addr pde + 8 * (v / 2 ^ 12 mod 512));
    if negb (Z.testbit pte 0) then None
    else Some (entry_addr pte + v mod 2 ^ 12, entry_flags pte).

(** The page-directory entry for [v]. *)
Definition pae_pde (m : gmap Z Z) (pdpt v : Z) : option Z :=
  pdpte ← m !! (pdpt + 8 * (v / 2 ^ 30));
  if negb (Z.testbit pdpte 0) then None
  else m !! (entry_addr pdpte + 8 * (v / 2 ^ 21 mod 512)).

Definition pae_walk (m : gmap Z Z) (pdpt v : Z) : option (Z * Z) :=
  pde ← pae_pde m pdpt v; walk_pde m pde v.

Definition translate {A} (st : pgt A) (v : Z) : option (Z * Z) := pae_walk (pg_mem st) (pdpt st) v.

(** Whether a large page translates [v]. *)
Definition is_large {A} (st : pgt A) (v : Z) : bool :=
  match pae_pde (pg_mem st) (pdpt st) v with
  | Some pde => Z.testbit pde 0 && Z.testbit pde 7
  | None => false
  end.

(** ** Entries *)

Definition flags_ok (f : Z) : Prop := f = 0 \/ f = 8 \/ f = 16 \/ f = 24.

Lemma low_mod q c : (4096 | q) -> 0 <= c < 4096 -> (q + c) mod 2 ^ 12 = c.
Proof. intros [k ->] Hc. change (2 ^ 12) with 4096. rewrite Z.add_comm, Z_mod_plus_full. by apply Z.mod_small. Qed.

Lemma low_testbit q c n : (4096 | q) -> 0 <= c < 4096 -> 0 <= n < 12 -> Z.testbit (q + c) n = Z.testbit c n.
Proof. intros Hq Hc Hn. rewrite <- (Z.mod_pow2_bits_low (q + c) 12 n) by lia. by rewrite low_mod. Qed.

Lemma low_land q c m : (4096 | q) -> 0 <= c < 4096 -> 0 <= m < 4096 -> Z.land (q + c) m = Z.land c m.
Proof.
  intros Hq Hc Hm.
  assert (Em : Z.land m (Z.ones 12) = m).
  { rewrite Z.land_ones by lia. change (2 ^ 12) with 4096. by apply Z.mod_small. }
  rewrite <- Em, (Z.land_comm m), !Z.land_assoc, !Z.land_ones, low_mod by (done || lia).
  change (2 ^ 12) with 4096. by rewrite Z.mod_small.
Qed.

Lemma low_addr q c : (4096 | q) -> 0 <= c < 4096 -> 0 <= q < 2 ^ 52 -> entry_addr (q + c) = q.
Proof.
  intros Hq Hc Hlt. unfold entry_addr, align_down. change 4096 with (2 ^ 12). rewrite low_mod by done.
  replace (q + c - c) with q by lia. by apply Z.mod_small.
Qed.

Lemma large_4096 base : (LARGE_PAGE_SIZE | base) -> (4096 | base).
Proof. intros [k ->]. exists (k * 512). unfold LARGE_PAGE_SIZE. lia. Qed.

(** A page-directory entry for a large page. *)
Definition large_pde (e base f : Z) : Prop :=
  (LARGE_PAGE_SIZE | base) /\ 0 <= base < 2 ^ 52 /\ flags_ok f /\ e = base + (0x87 + f).

Lemma flags_range f : flags_ok f -> 0 <= f <= 24.
Proof. unfold flags_ok. lia. Qed.

Lemma large_pde_walk m e base f v :
  large_pde e base f -> walk_pde m e v = Some (base + v mod 2 ^ 21, 6 + f).
Proof.
  intros (Hb & Hr & Hf & ->). pose proof (flags_range f Hf). pose proof (large_4096 base Hb) as Hb'.
  unfold walk_pde, entry_flags. rewrite (low_testbit base _ 0), (low_testbit base _ 7), low_land, low_addr by (done || lia).
  rewrite (align_down_aligned base) by (done || lia).
  by destruct Hf as [->|[->|[->| ->]]].
Qed.

Lemma large_pde_ps e base f : large_pde e base f -> e <> 0 /\ Z.land e PDE_PS <> 0.
Proof.
  intros (Hb & Hr & Hf & ->). pose proof (flags_range f Hf).
  split; [lia|]. unfold PDE_PS. rewrite low_land by (by apply large_4096 || lia).
  by destruct Hf as [->|[->|[->| ->]]].
Qed.

(** A page-directory entry for a table at [pt]. *)
Lemma table_pde_walk m pt v :
  (4096 | pt) -> 0 <= pt < 2 ^ 52 ->
  walk_pde m (pt + 7) v =
    pte ← m !! (pt + 8 * (v / 2 ^ 12 mod 512));
    if negb (Z.testbit pte 0) then None else Some (entry_addr pte + v mod 2 ^ 12, entry_flags pte).
Proof. intros Hp Hr. unfold walk_pde. by rewrite (low_testbit pt _ 0), (low_testbit pt _ 7), low_addr by (done || lia). Qed.

Lemma table_pde_code pt :
  (4096 | pt) -> 0 <= pt < 2 ^ 32 ->
  pt + 7 <> 0 /\ Z.land (pt + 7) PDE_PS = 0 /\ Z.land (u32 (pt + 7)) (u32 (- PAGE_SIZE)) = pt.
Proof.
  intros Hp Hr. assert (Hlt : pt + 7 < 2 ^ 32) by (destruct Hp as [k ->]; lia).
  split_and!; [lia|by apply (low_land pt 7 128)|].
  rewrite wrap_small by lia. unfold PAGE_SIZE.
  rewrite land_wrap_opp; [|lia|by exists 12|lia].
  unfold align_down. change 4096 with (2 ^ 12). rewrite low_mod by (done || lia). lia.
Qed.

(** The entries the code writes. *)
Lemma lor_entry q c : (4096 | q) -> 0 <= c < 4096 -> Z.lor q c = q + c.
Proof. intros Hq Hc. apply (lor_add_low 12); [lia|done|done]. Qed.

Lemma table_entry pt :
  (4096 | pt) -> 0 <= pt < 2 ^ 32 -> Z.lor (Z.lor (Z.lor (u32 pt) PTE_P) PTE_RW) PTE_US = pt + 7.
Proof.
  intros Hp Hr. rewrite wrap_small, <- !Z.lor_assoc by done. by apply (lor_entry pt 7).
Qed.

Lemma large_entry base f :
  (LARGE_PAGE_SIZE | base) -> 0 <= base < 2 ^ 52 -> flags_ok f ->
  large_pde (Z.lor (Z.lor (Z.lor (Z.lor (Z.lor base PTE_P) PTE_RW) PTE_US) PDE_PS) f) base f.
Proof.
  intros Hb Hr Hf. split_and!; [done|lia|lia|done|]. rewrite <- !Z.lor_assoc.
  rewrite <- lor_entry by (by apply large_4096 || (pose proof (flags_range f Hf); lia)).
  by destruct Hf as [->|[->|[->| ->]]].
Qed.

Lemma small_entry q f :
  (4096 | q) -> 0 <= q -> flags_ok f ->
  Z.lor (Z.lor (Z.lor (Z.lor q PTE_P) PTE_RW) PTE_US) f = q + (7 + f).
Proof.
  intros Hq Hr Hf. rewrite <- !Z.lor_assoc.
  rewrite <- lor_entry by (done || (pose proof (flags_range f Hf); lia)).
  by destruct Hf as [->|[->|[->| ->]]].
Qed.

(** The entry of a small page, read. *)
Lemma small_entry_read q f :
  (4096 | q) -> 0 <= q < 2 ^ 52 -> flags_ok f ->
  Z.testbit (q + (7 + f)) 0 = true /\ entry_addr (q + (7 + f)) = q /\ entry_flags (q + (7 + f)) = 6 + f.
Proof.
  intros Hq Hr Hf. pose proof (flags_range f Hf). unfold entry_flags.
  rewrite low_testbit, low_land, low_addr by (done || lia).
  by destruct Hf as [->|[->|[->| ->]]].
Qed.

(** The first entry of the table that replaces a large page: the same address and flags, bit 7
    clear. *)
Lemma large_pde_split e base f :
  large_pde e base f -> Z.land e (u64 (Z.lnot PDE_PS)) = base + (7 + f).
Proof.
  intros (Hb & Hr & Hf & ->). pose proof (flags_range f Hf). pose proof (large_4096 base Hb) as Hb'.
  assert (Hpow : base + 4096 <= 2 ^ 52) by (destruct Hb' as [k ->]; lia).
  assert (E : forall x, 0 <= x < 2 ^ 64 -> Z.land x (u64 (Z.lnot PDE_PS)) = Z.ldiff x 128).
  { intros x Hx. unfold wrap. rewrite <- Z.land_ones, Z.land_assoc, (Z.land_comm x), <- Z.land_assoc by lia.
    rewrite Z.land_ones, Z.mod_small, Z.land_comm by lia. by rewrite Z.ldiff_land. }
  rewrite E by lia. rewrite <- (lor_entry base (0x87 + f)), <- (lor_entry base (7 + f)) by (done || lia).
  apply Z.bits_inj'. intros n Hn. rewrite Z.ldiff_spec, !Z.lor_spec.
  destruct (Z.testbit base n) eqn:Ebit; cbn [orb].
  - destruct (decide (n = 7)) as [->|Hne].
    + destruct Hb as [k ->]. unfold LARGE_PAGE_SIZE in Ebit. change 0x200000 with (2 ^ 21) in Ebit.
      by rewrite Z.mul_pow2_bits_low in Ebit by lia.
    + replace (Z.testbit 128 n) with false; [done|]. symmetry. change 128 with (2 ^ 7).
      apply Z.pow2_bits_false. done.
  - rewrite <- Z.ldiff_spec. by destruct Hf as [->|[->|[->| ->]]].
Qed.

(** ** Well-formed tables *)

(** What a page of tables is for: the page the PDPT is in, directory [i], the table of slot [s]
    (the [s]-th 2 MiB of linear addresses). *)
Inductive role := RPdpt | RPd (i : Z) | RPt (s : Z).

#[export] Instance role_eq_dec : EqDecision role.
Proof. solve_decision. Defined.

Inductive pde_ok (rl : gmap Z role) (s e : Z) : Prop :=
  | PdeNone : e = 0 -> pde_ok rl s e
  | PdeLarge base f : large_pde e base f -> pde_ok rl s e
  | PdeTable pt : e = pt + 7 -> rl !! pt = Some (RPt s) -> pde_ok rl s e.

Section tables.
Context {A : Type} `{HA : Allocator A} `{HL : !AllocatorLaws A}.

(** With directories [0] to [n - 1] in the PDPT. *)
Record dirs {n : Z} (st : pgt A) (rl : gmap Z role) : Prop := {
  t_alloc : alc_inv (pg_alloc st);
  t_page : forall p r, rl !! p = Some r -> (4096 | p) /\ 0 <= p /\ p + 4096 <= 2 ^ 32 /\
    exists x, in_range p 4096 x /\ ~ alc_free (pg_alloc st) x;
  t_pdpt : (32 | pdpt st) /\ rl !! align_down (pdpt st) 4096 = Some RPdpt;
  t_pd : forall i, 0 <= i < n -> exists p, pg_mem st !! (pdpt st + 8 * i) = Some (p + 1) /\ rl !! p = Some (RPd i);
  t_pde : forall i j p, 0 <= j < 512 -> rl !! p = Some (RPd i) ->
    exists e, pg_mem st !! (p + 8 * j) = Some e /\ pde_ok rl (512 * i + j) e;
  t_pte : forall s k p, 0 <= k < 512 -> rl !! p = Some (RPt s) -> is_Some (pg_mem st !! (p + 8 * k));
}.

Definition tables (st : pgt A) (rl : gmap Z role) : Prop := dirs (n := 4) st rl.

Implicit Types st : pgt A.

(** The tables do not mind allocations by others. *)
Lemma tables_alloc st rl a :
  tables st rl -> alc_inv a -> (forall x, alc_free a x -> alc_free (pg_alloc st) x) ->
  tables {| pg_alloc := a; pg_mem := pg_mem st; pdpt := pdpt st |} rl.
Proof.
  intros [H1 H2 H3 H4 H5 H6] Ha Hfree. split; cbn [pg_alloc pg_mem pdpt]; try done.
  intros p r Hp. destruct (H2 p r Hp) as (? & ? & ? & x & ? & Hx). split_and!; try done. exists x. split; [done|].
  intros ?%Hfree. done.
Qed.

Lemma word_inj p q i j :
  (4096 | p) -> (4096 | q) -> 0 <= i < 512 -> 0 <= j < 512 -> p + 8 * i = q + 8 * j -> p = q /\ i = j.
Proof. intros [a ->] [b ->] Hi Hj E. split; lia. Qed.

Lemma t_aligned {n} st rl p r : dirs (n := n) st rl -> rl !! p = Some r -> (4096 | p) /\ 0 <= p < 2 ^ 32.
Proof. intros Ht Hp. destruct (t_page _ _ Ht p r Hp) as (? & ? & ? & _). split; [done|lia]. Qed.

(** Words of pages with different roles are different. *)
Lemma word_ne {n} st rl p q i j r r' :
  dirs (n := n) st rl -> rl !! p = Some r -> rl !! q = Some r' -> r <> r' ->
  0 <= i < 512 -> 0 <= j < 512 -> p + 8 * i <> q + 8 * j.
Proof.
  intros Ht Hp Hq Hr Hi Hj E.
  destruct (t_aligned _ _ _ _ Ht Hp), (t_aligned _ _ _ _ Ht Hq).
  destruct (word_inj p q i j) as [-> _]; [done..|]. congruence.
Qed.

Lemma pdpt_word {n} st rl i :
  dirs (n := n) st rl -> 0 <= i < 4 ->
  exists k, 0 <= k < 512 /\ pdpt st + 8 * i = align_down (pdpt st) 4096 + 8 * k.
Proof.
  intros Ht Hi. destruct (t_pdpt _ _ Ht) as [[q Eq] _]. unfold align_down. rewrite Eq.
  exists ((q * 32) mod 4096 / 8 + i). dlia.
Qed.

Lemma pdpt_ne {n} st rl i q j r :
  dirs (n := n) st rl -> 0 <= i < 4 -> rl !! q = Some r -> r <> RPdpt -> 0 <= j < 512 ->
  pdpt st + 8 * i <> q + 8 * j.
Proof.
  intros Ht Hi Hq Hr Hj. destruct (pdpt_word st rl i Ht Hi) as (k & Hk & ->).
  eapply word_ne; [done|apply (t_pdpt _ _ Ht)|done|congruence|done|done].
Qed.

(** The directory page and entry that translate [v]. *)
Record slot_at st (rl : gmap Z role) (v p e : Z) : Prop := {
  sl_pdpte : pg_mem st !! (pdpt st + 8 * (v / 2 ^ 30)) = Some (p + 1);
  sl_role : rl !! p = Some (RPd (v / 2 ^ 30));
  sl_pde : pg_mem st !! (p + 8 * (v / 2 ^ 21 mod 512)) = Some e;
  sl_ok : pde_ok rl (v / 2 ^ 21) e;
}.

Lemma slot_index v : 512 * (v / 2 ^ 30) + v / 2 ^ 21 mod 512 = v / 2 ^ 21.
Proof. change (2 ^ 30) with 0x40000000. change (2 ^ 21) with 0x200000. dlia. Qed.

Lemma slot_exists st rl v : tables st rl -> 0 <= v < 2 ^ 32 -> exists p e, slot_at st rl v p e.
Proof.
  intros Ht Hv. assert (Hi : 0 <= v / 2 ^ 30 < 4) by (change (2 ^ 30) with 0x40000000; dlia).
  destruct (t_pd _ _ Ht _ Hi) as (p & Hp & Hr).
  destruct (t_pde _ _ Ht (v / 2 ^ 30) (v / 2 ^ 21 mod 512) p) as (e & He & Hok); [dlia|done|].
  rewrite slot_index in Hok. by exists p, e.
Qed.

Lemma slot_pde st rl v p e :
  tables st rl -> slot_at st rl v p e -> pae_pde (pg_mem st) (pdpt st) v = Some e.
Proof.
  intros Ht [Hp Hr He _]. destruct (t_aligned _ _ _ _ Ht Hr) as [Hal Hb].
  unfold pae_pde. rewrite Hp. cbn [mbind option_bind].
  by rewrite (low_testbit p 1 0), low_addr by (done || lia).
Qed.

Lemma slot_translate st rl v p e :
  tables st rl -> slot_at st rl v p e -> translate st v = walk_pde (pg_mem st) e v.
Proof. intros Ht Hs. unfold translate, pae_walk. by rewrite (slot_pde _ _ _ _ _ Ht Hs). Qed.

Lemma slot_range v : 0 <= v < 2 ^ 32 -> 0 <= v / 2 ^ 30 < 4 /\ 0 <= v / 2 ^ 21 mod 512 < 512.
Proof. intros Hv. change (2 ^ 30) with 0x40000000. change (2 ^ 21) with 0x200000. dlia. Qed.

(** Addresses of one slot share directory and entry. *)
Lemma slot_same st rl v p e x q e' :
  tables st rl -> 0 <= v < 2 ^ 32 -> 0 <= x < 2 ^ 32 -> x / 2 ^ 21 = v / 2 ^ 21 ->
  slot_at st rl v p e -> slot_at st rl x q e' -> x / 2 ^ 30 = v / 2 ^ 30 /\ q = p /\ e' = e.
Proof.
  intros Ht Hv Hx E [Hp Hr He _] [Hq Hrq He' _].
  assert (E30 : x / 2 ^ 30 = v / 2 ^ 30).
  { pose proof (slot_index x). pose proof (slot_index v). destruct (slot_range x Hx), (slot_range v Hv). lia. }
  rewrite E30, Hp in Hq. assert (q = p) as -> by (simplify_eq; lia).
  rewrite E in He'. split_and!; congruence.
Qed.

Lemma slot_code st rl v p e :
  tables st rl -> slot_at st rl v p e -> 0 <= v < 2 ^ 32 ->
  pd_of st v = Ok p /\ rd st (p + 8 * pdi_of v) = Ok e /\ pdi_of v = v / 2 ^ 21 mod 512.
Proof.
  intros Ht [Hp Hr He _] Hv. destruct (t_aligned _ _ _ _ Ht Hr) as [Hal Hb].
  assert (Hlt : p + 4096 <= 2 ^ 32) by (destruct Hal as [k ->]; lia).
  assert (Epdi : pdi_of v = v / 2 ^ 21 mod 512).
  { unfold pdi_of. change 0x1ff with (Z.ones 9). by rewrite Z.land_ones, Z.shiftr_div_pow2 by lia. }
  split_and!; [|by unfold rd; rewrite Epdi, He|done].
  unfold pd_of, rd. rewrite Z.shiftr_div_pow2, Hp by lia. cbn [checked mbind result_bind]. f_equal.
  rewrite wrap_small by lia. unfold PDPT_ALIGN. rewrite land_wrap_opp; [|lia|by exists 5|lia].
  unfold align_down. destruct Hal as [k ->]. dlia.
Qed.

Lemma pti_of_eq v : pti_of v = v / 2 ^ 12 mod 512.
Proof. unfold pti_of. change 0x1ff with (Z.ones 9). by rewrite Z.land_ones, Z.shiftr_div_pow2 by lia. Qed.

(** The walk from an entry reads only the words of its table. *)
Lemma walk_pde_frame st rl m' s e v :
  tables st rl -> pde_ok rl s e ->
  (forall pt k, rl !! pt = Some (RPt s) -> 0 <= k < 512 -> m' !! (pt + 8 * k) = pg_mem st !! (pt + 8 * k)) ->
  walk_pde m' e v = walk_pde (pg_mem st) e v.
Proof.
  intros Ht Hok Hm. destruct Hok as [->|base f Hl|pt -> Hpt].
  - done.
  - by rewrite !(large_pde_walk _ _ _ _ _ Hl).
  - destruct (t_aligned _ _ _ _ Ht Hpt) as [Hal Hb].
    rewrite !table_pde_walk by (done || lia). rewrite Hm; [done|done|dlia].
Qed.

(** ** Writing a page-directory entry *)

Lemma tables_wr_pde st rl p i j e :
  tables st rl -> rl !! p = Some (RPd i) -> 0 <= j < 512 -> pde_ok rl (512 * i + j) e ->
  tables (wr st (p + 8 * j) e) rl.
Proof.
  intros Ht Hp Hj He. pose proof Ht as [Ha Hpage Hpdpt Hpd Hpde Hpte]. split; cbn; try done.
  - intros i' Hi'. rewrite lookup_insert_ne; [by apply Hpd|]. intros E. symmetry in E. revert E.
    by eapply pdpt_ne.
  - intros i' j' p' Hj' Hp'. destruct (decide (p + 8 * j = p' + 8 * j')) as [E|E].
    + destruct (t_aligned _ _ _ _ Ht Hp), (t_aligned _ _ _ _ Ht Hp').
      destruct (word_inj p p' j j') as [<- <-]; [done..|]. simplify_eq.
      exists e. by rewrite lookup_insert_eq.
    + rewrite lookup_insert_ne by done. by apply Hpde.
  - intros s k q Hk Hq. rewrite lookup_insert_is_Some'. right. by eapply Hpte.
Qed.

Lemma slot_wr_pde st rl v p e0 e x q ex :
  tables st rl -> slot_at st rl v p e0 -> 0 <= v < 2 ^ 32 -> 0 <= x < 2 ^ 32 -> pde_ok rl (v / 2 ^ 21) e ->
  slot_at st rl x q ex ->
  slot_at (wr st (p + 8 * (v / 2 ^ 21 mod 512)) e) rl x q (if decide (x / 2 ^ 21 = v / 2 ^ 21) then e else ex).
Proof.
  intros Ht Hs Hv Hx He Hsx. pose proof Hs as [Hp Hr He0 _]. pose proof Hsx as [Hq Hrq Hex Hok].
  destruct (slot_range v Hv) as [Hi Hj], (slot_range x Hx) as [Hix Hjx].
  assert (Hpd : <[p + 8 * (v / 2 ^ 21 mod 512) := e]> (pg_mem st) !! (pdpt st + 8 * (x / 2 ^ 30)) = Some (q + 1)).
  { rewrite lookup_insert_ne; [done|]. intros E. symmetry in E. revert E. by eapply pdpt_ne. }
  case_decide as Hc.
  - destruct (slot_same _ _ _ _ _ _ _ _ Ht Hv Hx Hc Hs Hsx) as (E30 & -> & ->).
    split; cbn; [done|done| |by rewrite Hc]. by rewrite Hc, lookup_insert_eq.
  - split; cbn; [done|done| |done]. rewrite lookup_insert_ne; [done|]. intros E. apply Hc.
    destruct (t_aligned _ _ _ _ Ht Hr), (t_aligned _ _ _ _ Ht Hrq).
    destruct (word_inj p q (v / 2 ^ 21 mod 512) (x / 2 ^ 21 mod 512)) as [-> E2]; [done..|].
    rewrite <- (slot_index x), <- (slot_index v).
    assert (v / 2 ^ 30 = x / 2 ^ 30) by congruence. lia.
Qed.

Lemma translate_wr_pde st rl v p e0 e x :
  tables st rl -> slot_at st rl v p e0 -> 0 <= v < 2 ^ 32 -> 0 <= x < 2 ^ 32 -> pde_ok rl (v / 2 ^ 21) e ->
  translate (wr st (p + 8 * (v / 2 ^ 21 mod 512)) e) x =
    if decide (x / 2 ^ 21 = v / 2 ^ 21) then walk_pde (pg_mem st) e x else translate st x.
Proof.
  intros Ht Hs Hv Hx He. destruct (slot_range v Hv) as [Hi Hj]. pose proof Hs as [Hp Hr He0 _].
  assert (Ht' : tables (wr st (p + 8 * (v / 2 ^ 21 mod 512)) e) rl).
  { apply (tables_wr_pde _ _ _ (v / 2 ^ 30)); [done..|]. by rewrite slot_index. }
  assert (Hframe : forall s e' y, pde_ok rl s e' ->
    walk_pde (<[p + 8 * (v / 2 ^ 21 mod 512) := e]> (pg_mem st)) e' y = walk_pde (pg_mem st) e' y).
  { intros s e' y Hok. apply (walk_pde_frame _ _ _ _ _ _ Ht Hok). intros pt k Hpt Hk.
    apply lookup_insert_ne. by eapply word_ne. }
  destruct (slot_exists _ _ x Ht Hx) as (q & ex & Hsx).
  rewrite (slot_translate _ _ _ _ _ Ht' (slot_wr_pde _ _ _ _ _ _ _ _ _ Ht Hs Hv Hx He Hsx)).
  rewrite (slot_translate _ _ _ _ _ Ht Hsx). case_decide.
  - by apply (Hframe (v / 2 ^ 21)).
  - apply (Hframe (x / 2 ^ 21)). apply Hsx.
Qed.

(** ** Writing a page-table entry *)

Lemma tables_wr_pte st rl pt s k w :
  tables st rl -> rl !! pt = Some (RPt s) -> 0 <= k < 512 -> tables (wr st (pt + 8 * k) w) rl.
Proof.
  intros Ht Hp Hk. pose proof Ht as [Ha Hpage Hpdpt Hpd Hpde Hpte]. split; cbn; try done.
  - intros i' Hi'. rewrite lookup_insert_ne; [by apply Hpd|]. intros E. symmetry in E. revert E.
    by eapply pdpt_ne.
  - intros i' j' p' Hj' Hp'. rewrite lookup_insert_ne; [by apply Hpde|]. by eapply word_ne.
  - intros s' k' q Hk' Hq. rewrite lookup_insert_is_Some'. right. by eapply Hpte.
Qed.

Lemma slot_wr_pte st rl pt s k w y q e :
  tables st rl -> rl !! pt = Some (RPt s) -> 0 <= k < 512 -> 0 <= y < 2 ^ 32 ->
  slot_at st rl y q e -> slot_at (wr st (pt + 8 * k) w) rl y q e.
Proof.
  intros Ht Hpt Hk Hy [Hq Hrq He Hok]. destruct (slot_range y Hy). split; [|done| |done]; cbn.
  - rewrite lookup_insert_ne; [done|]. intros E. symmetry in E. revert E. by eapply pdpt_ne.
  - rewrite lookup_insert_ne; [done|]. by eapply word_ne.
Qed.

Lemma translate_wr_pte st rl v p pt w x :
  tables st rl -> slot_at st rl v p (pt + 7) -> rl !! pt = Some (RPt (v / 2 ^ 21)) ->
  0 <= v < 2 ^ 32 -> 0 <= x < 2 ^ 32 ->
  translate (wr st (pt + 8 * (v / 2 ^ 12 mod 512)) w) x =
    if decide (x / 2 ^ 12 = v / 2 ^ 12)
    then if negb (Z.testbit w 0) then None else Some (entry_addr w + x mod 2 ^ 12, entry_flags w)
    else translate st x.
Proof.
  intros Ht Hs Hpt Hv Hx. assert (Hk : 0 <= v / 2 ^ 12 mod 512 < 512) by dlia.
  pose proof (tables_wr_pte _ _ _ _ (v / 2 ^ 12 mod 512) w Ht Hpt Hk) as Ht'.
  destruct (t_aligned _ _ _ _ Ht Hpt) as [Hal Hb].
  assert (E21 : forall y, y / 2 ^ 21 = y / 2 ^ 12 / 512).
  { intros y. change (2 ^ 21) with 0x200000. change (2 ^ 12) with 0x1000. dlia. }
  destruct (slot_exists _ _ x Ht Hx) as (q & e & Hsx).
  rewrite (slot_translate _ rl x q _ Ht' (slot_wr_pte _ _ _ _ _ _ _ _ _ Ht Hpt Hk Hx Hsx)),
    (slot_translate _ rl x q _ Ht Hsx).
  destruct (decide (x / 2 ^ 21 = v / 2 ^ 21)) as [E|Hne].
  - destruct (slot_same _ _ _ _ _ _ _ _ Ht Hv Hx E Hs Hsx) as (_ & _ & ->).
    rewrite !table_pde_walk by (done || lia). cbn [wr set_mem pg_mem].
    case_decide as Hc; [by rewrite Hc, lookup_insert_eq|].
    rewrite lookup_insert_ne; [done|]. intros E'. apply Hc. rewrite !E21 in E. dlia.
  - rewrite decide_False by (intros Hc; apply Hne; by rewrite !E21, Hc).
    apply (walk_pde_frame _ _ _ _ _ _ Ht (sl_ok _ _ _ _ _ Hsx)). intros pt' k' Hpt' Hk'.
    apply lookup_insert_ne. eapply word_ne; [done..| |done|done]. congruence.
Qed.

(** ** Adding a table *)

Lemma fill_words_out n m a v step x :
  x < a \/ a + 8 * Z.of_nat n <= x -> fill_words n m a v step !! x = m !! x.
Proof.
  revert m a v. induction n as [|n IH]; intros m a v Hx; [done|]. cbn [fill_words].
  rewrite IH by lia. apply lookup_insert_ne. lia.
Qed.

Lemma fill_words_in n m a v step k :
  0 <= k < Z.of_nat n -> 0 <= v -> 0 <= step -> v + step * Z.of_nat n < 2 ^ 64 ->
  fill_words n m a v step !! (a + 8 * k) = Some (v + step * k).
Proof.
  revert m a v k. induction n as [|n IH]; intros m a v k Hk Hv Hs Hlt; [lia|]. cbn [fill_words].
  rewrite Nat2Z.inj_succ in *. destruct (decide (k = 0)) as [->|Hne].
  - rewrite fill_words_out, Z.mul_0_r, Z.add_0_r, Z.mul_0_r, Z.add_0_r by lia. by rewrite lookup_insert_eq.
  - rewrite wrap_small by lia. replace (a + 8 * k) with (a + 8 + 8 * (k - 1)) by lia.
    rewrite IH by lia. f_equal. lia.
Qed.

Lemma fill_words_some n m a v step k :
  0 <= k < Z.of_nat n -> is_Some (fill_words n m a v step !! (a + 8 * k)).
Proof.
  revert m a v k. induction n as [|n IH]; intros m a v k Hk; [lia|]. cbn [fill_words].
  destruct (decide (k = 0)) as [->|Hne].
  - rewrite fill_words_out by lia. rewrite Z.mul_0_r, Z.add_0_r, lookup_insert_eq. eauto.
  - replace (a + 8 * k) with (a + 8 + 8 * (k - 1)) by lia. apply IH. lia.
Qed.

#[global] Arguments fill_words : simpl never.

(** The allocator states that a sequence of page allocations leads to. *)
Definition alc_reach : A -> A -> Prop :=
  rtc (fun a a' => exists p, alc_alloc a PAGE_SIZE PAGE_SIZE = Ok (p, a')).

Lemma alc_reach_once (a a' : A) p : alc_alloc a PAGE_SIZE PAGE_SIZE = Ok (p, a') -> alc_reach a a'.
Proof. intros E. apply rtc_once. by exists p. Qed.

Lemma pow2_page : is_pow2 PAGE_SIZE.
Proof. by exists 12. Qed.

Hypothesis Hlim : alc_limit (S := A) <= 2 ^ 32.

(** A fresh page is in none of the tables. *)
Lemma alloc_page_spec {n} st rl pt st1 :
  dirs (n := n) st rl -> alloc_page st = Ok (pt, st1) ->
  rl !! pt = None /\ (4096 | pt) /\ 0 <= pt /\ pt + 4096 <= 2 ^ 32 /\
  pg_mem st1 = pg_mem st /\ pdpt st1 = pdpt st /\ alc_inv (pg_alloc st1) /\
  alc_reach (pg_alloc st) (pg_alloc st1) /\ ~ alc_free (pg_alloc st1) pt /\
  (forall x, alc_free (pg_alloc st1) x -> alc_free (pg_alloc st) x).
Proof.
  intros Ht E. unfold alloc_page in E.
  destruct (alc_alloc (pg_alloc st) PAGE_SIZE PAGE_SIZE) as [[q a]|] eqn:Ea; [|done].
  cbn in E. simplify_eq. cbn.
  pose proof pow2_page as Hp2. pose proof (t_alloc _ _ Ht) as Hinv.
  assert (Hps : 0 < PAGE_SIZE <= 4096) by (unfold PAGE_SIZE; lia).
  destruct (alc_alloc_block _ PAGE_SIZE PAGE_SIZE _ _ Hinv ltac:(lia) Hp2 ltac:(lia) Ea) as (H0 & Hle & Hal & Hblk).
  pose proof (alc_base_nonneg (S := A)) as Hbase.
  unfold PAGE_SIZE in *. split_and!; try done; try lia.
  - destruct (rl !! pt) as [r|] eqn:Er; [|done]. exfalso.
    destruct (t_page _ _ Ht pt r Er) as (_ & _ & _ & x & Hx & Hnf). by destruct (Hblk x Hx).
  - by eapply (alc_alloc_inv _ 4096 4096 _ _ Hinv ltac:(lia) Hp2).
  - by eapply alc_reach_once.
  - destruct (Hblk pt) as [_ ?]; [unfold in_range; lia|done].
  - intros x. by eapply (alc_alloc_free _ 4096 4096 _ _ x Hinv ltac:(lia) Hp2).
Qed.

Lemma pde_ok_mono (rl rl' : gmap Z role) s e : rl ⊆ rl' -> pde_ok rl s e -> pde_ok rl' s e.
Proof.
  intros Hsub [?|base f ?|pt ? Hpt]; [by apply PdeNone|by eapply PdeLarge|].
  eapply PdeTable; [done|]. by eapply lookup_weaken.
Qed.

Lemma tables_new_table st rl pt st1 s v step :
  tables st rl -> alloc_page st = Ok (pt, st1) ->
  let st2 := set_mem st1 (fill_words 512 (pg_mem st1) pt v step) in
  let rl' := <[pt := RPt s]> rl in
  tables st2 rl' /\ rl ⊆ rl' /\
  (forall y q e, slot_at st rl y q e -> 0 <= y < 2 ^ 32 -> slot_at st2 rl' y q e) /\
  (forall x, 0 <= x < 2 ^ 32 -> translate st2 x = translate st x).
Proof.
  intros Ht E st2 rl'. pose proof Ht as [Ha Hpage Hpdpt Hpd Hpde Hpte].
  destruct (alloc_page_spec _ _ _ _ Ht E) as (Hnone & Hal & H0 & Hlt & Hmem & Epdpt & Hinv & _ & Hused & Hfree).
  assert (Hsub : rl ⊆ rl') by by apply insert_subseteq.
  assert (Hout : forall q j r, rl !! q = Some r -> 0 <= j < 512 -> pg_mem st2 !! (q + 8 * j) = pg_mem st !! (q + 8 * j)).
  { intros q j r Hq Hj. cbn. rewrite Hmem. apply fill_words_out.
    destruct (t_aligned _ _ _ _ Ht Hq) as [[b ->] _]. destruct Hal as [c ->].
    assert (b <> c) by (intros ->; congruence). lia. }
  assert (Hpdptw : forall i, 0 <= i < 4 -> pg_mem st2 !! (pdpt st + 8 * i) = pg_mem st !! (pdpt st + 8 * i)).
  { intros i Hi. destruct (pdpt_word st rl i Ht Hi) as (k & Hk & ->). by eapply Hout; [apply Hpdpt|]. }
  assert (Hrl : forall q r, rl' !! q = Some r -> (q = pt /\ r = RPt s) \/ rl !! q = Some r).
  { intros q r. unfold rl'. rewrite lookup_insert_Some. naive_solver. }
  assert (Ht2 : tables st2 rl').
  { split; cbn [pg_alloc pdpt set_mem st2]; rewrite ?Epdpt; try done.
    - intros q r [[-> ->]|Hq]%Hrl.
      + split_and!; [done|done|done|]. exists pt. split; [unfold in_range; lia|done].
      + destruct (Hpage q r Hq) as (? & ? & ? & x & ? & ?). split_and!; [done..|]. exists x. auto.
    - split; [apply Hpdpt|]. by eapply lookup_weaken; [apply Hpdpt|].
    - intros i Hi. destruct (Hpd i Hi) as (p & Hp & Hr). exists p.
      rewrite (Hpdptw i Hi). split; [done|]. by eapply lookup_weaken.
    - intros i j p Hj [[-> ?]|Hp]%Hrl; [done|].
      destruct (Hpde i j p Hj Hp) as (e & He & Hok). exists e. rewrite (Hout p j _ Hp Hj).
      split; [done|]. by eapply pde_ok_mono.
    - intros s' k q Hk [[-> _]|Hq]%Hrl; [by apply fill_words_some|]. rewrite (Hout q k _ Hq Hk). by eapply Hpte. }
  assert (Hslot : forall y q e, slot_at st rl y q e -> 0 <= y < 2 ^ 32 -> slot_at st2 rl' y q e).
  { intros y q e [Hq Hr He Hok] Hy. split.
    - cbn [pdpt set_mem st2]. rewrite Epdpt, Hpdptw; [done|]. change (2 ^ 30) with 0x40000000. dlia.
    - by eapply lookup_weaken.
    - rewrite (Hout q _ _ Hr); [done|dlia].
    - by eapply pde_ok_mono. }
  split_and!; [done|done|done|].
  intros x Hx. destruct (slot_exists _ _ x Ht Hx) as (q & e & Hs).
  rewrite (slot_translate _ rl' x q e Ht2 (Hslot _ _ _ Hs Hx)), (slot_translate _ rl x q e Ht Hs).
  apply (walk_pde_frame _ _ _ _ _ _ Ht (sl_ok _ _ _ _ _ Hs)). intros p' k Hp' Hk. by eapply Hout.
Qed.

(** ** Large pages *)

Lemma slot_is_large st rl v p e :
  tables st rl -> slot_at st rl v p e -> is_large st v = negb (Z.land e PDE_PS =? 0).
Proof.
  intros Ht Hs. unfold is_large. rewrite (slot_pde _ _ _ _ _ Ht Hs).
  destruct (sl_ok _ _ _ _ _ Hs) as [->|base f (Hb & Hr & Hf & ->)|pt -> Hpt]; [done|..].
  - pose proof (flags_range f Hf). pose proof (large_4096 _ Hb). unfold PDE_PS.
    rewrite (low_testbit base _ 0), (low_testbit base _ 7), low_land by (done || lia).
    by destruct Hf as [->|[->|[->| ->]]].
  - destruct (t_aligned _ _ _ _ Ht Hpt). unfold PDE_PS.
    by rewrite (low_testbit pt _ 0), (low_testbit pt _ 7), low_land by (done || lia).
Qed.

Lemma is_large_same st rl v x :
  tables st rl -> 0 <= v < 2 ^ 32 -> 0 <= x < 2 ^ 32 -> x / 2 ^ 21 = v / 2 ^ 21 -> is_large st x = is_large st v.
Proof.
  intros Ht Hv Hx E. destruct (slot_exists _ _ v Ht Hv) as (p & e & Hs), (slot_exists _ _ x Ht Hx) as (q & e' & Hsx).
  destruct (slot_same _ _ _ _ _ _ _ _ Ht Hv Hx E Hs Hsx) as (_ & -> & ->).
  by rewrite (slot_is_large _ _ _ _ _ Ht Hs), (slot_is_large _ _ _ _ _ Ht Hsx).
Qed.

(** ** [ensure_pt] *)

(** No large page is added. *)
Definition large_kept (st st' : pgt A) : Prop :=
  forall x, 0 <= x < 2 ^ 32 -> is_large st' x = true -> is_large st x = true.

(** Pointing a slot at a table whose translation is the slot's own changes nothing. *)
Lemma install_table st rl v p e pt :
  tables st rl -> slot_at st rl v p e -> 0 <= v < 2 ^ 32 -> rl !! pt = Some (RPt (v / 2 ^ 21)) ->
  (forall x, 0 <= x < 2 ^ 32 -> x / 2 ^ 21 = v / 2 ^ 21 ->
    walk_pde (pg_mem st) (pt + 7) x = walk_pde (pg_mem st) e x) ->
  let st' := wr st (p + 8 * (v / 2 ^ 21 mod 512)) (pt + 7) in
  tables st' rl /\ slot_at st' rl v p (pt + 7) /\ large_kept st st' /\
  (forall x, 0 <= x < 2 ^ 32 -> translate st' x = translate st x).
Proof.
  intros Ht Hs Hv Hpt Hsame st'. destruct (slot_range v Hv) as [Hi Hj].
  pose proof Hs as [Hp Hr He Hok].
  assert (Hok' : pde_ok rl (v / 2 ^ 21) (pt + 7)) by by eapply PdeTable.
  assert (Ht' : tables st' rl).
  { apply (tables_wr_pde _ _ _ (v / 2 ^ 30)); [done..|]. by rewrite slot_index. }
  split_and!; [done|..].
  - split; cbn; [|done| |done].
    + rewrite lookup_insert_ne; [done|]. intros E. symmetry in E. revert E. by eapply pdpt_ne.
    + by rewrite lookup_insert_eq.
  - intros x Hx. destruct (slot_exists _ _ x Ht Hx) as (q & e' & Hsx).
    rewrite (slot_is_large _ _ _ _ _ Ht Hsx).
    rewrite (slot_is_large _ _ _ _ _ Ht' (slot_wr_pde _ _ _ _ _ _ _ _ _ Ht Hs Hv Hx Hok' Hsx)).
    case_decide; [|done]. destruct (t_aligned _ _ _ _ Ht Hpt) as [Hal Hb].
    by destruct (table_pde_code pt Hal Hb) as (_ & -> & _).
  - intros x Hx. unfold st'. rewrite (translate_wr_pde st rl v p e) by done. case_decide as E; [|done].
    rewrite Hsame by done. destruct (slot_exists _ _ x Ht Hx) as (q & e' & Hsx).
    destruct (slot_same _ _ _ _ _ _ _ _ Ht Hv Hx E Hs Hsx) as (_ & -> & ->).
    symmetry. by eapply slot_translate.
Qed.

(** The table that replaces a large page translates as the large page did. *)
Lemma split_walk m pt e base f v :
  large_pde e base f -> (4096 | pt) -> 0 <= pt < 2 ^ 32 ->
  walk_pde (fill_words 512 m pt (base + (7 + f)) PAGE_SIZE) (pt + 7) v = walk_pde m e v.
Proof.
  intros Hl Hal Hr. rewrite (large_pde_walk _ _ _ _ _ Hl), table_pde_walk by (done || lia).
  destruct Hl as (Hb & Hbr & Hf & ->). pose proof (flags_range f Hf).
  assert (Hbase : base + LARGE_PAGE_SIZE <= 2 ^ 52).
  { destruct Hb as [k ->]. unfold LARGE_PAGE_SIZE in *. lia. }
  unfold LARGE_PAGE_SIZE, PAGE_SIZE in *. rewrite fill_words_in by dlia. cbn [mbind option_bind].
  set (k := v / 2 ^ 12 mod 512). assert (Hk : 0 <= k < 512) by (unfold k; dlia).
  replace (base + (7 + f) + 4096 * k) with (base + 4096 * k + (7 + f)) by lia.
  assert (Hal' : (4096 | base + 4096 * k)).
  { apply Z.divide_add_r; [by apply large_4096|]. exists k. lia. }
  destruct (small_entry_read (base + 4096 * k) f Hal' ltac:(lia) Hf) as (-> & -> & ->). cbn [negb].
  f_equal. f_equal. unfold k. change (2 ^ 12) with 4096. change (2 ^ 21) with 0x200000. dlia.
Qed.

Lemma blank_walk m pt v :
  (4096 | pt) -> 0 <= pt < 2 ^ 32 -> walk_pde (fill_words 512 m pt 0 0) (pt + 7) v = None.
Proof.
  intros Hal Hr. rewrite table_pde_walk by (done || lia). rewrite fill_words_in by dlia. done.
Qed.

Lemma ensure_pt_spec st rl v p e :
  tables st rl -> slot_at st rl v p e -> 0 <= v < 2 ^ 32 ->
  match ensure_pt st (p + 8 * (v / 2 ^ 21 mod 512)) with
  | Ok (pt, st') => exists rl', tables st' rl' /\ slot_at st' rl' v p (pt + 7) /\
      rl' !! pt = Some (RPt (v / 2 ^ 21)) /\ pdpt st' = pdpt st /\
      alc_reach (pg_alloc st) (pg_alloc st') /\ large_kept st st' /\
      (forall x, 0 <= x < 2 ^ 32 -> translate st' x = translate st x)
  | Fail f => alc_alloc (pg_alloc st) PAGE_SIZE PAGE_SIZE = Fail f
  end.
Proof.
  intros Ht Hs Hv. unfold ensure_pt, rd. rewrite (sl_pde _ _ _ _ _ Hs). cbn [checked mbind result_bind].
  assert (Hnew : forall w step pt st1, alloc_page st = Ok (pt, st1) ->
    (forall x, walk_pde (fill_words 512 (pg_mem st1) pt w step) (pt + 7) x = walk_pde (pg_mem st) e x) ->
    exists rl', let st' := wr (set_mem st1 (fill_words 512 (pg_mem st1) pt w step))
        (p + 8 * (v / 2 ^ 21 mod 512)) (Z.lor (Z.lor (Z.lor (u32 pt) PTE_P) PTE_RW) PTE_US) in
      tables st' rl' /\ slot_at st' rl' v p (pt + 7) /\ rl' !! pt = Some (RPt (v / 2 ^ 21)) /\
      pdpt st' = pdpt st /\ alc_reach (pg_alloc st) (pg_alloc st') /\ large_kept st st' /\
      (forall x, 0 <= x < 2 ^ 32 -> translate st' x = translate st x)).
  { intros w step pt st1 E Hw.
    destruct (alloc_page_spec _ _ _ _ Ht E) as (_ & Hal & H0 & Hlt & Emem & Epdpt & _ & Hreach & _ & _).
    destruct (tables_new_table st rl pt st1 (v / 2 ^ 21) w step Ht E) as (Ht2 & Hsub & Hslot & Htr).
    rewrite table_entry by (done || lia).
    exists (<[pt:=RPt (v / 2 ^ 21)]> rl).
    destruct (install_table _ _ v p e pt Ht2 (Hslot _ _ _ Hs Hv) Hv) as (Ht3 & Hs3 & Hlk & Htr3).
    - by rewrite lookup_insert_eq.
    - intros x Hx _. cbn [pg_mem set_mem]. rewrite Hw. symmetry.
      apply (walk_pde_frame st rl _ (v / 2 ^ 21)); [done|apply Hs|]. intros pt' k Hpt' Hk.
      rewrite Emem. apply fill_words_out.
      destruct (t_aligned _ _ _ _ Ht Hpt') as [[b ->] _]. destruct Hal as [c ->].
      destruct (alloc_page_spec _ _ _ _ Ht E) as (Hn & _). assert (b <> c) by (intros ->; congruence). lia.
    - split_and!; [done|done|by rewrite lookup_insert_eq|done|done| |].
      + intros x Hx Hl. specialize (Hlk x Hx Hl). destruct (slot_exists _ _ x Ht Hx) as (q & e' & Hsx).
        by rewrite (slot_is_large _ _ _ _ _ Ht2 (Hslot _ _ _ Hsx Hx)), <- (slot_is_large _ _ _ _ _ Ht Hsx) in Hlk.
      + intros x Hx. rewrite Htr3, Htr by done. done. }
  assert (Hfail : forall f, alloc_page st = Fail f -> alc_alloc (pg_alloc st) PAGE_SIZE PAGE_SIZE = Fail f).
  { intros f E. unfold alloc_page in E. destruct (alc_alloc _ _ _) as [[? ?]|]; cbn in E; congruence. }
  destruct (sl_ok _ _ _ _ _ Hs) as [->|base f Hl|pt -> Hpt].
  - cbn [Z.eqb negb andb]. destruct (alloc_page st) as [[pt st1]|f] eqn:E; cbn [mbind result_bind]; [|by apply Hfail].
    apply Hnew; [done|]. intros x.
    destruct (alloc_page_spec _ _ _ _ Ht E) as (_ & Hal & H0 & Hlt & _). by rewrite blank_walk by (done || lia).
  - destruct (large_pde_ps _ _ _ Hl) as [Hne Hps].
    destruct (Z.eqb_spec e 0) as [|_]; [done|]. destruct (Z.eqb_spec (Z.land e PDE_PS) 0); [done|]. cbn [negb andb].
    destruct (alloc_page st) as [[pt st1]|f'] eqn:E; cbn [mbind result_bind]; [|by apply Hfail].
    rewrite (large_pde_split _ _ _ Hl). apply Hnew; [done|]. intros x.
    destruct (alloc_page_spec _ _ _ _ Ht E) as (_ & Hal & H0 & Hlt & Emem & _).
    rewrite Emem. apply (split_walk _ _ _ _ _ _ Hl); [done|lia].
  - destruct (t_aligned _ _ _ _ Ht Hpt) as [Hal Hr]. destruct (table_pde_code pt Hal Hr) as (Hne & Hps & Ept).
    destruct (Z.eqb_spec (pt + 7) 0); [done|]. destruct (Z.eqb_spec (Z.land (pt + 7) PDE_PS) 0); [|done]. cbn [negb andb].
    rewrite Ept. exists rl. split_and!; [done|done|done|done|apply rtc_refl|by intros x Hx|done].
Qed.

(** ** [do_va_map] *)

(** The translation after [n] bytes from [vstart] have been mapped to [pstart]. *)
Definition mapped (tr tr' : Z -> option (Z * Z)) (vstart pstart n f : Z) : Prop :=
  forall x, 0 <= x < 2 ^ 32 ->
    tr' x = if decide (vstart <= x < vstart + n) then Some (pstart + (x - vstart), 6 + f) else tr x.

(** New large pages lie within the range mapped. *)
Definition large_within (st st' : pgt A) (v n : Z) : Prop :=
  forall x, 0 <= x < 2 ^ 32 -> is_large st' x = true ->
    is_large st x = true \/
    (v <= align_down x LARGE_PAGE_SIZE /\ align_down x LARGE_PAGE_SIZE + LARGE_PAGE_SIZE <= v + n).

Lemma va_map_step_spec st rl v p len f :
  tables st rl -> 0 <= v < 2 ^ 32 -> 0 <= p -> p + len <= 2 ^ 52 -> (PAGE_SIZE | v) -> (PAGE_SIZE | p) ->
  PAGE_SIZE <= len -> flags_ok f ->
  match va_map_step st v p len f with
  | Ok (n, st') => exists rl', tables st' rl' /\ pdpt st' = pdpt st /\
      alc_reach (pg_alloc st) (pg_alloc st') /\
      (n = PAGE_SIZE \/ n = LARGE_PAGE_SIZE) /\ n <= len /\ large_within st st' v n /\
      mapped (translate st) (translate st') v p n f
  | Fail e => alc_alloc (pg_alloc st) PAGE_SIZE PAGE_SIZE = Fail e
  end.
Proof.
  intros Ht Hv Hp0 Hp Hva Hpa Hlen Hf. destruct (slot_exists _ _ v Ht Hv) as (pd & e & Hs).
  destruct (slot_code _ _ _ _ _ Ht Hs Hv) as (Epd & Erd & Epdi). unfold va_map_step.
  rewrite Epd. cbn [mbind result_bind]. rewrite Erd. cbn [mbind result_bind]. rewrite Epdi.
  destruct (slot_range v Hv) as [Hi Hj]. unfold PAGE_SIZE in *.
  destruct ((v mod LARGE_PAGE_SIZE =? 0) && (p mod LARGE_PAGE_SIZE =? 0) && (len >=? LARGE_PAGE_SIZE) &&
    ((e =? 0) || negb (Z.land e PDE_PS =? 0))) eqn:Elarge.
  - rewrite !andb_true_iff in Elarge. destruct Elarge as [[[Hvl Hpl] Hll] _].
    unfold LARGE_PAGE_SIZE in Hvl, Hpl, Hll.
    assert (Hbase : large_pde (Z.lor (Z.lor (Z.lor (Z.lor (Z.lor p PTE_P) PTE_RW) PTE_US) PDE_PS) f) p f).
    { apply large_entry; [|lia|done]. unfold LARGE_PAGE_SIZE. apply Z.mod_divide; lia. }
    assert (Hok : pde_ok rl (v / 2 ^ 21) (Z.lor (Z.lor (Z.lor (Z.lor (Z.lor p PTE_P) PTE_RW) PTE_US) PDE_PS) f))
      by by eapply PdeLarge.
    assert (Ht' : tables (wr st (pd + 8 * (v / 2 ^ 21 mod 512))
      (Z.lor (Z.lor (Z.lor (Z.lor (Z.lor p PTE_P) PTE_RW) PTE_US) PDE_PS) f)) rl).
    { apply (tables_wr_pde _ _ _ (v / 2 ^ 30)); [done|apply Hs|done|]. by rewrite slot_index. }
    exists rl. split_and!; [done|done|apply rtc_refl|by right|unfold LARGE_PAGE_SIZE; lia| |].
    + intros x Hx. destruct (slot_exists _ _ x Ht Hx) as (q & ex & Hsx).
      rewrite (slot_is_large _ _ _ _ _ Ht Hsx).
      rewrite (slot_is_large _ _ _ _ _ Ht' (slot_wr_pde _ _ _ _ _ _ _ _ _ Ht Hs Hv Hx Hok Hsx)).
      case_decide as E; [|by left]. intros _. right. unfold align_down, LARGE_PAGE_SIZE.
      change (2 ^ 21) with 0x200000 in E. dlia.
    + intros x Hx. rewrite (translate_wr_pde st rl v pd e) by (done || by eapply PdeLarge).
      change (2 ^ 21) with 0x200000. unfold LARGE_PAGE_SIZE. repeat case_decide; try done; try dlia.
      rewrite (large_pde_walk _ _ _ _ _ Hbase). f_equal. f_equal. change (2 ^ 21) with 0x200000. dlia.
  - clear Elarge. pose proof (ensure_pt_spec st rl v pd e Ht Hs Hv) as He.
    destruct (ensure_pt st _) as [[pt st1]|e']; cbn [mbind result_bind]; [|done].
    destruct He as (rl' & Ht1 & Hs1 & Hpt & Epdpt & Hreach & Hlk & Htr).
    assert (Hk : 0 <= v / 2 ^ 12 mod 512 < 512) by dlia.
    rewrite pti_of_eq, small_entry by (done || lia).
    pose proof (tables_wr_pte _ _ _ _ _ (p + (7 + f)) Ht1 Hpt Hk) as Ht'.
    exists rl'. split_and!; [done|done|done|by left|done| |].
    + intros x Hx Hl. left. apply (Hlk x Hx). destruct (slot_exists _ _ x Ht1 Hx) as (q & ex & Hsx).
      rewrite (slot_is_large _ _ _ _ _ Ht1 Hsx).
      by rewrite (slot_is_large _ _ _ _ _ Ht' (slot_wr_pte _ _ _ _ _ _ _ _ _ Ht1 Hpt Hk Hx Hsx)) in Hl.
    + intros x Hx. rewrite (translate_wr_pte st1 rl' v pd pt) by done. rewrite Htr by done.
      destruct (small_entry_read p f Hpa ltac:(lia) Hf) as (-> & -> & ->).
      change (2 ^ 12) with 4096. destruct Hva as [c ->]. repeat case_decide; try done; try dlia.
      cbn [negb]. f_equal. f_equal. dlia.
Qed.

Lemma mapped_trans tr tr1 tr2 v p n m f :
  0 <= n -> 0 <= m ->
  mapped tr tr1 v p n f -> mapped tr1 tr2 (v + n) (p + n) m f -> mapped tr tr2 v p (n + m) f.
Proof.
  intros Hn Hm H1 H2 x Hx. rewrite H2, H1 by done. repeat case_decide; try done; try lia.
  f_equal. f_equal. lia.
Qed.

Lemma va_map_loop_spec fuel st rl v p len f :
  tables st rl -> 0 <= v -> v + len <= 2 ^ 32 -> 0 <= p -> p + len <= 2 ^ 52 ->
  (PAGE_SIZE | v) -> (PAGE_SIZE | p) -> (PAGE_SIZE | len) -> 0 <= len <= PAGE_SIZE * Z.of_nat fuel ->
  flags_ok f ->
  match va_map_loop fuel st v p len f with
  | Ok st' => exists rl', tables st' rl' /\ pdpt st' = pdpt st /\
      alc_reach (pg_alloc st) (pg_alloc st') /\ large_within st st' v len /\
      mapped (translate st) (translate st') v p len f
  | Fail e => exists a, alc_reach (pg_alloc st) a /\ alc_alloc a PAGE_SIZE PAGE_SIZE = Fail e
  end.
Proof.
  revert st rl v p len. induction fuel as [|fuel IH]; intros st rl v p len Ht Hv0 Hv Hp0 Hp Hva Hpa Hla Hlen Hf;
    cbn [va_map_loop].
  all: destruct (Z.eqb_spec len 0) as [->|Hne];
    [exists rl; split_and!; [done|done|apply rtc_refl|by intros x Hx; left|intros x Hx; rewrite decide_False by lia; done]|].
  { cbn in Hlen. lia. }
  assert (Hpg : PAGE_SIZE <= len) by (destruct Hla as [c ->]; unfold PAGE_SIZE in *; lia).
  pose proof (va_map_step_spec st rl v p len f Ht ltac:(unfold PAGE_SIZE in *; lia) Hp0 Hp Hva Hpa Hpg Hf) as Hstep.
  destruct (va_map_step st v p len f) as [[n st1]|e]; cbn [mbind result_bind];
    [|exists (pg_alloc st); split; [apply rtc_refl|done]].
  destruct Hstep as (rl1 & Ht1 & Epdpt & Hreach & Hn & Hnl & Hlw & Hm).
  assert (Hnp : PAGE_SIZE <= n < 2 ^ 32) by (unfold PAGE_SIZE, LARGE_PAGE_SIZE in *; lia).
  assert (Hn0 : 0 < n) by (unfold PAGE_SIZE in *; lia).
  assert (Hna : (PAGE_SIZE | n)).
  { destruct Hn as [->| ->]; [done|]. exists 512. done. }
  rewrite (wrap_small 32 (len - n)) by (unfold PAGE_SIZE in *; lia).
  destruct (decide (len = n)) as [->|Hrest].
  { rewrite Z.sub_diag. replace (va_map_loop fuel _ _ _ 0 f) with (Ok st1) by (by destruct fuel). by exists rl1. }
  rewrite !wrap_small by lia.
  specialize (IH st1 rl1 (v + n) (p + n) (len - n) Ht1 ltac:(lia) ltac:(lia) ltac:(lia) ltac:(lia)
    (Z.divide_add_r _ _ _ Hva Hna) (Z.divide_add_r _ _ _ Hpa Hna) (Z.divide_sub_r _ _ _ Hla Hna)
    ltac:(unfold PAGE_SIZE in *; lia) Hf).
  destruct (va_map_loop fuel st1 (v + n) (p + n) (len - n) f) as [st2|e].
  - destruct IH as (rl2 & Ht2 & Epdpt2 & Hreach2 & Hlw2 & Hm2). exists rl2.
    split_and!; [done|congruence|by etransitivity|..].
    { intros x Hx Hl. destruct (Hlw2 x Hx Hl) as [Hl1|?]; [|right; lia].
      destruct (Hlw x Hx Hl1) as [?|?]; [by left|right; lia]. }
    replace len with (n + (len - n)) by lia. by eapply mapped_trans; [lia|lia|..].
  - destruct IH as (a & Ha & Hf2). exists a. split; [by etransitivity|done].
Qed.

(** What [do_va_map] does to the translation. *)
Lemma do_va_map_spec st rl v p len f :
  tables st rl -> 0 <= v -> v + len <= 2 ^ 32 -> 0 <= p -> p + len <= 2 ^ 52 ->
  (PAGE_SIZE | v) -> (PAGE_SIZE | p) -> (PAGE_SIZE | len) -> 0 <= len -> flags_ok f ->
  match do_va_map st v p len f with
  | Ok st' => exists rl', tables st' rl' /\ pdpt st' = pdpt st /\
      alc_reach (pg_alloc st) (pg_alloc st') /\ large_within st st' v len /\
      mapped (translate st) (translate st') v p len f
  | Fail e => exists a, alc_reach (pg_alloc st) a /\ alc_alloc a PAGE_SIZE PAGE_SIZE = Fail e
  end.
Proof.
  intros Ht Hv0 Hv Hp0 Hp Hva Hpa Hla Hlen Hf. apply (va_map_loop_spec _ _ rl); try done.
  destruct Hla as [c ->]. unfold PAGE_SIZE in *. rewrite Z.div_mul by lia. lia.
Qed.

(** ** [do_va_unmap] *)

(** ** [do_va_unmap] *)

Lemma is_large_translate st rl v :
  tables st rl -> 0 <= v < 2 ^ 32 -> is_large st v = true -> translate st v <> None.
Proof.
  intros Ht Hv Hl. destruct (slot_exists _ _ v Ht Hv) as (p & e & Hs).
  rewrite (slot_is_large _ _ _ _ _ Ht Hs) in Hl. rewrite (slot_translate _ _ _ _ _ Ht Hs).
  destruct (sl_ok _ _ _ _ _ Hs) as [->|base f Hlp|pt -> Hpt]; [done|by rewrite (large_pde_walk _ _ _ _ _ Hlp)|].
  destruct (t_aligned _ _ _ _ Ht Hpt) as [Hal Hb]. by destruct (table_pde_code pt Hal Hb) as (_ & E & _); rewrite E in Hl.
Qed.

(** A large page that [vstart, vstart + len) does not cover entirely is kept. *)
Definition keeps (st : pgt A) (vstart len x : Z) : bool :=
  is_large st x &&
  negb ((vstart <=? align_down x LARGE_PAGE_SIZE) && (align_down x LARGE_PAGE_SIZE + LARGE_PAGE_SIZE <=? vstart + len)).

Definition unmapped (st st' : pgt A) (vstart n len : Z) : Prop :=
  forall x, 0 <= x < 2 ^ 32 ->
    translate st' x =
      if decide (vstart <= x < vstart + n /\ keeps st vstart len x = false) then None else translate st x.

Lemma va_unmap_step_spec st rl v len :
  tables st rl -> 0 <= v < 2 ^ 32 -> (PAGE_SIZE | v) -> PAGE_SIZE <= len ->
  exists n st', va_unmap_step st v len = Ok (n, st') /\ tables st' rl /\
    pdpt st' = pdpt st /\ pg_alloc st' = pg_alloc st /\ n <= len /\
    (n = PAGE_SIZE /\ (is_large st v = true -> ~ (v mod LARGE_PAGE_SIZE = 0 /\ LARGE_PAGE_SIZE <= len)) \/
     n = LARGE_PAGE_SIZE /\ v mod LARGE_PAGE_SIZE = 0) /\
    (forall x, 0 <= x < 2 ^ 32 -> v + n <= x -> is_large st' x = is_large st x) /\
    large_kept st st' /\ unmapped st st' v n len.
Proof.
  intros Ht Hv Hva Hlen. destruct (slot_exists _ _ v Ht Hv) as (pd & e & Hs).
  destruct (slot_code _ _ _ _ _ Ht Hs Hv) as (Epd & Erd & Epdi). unfold va_unmap_step.
  rewrite Epd. cbn [mbind result_bind]. rewrite Erd. cbn [mbind result_bind]. rewrite Epdi.
  destruct (slot_range v Hv) as [Hi Hj]. pose proof (slot_is_large _ _ _ _ _ Ht Hs) as Elarge. rewrite <- Elarge.
  unfold PAGE_SIZE in *. unfold unmapped, keeps, align_down, LARGE_PAGE_SIZE in *.
  destruct (is_large st v) eqn:El; cbn [negb andb].
  - (* a large page *)
    destruct ((v mod 0x200000 =? 0) && (len >=? 0x200000)) eqn:Ecov.
    + apply andb_true_iff in Ecov as [Hv2%Z.eqb_eq Hl2%Z.geb_le].
      assert (Hnone : pde_ok rl (v / 2 ^ 21) 0) by by apply PdeNone.
      assert (Ht' : tables (wr st (pd + 8 * (v / 2 ^ 21 mod 512)) 0) rl).
      { apply (tables_wr_pde _ _ _ (v / 2 ^ 30)); [done|apply Hs|done|]. by rewrite slot_index. }
      eexists _, _. split_and!; [done|done|done|done|lia|by right| | |].
      2: { intros x Hx. destruct (slot_exists _ _ x Ht Hx) as (q & ex & Hsx).
        rewrite (slot_is_large _ _ _ _ _ Ht Hsx).
        rewrite (slot_is_large _ _ _ _ _ Ht' (slot_wr_pde _ _ _ _ _ _ _ _ _ Ht Hs Hv Hx Hnone Hsx)).
        by case_decide. }
      * intros x Hx Hge. destruct (slot_exists _ _ x Ht Hx) as (q & ex & Hsx).
        rewrite (slot_is_large _ _ _ _ _ Ht Hsx).
        rewrite (slot_is_large _ _ _ _ _ Ht' (slot_wr_pde _ _ _ _ _ _ _ _ _ Ht Hs Hv Hx Hnone Hsx)).
        rewrite decide_False; [done|]. change (2 ^ 21) with 0x200000. dlia.
      * intros x Hx. rewrite (translate_wr_pde st rl v pd e) by done.
        destruct (decide (x / 2 ^ 21 = v / 2 ^ 21)) as [E|E]; change (2 ^ 21) with 0x200000 in E.
        -- rewrite decide_True; [done|]. split; [dlia|].
           destruct (Z.leb_spec v (x - x mod 0x200000)), (Z.leb_spec (x - x mod 0x200000 + 0x200000) (v + len));
             try (exfalso; dlia). by rewrite andb_false_r.
        -- rewrite decide_False; [done|]. dlia.
    + exists 4096, st. split_and!; try (done || by intros x).
      * left. split; [done|]. intros _ [E1 E2]. rewrite E1 in Ecov. cbn in Ecov. lia.
      * intros x Hx. rewrite decide_False; [done|]. intros [Hin Hk].
        assert (Hsame : x / 2 ^ 21 = v / 2 ^ 21).
        { change (2 ^ 21) with 0x200000. destruct Hva as [c ->]. dlia. }
        rewrite (is_large_same st rl v x Ht Hv Hx Hsame), El in Hk. cbn [andb] in Hk.
        apply negb_false_iff, andb_true_iff in Hk as [?%Z.leb_le ?%Z.leb_le].
        change (2 ^ 21) with 0x200000 in Hsame.
        apply andb_false_iff in Ecov as [?%Z.eqb_neq|?]; dlia.
  - (* a table, or nothing *)
    assert (Hsmall : forall x, 0 <= x < 2 ^ 32 -> v <= x < v + 4096 -> is_large st x = false /\ x / 2 ^ 12 = v / 2 ^ 12).
    { intros x Hx Hin. assert (Hsame : x / 2 ^ 21 = v / 2 ^ 21).
      { change (2 ^ 21) with 0x200000. destruct Hva as [c ->]. dlia. }
      rewrite (is_large_same st rl v x Ht Hv Hx Hsame). split; [done|].
      change (2 ^ 12) with 4096. destruct Hva as [c ->]. dlia. }
    destruct (sl_ok _ _ _ _ _ Hs) as [->|base f Hl|pt -> Hpt].
    + exists 4096, st. split_and!; try (done || by intros x); [by left|]. intros x Hx.
      case_decide as Hin; [|done]. destruct Hin as [Hin _].
      assert (Hsame : x / 2 ^ 21 = v / 2 ^ 21).
      { change (2 ^ 21) with 0x200000. destruct Hva as [c ->]. dlia. }
      destruct (slot_exists _ _ x Ht Hx) as (q & ex & Hsx).
      destruct (slot_same _ _ _ _ _ _ _ _ Ht Hv Hx Hsame Hs Hsx) as (_ & -> & ->).
      by rewrite (slot_translate _ _ _ _ _ Ht Hsx).
    + exfalso. destruct (large_pde_ps _ _ _ Hl) as [_ ?]. symmetry in Elarge. apply negb_false_iff, Z.eqb_eq in Elarge. done.
    + destruct (t_aligned _ _ _ _ Ht Hpt) as [Hal Hr]. destruct (table_pde_code pt Hal Hr) as (Hne & _ & Ept).
      destruct (Z.eqb_spec (pt + 7) 0); [done|]. cbn [negb]. unfold PAGE_SIZE in Ept. rewrite Ept, pti_of_eq.
      assert (Hk : 0 <= v / 2 ^ 12 mod 512 < 512) by dlia.
      pose proof (tables_wr_pte _ _ _ _ _ 0 Ht Hpt Hk) as Ht'.
      assert (Hsame : forall x, 0 <= x < 2 ^ 32 ->
        is_large (wr st (pt + 8 * (v / 2 ^ 12 mod 512)) 0) x = is_large st x).
      { intros x Hx. destruct (slot_exists _ _ x Ht Hx) as (q & ex & Hsx).
        rewrite (slot_is_large _ _ _ _ _ Ht Hsx).
        by rewrite (slot_is_large _ _ _ _ _ Ht' (slot_wr_pte _ _ _ _ _ 0 _ _ _ Ht Hpt Hk Hx Hsx)). }
      eexists _, _. split_and!; [done|done|done|done|lia|by left|by intros x Hx _; apply Hsame| |].
      * intros x Hx. by rewrite Hsame.
      * intros x Hx. rewrite (translate_wr_pte st rl v pd pt) by done.
        destruct (decide (x / 2 ^ 12 = v / 2 ^ 12)) as [E|E]; change (2 ^ 12) with 4096 in E.
        -- assert (Hin : v <= x < v + 4096) by (destruct Hva as [c ->]; dlia).
           rewrite decide_True; [done|]. split; [done|]. by destruct (Hsmall x Hx Hin) as [-> _].
        -- rewrite decide_False; [done|]. intros [Hin _]. by destruct (Hsmall x Hx Hin).
Qed.

(** Whether a page is kept does not depend on how far the loop has come. *)
Lemma keeps_shift st1 st v n len x :
  0 <= v -> (PAGE_SIZE | v) -> v + n <= x < v + len -> is_large st1 x = is_large st x ->
  (n = PAGE_SIZE /\ (x / 2 ^ 21 = v / 2 ^ 21 -> is_large st x = true ->
     ~ (v mod LARGE_PAGE_SIZE = 0 /\ LARGE_PAGE_SIZE <= len)) \/
   n = LARGE_PAGE_SIZE /\ v mod LARGE_PAGE_SIZE = 0) ->
  keeps st1 (v + n) (len - n) x = keeps st v len x.
Proof.
  intros Hv [c Hc] Hx El Hn. unfold keeps. rewrite El. destruct (is_large st x) eqn:E; [|done]. cbn [andb]. f_equal.
  unfold align_down, LARGE_PAGE_SIZE, PAGE_SIZE in *. change (2 ^ 21) with 0x200000 in Hn.
  replace (v + n + (len - n)) with (v + len) by lia.
  destruct (Z.leb_spec (x - x mod 0x200000 + 0x200000) (v + len)); [|by rewrite !andb_false_r].
  rewrite !andb_true_r. destruct (Z.leb_spec v (x - x mod 0x200000)), (Z.leb_spec (v + n) (x - x mod 0x200000)); try done.
  - exfalso. destruct Hn as [[-> Hn]|[-> Hn]]; [|dlia].
    apply Hn; [dlia|done|]. dlia.
  - exfalso. destruct Hn as [[-> _]|[-> _]]; dlia.
Qed.

Lemma va_unmap_loop_spec fuel st rl v len :
  tables st rl -> 0 <= v -> v + len <= 2 ^ 32 -> (PAGE_SIZE | v) -> (PAGE_SIZE | len) ->
  0 <= len <= PAGE_SIZE * Z.of_nat fuel ->
  exists st', va_unmap_loop fuel st v len = Ok st' /\ tables st' rl /\
    pdpt st' = pdpt st /\ pg_alloc st' = pg_alloc st /\ large_kept st st' /\ unmapped st st' v len len.
Proof.
  revert st v len. induction fuel as [|fuel IH]; intros st v len Ht Hv0 Hv Hva Hla Hlen; cbn [va_unmap_loop].
  all: destruct (Z.eqb_spec len 0) as [->|Hne];
    [exists st; split_and!; [done..|by intros x|intros x Hx; rewrite decide_False by lia; done]|].
  { cbn in Hlen. lia. }
  assert (Hpg : PAGE_SIZE <= len) by (destruct Hla as [c ->]; unfold PAGE_SIZE in *; lia).
  destruct (va_unmap_step_spec st rl v len Ht ltac:(unfold PAGE_SIZE in *; lia) Hva Hpg)
    as (n & st1 & -> & Ht1 & Epdpt & Ealloc & Hnl & Hn & Hlarge & Hkept & Hun). cbn [mbind result_bind].
  assert (Hn0 : 0 < n < 2 ^ 32) by (unfold PAGE_SIZE, LARGE_PAGE_SIZE in *; lia).
  assert (Hna : (PAGE_SIZE | n)) by (destruct Hn as [[-> _]|[-> _]]; [done|by exists 512]).
  rewrite (wrap_small 32 (len - n)) by lia.
  destruct (decide (len = n)) as [->|Hrest].
  { rewrite Z.sub_diag. replace (va_unmap_loop fuel _ _ 0) with (Ok st1) by (by destruct fuel). by exists st1. }
  rewrite wrap_small by lia.
  destruct (IH st1 (v + n) (len - n) Ht1 ltac:(lia) ltac:(lia) (Z.divide_add_r _ _ _ Hva Hna)
    (Z.divide_sub_r _ _ _ Hla Hna) ltac:(unfold PAGE_SIZE, LARGE_PAGE_SIZE in *; lia))
    as (st2 & -> & Ht2 & Epdpt2 & Ealloc2 & Hkept2 & Hun2).
  exists st2. split_and!; [done|done|congruence|congruence|by intros x Hx ?%Hkept2; [apply Hkept|]|].
  intros x Hx. rewrite Hun2, Hun by done.
  destruct (decide (v + n <= x < v + len)) as [Hin|Hout].
  - rewrite (keeps_shift st1 st v n len x Hv0 Hva Hin (Hlarge x Hx ltac:(lia))); cycle 1.
    { destruct Hn as [[-> Hn]|[-> Hn]]; [left|by right]. split; [done|]. intros E21.
      rewrite (is_large_same st rl v x Ht); [done|lia|done|done]. }
    repeat case_decide; try done; exfalso; naive_solver lia.
  - rewrite (decide_False (P := v + n <= x < v + n + (len - n) /\ _)) by (intros [? _]; lia).
    repeat case_decide; try done; exfalso; naive_solver lia.
Qed.

Lemma do_va_unmap_spec st rl v len :
  tables st rl -> 0 <= v -> v + len <= 2 ^ 32 -> (PAGE_SIZE | v) -> (PAGE_SIZE | len) -> 0 <= len ->
  exists st', do_va_unmap st v len = Ok st' /\ tables st' rl /\
    pdpt st' = pdpt st /\ pg_alloc st' = pg_alloc st /\ large_kept st st' /\ unmapped st st' v len len.
Proof.
  intros Ht Hv0 Hv Hva Hla Hlen. apply va_unmap_loop_spec; try done.
  destruct Hla as [c ->]. unfold PAGE_SIZE in *. rewrite Z.div_mul by lia. lia.
Qed.

(** ** Properties *)

(** C17: [do_va_map], for page-aligned addresses and length: it terminates; the processor then
    translates exactly [vstart, vstart + len) to [pstart, pstart + len) with the flags given,
    and every other address as before; the tables stay well formed; and it fails only if the
    allocator has no page left. *)
Theorem do_va_map_translates st rl vstart pstart len pte_flags :
  tables st rl -> 0 <= vstart -> vstart + len <= 2 ^ 32 -> 0 <= pstart -> pstart + len <= 2 ^ 52 ->
  (PAGE_SIZE | vstart) -> (PAGE_SIZE | pstart) -> (PAGE_SIZE | len) -> 0 <= len -> flags_ok pte_flags ->
  match do_va_map st vstart pstart len pte_flags with
  | Ok st' => (exists rl', tables st' rl') /\ pdpt st' = pdpt st /\
      forall x, 0 <= x < 2 ^ 32 ->
        translate st' x =
          if decide (vstart <= x < vstart + len) then Some (pstart + (x - vstart), 6 + pte_flags)
          else translate st x
  | Fail e => exists a, alc_reach (pg_alloc st) a /\ alc_alloc a PAGE_SIZE PAGE_SIZE = Fail e
  end.
Proof.
  intros Ht Hv0 Hv Hp0 Hp Hva Hpa Hla Hlen Hf.
  pose proof (do_va_map_spec st rl vstart pstart len pte_flags Ht Hv0 Hv Hp0 Hp Hva Hpa Hla Hlen Hf) as H.
  destruct (do_va_map st vstart pstart len pte_flags) as [st'|e]; [|done].
  destruct H as (rl' & ? & ? & _ & _ & Hm). split_and!; [by exists rl'|done|exact Hm].
Qed.

(** [ensure_pt] returns the table that the entry then points to, and changes no translation:
    neither when it splits a large page into 512 small ones nor when it adds a blank table. *)
Theorem ensure_pt_preserves st rl v p e :
  tables st rl -> slot_at st rl v p e -> 0 <= v < 2 ^ 32 ->
  match ensure_pt st (p + 8 * pdi_of v) with
  | Ok (pt, st') => (exists rl', tables st' rl') /\ rd st' (p + 8 * pdi_of v) = Ok (pt + 7) /\
      (4096 | pt) /\ forall x, 0 <= x < 2 ^ 32 -> translate st' x = translate st x
  | Fail f => alc_alloc (pg_alloc st) PAGE_SIZE PAGE_SIZE = Fail f
  end.
Proof.
  intros Ht Hs Hv. destruct (slot_code _ _ _ _ _ Ht Hs Hv) as (_ & _ & ->).
  pose proof (ensure_pt_spec st rl v p e Ht Hs Hv) as H.
  destruct (ensure_pt st _) as [[pt st']|f]; [|done].
  destruct H as (rl' & Ht' & Hs' & Hpt & _ & _ & _ & Htr). split_and!; [by exists rl'| | |done].
  - unfold rd. by rewrite (sl_pde _ _ _ _ _ Hs').
  - by destruct (t_aligned _ _ _ _ Ht' Hpt).
Qed.

(** [do_va_unmap], for page-aligned arguments: it terminates and never fails; afterwards no
    address of the range is translated, except where a large page reaches out of the range, which
    is kept whole; every other address is translated as before. *)
Theorem do_va_unmap_translates st rl vstart len :
  tables st rl -> 0 <= vstart -> vstart + len <= 2 ^ 32 ->
  (PAGE_SIZE | vstart) -> (PAGE_SIZE | len) -> 0 <= len ->
  exists st', do_va_unmap st vstart len = Ok st' /\ tables st' rl /\
    forall x, 0 <= x < 2 ^ 32 ->
      translate st' x =
        if decide (vstart <= x < vstart + len /\ keeps st vstart len x = false) then None
        else translate st x.
Proof.
  intros Ht Hv0 Hv Hva Hla Hlen.
  destruct (do_va_unmap_spec st rl vstart len Ht Hv0 Hv Hva Hla Hlen) as (st' & E & Ht' & _ & _ & _ & Hun).
  by exists st'.
Qed.
End tables.
