(* ===== verification/Va.v ===== *)
(** * Virtual address ranges of stage 2 (src/stage2/mem.c)

    [va_init] finds the holes of the memory map that later mappings may use, sets up the tables
    and maps the memory below 4 GiB to itself; [mem_va_map] and [mem_va_unmap] hand such ranges
    out and take them back.  The state is the page tables ([Paging]), whose allocator is the
    memory map ([MemMap]), and [unused_va_ranges[]].  The theorems: what [va_init] leaves mapped
    and free, that [mem_va_map] maps fresh addresses and that [mem_va_unmap] undoes it. *)

From stdpp Require Import sorting.
From S2P Require Import Prelude Bparm MemMap Paging.

(** ** State *)

Record va_range_t := { va_start : Z; va_len : Z }.

Definition sizeof_va_range_t : Z := 4 + 4.

Record vm := {
  vm_pg : pgt mem_map;
  unused_va_ranges : list va_range_t;
  max_unused_va_ranges : Z;
}.

Definition vm_map (v : vm) : mem_map := pg_alloc (vm_pg v).

(** ** [va_init] *)

Definition EFI_MEMORY_WT : Z := Z.shiftl 1 2.
Definition EFI_MEMORY_WB : Z := Z.shiftl 1 3.

Definition uefi_attr_to_pte_flags (uefi_attr : Z) : Z :=
  if negb (Z.land uefi_attr EFI_MEMORY_WB =? 0) then 0
  else if negb (Z.land uefi_attr EFI_MEMORY_WT =? 0) then PTE_WT
  else PTE_CD.

(** [(x + PAGE_SIZE - 1) & -(uint64_t)PAGE_SIZE] and [x & -(uint64_t)PAGE_SIZE] *)
Definition page_up64 (x : Z) : Z := Z.land (u64 (x + PAGE_SIZE - 1)) (u64 (- PAGE_SIZE)).
Definition page_down64 (x : Z) : Z := Z.land x (u64 (- PAGE_SIZE)).

(** The first loop of [va_init], from entry [i] on, [n] being [num_mem_ranges - i + 1]; [acc] is
    the array of [mvr] entries filled so far. *)
Fixpoint va_holes (n : nat) (l : list mem_range) (mvr i : Z) (acc : list va_range_t)
    : result (list va_range_t) :=
  match n with
  | O => Ok acc
  | S n =>
      prev ← aget l (i - 1);
      let prev_end := u64 (start prev + len prev) in
      if u64 (prev_end - 1) >=? XM32_MAX_ADDR - 1 then Ok acc
      else
        let prev_end := page_up64 prev_end in
        if u64 (prev_end - 1) >=? XM32_MAX_ADDR - 1 then Ok acc
        else
          let prev_end := if prev_end <? BMEM_MAX_ADDR then BMEM_MAX_ADDR else prev_end in
          start ←
            (if i =? Z.of_nat (length l) then Ok XM32_MAX_ADDR
             else
               r ← aget l i;
               let start := page_down64 (start r) in
               Ok (if start >? XM32_MAX_ADDR then XM32_MAX_ADDR else start));
          if prev_end >=? start then va_holes n l mvr (i + 1) acc
          else if mvr <=? Z.of_nat (length acc) then Fail OutOfBounds
          else va_holes n l mvr (i + 1)
                 (acc ++ [{| va_start := u32 prev_end; va_len := u32 (u32 start - u32 prev_end) |}])
  end.

(** [pdpt[i] = ...] for the directories [i], [i + 1], ..., [i + n - 1]. *)
Fixpoint init_dirs (n : nat) (st : pgt mem_map) (i : Z) : result (pgt mem_map) :=
  match n with
  | O => Ok st
  | S n =>
      '(pd, st) ← alloc_page st;
      let st := set_mem st (fill_words 512 (pg_mem st) pd 0 0) in
      init_dirs n (wr st (pdpt st + 8 * i) (Z.lor (u32 pd) PTE_P)) (i + 1)
  end.

(** [for (i = 1; i < nvr; ++i)]: the memory between one hole and the next. *)
Fixpoint id_map_between (st : pgt mem_map) (prev : va_range_t) (holes : list va_range_t)
    : result (pgt mem_map) :=
  match holes with
  | [] => Ok st
  | h :: holes =>
      let prev_end := u32 (va_start prev + va_len prev) in
      st ← do_va_id_map st prev_end (u32 (va_start h - prev_end)) 0;
      id_map_between st h holes
  end.

(** [while (i < num_mem_ranges && mem_ranges[i].start <= start64) ++i;] *)
Fixpoint skip_starts (n : nat) (l : list mem_range) (start64 i : Z) : Z :=
  match n with
  | O => i
  | S n =>
      match l !! Z.to_nat i with
      | Some r => if start r <=? start64 then skip_starts n l start64 (i + 1) else i
      | None => i
      end
  end.

(** The page-aligned 32-bit range around a memory range that starts below 4 GiB. *)
Definition page_range (start64 len64 : Z) : Z * Z :=
  let start := u32 start64 in
  let len := if len64 >=? XM32_MAX_ADDR - start then u32 (u32 XM32_MAX_ADDR - start) else u32 len64 in
  let len' := if negb (start mod PAGE_SIZE =? 0) then u32 (len + start mod PAGE_SIZE) else len in
  let start' := if negb (start mod PAGE_SIZE =? 0) then Z.land start (u32 (- PAGE_SIZE)) else start in
  let len'' := if negb (len' mod PAGE_SIZE =? 0)
    then Z.land (u32 (len' + PAGE_SIZE - 1)) (u32 (- PAGE_SIZE)) else len' in
  (start', len'').

(** The last loop; every iteration moves [i] on or is one in which the table has grown, and the
    table has at most [max_mem_ranges] entries. *)
Fixpoint attr_loop (fuel : nat) (st : pgt mem_map) (i : Z) : result (pgt mem_map) :=
  match fuel with
  | O => Fail Diverges
  | S fuel =>
      if i <? num_mem_ranges (pg_alloc st) then
        mr ← aget (mem_ranges (pg_alloc st)) i;
        let pte_flags := uefi_attr_to_pte_flags (uefi_attr mr) in
        if pte_flags =? 0 then attr_loop fuel st (i + 1)
        else if start mr >=? XM32_MAX_ADDR then attr_loop fuel st (i + 1)
        else
          st ← do_va_id_map st (page_range (start mr) (len mr)).1 (page_range (start mr) (len mr)).2 pte_flags;
          let l := mem_ranges (pg_alloc st) in
          attr_loop fuel st (skip_starts (length l) l (start mr) i)
      else Ok st
  end.

(** The tables that [va_init] builds before it maps anything. *)
Definition va_tables (s : mem_map) : result (pgt mem_map) :=
  '(p, s) ← mem_alloc s 32 PDPT_ALIGN 0;
  init_dirs 4 {| pg_alloc := s; pg_mem := ∅; pdpt := p |} 0.

Definition va_init (s : mem_map) : result vm :=
  let mvr := max_mem_ranges s in
  '(_, s) ← mem_alloc s (u32 (mvr * sizeof_va_range_t)) 4 0;
  holes ← va_holes (length (mem_ranges s)) (mem_ranges s) mvr 1 [];
  st ← va_tables s;
  first ← aget holes 0;
  mr ← aget (mem_ranges (pg_alloc st)) 0;
  st ← do_va_id_map st 0 (va_start first) (uefi_attr_to_pte_flags (uefi_attr mr));
  st ← id_map_between st first (tail holes);
  st ← attr_loop (S (2 * Z.to_nat (max_mem_ranges s))) st 0;
  Ok {| vm_pg := st; unused_va_ranges := holes; max_unused_va_ranges := mvr |}.

Definition mem_init (ns : list (Z * bparm_t)) : result vm :=
  s ← mem_map_init ns; va_init s.

(** ** [mem_va_map] *)

(** [i = num_unused_va_ranges; while (i-- != 0)]: the last range of at least [sz] bytes. *)
Fixpoint find_unused (l : list va_range_t) (sz : Z) (i : nat) : option (nat * va_range_t) :=
  match i with
  | O => None
  | S i =>
      match l !! i with
      | Some r => if va_len r >=? sz then Some (i, r) else find_unused l sz i
      | None => None
      end
  end.

(** Returns the virtual address. *)
Definition mem_va_map (v : vm) (pa sz pte_flags : Z) : result (Z * vm) :=
  if sz =? 0 then Ok (NULL, v)
  else
    let pstart := page_down64 pa in
    let pend := page_up64 (pa + sz) in
    let sz_to_map := u64 (pend - pstart) in
    if sz_to_map >=? XM32_MAX_ADDR then Fail Hlt
    else
      match find_unused (unused_va_ranges v) sz_to_map (length (unused_va_ranges v)) with
      | None => Fail Hlt
      | Some (i, r) =>
          let vrsz := u32 (va_len r - sz_to_map) in
          let vstart := u32 (va_start r + vrsz) in
          st ← do_va_map (vm_pg v) vstart pstart sz_to_map pte_flags;
          Ok (u32 (vstart + pa mod PAGE_SIZE),
              {| vm_pg := st;
                 unused_va_ranges := <[i := {| va_start := va_start r; va_len := vrsz |}]> (unused_va_ranges v);
                 max_unused_va_ranges := max_unused_va_ranges v |})
      end.

(** ** [mem_va_unmap] *)

(** The loop that gives the range back; [i] counts down. *)
Fixpoint give_back (l : list va_range_t) (max vstart vend sz : Z) (i : nat) : result (list va_range_t) :=
  match i with
  | O => Fail Hlt
  | S i =>
      r ← checked (l !! i);
      if va_start r =? vend then
        Ok (<[i := {| va_start := vstart; va_len := u32 (va_len r + sz) |}]> l)
      else if u32 (va_start r + va_len r) =? vstart then
        Ok (<[i := {| va_start := va_start r; va_len := u32 (va_len r + sz) |}]> l)
      else if va_start r <? vstart then
        if Z.of_nat (length l) =? max then Fail Hlt
        else Ok (take (S i) l ++ [{| va_start := vstart; va_len := sz |}] ++ drop (S i) l)
      else give_back l max vstart vend sz i
  end.

Definition mem_va_unmap (v : vm) (va sz : Z) : result vm :=
  if sz =? 0 then Ok v
  else
    let vstart := Z.land va (u32 (- PAGE_SIZE)) in
    let vend := Z.land (u32 (va + sz + PAGE_SIZE - 1)) (u32 (- PAGE_SIZE)) in
    let sz_to_unmap := u32 (vend - vstart) in
    st ← do_va_unmap (vm_pg v) vstart sz_to_unmap;
    l ← give_back (unused_va_ranges v) (max_unused_va_ranges v) vstart vend sz_to_unmap
          (length (unused_va_ranges v));
    Ok {| vm_pg := st; unused_va_ranges := l; max_unused_va_ranges := max_unused_va_ranges v |}.

(** ** Page arithmetic *)

Lemma pow2_4096 : is_pow2 4096.
Proof. by exists 12. Qed.

Lemma page_down64_eq x : 0 <= x < 2 ^ 64 -> page_down64 x = align_down x 4096.
Proof. intros Hx. unfold page_down64, PAGE_SIZE. apply land_wrap_opp; [done|apply pow2_4096|lia]. Qed.

Lemma page_up64_eq x : 0 <= x -> x + 4095 < 2 ^ 64 -> page_up64 x = align_up x 4096.
Proof.
  intros Hx Hlt. unfold page_up64, PAGE_SIZE. rewrite wrap_small by lia.
  rewrite land_wrap_opp; [done|lia|apply pow2_4096|lia].
Qed.

Lemma page_down32_eq x : 0 <= x < 2 ^ 32 -> Z.land x (u32 (- PAGE_SIZE)) = align_down x 4096.
Proof. intros Hx. unfold PAGE_SIZE. apply land_wrap_opp; [done|apply pow2_4096|lia]. Qed.

(** ** The holes [va_init] finds *)

Definition va_end (h : va_range_t) : Z := va_start h + va_len h.

(** A page-aligned range above base memory and below 4 GiB. *)
Definition va_ok (h : va_range_t) : Prop :=
  (PAGE_SIZE | va_start h) /\ (PAGE_SIZE | va_len h) /\ 0 <= va_len h /\
  BMEM_MAX_ADDR <= va_start h /\ va_end h <= 2 ^ 32.

Definition va_before (x y : va_range_t) : Prop := va_end x <= va_start y.

Definition in_va (l : list va_range_t) (x : Z) : Prop :=
  exists h, h ∈ l /\ in_range (va_start h) (va_len h) x.

Section holes.
Context (l : list mem_range) (mvr : Z).
Hypothesis Hok : Forall range_ok l.
Hypothesis Hsorted : StronglySorted before l.
Hypothesis Hmvr : Z.of_nat (length l) <= mvr.

(** What holds of the holes found before entry [i] is looked at. *)
Record holes_upto (i : Z) (acc : list va_range_t) : Prop := {
  ho_ok : Forall va_ok acc;
  ho_pos : Forall (fun h => 0 < va_len h) acc;
  ho_sorted : StronglySorted va_before acc;
  ho_len : Z.of_nat (length acc) <= i - 1;
  ho_below : forall h r, h ∈ acc -> l !! Z.to_nat (i - 1) = Some r -> va_end h <= start r;
  ho_free : forall h r x, h ∈ acc -> r ∈ l -> in_range (va_start h) (va_len h) x -> ~ in_range (start r) (len r) x;
}.

(** The page at [p] meets no entry. *)
Definition page_free (p : Z) : Prop :=
  forall r x, r ∈ l -> p <= x < p + PAGE_SIZE -> ~ in_range (start r) (len r) x.

Definition holes_found (acc : list va_range_t) (i : Z) : Prop :=
  forall p r, (PAGE_SIZE | p) -> BMEM_MAX_ADDR <= p -> p + PAGE_SIZE <= 2 ^ 32 -> page_free p ->
    l !! Z.to_nat (i - 1) = Some r -> start r <= p -> in_va acc p.

(** The hole between entry [i - 1] and the next entry, or 4 GiB. *)
Definition hole_start (prev : mem_range) : Z := Z.max (align_up (range_end prev) 4096) BMEM_MAX_ADDR.

Definition hole_end (i : Z) : Z :=
  match l !! Z.to_nat i with
  | Some r => Z.min (align_down (start r) 4096) XM32_MAX_ADDR
  | None => XM32_MAX_ADDR
  end.

Definition hole_at (prev : mem_range) (i : Z) : va_range_t :=
  {| va_start := hole_start prev; va_len := hole_end i - hole_start prev |}.

(** One iteration, the arithmetic done. *)
Lemma va_holes_step n i acc prev :
  1 <= i -> l !! Z.to_nat (i - 1) = Some prev -> Z.of_nat (length acc) <= i - 1 ->
  va_holes (S n) l mvr i acc =
    if align_up (range_end prev) 4096 >=? XM32_MAX_ADDR then Ok acc
    else if hole_start prev >=? hole_end i then va_holes n l mvr (i + 1) acc
    else va_holes n l mvr (i + 1) (acc ++ [hole_at prev i]).
Proof.
  intros Hi Hprev Hacc. cbn [va_holes]. destruct (ok_lookup _ _ _ Hok Hprev) as (H0 & Hl & He).
  rewrite (proj2 (aget_Ok l (i - 1) prev)) by (split; [lia|done]). cbn [mbind result_bind].
  unfold range_end in *. set (e := start prev + len prev) in *.
  pose proof (align_up_ge e 4096 ltac:(lia)) as Hge. pose proof (align_up_lt e 4096 ltac:(lia)) as Hlt.
  unfold XM32_MAX_ADDR. destruct (decide (e < 0x100000000)) as [Hlow|Hhigh]; cycle 1.
  { destruct (Z.geb_spec (align_up e 4096) 0x100000000); [|lia].
    destruct (decide (e = 2 ^ 64)) as [->|].
    - done.
    - rewrite (wrap_small 64 e), (wrap_small 64 (e - 1)) by lia.
      by destruct (Z.geb_spec (e - 1) (0x100000000 - 1)); [|lia]. }
  rewrite (wrap_small 64 e), (wrap_small 64 (e - 1)) by lia.
  destruct (Z.geb_spec (e - 1) (0x100000000 - 1)); [lia|].
  rewrite page_up64_eq by lia. rewrite (wrap_small 64 (align_up e 4096 - 1)) by lia.
  destruct (Z.geb_spec (align_up e 4096 - 1) (0x100000000 - 1)), (Z.geb_spec (align_up e 4096) 0x100000000); try lia; [done|].
  assert (Es : (if align_up e 4096 <? BMEM_MAX_ADDR then BMEM_MAX_ADDR else align_up e 4096) = hole_start prev).
  { unfold hole_start, range_end. fold e. destruct (Z.ltb_spec (align_up e 4096) BMEM_MAX_ADDR); lia. }
  rewrite Es. assert (Ee : (if i =? Z.of_nat (length l) then Ok 0x100000000
     else r ← aget l i; Ok (if page_down64 (start r) >? 0x100000000 then 0x100000000 else page_down64 (start r)))
     = Ok (hole_end i) \/ l !! Z.to_nat i = None /\ i <> Z.of_nat (length l)).
  { unfold hole_end. destruct (Z.eqb_spec i (Z.of_nat (length l))) as [->|Hne].
    - left. by rewrite Nat2Z.id, lookup_ge_None_2.
    - destruct (l !! Z.to_nat i) as [r|] eqn:Er; [|by right]. left.
      rewrite (proj2 (aget_Ok l i r)) by (split; [lia|done]). cbn [mbind result_bind].
      destruct (ok_lookup _ _ _ Hok Er) as (? & ? & ?). unfold range_end in *.
      rewrite page_down64_eq by lia. unfold XM32_MAX_ADDR. f_equal.
      destruct (Z.gtb_spec (align_down (start r) 4096) 0x100000000); lia. }
  destruct Ee as [Ee|[Hn Hne]]; cycle 1.
  { exfalso. apply lookup_ge_None_1 in Hn. apply lookup_lt_Some in Hprev. lia. }
  rewrite Ee. cbn [mbind result_bind]. destruct (Z.geb_spec (hole_start prev) (hole_end i)) as [|Hgt]; [done|].
  assert (Hhe : hole_end i <= 0x100000000) by (unfold hole_end, XM32_MAX_ADDR; destruct (l !! Z.to_nat i); lia).
  assert (Hhs : 0 < hole_start prev) by (unfold hole_start, BMEM_MAX_ADDR; lia).
  destruct (Z.leb_spec mvr (Z.of_nat (length acc))); [apply lookup_lt_Some in Hprev; lia|].
  assert (Ew : u32 (u32 (hole_end i) - hole_start prev) = hole_end i - hole_start prev).
  { unfold wrap. rewrite Zminus_mod_idemp_l. apply Z.mod_small. lia. }
  by rewrite (wrap_small 32 (hole_start prev)), Ew by lia.
Qed.

Lemma hole_bounds prev i :
  1 <= i -> l !! Z.to_nat (i - 1) = Some prev -> hole_start prev < hole_end i ->
  va_ok (hole_at prev i) /\ start prev <= hole_start prev /\
  (forall r, l !! Z.to_nat i = Some r -> hole_end i <= start r) /\
  (forall r x, r ∈ l -> in_range (hole_start prev) (hole_end i - hole_start prev) x -> ~ in_range (start r) (len r) x).
Proof.
  intros Hi Hprev Hlt. destruct (ok_lookup _ _ _ Hok Hprev) as (H0 & Hl & He). unfold range_end in *.
  pose proof (align_up_ge (start prev + len prev) 4096 ltac:(lia)) as Hge.
  assert (Hsd : (4096 | hole_start prev)).
  { unfold hole_start. destruct (Z.max_spec (align_up (range_end prev) 4096) BMEM_MAX_ADDR) as [[_ ->]|[_ ->]].
    - by exists 256.
    - apply align_down_divide. }
  assert (Hed : (4096 | hole_end i)).
  { unfold hole_end, XM32_MAX_ADDR. destruct (l !! Z.to_nat i) as [r|]; [|by exists 1048576].
    destruct (Z.min_spec (align_down (start r) 4096) 0x100000000) as [[_ ->]|[_ ->]];
      [apply align_down_divide|by exists 1048576]. }
  assert (Hnext : forall r, l !! Z.to_nat i = Some r -> hole_end i <= start r).
  { intros r Hr. unfold hole_end. rewrite Hr. pose proof (align_down_le (start r) 4096 ltac:(lia)). lia. }
  split_and!; [|unfold hole_start, range_end; lia|done|].
  - unfold va_ok, va_end, PAGE_SIZE. cbn. split_and!; [done|by apply Z.divide_sub_r|lia|unfold hole_start; lia|].
    unfold hole_end, XM32_MAX_ADDR. destruct (l !! Z.to_nat i); lia.
  - intros r x Hr Hx Hin. unfold in_range, hole_start, range_end in *.
    apply list_elem_of_lookup in Hr as [j Hj]. destruct (decide (j <= Z.to_nat (i - 1))%nat).
    + pose proof (ends_mono l j (Z.to_nat (i - 1)) r prev Hok Hsorted ltac:(done) Hj Hprev). unfold range_end in *. lia.
    + destruct (lookup_lt_is_Some_2 l (Z.to_nat i)) as [q Hq]; [apply lookup_lt_Some in Hj; lia|].
      specialize (Hnext q Hq). destruct (decide (j = Z.to_nat i)) as [->|]; [simplify_eq; lia|].
      destruct (ok_lookup _ _ _ Hok Hq) as (? & ? & ?).
      destruct (before_lookup l (Z.to_nat i) j q r Hsorted ltac:(lia) Hq Hj) as [?|[? _]]; unfold range_end in *; lia.
Qed.

Lemma holes_upto_skip i acc :
  1 <= i -> holes_upto i acc -> holes_upto (i + 1) acc.
Proof.
  intros Hi [Hvok Hpos ? Hlen Hbelow ?]. split; [done..|lia| |done].
  intros h r Hh Hr. destruct (lookup_lt_is_Some_2 l (Z.to_nat (i - 1))) as [prev Hprev].
  { apply lookup_lt_Some in Hr. lia. }
  specialize (Hbelow h prev Hh Hprev). rewrite Forall_forall in Hpos, Hvok. specialize (Hpos h Hh).
  destruct (Hvok h Hh) as (_ & _ & _ & ? & _). destruct (ok_lookup _ _ _ Hok Hprev) as (? & ? & ?). unfold va_end in *.
  destruct (before_lookup l (Z.to_nat (i - 1)) (Z.to_nat (i + 1 - 1)) prev r Hsorted ltac:(lia) Hprev Hr) as [?|[? _]];
    unfold range_end in *; lia.
Qed.

Lemma holes_upto_push i acc prev :
  1 <= i -> l !! Z.to_nat (i - 1) = Some prev -> holes_upto i acc -> hole_start prev < hole_end i ->
  holes_upto (i + 1) (acc ++ [hole_at prev i]).
Proof.
  intros Hi Hprev Hacc Hlt. destruct (holes_upto_skip i acc Hi Hacc) as [_ _ _ _ Hbelow' _].
  destruct Hacc as [Hok' Hpos Hs Hlen Hbelow Hfree].
  destruct (hole_bounds prev i Hi Hprev Hlt) as (Hv & Hsp & Hnext & Hnf).
  split.
  - apply Forall_app. split; [done|]. by apply Forall_singleton.
  - apply Forall_app. split; [done|]. apply Forall_singleton. cbn. lia.
  - apply StronglySorted_app. split_and!; [|done|repeat constructor].
    intros x y Hx ->%list_elem_of_singleton. specialize (Hbelow x prev Hx Hprev). unfold va_before. cbn. lia.
  - rewrite length_app. cbn. lia.
  - intros h r [Hh| ->%list_elem_of_singleton]%elem_of_app Hr; [by apply Hbelow'|].
    unfold va_end. cbn. replace (i + 1 - 1) with i in Hr by lia. specialize (Hnext r Hr). lia.
  - intros h r x [Hh| ->%list_elem_of_singleton]%elem_of_app Hr Hx; [by eapply Hfree|]. by apply (Hnf r).
Qed.

Lemma holes_found_here i prev p :
  1 <= i -> l !! Z.to_nat (i - 1) = Some prev -> start prev <= p -> (PAGE_SIZE | p) -> BMEM_MAX_ADDR <= p ->
  p + PAGE_SIZE <= 2 ^ 32 -> page_free p ->
  align_up (range_end prev) 4096 <= p /\
  ((exists r, l !! Z.to_nat i = Some r /\ start r <= p) \/ hole_start prev <= p < hole_end i).
Proof.
  intros Hi Hprev Hp Hpa Hpb Hp32 Hfree. unfold PAGE_SIZE in *.
  destruct (ok_lookup _ _ _ Hok Hprev) as (H0 & Hl & He).
  assert (Hge : range_end prev <= p).
  { destruct (decide (range_end prev <= p)); [done|]. exfalso.
    apply (Hfree prev p); [by eapply list_elem_of_lookup_2|unfold PAGE_SIZE; lia|unfold in_range, range_end in *; lia]. }
  assert (Hup : align_up (range_end prev) 4096 <= p).
  { destruct Hpa as [c ->]. unfold align_up, align_down. dlia. }
  split; [done|]. unfold hole_end. destruct (l !! Z.to_nat i) as [r|] eqn:Er; cycle 1.
  { right. unfold hole_start, XM32_MAX_ADDR. lia. }
  destruct (decide (start r <= p)) as [Hr|Hr]; [left; by exists r|right].
  destruct (ok_lookup _ _ _ Hok Er) as (? & ? & ?).
  assert (Hnext : p + 4096 <= start r).
  { destruct (decide (p + 4096 <= start r)); [done|]. exfalso.
    apply (Hfree r (start r)); [by eapply list_elem_of_lookup_2|unfold PAGE_SIZE; lia|unfold in_range; lia]. }
  assert (p + 4096 <= align_down (start r) 4096) by (destruct Hpa as [c ->]; unfold align_down; dlia).
  unfold hole_start, XM32_MAX_ADDR. lia.
Qed.

Lemma va_holes_spec n i acc :
  1 <= i -> i + Z.of_nat n = Z.of_nat (length l) + 1 -> holes_upto i acc ->
  exists res, va_holes n l mvr i acc = Ok res /\ (exists k, acc `prefix_of` res /\ holes_upto k res /\ k <= Z.of_nat (length l) + 1) /\
    holes_found res i.
Proof.
  revert i acc. induction n as [|n IH]; intros i acc Hi Hn Hacc.
  { exists acc. split; [done|]. split.
    - exists i. split_and!; [done|done|lia].
    - intros p r _ _ _ _ Hr%lookup_lt_Some. lia. }
  destruct (lookup_lt_is_Some_2 l (Z.to_nat (i - 1)) ltac:(lia)) as [prev Hprev].
  rewrite (va_holes_step n i acc prev Hi Hprev (ho_len _ _ Hacc)).
  destruct (Z.geb_spec (align_up (range_end prev) 4096) XM32_MAX_ADDR) as [Hbig|_].
  { exists acc. split; [done|]. split; [exists i; split_and!; [done|done|lia]|].
    intros p r Hpa Hpb Hp32 Hfree Hr Hp. simplify_eq.
    destruct (holes_found_here i prev p Hi Hprev Hp Hpa Hpb Hp32 Hfree) as [Hle _].
    unfold XM32_MAX_ADDR, PAGE_SIZE in *. lia. }
  assert (Hgo : forall acc', acc `prefix_of` acc' -> holes_upto (i + 1) acc' ->
    (forall p, hole_start prev <= p < hole_end i -> in_va acc' p) ->
    exists res, va_holes n l mvr (i + 1) acc' = Ok res /\
      (exists k, acc `prefix_of` res /\ holes_upto k res /\ k <= Z.of_nat (length l) + 1) /\ holes_found res i).
  { intros acc' Hpre Hacc' Hin.
    destruct (IH (i + 1) acc' ltac:(lia) ltac:(lia) Hacc') as (res & E & (k & Hpre' & Hk & Hkl) & Hf).
    exists res. split; [done|]. split; [exists k; split_and!; [by etransitivity|done|done]|].
    intros p r Hpa Hpb Hp32 Hfree Hr Hp. simplify_eq.
    destruct (holes_found_here i prev p Hi Hprev Hp Hpa Hpb Hp32 Hfree) as [_ [(r & Hr & Hrp)|Hp']].
    - apply (Hf p r Hpa Hpb Hp32 Hfree); [by replace (i + 1 - 1) with i by lia|done].
    - destruct (Hin p Hp') as (h & Hh & Hx). exists h. split; [|done].
      destruct Hpre' as [tl ->]. apply elem_of_app. by left. }
  destruct (Z.geb_spec (hole_start prev) (hole_end i)) as [Hempty|Hlt].
  - apply Hgo; [done|by apply holes_upto_skip|]. intros p Hp. lia.
  - apply Hgo; [by eexists|by apply holes_upto_push|]. intros p Hp. exists (hole_at prev i).
    split; [apply elem_of_app; right; by left|]. unfold in_range. cbn. lia.
Qed.
End holes.

(** ** The empty tables *)

Lemma map_limit : alc_limit (S := mem_map) <= 2 ^ 32.
Proof. cbn. unfold XM32_MAX_ADDR. lia. Qed.

(** Every directory entry is blank. *)
Definition blank_dirs (st : pgt mem_map) (rl : gmap Z role) : Prop :=
  forall i j p, rl !! p = Some (RPd i) -> 0 <= j < 512 -> pg_mem st !! (p + 8 * j) = Some 0.

Lemma dir_entry pd : (4096 | pd) -> 0 <= pd < 2 ^ 32 -> Z.lor (u32 pd) PTE_P = pd + 1.
Proof. intros Hd Hr. rewrite wrap_small by lia. by apply (lor_entry pd 1). Qed.

Lemma add_dir n st rl pd st1 :
  0 <= n < 4 -> dirs (n := n) st rl -> blank_dirs st rl -> alloc_page st = Ok (pd, st1) ->
  let st2 := wr (set_mem st1 (fill_words 512 (pg_mem st1) pd 0 0)) (pdpt st1 + 8 * n) (Z.lor (u32 pd) PTE_P) in
  exists rl', dirs (n := n + 1) st2 rl' /\ blank_dirs st2 rl' /\ pdpt st2 = pdpt st.
Proof.
  intros Hn Ht Hb E st2. pose proof Ht as [Ha Hpage Hpdpt Hpd Hpde Hpte].
  destruct (alloc_page_spec map_limit _ _ _ _ Ht E) as (Hnone & Hal & H0 & Hlt & Hmem & Epdpt & Hinv & _ & Hused & Hfree).
  exists (<[pd := RPd n]> rl).
  destruct (pdpt_word st rl n Ht Hn) as (kn & Hkn & Ekn).
  (* words of the old pages are not in the new one, nor the PDPT entry written *)
  assert (Hout : forall q j r, rl !! q = Some r -> 0 <= j < 512 -> r <> RPdpt -> pg_mem st2 !! (q + 8 * j) = pg_mem st !! (q + 8 * j)).
  { intros q j r Hq Hj Hr. cbn. rewrite lookup_insert_ne.
    - rewrite Hmem. apply fill_words_out. destruct (t_aligned _ _ _ _ Ht Hq) as [[b ->] _]. destruct Hal as [c ->].
      assert (b <> c) by (intros ->; congruence). lia.
    - rewrite Epdpt. by eapply pdpt_ne. }
  assert (Hnew : forall j, 0 <= j < 512 -> pg_mem st2 !! (pd + 8 * j) = Some 0).
  { intros j Hj. cbn. rewrite lookup_insert_ne.
    - rewrite fill_words_in by lia. done.
    - rewrite Epdpt, Ekn. intros E'.
      destruct (t_aligned _ _ _ _ Ht (proj2 Hpdpt)) as [Hal' _].
      destruct (word_inj _ _ _ _ Hal' Hal Hkn Hj E') as [Ep _]. rewrite Ep in Hpdpt. destruct Hpdpt. congruence. }
  assert (Hrl : forall q r, <[pd := RPd n]> rl !! q = Some r -> (q = pd /\ r = RPd n) \/ rl !! q = Some r).
  { intros q r. rewrite lookup_insert_Some. naive_solver. }
  assert (Hsub : rl ⊆ <[pd := RPd n]> rl) by by apply insert_subseteq.
  assert (Hbl : blank_dirs st2 (<[pd := RPd n]> rl)).
  { intros i j p [[-> _]|Hp]%Hrl Hj; [by apply Hnew|]. rewrite (Hout p j _ Hp Hj) by done. by eapply Hb. }
  split_and!; [|done|done]. split; cbn [pg_alloc pdpt set_mem wr st2]; rewrite ?Epdpt; try done.
  - intros q r [[-> ->]|Hq]%Hrl.
    + split_and!; [done|done|done|]. exists pd. split; [unfold in_range; lia|done].
    + destruct (Hpage q r Hq) as (? & ? & ? & x & ? & ?). split_and!; [done..|]. exists x. auto.
  - split; [apply Hpdpt|]. by eapply lookup_weaken; [apply Hpdpt|].
  - intros i Hi. destruct (decide (i = n)) as [->|].
    + exists pd. rewrite lookup_insert_eq. split; [|done]. cbn. rewrite Epdpt, lookup_insert_eq.
      by rewrite dir_entry by (done || lia).
    + destruct (Hpd i ltac:(lia)) as (p & Hp & Hr). exists p. split; [|by eapply lookup_weaken].
      cbn. rewrite Epdpt, lookup_insert_ne by lia. rewrite Hmem, fill_words_out; [done|].
      destruct (pdpt_word st rl i Ht ltac:(lia)) as (k & Hk & ->).
      destruct (t_aligned _ _ _ _ Ht (proj2 Hpdpt)) as [[b Eb] _]. rewrite Eb in *. destruct Hal as [c ->].
      assert (b <> c) by (intros ->; destruct Hpdpt; congruence). lia.
  - intros i j p Hj Hp. exists 0. split; [by eapply Hbl|by apply PdeNone].
  - intros s k q Hk [[_ ?]|Hq]%Hrl; [done|]. rewrite (Hout q k _ Hq Hk) by done. by eapply Hpte.
Qed.

Lemma init_dirs_spec n st rl i :
  0 <= i -> i + Z.of_nat n = 4 -> dirs (n := i) st rl -> blank_dirs st rl ->
  match init_dirs n st i with
  | Ok st' => exists rl', tables st' rl' /\ blank_dirs st' rl' /\ alc_reach (pg_alloc st) (pg_alloc st')
  | Fail f => exists s, alc_reach (pg_alloc st) s /\ mem_alloc s PAGE_SIZE PAGE_SIZE 0 = Fail f
  end.
Proof.
  revert st rl i. induction n as [|n IH]; intros st rl i Hi Hn Ht Hb; cbn [init_dirs].
  { replace i with 4 in Ht by lia. exists rl. split_and!; [done|done|apply rtc_refl]. }
  destruct (alloc_page st) as [[pd st1]|f] eqn:E; cbn [mbind result_bind].
  - destruct (add_dir i st rl pd st1 ltac:(lia) Ht Hb E) as (rl' & Ht' & Hb' & _).
    destruct (alloc_page_spec map_limit _ _ _ _ Ht E) as (_ & _ & _ & _ & _ & _ & _ & Hreach & _).
    specialize (IH _ rl' (i + 1) ltac:(lia) ltac:(lia) Ht' Hb').
    destruct (init_dirs n _ (i + 1)) as [st'|f].
    + destruct IH as (rl2 & ? & ? & ?). exists rl2. split_and!; [done|done|by etransitivity].
    + destruct IH as (s & ? & ?). exists s. split; [by etransitivity|done].
  - exists (pg_alloc st). split; [apply rtc_refl|]. unfold alloc_page in E.
    change (alc_alloc (pg_alloc st) PAGE_SIZE PAGE_SIZE) with (mem_alloc (pg_alloc st) PAGE_SIZE PAGE_SIZE 0) in E.
    destruct (mem_alloc (pg_alloc st) PAGE_SIZE PAGE_SIZE 0) as [[? ?]|]; cbn [mbind result_bind] in E; congruence.
Qed.

Lemma page_req_ok : 0 < PAGE_SIZE /\ is_pow2 PAGE_SIZE /\ PAGE_SIZE <= 4096.
Proof. split_and!; [done|by exists 12|done]. Qed.

Lemma alc_reach_mem (s s' : mem_map) : alc_reach s s' -> mem_reach s s'.
Proof.
  intros H. induction H as [s|s s1 s2 (p & E) _ IH]; [apply rtc_refl|].
  eapply rtc_l; [|exact IH]. exists PAGE_SIZE, PAGE_SIZE, p. destruct page_req_ok as (? & ? & ?). by split_and!.
Qed.

(** A page allocation, after the ones already made, that fails with [f]. *)
Definition no_page (s : mem_map) (f : failure) : Prop :=
  exists s' sz al, mem_reach s s' /\ 0 < sz /\ is_pow2 al /\ al <= 4096 /\ mem_alloc s' sz al 0 = Fail f.

Lemma no_page_reach s s' f : mem_reach s s' -> no_page s' f -> no_page s f.
Proof. intros H (s2 & sz & al & H2 & E). exists s2, sz, al. split; [by etransitivity|done]. Qed.

(** Memory that has run out is noticed in one of two ways (finding in [MemMap]). *)
Lemma no_page_failure s f : alloc_ready s -> no_page s f -> f = Hlt \/ f = OutOfBounds.
Proof.
  intros Hs (s' & sz & al & Hreach & Hsz & Hal & Hle & E).
  destruct (mem_reach_facts s s' Hs Hreach) as (Hs' & _).
  exact (mem_alloc_failure s' sz al 0 f Hs' Hsz Hal Hle ltac:(by left) E).
Qed.

Lemma tables_ready (st : pgt mem_map) rl : tables st rl -> alloc_ready (pg_alloc st).
Proof. intros H. exact (t_alloc _ _ H). Qed.

(** ** [va_tables]: nothing is mapped *)

Lemma blank_translate st rl x : tables st rl -> blank_dirs st rl -> 0 <= x < 2 ^ 32 -> translate st x = None.
Proof.
  intros Ht Hb Hx. destruct (slot_exists _ _ x Ht Hx) as (p & e & Hs).
  rewrite (slot_translate _ _ _ _ _ Ht Hs). destruct Hs as [_ Hr He _].
  destruct (slot_range x Hx) as [_ Hj]. rewrite (Hb _ _ _ Hr Hj) in He. by simplify_eq.
Qed.

Lemma va_tables_spec s :
  alloc_ready s ->
  match va_tables s with
  | Ok st => exists rl, tables st rl /\ mem_reach s (pg_alloc st) /\
      forall x, 0 <= x < 2 ^ 32 -> translate st x = None
  | Fail f => no_page s f
  end.
Proof.
  intros Hs. unfold va_tables. destruct (mem_alloc s 32 PDPT_ALIGN 0) as [[p s1]|f] eqn:E; cbn [mbind result_bind];
    [|exists s, 32, PDPT_ALIGN; split_and!; [apply rtc_refl|lia|by exists 5|unfold PDPT_ALIGN; lia|done]].
  assert (Hstep : mem_step s s1).
  { exists 32, PDPT_ALIGN, p. split_and!; [lia|by exists 5|unfold PDPT_ALIGN; lia|done]. }
  destruct (mem_step_facts s s1 Hs Hstep) as (Hs1 & _).
  destruct (@alc_alloc_block mem_map mem_map_allocator mem_map_allocator_laws s 32 32 p s1 Hs
    ltac:(lia) ltac:(by exists 5) ltac:(lia) E) as (Hp & Hlim & Hal & Hblk). cbn in Hp.
  set (st0 := {| pg_alloc := s1; pg_mem := ∅; pdpt := p |}).
  assert (Hpal : (4096 | align_down p 4096)) by apply align_down_divide.
  pose proof (align_down_le p 4096 ltac:(lia)). pose proof (align_down_gt p 4096 ltac:(lia)).
  pose proof (align_down_nonneg p 4096 ltac:(lia) ltac:(lia)).
  assert (Ht : dirs (n := 0) st0 {[align_down p 4096 := RPdpt]}).
  { split; cbn.
    - exact Hs1.
    - intros q r [<- <-]%lookup_singleton_Some. split_and!; [done|lia| |].
      + cbn in Hlim. unfold XM32_MAX_ADDR in Hlim. destruct Hpal as [c Ec]. lia.
      + exists p. split; [unfold in_range; lia|]. apply Hblk. unfold in_range. lia.
    - split; [done|]. apply lookup_singleton_eq.
    - lia.
    - intros i j q _ [_ ?]%lookup_singleton_Some. done.
    - intros k q r _ [_ ?]%lookup_singleton_Some. done. }
  pose proof (init_dirs_spec 4 st0 _ 0 ltac:(lia) ltac:(lia) Ht) as H4.
  destruct (init_dirs 4 st0 0) as [st|f].
  - destruct H4 as (rl & Htab & Hb & Hreach). { intros i j q [_ ?]%lookup_singleton_Some. done. }
    exists rl. split_and!; [done|eapply rtc_l; [done|by apply alc_reach_mem]|].
    intros x. by apply (blank_translate _ rl).
  - destruct H4 as (s' & Hreach & Ef). { intros i j q [_ ?]%lookup_singleton_Some. done. }
    exists s', PAGE_SIZE, PAGE_SIZE. split_and!;
      [eapply rtc_l; [done|by apply alc_reach_mem]|unfold PAGE_SIZE; lia|exact pow2_4096|unfold PAGE_SIZE; lia|done].
Qed.

(** ** Identity mappings *)

Lemma uefi_flags_ok a : flags_ok (uefi_attr_to_pte_flags a).
Proof.
  unfold uefi_attr_to_pte_flags, flags_ok, PTE_WT, PTE_CD.
  destruct (negb _); [by left|]. destruct (negb _); auto.
Qed.

Lemma do_va_id_map_spec (st : pgt mem_map) rl a n f :
  tables st rl -> 0 <= a -> a + n <= 2 ^ 32 -> (PAGE_SIZE | a) -> (PAGE_SIZE | n) -> 0 <= n -> flags_ok f ->
  match do_va_id_map st a n f with
  | Ok st' => exists rl', tables st' rl' /\ mem_reach (pg_alloc st) (pg_alloc st') /\
      forall x, 0 <= x < 2 ^ 32 ->
        translate st' x = if decide (a <= x < a + n) then Some (x, 6 + f) else translate st x
  | Fail e => no_page (pg_alloc st) e
  end.
Proof.
  intros Ht Ha Han Hal Hnl Hn Hf. unfold do_va_id_map.
  pose proof (do_va_map_spec map_limit st rl a a n f Ht Ha Han Ha ltac:(lia) Hal Hal Hnl Hn Hf) as H.
  destruct (do_va_map st a a n f) as [st'|e].
  - destruct H as (rl' & Ht' & _ & Hreach & _ & Hm). exists rl'. split_and!; [done|by apply alc_reach_mem|].
    intros x Hx. rewrite Hm by done. case_decide; [|done]. do 2 f_equal. lia.
  - destruct H as (s & Hreach & E). exists s, PAGE_SIZE, PAGE_SIZE. split_and!; [by apply alc_reach_mem|unfold PAGE_SIZE; lia|exact pow2_4096|unfold PAGE_SIZE; lia|done].
Qed.

(** ** The memory between the holes *)

Lemma va_before_trans_in (h : va_range_t) hs x :
  StronglySorted va_before (h :: hs) -> Forall va_ok (h :: hs) -> in_va hs x -> va_end h <= x.
Proof.
  intros [Hh _]%StronglySorted_cons _ (k & Hk & Hx). rewrite Forall_forall in Hh. specialize (Hh k Hk).
  unfold va_before, in_range in *. lia.
Qed.

Lemma id_map_between_spec (st : pgt mem_map) rl prev holes :
  tables st rl -> StronglySorted va_before (prev :: holes) -> Forall va_ok (prev :: holes) ->
  Forall (fun h => 0 < va_len h) holes ->
  match id_map_between st prev holes with
  | Ok st' => exists rl', tables st' rl' /\ mem_reach (pg_alloc st) (pg_alloc st') /\
      (forall x, 0 <= x < 2 ^ 32 -> va_end prev <= x -> (exists h, h ∈ holes /\ x < va_start h) -> ~ in_va holes x ->
        translate st' x = Some (x, 6)) /\
      (forall x, 0 <= x < 2 ^ 32 -> x < va_end prev \/ in_va holes x \/ (forall h, h ∈ holes -> va_end h <= x) ->
        translate st' x = translate st x)
  | Fail f => no_page (pg_alloc st) f
  end.
Proof.
  revert st rl prev. induction holes as [|h holes IH]; intros st rl prev Ht Hs Hok Hpos; cbn [id_map_between].
  { exists rl. split_and!; [done|apply rtc_refl| |done]. by intros x _ _ (h & []%not_elem_of_nil & _). }
  pose proof Hs as [Hph Hs']%StronglySorted_cons. pose proof Hs' as [Hhh _]%StronglySorted_cons.
  pose proof Hok as [Hpo [Hho Hoo]%Forall_cons]%Forall_cons. apply Forall_cons in Hpos as [Hhp Hpos].
  pose proof Hph as [Hb _]%Forall_cons. unfold va_before in Hb.
  destruct Hpo as (Hpa & Hpl & Hpn & Hp0 & Hpe). pose proof Hho as (Hha & Hhl & Hhn & Hh0 & Hhe).
  assert (Hbm : 0 < BMEM_MAX_ADDR) by (unfold BMEM_MAX_ADDR; lia).
  assert (Hend : va_end prev < 2 ^ 32) by (unfold va_end in *; lia).
  assert (Ee : u32 (va_start prev + va_len prev) = va_end prev) by (apply wrap_small; unfold va_end in *; lia).
  rewrite Ee. rewrite (wrap_small 32 (va_start h - va_end prev)) by (unfold va_end in *; lia).
  assert (Hea : (PAGE_SIZE | va_end prev)) by (unfold va_end; by apply Z.divide_add_r).
  pose proof (do_va_id_map_spec st rl (va_end prev) (va_start h - va_end prev) 0 Ht ltac:(unfold va_end in *; lia)
    ltac:(unfold va_end in *; lia) Hea (Z.divide_sub_r _ _ _ Hha Hea) ltac:(lia) ltac:(by left)) as Hm.
  destruct (do_va_id_map st _ _ 0) as [st1|e]; cbn [mbind result_bind]; [|done].
  destruct Hm as (rl1 & Ht1 & Hreach & Hm).
  specialize (IH st1 rl1 h Ht1 Hs' ltac:(by constructor) Hpos).
  destruct (id_map_between st1 h holes) as [st2|f]; [|by eapply no_page_reach].
  destruct IH as (rl2 & Ht2 & Hreach2 & Hin & Hout). exists rl2. split_and!; [done|by etransitivity|..].
  - intros x Hx Hxp (k & Hk & Hxk) Hnin.
    destruct (decide (x < va_start h)).
    { rewrite Hout by (try done; left; unfold va_end; lia). rewrite Hm by done. by rewrite decide_True by lia. }
    assert (Hxe : va_end h <= x).
    { destruct (decide (va_end h <= x)); [done|]. exfalso. apply Hnin. exists h.
      split; [by left|unfold in_range, va_end in *; lia]. }
    apply Hin; [done|done| |].
    + apply elem_of_cons in Hk as [->|Hk]; [lia|by exists k].
    + intros (k' & ? & ?). apply Hnin. exists k'. split; [by right|done].
  - intros x Hx Hcase.
    assert (Hcase' : x < va_end h \/ in_va holes x \/ forall k, k ∈ holes -> va_end k <= x).
    { destruct Hcase as [?|[(k & [->|Hk]%elem_of_cons & Hkx)|Hall]].
      - left. unfold va_end in *. lia.
      - left. unfold in_range, va_end in *. lia.
      - right. left. by exists k.
      - right. right. intros k Hk. apply Hall. by right. }
    rewrite Hout, Hm by done. apply decide_False. intros [Hge Hlt].
    destruct Hcase as [?|[(k & [->|Hk]%elem_of_cons & Hkx)|Hall]].
    + lia.
    + unfold in_range in Hkx. lia.
    + rewrite Forall_forall in Hhh. specialize (Hhh k Hk). unfold va_before, va_end, in_range in *. lia.
    + specialize (Hall h ltac:(by left)). unfold va_end in *. lia.
Qed.

(** ** The cacheability of the memory ranges *)

(** [x] shares a page with a byte of the memory map. *)
Definition covered_page (s : mem_map) (x : Z) : Prop := exists y, covered s y /\ y / 4096 = x / 4096.

Lemma page_range_spec a n :
  0 <= a < 2 ^ 32 -> 0 < n -> a + n <= 2 ^ 64 ->
  let '(s, m) := page_range a n in
  (PAGE_SIZE | s) /\ (PAGE_SIZE | m) /\ 0 <= s /\ 0 <= m /\ s + m <= 2 ^ 32 /\
  forall x, s <= x < s + m -> exists y, in_range a n y /\ y / 4096 = x / 4096.
Proof.
  intros Ha Hn Han. unfold page_range. rewrite (wrap_small 32 a) by done. unfold XM32_MAX_ADDR, PAGE_SIZE.
  set (l0 := if n >=? 0x100000000 - a then u32 (u32 0x100000000 - a) else u32 n).
  assert (Hl0 : l0 = 0 \/ (0 <= l0 < 2 ^ 32 /\ 0 < l0 /\ a + l0 <= 2 ^ 32 /\ l0 <= n)).
  { unfold l0, wrap. destruct (Z.geb_spec n (0x100000000 - a)).
    - change (0x100000000 mod 2 ^ 32) with 0. destruct (decide (a = 0)) as [->|]; [by left|].
      right. replace ((0 - a) mod 2 ^ 32) with (2 ^ 32 - a) by (change (2 ^ 32) with 0x100000000; dlia). lia.
    - right. rewrite Z.mod_small by lia. lia. }
  clearbody l0. set (d := a mod 4096). assert (Hd : 0 <= d < 4096) by (unfold d; dlia).
  (* after the start is rounded down *)
  set (l1 := if negb (d =? 0) then u32 (l0 + d) else l0).
  assert (Es : (if negb (d =? 0) then Z.land a (u32 (- (4096))) else a) = a - d).
  { destruct (Z.eqb_spec d 0); cbn [negb]; [lia|]. by apply page_down32_eq. }
  rewrite Es.
  assert (Hl1 : l1 = 0 \/ (0 < l1 < 2 ^ 32 /\ a - d + l1 <= 2 ^ 32 /\ (l1 = d \/ a - d + l1 <= a + n))).
  { unfold l1. destruct (Z.eqb_spec d 0) as [->|]; cbn [negb].
    - destruct Hl0 as [->|?]; [by left|right]. lia.
    - destruct Hl0 as [->|?].
      + right. rewrite wrap_small by lia. split_and!; [lia|lia|lia|by left].
      + destruct (decide (l0 + d = 2 ^ 32)) as [->|]; [left; done|]. right. rewrite wrap_small by (unfold d in *; dlia).
        unfold d in *. split_and!; [lia|dlia|dlia|right; lia]. }
  clearbody l1.
  set (m := if negb (l1 mod 4096 =? 0) then Z.land (u32 (l1 + 4096 - 1)) (u32 (- (4096))) else l1).
  assert (Hm : m = 0 \/ (m = align_up l1 4096 /\ 0 < l1)).
  { unfold m. destruct (Z.eqb_spec (l1 mod 4096) 0) as [E|]; cbn [negb].
    - destruct (decide (l1 = 0)); [by left|right]. unfold align_up, align_down. split; [dlia|lia].
    - rewrite page_down32_eq by (apply wrap_range; lia).
      destruct (decide (l1 + 4095 < 2 ^ 32)).
      + right. rewrite wrap_small by lia. split; [done|]. destruct (decide (l1 = 0)) as [->|]; [done|lia].
      + left. unfold wrap, align_down. change (2 ^ 32) with 0x100000000 in *. dlia. }
  assert (Hsd : (4096 | a - d)) by (exists (a / 4096); unfold d; dlia).
  destruct Hm as [->|[-> Hpos]]; [split_and!; [done|by exists 0|unfold d; dlia|lia|unfold d in *; dlia|intros x Hx; lia]|].
  destruct Hl1 as [->|(Hl1 & Hend & Hn1)]; [lia|].
  split_and!; [done|apply align_down_divide|unfold d; dlia|unfold align_up, align_down; dlia| |].
  - destruct Hsd as [c Ec]. rewrite Ec in *. unfold align_up, align_down. change (2 ^ 32) with 0x100000000 in *. dlia.
  - intros x Hx. exists (Z.max a (align_down x 4096)). unfold in_range, align_up, align_down in *. unfold d in *. split; dlia.
Qed.

Lemma covered_page_reach s s' x : alloc_ready s -> mem_reach s s' -> covered_page s' x <-> covered_page s x.
Proof.
  intros Hs Hr. destruct (mem_reach_facts s s' Hs Hr) as (_ & _ & Hc & _). unfold covered_page.
  split; intros (y & Hy & E); exists y; split; [by apply Hc|done|by apply Hc|done].
Qed.

Lemma skip_starts_ge n l s64 i : i <= skip_starts n l s64 i.
Proof.
  revert i. induction n as [|n IH]; intros i; cbn; [lia|].
  destruct (l !! Z.to_nat i) as [r|]; [|lia]. destruct (start r <=? s64); [|lia].
  specialize (IH (i + 1)). lia.
Qed.

Lemma skip_starts_gt n l s64 i r :
  (0 < n)%nat -> l !! Z.to_nat i = Some r -> start r <= s64 -> i < skip_starts n l s64 i.
Proof.
  destruct n as [|n]; [lia|]. intros _ Hr Hle. cbn. rewrite Hr.
  destruct (Z.leb_spec (start r) s64); [|lia]. pose proof (skip_starts_ge n l s64 (i + 1)). lia.
Qed.

(** The loop after an entry moves on, or the table has grown. *)
Lemma skip_starts_moves s s' i mr :
  0 <= i -> mem_ranges s !! Z.to_nat i = Some mr ->
  num_mem_ranges s < num_mem_ranges s' \/ start <$> mem_ranges s' = start <$> mem_ranges s ->
  let i' := skip_starts (length (mem_ranges s')) (mem_ranges s') (start mr) i in
  i <= i' /\ (num_mem_ranges s < num_mem_ranges s' \/ i < i' /\ num_mem_ranges s' = num_mem_ranges s).
Proof.
  intros Hi Hmr Hs i'. split; [apply skip_starts_ge|]. destruct Hs as [?|Hs]; [by left|right]. split.
  - assert (Hm : (start <$> mem_ranges s') !! Z.to_nat i = Some (start mr)) by (by rewrite Hs, list_lookup_fmap, Hmr).
    apply list_lookup_fmap_Some in Hm as (mr' & E & Hm). apply (skip_starts_gt _ _ _ _ mr'); [|done|lia].
    apply lookup_lt_Some in Hm. lia.
  - unfold num_mem_ranges. by rewrite <- (length_fmap start (mem_ranges s')), Hs, length_fmap.
Qed.

(** What a pass over the memory ranges may change: pages of the map, mapped to themselves. *)
Definition remapped (s : mem_map) (tr tr' : Z -> option (Z * Z)) : Prop :=
  forall x, 0 <= x < 2 ^ 32 ->
    tr' x = tr x \/ (covered_page s x /\ exists f, flags_ok f /\ tr' x = Some (x, 6 + f)).

Lemma remapped_trans s tr tr1 tr2 : remapped s tr tr1 -> remapped s tr1 tr2 -> remapped s tr tr2.
Proof.
  intros H1 H2 x Hx. destruct (H2 x Hx) as [->|?]; [|by right]. by apply H1.
Qed.

Lemma remapped_reach s s' tr tr' : alloc_ready s -> mem_reach s s' -> remapped s' tr tr' -> remapped s tr tr'.
Proof.
  intros Hs Hr H x Hx. destruct (H x Hx) as [?|[Hc ?]]; [by left|right]. split; [|done].
  by apply (covered_page_reach s s').
Qed.

(** One entry. *)
Lemma attr_step_spec (st : pgt mem_map) rl i mr :
  tables st rl -> mem_ranges (pg_alloc st) !! i = Some mr -> start mr < XM32_MAX_ADDR ->
  match do_va_id_map st (page_range (start mr) (len mr)).1 (page_range (start mr) (len mr)).2
          (uefi_attr_to_pte_flags (uefi_attr mr)) with
  | Ok st' => exists rl', tables st' rl' /\ mem_reach (pg_alloc st) (pg_alloc st') /\
      remapped (pg_alloc st) (translate st) (translate st')
  | Fail f => no_page (pg_alloc st) f
  end.
Proof.
  intros Ht Hmr Hlt. pose proof (tables_ready _ _ Ht) as ([Hok _ _] & _).
  destruct (ok_lookup _ _ _ Hok Hmr) as (H0 & Hl & He). unfold range_end, XM32_MAX_ADDR in *.
  pose proof (page_range_spec (start mr) (len mr) ltac:(lia) Hl ltac:(lia)) as Hp.
  destruct (page_range (start mr) (len mr)) as [a m]. destruct Hp as (Ha & Hm & Ha0 & Hm0 & Ham & Hcov). cbn [fst snd].
  pose proof (do_va_id_map_spec st rl a m (uefi_attr_to_pte_flags (uefi_attr mr)) Ht Ha0 Ham Ha Hm Hm0 (uefi_flags_ok _)) as H.
  destruct (do_va_id_map st a m _) as [st'|f]; [|done].
  destruct H as (rl' & Ht' & Hr & Htr). exists rl'. split_and!; [done|done|]. intros x Hx. rewrite Htr by done.
  case_decide as Hin; [right|by left]. split.
  - destruct (Hcov x Hin) as (y & Hy & E). exists y. split; [|done]. exists mr. split; [by eapply list_elem_of_lookup_2|done].
  - eexists. split; [apply uefi_flags_ok|done].
Qed.

Lemma attr_loop_spec fuel (st : pgt mem_map) rl i :
  tables st rl -> 0 <= i -> (0 < fuel)%nat ->
  2 * max_mem_ranges (pg_alloc st) - i - num_mem_ranges (pg_alloc st) < Z.of_nat fuel ->
  match attr_loop fuel st i with
  | Ok st' => exists rl', tables st' rl' /\ mem_reach (pg_alloc st) (pg_alloc st') /\
      remapped (pg_alloc st) (translate st) (translate st')
  | Fail f => no_page (pg_alloc st) f
  end.
Proof.
  revert st rl i. induction fuel as [|fuel IH]; intros st rl i Ht Hi Hf0 Hf; [lia|]. cbn [attr_loop].
  pose proof (tables_ready _ _ Ht) as Hready. pose proof Hready as ([_ _ Hcap] & _).
  destruct (Z.ltb_spec i (num_mem_ranges (pg_alloc st))) as [Hlt|_];
    [|exists rl; split_and!; [done|apply rtc_refl|by intros x Hx; left]].
  destruct (aget_total (mem_ranges (pg_alloc st)) i) as (mr & -> & Hmr); [unfold num_mem_ranges in Hlt; lia|].
  cbn [mbind result_bind].
  destruct (Z.eqb_spec (uefi_attr_to_pte_flags (uefi_attr mr)) 0); [apply (IH _ rl); [done|lia..]|].
  destruct (Z.geb_spec (start mr) XM32_MAX_ADDR); [apply (IH _ rl); [done|lia..]|].
  pose proof (attr_step_spec st rl (Z.to_nat i) mr Ht Hmr ltac:(lia)) as Hstep.
  destruct (do_va_id_map st _ _ _) as [st1|f]; cbn [mbind result_bind]; [|done].
  destruct Hstep as (rl1 & Ht1 & Hr1 & Hm1).
  destruct (mem_reach_facts _ _ Hready Hr1) as (Hready1 & Emax & _ & Hstarts). pose proof Hready1 as ([_ _ Hcap1] & _).
  pose proof (skip_starts_moves (pg_alloc st) (pg_alloc st1) i mr Hi Hmr Hstarts) as Hgt. cbv zeta in Hgt.
  set (i' := skip_starts _ _ _ i) in *. specialize (IH st1 rl1 i' Ht1 ltac:(lia) ltac:(lia) ltac:(rewrite Emax in *; lia)).
  destruct (attr_loop fuel st1 i') as [st2|f].
  - destruct IH as (rl2 & Ht2 & Hr2 & Hm2). exists rl2. split_and!; [done|by etransitivity|].
    eapply remapped_trans; [done|]. by eapply remapped_reach.
  - by eapply no_page_reach.
Qed.

(** ** [va_init] *)

(** No address is in both. *)
Definition va_apart (x y : va_range_t) : Prop :=
  forall a, in_range (va_start x) (va_len x) a -> ~ in_range (va_start y) (va_len y) a.

#[export] Instance va_apart_sym : Symmetric va_apart.
Proof. intros x y H a Hy Hx. by apply (H a). Qed.

(** The state the mapping functions keep: well-formed tables, and disjoint page-aligned ranges of
    addresses that are not mapped.  The table of ranges need not stay sorted, and may hold empty
    ranges. *)
Record vm_ok (v : vm) : Prop := {
  vm_tables : exists rl, tables (vm_pg v) rl;
  vm_ranges : Forall va_ok (unused_va_ranges v);
  vm_apart : StronglySorted va_apart (unused_va_ranges v);
  vm_unmapped : forall x, in_va (unused_va_ranges v) x -> translate (vm_pg v) x = None;
  vm_cap : Z.of_nat (length (unused_va_ranges v)) <= max_unused_va_ranges v;
}.

Lemma va_before_apart hs : StronglySorted va_before hs -> StronglySorted va_apart hs.
Proof.
  induction 1 as [|h hs _ IH Hh]; constructor; [done|]. rewrite Forall_forall in *.
  intros k Hk a Ha Hka. specialize (Hh k Hk). unfold va_before, va_end, in_range in *. lia.
Qed.

(** Two addresses of one page are both in a page-aligned range or both outside. *)
Lemma in_va_page hs x y : Forall va_ok hs -> x / 4096 = y / 4096 -> in_va hs x -> in_va hs y.
Proof.
  intros Hok E (h & Hh & Hx). exists h. split; [done|]. rewrite Forall_forall in Hok.
  destruct (Hok h Hh) as ([a Ea] & [b Eb] & _). unfold in_range, PAGE_SIZE in *. dlia.
Qed.

Lemma va_ok_lt hs x : Forall va_ok hs -> in_va hs x -> 0 <= x < 2 ^ 32.
Proof.
  intros Hok (h & Hh & Hx). rewrite Forall_forall in Hok.
  destruct (Hok h Hh) as (_ & _ & _ & ? & ?). unfold in_range, va_end, BMEM_MAX_ADDR in *. lia.
Qed.

Lemma holes_upto_start l : holes_upto l 1 [].
Proof.
  split; [constructor|constructor|constructor|cbn; lia|..].
  - by intros ? ? ?%not_elem_of_nil.
  - by intros ? ? ? ?%not_elem_of_nil.
Qed.

(** The mappings [va_init] makes below and between the holes [first :: rest], before the last
    loop. *)
Lemma id_maps_spec (st : pgt mem_map) rl first rest f :
  tables st rl -> (forall x, 0 <= x < 2 ^ 32 -> translate st x = None) -> flags_ok f ->
  Forall va_ok (first :: rest) -> Forall (fun h => 0 < va_len h) (first :: rest) ->
  StronglySorted va_before (first :: rest) ->
  match (st ← do_va_id_map st 0 (va_start first) f; id_map_between st first rest) with
  | Ok st' => exists rl', tables st' rl' /\ mem_reach (pg_alloc st) (pg_alloc st') /\
      forall x, 0 <= x < 2 ^ 32 ->
        (translate st' x = None \/ exists g, flags_ok g /\ translate st' x = Some (x, 6 + g)) /\
        (in_va (first :: rest) x -> translate st' x = None) /\
        ((exists h, h ∈ first :: rest /\ x < va_start h) -> ~ in_va (first :: rest) x -> translate st' x <> None)
  | Fail e => no_page (pg_alloc st) e
  end.
Proof.
  intros Ht Hnone Hf Hok Hpos Hs. pose proof Hok as [(Hfa & Hfl & Hfn & Hf0 & Hfe) _]%Forall_cons.
  assert (Hbm : 0 < BMEM_MAX_ADDR) by (unfold BMEM_MAX_ADDR; lia). unfold va_end in Hfe.
  pose proof (do_va_id_map_spec st rl 0 (va_start first) f Ht ltac:(lia) ltac:(lia) ltac:(by exists 0) Hfa ltac:(lia) Hf) as H1.
  destruct (do_va_id_map st 0 (va_start first) f) as [st1|e]; cbn [mbind result_bind]; [|done].
  destruct H1 as (rl1 & Ht1 & Hr1 & Htr1).
  pose proof Hpos as [_ Hpos']%Forall_cons.
  pose proof (id_map_between_spec st1 rl1 first rest Ht1 Hs Hok Hpos') as H2.
  destruct (id_map_between st1 first rest) as [st2|e]; [|by eapply no_page_reach].
  destruct H2 as (rl2 & Ht2 & Hr2 & Hin & Hout). exists rl2. split_and!; [done|by etransitivity|].
  intros x Hx. specialize (Htr1 x Hx). rewrite Hnone in Htr1 by done.
  destruct (decide (x < va_end first)) as [Hlow|Hhigh].
  { rewrite Hout by auto. rewrite Htr1. split_and!.
    - case_decide; [right; by exists f|by left].
    - intros (h & [->|Hh]%elem_of_cons & Hxh); unfold in_range in Hxh.
      + by rewrite decide_False by lia.
      + apply StronglySorted_cons in Hs as [Hs _]. rewrite Forall_forall in Hs. specialize (Hs h Hh).
        unfold va_before, va_end in *. by rewrite decide_False by lia.
    - intros _ Hnin. rewrite decide_True; [done|]. split; [lia|].
      destruct (decide (x < va_start first)); [lia|]. exfalso. apply Hnin. exists first.
      split; [by left|unfold in_range, va_end in *; lia]. }
  assert (Hno : ~ in_range (va_start first) (va_len first) x) by (unfold in_range, va_end in *; lia).
  rewrite decide_False in Htr1 by (unfold va_end in *; lia).
  destruct (decide (Exists (fun h => va_start h <= x < va_start h + va_len h) rest)) as [Hr|Hr].
  { apply Exists_exists in Hr as (h & Hh & Hxh). assert (Hiv : in_va rest x) by by exists h.
    rewrite Hout, Htr1 by auto. split_and!; [by left|done|]. intros _ Hnin. destruct Hnin. exists h. by split; [right|]. }
  assert (Hniv : ~ in_va rest x).
  { intros (h & Hh & Hxh). apply Hr, Exists_exists. by exists h. }
  destruct (decide (Exists (fun h => x < va_start h) rest)) as [Hb|Hb].
  { apply Exists_exists in Hb as (h & Hh & Hxh). rewrite (Hin x Hx ltac:(lia) ltac:(by exists h) Hniv). split_and!.
    - right. exists 0. split; [by left|done].
    - intros (k & [->|Hk]%elem_of_cons & Hxk); [done|]. destruct Hniv. by exists k.
    - done. }
  assert (Hall : forall h, h ∈ rest -> va_end h <= x).
  { intros h Hh. destruct (decide (va_end h <= x)); [done|]. exfalso.
    destruct (decide (x < va_start h)); [apply Hb, Exists_exists; by exists h|].
    apply Hniv. exists h. split; [done|unfold in_range, va_end in *; lia]. }
  rewrite Hout, Htr1 by auto. split_and!; [by left|done|].
  intros (h & [->|Hh]%elem_of_cons & Hxh) _; [unfold va_end in *; lia|].
  destruct Hb. apply Exists_exists. by exists h.
Qed.

(** No byte of the memory map is in the page at [p]. *)
Definition page_unused (s : mem_map) (p : Z) : Prop := forall x, p <= x < p + PAGE_SIZE -> ~ covered s x.

Definition hole_page (s : mem_map) (p : Z) : Prop :=
  (PAGE_SIZE | p) /\ BMEM_MAX_ADDR <= p /\ p + PAGE_SIZE <= 2 ^ 32 /\ page_unused s p /\
  exists y, covered s y /\ y <= p.

Lemma holes_of_map s :
  alloc_ready s -> exists holes,
  va_holes (length (mem_ranges s)) (mem_ranges s) (max_mem_ranges s) 1 [] = Ok holes /\
  Forall va_ok holes /\ Forall (fun h => 0 < va_len h) holes /\ StronglySorted va_before holes /\
  Z.of_nat (length holes) <= max_mem_ranges s /\
  (forall x, in_va holes x -> ~ covered s x) /\ (forall p, hole_page s p -> in_va holes p).
Proof.
  intros ([Hok Hs [Hcap _]] & _). unfold num_mem_ranges in Hcap.
  destruct (va_holes_spec (mem_ranges s) (max_mem_ranges s) Hok Hs Hcap (length (mem_ranges s)) 1 [] ltac:(lia) ltac:(lia)
    (holes_upto_start _)) as (holes & E & (k & _ & [Ho Hp Hso Hlen _ Hfree] & Hk) & Hf).
  exists holes. split_and!; [done|done|done|done|lia|..].
  - intros x (h & Hh & Hx) (r & Hr & Hxr). by eapply (Hfree h r x).
  - intros p (Hpa & Hpb & Hpe & Hun & y & (r & Hr & Hy) & Hyp). apply list_elem_of_lookup in Hr as [j Hj].
    destruct (lookup_lt_is_Some_2 (mem_ranges s) 0) as [r0 Hr0]; [apply lookup_lt_Some in Hj; lia|].
    apply (Hf p r0 Hpa Hpb Hpe); [|done|].
    + intros q x Hq Hx Hxq. apply (Hun x Hx). by exists q.
    + unfold in_range in Hy. destruct (decide (j = 0%nat)) as [->|]; [simplify_eq; lia|].
      destruct (ok_lookup _ _ _ Hok Hr0) as (? & ? & ?).
      destruct (before_lookup _ 0 j r0 r Hs ltac:(lia) Hr0 Hj) as [?|[? _]]; unfold range_end in *; lia.
Qed.

Lemma hole_page_reach s s' p : alloc_ready s -> mem_reach s s' -> hole_page s' p <-> hole_page s p.
Proof.
  intros Hs Hr. destruct (mem_reach_facts s s' Hs Hr) as (_ & _ & Hc & _).
  unfold hole_page, page_unused. by setoid_rewrite Hc.
Qed.

Lemma va_init_spec s :
  alloc_ready s ->
  match va_init s with
  | Ok v => vm_ok v /\
      (forall x, in_va (unused_va_ranges v) x -> ~ covered s x) /\
      (forall p, hole_page s p -> in_va (unused_va_ranges v) p) /\
      forall x, 0 <= x < 2 ^ 32 ->
        (translate (vm_pg v) x = None \/ exists f, flags_ok f /\ translate (vm_pg v) x = Some (x, 6 + f)) /\
        ((exists h, h ∈ unused_va_ranges v /\ x < va_start h) -> ~ in_va (unused_va_ranges v) x ->
         exists f, flags_ok f /\ translate (vm_pg v) x = Some (x, 6 + f))
  | Fail f => no_page s f \/ (f = OutOfBounds /\ forall p, ~ hole_page s p)
  end.
Proof.
  intros Hs. pose proof Hs as ([_ _ Hcap] & Hlen). unfold va_init, num_mem_ranges, sizeof_va_range_t in *.
  destruct (mem_alloc s (u32 (max_mem_ranges s * (4 + 4))) 4 0) as [[p s1]|f] eqn:E; cbn [mbind result_bind];
    [|left; eexists s, _, 4; split_and!; [apply rtc_refl| |by exists 2|lia|exact E]; rewrite wrap_small; lia].
  assert (Hstep : mem_reach s s1).
  { apply rtc_once. eexists _, 4, p. split_and!; [|by exists 2|lia|exact E]. rewrite wrap_small; lia. }
  destruct (mem_reach_facts s s1 Hs Hstep) as (Hs1 & Emax & Hc1 & _). rewrite <- Emax.
  destruct (holes_of_map s1 Hs1) as (holes & -> & Hok & Hpos & Hso & Hl & Hunc & Hfound). cbn [mbind result_bind].
  pose proof (va_tables_spec s1 Hs1) as Htab.
  destruct (va_tables s1) as [st0|f]; cbn [mbind result_bind]; [|left; by eapply no_page_reach].
  destruct Htab as (rl0 & Ht0 & Hr0 & Hnone).
  destruct holes as [|first rest].
  { right. split; [done|]. intros q Hq. apply (hole_page_reach s s1) in Hq; [|done|done].
    destruct (Hfound q Hq) as (h & []%not_elem_of_nil & _). }
  replace (aget (first :: rest) 0) with (Ok first) by done. cbn [mbind result_bind tail].
  pose proof (tables_ready _ _ Ht0) as (_ & Hlen0).
  destruct (aget_total (mem_ranges (pg_alloc st0)) 0 ltac:(lia)) as (mr & -> & _). cbn [mbind result_bind].
  pose proof (id_maps_spec st0 rl0 first rest (uefi_attr_to_pte_flags (uefi_attr mr)) Ht0 Hnone (uefi_flags_ok _) Hok Hpos Hso) as Hid.
  destruct (do_va_id_map st0 0 (va_start first) _) as [st1|f]; cbn [mbind result_bind] in *;
    [|left; eapply no_page_reach; [|done]; by etransitivity].
  destruct (id_map_between st1 first rest) as [st2|f]; cbn [mbind result_bind];
    [|left; eapply no_page_reach; [|done]; by etransitivity].
  destruct Hid as (rl2 & Ht2 & Hr2 & Hmap).
  assert (Hr02 : mem_reach s1 (pg_alloc st2)) by by etransitivity.
  destruct (mem_reach_facts s1 _ Hs1 Hr02) as (Hs2 & Emax2 & _ & _).
  pose proof (attr_loop_spec (S (2 * Z.to_nat (max_mem_ranges s1))) st2 rl2 0 Ht2 ltac:(lia) ltac:(lia)
    ltac:(rewrite Emax2; pose proof (inv_cap _ (proj1 Hs2)); unfold num_mem_ranges in *; lia)) as Hat.
  destruct (attr_loop _ st2 0) as [st3|f]; cbn [mbind result_bind];
    [|left; eapply no_page_reach; [|done]; by etransitivity].
  destruct Hat as (rl3 & Ht3 & _ & Hrem). cbn [vm_pg unused_va_ranges].
  assert (Hrem' : remapped s1 (translate st2) (translate st3)) by by eapply remapped_reach.
  split; [|split; [|split]].
  - split; cbn [vm_pg unused_va_ranges max_unused_va_ranges]; [by exists rl3|done|by apply va_before_apart| |done].
    intros x Hx. pose proof (va_ok_lt _ _ Hok Hx) as Hxr.
    destruct (Hrem' x Hxr) as [->|[(y & Hy & Exy) _]]; [by apply (Hmap x Hxr)|].
    destruct (Hunc y); [|done]. by apply (in_va_page _ x).
  - intros x Hx Hcx. apply (Hunc x Hx). by apply Hc1.
  - intros q Hq. apply Hfound. by apply (hole_page_reach s s1).
  - intros x Hx. destruct (Hmap x Hx) as (Hany & _ & Hsome). split.
    + destruct (Hrem' x Hx) as [->|[_ ?]]; [done|by right].
    + intros Hb Hnin. destruct (Hrem' x Hx) as [->|[_ ?]]; [|done].
      destruct Hany as [?|?]; [by destruct (Hsome Hb Hnin)|done].
Qed.


(** ** Replacing one range *)

Lemma in_va_middle l1 r l2 x :
  in_va (l1 ++ r :: l2) x <-> in_range (va_start r) (va_len r) x \/ in_va (l1 ++ l2) x.
Proof.
  unfold in_va. setoid_rewrite elem_of_app. setoid_rewrite elem_of_cons. split.
  - intros (h & [Hh|[->|Hh]] & Hx); [right; exists h; auto|by left|right; exists h; auto].
  - intros [Hx|(h & [Hh|Hh] & Hx)]; [exists r|exists h|exists h]; auto.
Qed.

Lemma apart_middle l1 r l2 :
  StronglySorted va_apart (l1 ++ r :: l2) <->
  StronglySorted va_apart (l1 ++ l2) /\ forall x, in_range (va_start r) (va_len r) x -> ~ in_va (l1 ++ l2) x.
Proof.
  assert (Hp : l1 ++ r :: l2 ≡ₚ r :: l1 ++ l2) by (symmetry; apply Permutation_middle).
  split.
  - intros H. apply (StronglySorted_perm va_apart _ _ Hp) in H. apply StronglySorted_cons in H as [Hr H].
    split; [done|]. intros x Hx (h & Hh & Hxh). rewrite Forall_forall in Hr. by apply (Hr h Hh x).
  - intros [H Hr]. apply (StronglySorted_perm va_apart (r :: l1 ++ l2)); [by symmetry|]. constructor; [done|].
    apply Forall_forall. intros h Hh x Hx Hxh. apply (Hr x Hx). by exists h.
Qed.

Lemma ok_middle l1 r l2 : Forall va_ok (l1 ++ r :: l2) <-> va_ok r /\ Forall va_ok (l1 ++ l2).
Proof. rewrite !Forall_app, Forall_cons. tauto. Qed.

Lemma insert_middle {A} (l : list A) i x y :
  l !! i = Some x -> exists l1 l2, l = l1 ++ x :: l2 /\ <[i := y]> l = l1 ++ y :: l2.
Proof.
  intros Hx. exists (take i l), (drop (S i) l). split; [by rewrite take_drop_middle|].
  apply insert_take_drop. by eapply lookup_lt_Some.
Qed.

(** ** [mem_va_map] *)

Lemma find_unused_spec l sz i :
  (i <= length l)%nat ->
  match find_unused l sz i with
  | Some (k, r) => l !! k = Some r /\ sz <= va_len r
  | None => forall j r, (j < i)%nat -> l !! j = Some r -> va_len r < sz
  end.
Proof.
  induction i as [|i IH]; intros Hi; cbn; [lia|].
  destruct (lookup_lt_is_Some_2 l i ltac:(lia)) as [r Hr]. rewrite Hr.
  destruct (Z.geb_spec (va_len r) sz); [by split|]. specialize (IH ltac:(lia)).
  destruct (find_unused l sz i) as [[k r']|]; [done|].
  intros j r' Hj Hr'. destruct (decide (j = i)) as [->|]; [by simplify_eq|]. apply (IH j); [lia|done].
Qed.

(** The pages that [sz] bytes from [pa] on touch. *)
Definition span (pa sz : Z) : Z := align_up (pa + sz) 4096 - align_down pa 4096.

Lemma span_facts pa sz :
  0 <= pa -> 0 < sz ->
  (4096 | span pa sz) /\ sz <= span pa sz /\ pa mod 4096 + sz <= span pa sz < pa mod 4096 + sz + 4096.
Proof.
  intros Hpa Hsz. unfold span. split; [apply Z.divide_sub_r; apply align_down_divide|].
  unfold align_up, align_down. dlia.
Qed.

Definition in_span (a n x : Z) : Prop := a <= x < a + n.

Lemma mem_va_map_spec v pa sz f :
  vm_ok v -> 0 <= pa -> 0 < sz -> pa + sz + 4096 <= 2 ^ 52 -> flags_ok f ->
  match mem_va_map v pa sz f with
  | Ok (va, v') => exists a l1 l2 r,
      unused_va_ranges v = l1 ++ r :: l2 /\ va = a + pa mod 4096 /\
      (4096 | a) /\ va_start r <= a /\ a + span pa sz = va_end r /\ vm_ok v' /\
      max_unused_va_ranges v' = max_unused_va_ranges v /\
      unused_va_ranges v' = l1 ++ {| va_start := va_start r; va_len := a - va_start r |} :: l2 /\
      large_within (vm_pg v) (vm_pg v') a (span pa sz) /\
      mapped (translate (vm_pg v)) (translate (vm_pg v')) a (align_down pa 4096) (span pa sz) f
  | Fail e => no_page (vm_map v) e \/ (e = Hlt /\ forall h, h ∈ unused_va_ranges v -> va_len h < span pa sz)
  end.
Proof.
  intros [(rl & Ht) Hok Hap Hun Hcap] Hpa Hsz Hlim Hf. unfold mem_va_map.
  destruct (Z.eqb_spec sz 0) as [|_]; [lia|]. destruct (span_facts pa sz Hpa Hsz) as (Hspa & Hspz & Hspr).
  pose proof (align_down_le pa 4096 ltac:(lia)) as Hdl. pose proof (align_down_nonneg pa 4096 ltac:(lia) Hpa) as Hd0.
  pose proof (align_up_lt (pa + sz) 4096 ltac:(lia)) as Hul.
  assert (Hspan : align_up (pa + sz) 4096 = align_down pa 4096 + span pa sz) by (unfold span; lia).
  rewrite page_down64_eq, page_up64_eq, Hspan by lia.
  replace (align_down pa 4096 + span pa sz - align_down pa 4096) with (span pa sz) by lia.
  rewrite (wrap_small 64) by dlia. set (n := span pa sz) in *. unfold XM32_MAX_ADDR.
  destruct (Z.geb_spec n 0x100000000) as [Hbig|Hsmall].
  { right. split; [done|]. intros h Hh. rewrite Forall_forall in Hok. destruct (Hok h Hh) as (_ & _ & ? & Hb & He).
    unfold va_end, BMEM_MAX_ADDR in *. lia. }
  pose proof (find_unused_spec (unused_va_ranges v) n (length (unused_va_ranges v)) ltac:(lia)) as Hfind.
  destruct (find_unused _ _ _) as [[i r]|]; cycle 1.
  { right. split; [done|]. intros h [j Hj]%list_elem_of_lookup. apply (Hfind j h); [by eapply lookup_lt_Some|done]. }
  destruct Hfind as [Hr Hlen].
  destruct (insert_middle _ i r {| va_start := va_start r; va_len := u32 (va_len r - n) |} Hr) as (l1 & l2 & El & Ei).
  rewrite El in Hok, Hap. apply ok_middle in Hok as [Hrok Hok]. pose proof Hrok as (Hra & Hrl & Hrn & Hrb & Hre).
  unfold BMEM_MAX_ADDR, va_end, PAGE_SIZE in *.
  rewrite Ei, (wrap_small 32 (va_len r - n)) by lia. rewrite (wrap_small 32 (va_start r + (va_len r - n))) by lia.
  set (a := va_start r + (va_len r - n)).
  assert (Haa : (4096 | a)) by (apply Z.divide_add_r; [done|by apply Z.divide_sub_r]).
  pose proof (do_va_map_spec map_limit (vm_pg v) rl a (align_down pa 4096) n f Ht ltac:(unfold a; lia) ltac:(unfold a; lia)
    Hd0 ltac:(lia) Haa (align_down_divide _ _) Hspa ltac:(lia) Hf) as Hmap.
  destruct (do_va_map (vm_pg v) a _ n f) as [st|e]; cbn [mbind result_bind]; cycle 1.
  { left. destruct Hmap as (s & Hreach & E). exists s, PAGE_SIZE, PAGE_SIZE. split_and!; [by apply alc_reach_mem|unfold PAGE_SIZE; lia|exact pow2_4096|unfold PAGE_SIZE; lia|done]. }
  destruct Hmap as (rl' & Ht' & _ & _ & Hlw & Hm).
  rewrite (wrap_small 32 (a + pa mod 4096)) by (unfold a; dlia).
  apply apart_middle in Hap as [Hap Hr12].
  assert (Hfree' : forall x, in_va (l1 ++ {| va_start := va_start r; va_len := va_len r - n |} :: l2) x ->
    in_va (unused_va_ranges v) x /\ ~ a <= x < a + n).
  { intros x Hx. apply in_va_middle in Hx as [Hx|Hx]; unfold in_range in Hx; cbn [va_start va_len] in Hx.
    - split; [|unfold a; lia]. rewrite El. apply in_va_middle. left. unfold in_range. lia.
    - split; [rewrite El; apply in_va_middle; by right|]. intros Hxa. apply (Hr12 x); [|done].
      unfold in_range. unfold a in *. lia. }
  exists a, l1, l2, r. cbn [vm_pg unused_va_ranges max_unused_va_ranges].
  replace (a - va_start r) with (va_len r - n) by (unfold a; lia).
  split_and!; [done|done|done|unfold a; lia|unfold a; lia| |done|done|done|done].
  split; cbn [vm_pg unused_va_ranges max_unused_va_ranges].
  - by exists rl'.
  - apply ok_middle. split; [|done]. unfold va_ok, va_end, BMEM_MAX_ADDR, PAGE_SIZE. cbn.
    split_and!; [done|by apply Z.divide_sub_r|lia..].
  - apply apart_middle. split; [done|]. intros x Hx. apply Hr12. unfold in_range in *. cbn in Hx. lia.
  - intros x Hx. destruct (Hfree' x Hx) as [Hx1 Hx2].
    assert (Hxr : 0 <= x < 2 ^ 32).
    { apply (va_ok_lt (unused_va_ranges v)); [|done]. rewrite El. apply ok_middle. by split. }
    rewrite Hm by done. rewrite decide_False by done. by apply Hun.
  - rewrite El in Hcap. rewrite !length_app in *. cbn in *. lia.
Qed.

(** ** [mem_va_unmap] *)

(** Giving back a region that no range overlaps adds exactly its addresses. *)
Lemma give_back_spec l max a n i :
  Forall va_ok l -> StronglySorted va_apart l -> Z.of_nat (length l) <= max -> (i <= length l)%nat ->
  (4096 | a) -> (4096 | n) -> 0 < n -> BMEM_MAX_ADDR <= a -> a + n <= 2 ^ 32 ->
  (forall x, a <= x < a + n -> ~ in_va l x) ->
  match give_back l max a (u32 (a + n)) n i with
  | Ok l' => Forall va_ok l' /\ StronglySorted va_apart l' /\ Z.of_nat (length l') <= max /\
      forall x, in_va l' x <-> in_va l x \/ a <= x < a + n
  | Fail e => e = Hlt /\ (Z.of_nat (length l) = max \/
      forall j h, (j < i)%nat -> l !! j = Some h -> a <= va_start h /\ va_end h <> a)
  end.
Proof.
  intros Hok Hap Hcap Hi Ha Hna Hn Hb He Hout. unfold BMEM_MAX_ADDR in Hb.
  induction i as [|i IH]; cbn [give_back]; [split; [done|right; lia]|].
  destruct (lookup_lt_is_Some_2 l i ltac:(lia)) as [r Hr]. rewrite Hr. cbn [checked mbind result_bind].
  (* a range that takes the place of [r] and covers the region as well *)
  assert (Hext : forall r', va_ok r' ->
    (forall x, in_range (va_start r') (va_len r') x <-> in_range (va_start r) (va_len r) x \/ a <= x < a + n) ->
    Forall va_ok (<[i := r']> l) /\ StronglySorted va_apart (<[i := r']> l) /\
    Z.of_nat (length (<[i := r']> l)) <= max /\ forall x, in_va (<[i := r']> l) x <-> in_va l x \/ a <= x < a + n).
  { intros r' Hr' Hx'. destruct (insert_middle l i r r' Hr) as (l1 & l2 & El & Ei).
    rewrite length_insert, Ei. pose proof Hok as Hok2. pose proof Hap as Hap2. rewrite El in Hok2, Hap2.
    apply ok_middle in Hok2 as [_ Hok2]. apply apart_middle in Hap2 as [Hap2 Hr12]. split_and!.
    - by apply ok_middle.
    - apply apart_middle. split; [done|]. intros x Hx. apply Hx' in Hx as [Hx|Hx]; [by apply Hr12|].
      intros Hx2. apply (Hout x Hx). rewrite El. apply in_va_middle. by right.
    - lia.
    - intros x. rewrite El, !in_va_middle, Hx'. tauto. }
  pose proof (proj1 (Forall_lookup _ _) Hok i r Hr) as (Hra & Hrl & Hrn & Hrb & Hre).
  unfold va_end, BMEM_MAX_ADDR, PAGE_SIZE in *.
  destruct (Z.eqb_spec (va_start r) (u32 (a + n))) as [Eup|Hup].
  { assert (Eup' : va_start r = a + n).
    { destruct (decide (a + n = 2 ^ 32)) as [E|]; [rewrite E in Eup; change (u32 (2 ^ 32)) with 0 in Eup; lia|].
      rewrite wrap_small in Eup by lia. done. }
    rewrite wrap_small by lia. apply Hext.
    - unfold va_ok, va_end, BMEM_MAX_ADDR, PAGE_SIZE. cbn. split_and!; [done|by apply Z.divide_add_r|lia..].
    - intros x. unfold in_range. cbn. lia. }
  destruct (Z.eqb_spec (u32 (va_start r + va_len r)) a) as [Elo|Hlo].
  { assert (Elo' : va_start r + va_len r = a).
    { destruct (decide (va_start r + va_len r = 2 ^ 32)) as [E|]; [rewrite E in Elo; change (u32 (2 ^ 32)) with 0 in Elo; lia|].
      rewrite wrap_small in Elo by lia. done. }
    rewrite wrap_small by lia. apply Hext.
    - unfold va_ok, va_end, BMEM_MAX_ADDR, PAGE_SIZE. cbn. split_and!; [done|by apply Z.divide_add_r|lia..].
    - intros x. unfold in_range. cbn. lia. }
  destruct (Z.ltb_spec (va_start r) a) as [Hlt|Hge].
  - destruct (Z.eqb_spec (Z.of_nat (length l)) max); [by auto|].
    rewrite <- (take_drop (S i) l) in Hok, Hap. cbn [app].
    split_and!.
    + apply ok_middle. split; [|done]. unfold va_ok, va_end, BMEM_MAX_ADDR, PAGE_SIZE. cbn. split_and!; [done..|lia|lia|lia].
    + apply apart_middle. split; [done|]. intros x Hx. rewrite take_drop. apply Hout. unfold in_range in Hx. cbn in Hx. lia.
    + rewrite length_app. cbn [length]. rewrite length_take, length_drop. lia.
    + intros x. rewrite in_va_middle, take_drop. unfold in_range. cbn. tauto.
  - specialize (IH ltac:(lia)). destruct (give_back l max a _ n i) as [l'|e]; [done|].
    destruct IH as (-> & IH). split; [done|]. destruct IH as [?|IH]; [by left|right].
    intros j h Hj Hh. destruct (decide (j = i)) as [->|]; [|apply (IH j); [lia|done]].
    simplify_eq. split; [lia|]. intros E. apply Hlo. rewrite E. apply wrap_small. lia.
Qed.

(** The addresses [mem_va_unmap] works on, for an address and size that [mem_va_map] returned. *)
Lemma unmap_args a pa sz :
  (4096 | a) -> 0 <= a -> 0 <= pa -> 0 < sz -> a + span pa sz <= 2 ^ 32 ->
  let va := a + pa mod 4096 in
  Z.land va (u32 (- PAGE_SIZE)) = a /\
  Z.land (u32 (va + sz + PAGE_SIZE - 1)) (u32 (- PAGE_SIZE)) = u32 (a + span pa sz) /\
  (0 < a -> u32 (u32 (a + span pa sz) - a) = span pa sz).
Proof.
  intros Ha Ha0 Hpa Hsz Hend va. destruct (span_facts pa sz Hpa Hsz) as (Hspa & Hspz & Hspr).
  assert (Hva : 0 <= va < 2 ^ 32) by (unfold va; dlia).
  split_and!.
  - rewrite page_down32_eq by done. unfold va, align_down. destruct Ha as [c ->]. dlia.
  - rewrite page_down32_eq by (apply wrap_range; lia). unfold PAGE_SIZE, wrap, align_down, va in *.
    change (2 ^ 32) with 0x100000000 in *. destruct Ha as [c ->]. destruct Hspa as [d Hd]. dlia.
  - intros Hpos. unfold wrap. rewrite Zminus_mod_idemp_l. replace (a + span pa sz - a) with (span pa sz) by lia.
    apply Z.mod_small. lia.
Qed.

(** [mem_va_map] of a non-zero size: it terminates; the block it returns was free and not
    mapped, has the offset of [pa] within its page, and its pages are now translated to the pages
    of [pa] with the flags given; the pages are free no longer and every other address is
    translated, and free or not, as before.  It fails only if no unused range is long enough or a
    page allocation fails. *)
Theorem mem_va_map_correct v pa sz pte_flags :
  vm_ok v -> 0 <= pa -> 0 < sz -> pa + sz + 4096 <= 2 ^ 52 -> flags_ok pte_flags ->
  match mem_va_map v pa sz pte_flags with
  | Ok (va, v') => vm_ok v' /\ exists a, va = a + pa mod 4096 /\ (4096 | a) /\
      (forall x, a <= x < a + span pa sz -> in_va (unused_va_ranges v) x) /\
      (forall x, in_va (unused_va_ranges v') x <-> in_va (unused_va_ranges v) x /\ ~ a <= x < a + span pa sz) /\
      (forall x, 0 <= x < sz -> translate (vm_pg v') (va + x) = Some (pa + x, 6 + pte_flags)) /\
      (forall x, 0 <= x < 2 ^ 32 -> ~ a <= x < a + span pa sz -> translate (vm_pg v') x = translate (vm_pg v) x)
  | Fail e => no_page (vm_map v) e \/ (e = Hlt /\ forall h, h ∈ unused_va_ranges v -> va_len h < span pa sz)
  end.
Proof.
  intros Hv Hpa Hsz Hlim Hf. pose proof (mem_va_map_spec v pa sz pte_flags Hv Hpa Hsz Hlim Hf) as H.
  destruct (mem_va_map v pa sz pte_flags) as [[va v']|e]; [|done].
  destruct H as (a & l1 & l2 & r & El & -> & Ha & Hra & Hre & Hv' & _ & El' & _ & Hm). split; [done|].
  destruct (span_facts pa sz Hpa Hsz) as (Hspa & Hspz & Hspr). unfold va_end in Hre.
  pose proof (vm_ranges _ Hv) as Hok. rewrite El in Hok. apply ok_middle in Hok as [(_ & _ & _ & Hrb & Hrl) _].
  unfold va_end, BMEM_MAX_ADDR in Hrb, Hrl.
  pose proof (vm_apart _ Hv) as Hap. rewrite El in Hap. apply apart_middle in Hap as [_ Hap].
  exists a. split_and!; [done|done|..].
  - intros x Hx. rewrite El. apply in_va_middle. left. unfold in_range. lia.
  - intros x. rewrite El, El', !in_va_middle. unfold in_range. cbn. split.
    + intros [Hx|Hx]; [split; [left; lia|lia]|]. split; [by right|]. intros Hxa.
      apply (Hap x); [unfold in_range; lia|done].
    + intros [[Hx|Hx] Hxa]; [left; lia|by right].
  - intros x Hx. rewrite Hm by dlia. rewrite decide_True by dlia. f_equal. f_equal. unfold align_down. lia.
  - intros x Hx Hxa. rewrite Hm by done. by rewrite decide_False.
Qed.

(** C19: [mem_va_unmap] undoes [mem_va_map]: given the address returned and the same size, it
    restores the translation of every address and the set of free addresses, and the state is
    well formed again; it halts only if the table of unused ranges is full. *)
Theorem mem_va_unmap_undoes_map v pa sz pte_flags va v' :
  vm_ok v -> 0 <= pa -> 0 < sz -> pa + sz + 4096 <= 2 ^ 52 -> flags_ok pte_flags ->
  mem_va_map v pa sz pte_flags = Ok (va, v') ->
  match mem_va_unmap v' va sz with
  | Ok v2 => vm_ok v2 /\
      (forall x, 0 <= x < 2 ^ 32 -> translate (vm_pg v2) x = translate (vm_pg v) x) /\
      (forall x, in_va (unused_va_ranges v2) x <-> in_va (unused_va_ranges v) x)
  | Fail e => e = Hlt /\ Z.of_nat (length (unused_va_ranges v)) = max_unused_va_ranges v
  end.
Proof.
  intros Hv Hpa Hsz Hlim Hf E. pose proof (mem_va_map_spec v pa sz pte_flags Hv Hpa Hsz Hlim Hf) as H. rewrite E in H.
  destruct H as (a & l1 & l2 & r & El & -> & Ha & Hra & Hre & Hv' & Emax & El' & Hlw & Hm).
  destruct (span_facts pa sz Hpa Hsz) as (Hspa & Hspz & Hspr).
  pose proof (vm_ranges _ Hv) as Hok. rewrite El in Hok. apply ok_middle in Hok as [(Hrsa & _ & Hrn & Hrb & Hrl) _].
  pose proof (vm_apart _ Hv) as Hap. rewrite El in Hap. apply apart_middle in Hap as [_ Hap].
  unfold va_end, BMEM_MAX_ADDR in *.
  assert (Hfree : forall x, a <= x < a + span pa sz -> translate (vm_pg v) x = None).
  { intros x Hx. apply (vm_unmapped _ Hv). rewrite El. apply in_va_middle. left. unfold in_range. lia. }
  destruct (unmap_args a pa sz Ha ltac:(lia) Hpa Hsz ltac:(lia)) as (E1 & E2 & E3). specialize (E3 ltac:(lia)).
  unfold mem_va_unmap. destruct (Z.eqb_spec sz 0) as [|_]; [lia|]. rewrite E1, E2, E3.
  destruct (vm_tables _ Hv') as (rl & Ht).
  destruct (do_va_unmap_spec (vm_pg v') rl a (span pa sz) Ht ltac:(lia) ltac:(lia) Ha Hspa ltac:(lia))
    as (st & -> & Ht' & _ & _ & _ & Hun). cbn [mbind result_bind].
  set (n := span pa sz) in *.
  (* no large page reaches out of the region *)
  assert (Hk : forall x, a <= x < a + n -> keeps (vm_pg v') a n x = false).
  { intros x Hx. apply not_true_is_false. intros Hk. unfold keeps in Hk.
    apply andb_true_iff in Hk as [Hl Hnot]. destruct (Hlw x ltac:(lia) Hl) as [Hold|[? ?]].
    - destruct (vm_tables _ Hv) as (rl0 & Ht0). by apply (is_large_translate _ _ x Ht0 ltac:(lia) Hold), Hfree.
    - rewrite !(proj2 (Z.leb_le _ _)) in Hnot by done. done. }
  assert (Htr : forall x, 0 <= x < 2 ^ 32 -> translate st x = translate (vm_pg v) x).
  { intros x Hx. rewrite Hun, Hm by done. destruct (decide (a <= x < a + n)).
    - rewrite decide_True by auto. by rewrite Hfree.
    - rewrite decide_False by tauto. done. }
  assert (Hout : forall x, a <= x < a + n -> ~ in_va (unused_va_ranges v') x).
  { intros x Hx. rewrite El', in_va_middle. unfold in_range. cbn. intros [?|Hx2]; [lia|].
    apply (Hap x); [unfold in_range; lia|done]. }
  assert (Hset : forall x, in_va (unused_va_ranges v') x \/ a <= x < a + n <-> in_va (unused_va_ranges v) x).
  { intros x. rewrite El, El', !in_va_middle. unfold in_range. cbn. split.
    - intros [[?|?]|?]; [left; lia|by right|left; lia].
    - intros [?|?]; [|left; by right]. destruct (decide (x < a)); [left; left; lia|right; lia]. }
  pose proof (give_back_spec (unused_va_ranges v') (max_unused_va_ranges v') a n (length (unused_va_ranges v'))
    (vm_ranges _ Hv') (vm_apart _ Hv') (vm_cap _ Hv') ltac:(lia) Ha Hspa ltac:(lia) ltac:(unfold BMEM_MAX_ADDR; lia)
    ltac:(lia) Hout) as Hg.
  destruct (give_back _ _ a _ n _) as [l'|e]; cbn [mbind result_bind].
  - destruct Hg as (Hok' & Hap' & Hcap' & Hin'). cbn [vm_pg unused_va_ranges].
    assert (Hall : forall x, in_va l' x <-> in_va (unused_va_ranges v) x) by (intros x; by rewrite Hin', Hset).
    split_and!; [|done|done]. split; cbn [vm_pg unused_va_ranges max_unused_va_ranges]; [by exists rl|done|done| |done].
    intros x Hx. rewrite Htr by (by eapply va_ok_lt). by apply (vm_unmapped _ Hv), Hall.
  - destruct Hg as (-> & Hg). split; [done|]. rewrite El' in Hg. rewrite El, <- Emax.
    destruct Hg as [Hg|Hg]; [rewrite !length_app in *; exact Hg|].
    exfalso. destruct (Hg (length l1) {| va_start := va_start r; va_len := a - va_start r |}) as [_ Hne].
    + rewrite length_app. cbn. lia.
    + by apply list_lookup_middle.
    + apply Hne. unfold va_end. cbn. lia.
Qed.

(** ** Witnesses *)

(** The machine of [demo_map], brought up. *)
Definition demo_vm : vm :=
  match va_init demo_map with
  | Ok v => v
  | Fail _ => {| vm_pg := {| pg_alloc := demo_map; pg_mem := ∅; pdpt := 0 |};
                 unused_va_ranges := []; max_unused_va_ranges := 0 |}
  end.

Lemma demo_vm_ok : vm_ok demo_vm.
Proof.
  pose proof (va_init_spec demo_map demo_ready) as H. unfold demo_vm.
  destruct (va_init demo_map) as [v|f] eqn:E; [apply H|].
  assert (Hok : match va_init demo_map with Ok _ => true | Fail _ => false end = true) by (vm_compute; reflexivity).
  rewrite E in Hok. discriminate Hok.
Qed.

(** A machine whose memory map leaves no hole below 4 GiB. *)
Definition full_map : mem_map :=
  {| mem_ranges := [{| start := 0x1000; len := 0xfffff000; e820_type := E820_RAM; e820_ext_attr := 1; uefi_attr := 8 |}];
     mem_ranges_at := 0; max_mem_ranges := 16 |}.

Lemma va_init_full_map : va_init full_map = Fail OutOfBounds.
Proof. vm_compute. reflexivity. Qed.


Lemma mem_va_map_correct_witness : exists va v',
  mem_va_map demo_vm 0x123456789 0x2345 PTE_CD = Ok (va, v') /\ vm_ok v' /\ va mod 4096 = 0x789.
Proof.
  pose proof (mem_va_map_correct demo_vm 0x123456789 0x2345 PTE_CD demo_vm_ok ltac:(lia) ltac:(lia) ltac:(lia)
    ltac:(right; right; left; reflexivity)) as H.
  assert (Hok : match mem_va_map demo_vm 0x123456789 0x2345 PTE_CD with Ok (va, _) => va mod 4096 | Fail _ => 0 end = 0x789)
    by (vm_compute; reflexivity).
  destruct (mem_va_map demo_vm 0x123456789 0x2345 PTE_CD) as [[va v']|f]; [|discriminate Hok].
  exists va, v'. split; [reflexivity|]. split; [exact (proj1 H)|exact Hok].
Defined.

Lemma mem_va_unmap_undoes_map_witness : exists va v' v2,
  mem_va_map demo_vm 0x123456789 0x2345 PTE_CD = Ok (va, v') /\ mem_va_unmap v' va 0x2345 = Ok v2 /\ vm_ok v2.
Proof.
  assert (Hok : match mem_va_map demo_vm 0x123456789 0x2345 PTE_CD with
    | Ok (va, v') => match mem_va_unmap v' va 0x2345 with Ok _ => true | Fail _ => false end
    | Fail _ => false end = true) by (vm_compute; reflexivity).
  destruct (mem_va_map demo_vm 0x123456789 0x2345 PTE_CD) as [[va v']|f] eqn:E; [|discriminate Hok].
  pose proof (mem_va_unmap_undoes_map demo_vm 0x123456789 0x2345 PTE_CD va v' demo_vm_ok ltac:(lia) ltac:(lia) ltac:(lia)
    ltac:(right; right; left; reflexivity) E) as H.
  destruct (mem_va_unmap v' va 0x2345) as [v2|f] eqn:E2; [|discriminate Hok].
  exists va, v', v2. split; [reflexivity|]. split; [exact E2|exact (proj1 H)].
Defined.

Lemma do_va_map_translates_witness : exists st', do_va_map (vm_pg demo_vm) 0x40000000 0x800000000 0x201000 0 = Ok st' /\
  translate st' 0x40200123 = Some (0x800200123, 6).
Proof.
  destruct (vm_tables _ demo_vm_ok) as (rl & Ht).
  pose proof (do_va_map_translates map_limit (vm_pg demo_vm) rl 0x40000000 0x800000000 0x201000 0 Ht ltac:(lia) ltac:(lia)
    ltac:(lia) ltac:(lia) ltac:(exists 0x40000; reflexivity) ltac:(exists 0x800000; reflexivity)
    ltac:(exists 0x201; reflexivity) ltac:(lia) ltac:(left; reflexivity)) as H.
  assert (Hok : match do_va_map (vm_pg demo_vm) 0x40000000 0x800000000 0x201000 0 with Ok _ => true | Fail _ => false end = true)
    by (vm_compute; reflexivity).
  destruct (do_va_map (vm_pg demo_vm) 0x40000000 0x800000000 0x201000 0) as [st'|f]; [|discriminate Hok].
  exists st'. split; [reflexivity|]. destruct H as (_ & _ & Htr).
  rewrite Htr by lia. rewrite decide_True by lia. reflexivity.
Defined.

Lemma ensure_pt_preserves_witness : exists p pt st', ensure_pt (vm_pg demo_vm) (p + 8 * pdi_of 0x200000) = Ok (pt, st') /\
  translate st' 0x200000 = translate (vm_pg demo_vm) 0x200000.
Proof.
  destruct (vm_tables _ demo_vm_ok) as (rl & Ht).
  destruct (slot_exists _ _ 0x200000 Ht ltac:(lia)) as (p & e & Hs).
  pose proof (ensure_pt_preserves map_limit (vm_pg demo_vm) rl 0x200000 p e Ht Hs ltac:(lia)) as H.
  destruct (ensure_pt (vm_pg demo_vm) (p + 8 * pdi_of 0x200000)) as [[pt st']|f] eqn:E.
  - exists p, pt, st'. split; [exact E|]. apply H. lia.
  - exfalso.
    assert (Hok : match alc_alloc (pg_alloc (vm_pg demo_vm)) PAGE_SIZE PAGE_SIZE with Ok _ => true | Fail _ => false end = true)
      by (vm_compute; reflexivity).
    rewrite H in Hok. discriminate Hok.
Defined.

Lemma do_va_unmap_translates_witness : exists st', do_va_unmap (vm_pg demo_vm) 0 0x1000 = Ok st' /\
  translate st' 0x1000 = translate (vm_pg demo_vm) 0x1000.
Proof.
  destruct (vm_tables _ demo_vm_ok) as (rl & Ht).
  destruct (do_va_unmap_translates (vm_pg demo_vm) rl 0 0x1000 Ht ltac:(lia) ltac:(lia) ltac:(exists 0; reflexivity)
    ltac:(exists 1; reflexivity) ltac:(lia)) as (st' & E & _ & Htr).
  exists st'. split; [exact E|]. rewrite Htr by lia. rewrite decide_False by lia. reflexivity.
Defined.
