(* ===== verification/AddrSpace.v ===== *)
(** * The address space of stage 2, as its clients see it (src/stage2/stage2.h)

    [mem_va_map] and [mem_va_unmap] of src/stage2/mem.c let src/stage2/irq.c look at physical
    memory that stage 2 does not otherwise map.  The class states what such a client may rely on:
    a list of live mappings, each of which translates its addresses as asked for, over a set of
    translations that never changes.  [VaLive] shows that mem.c keeps the promise; [Irq] is
    proved against the class alone.  A run of requests in any order keeps it. *)

From S2P Require Import Prelude Paging.

(** A block that [mem_va_map] returned and [mem_va_unmap] has not taken back. *)
Record mapping := { m_va : Z; m_pa : Z; m_sz : Z; m_flags : Z }.

Definition map_args (pa sz f : Z) : Prop := 0 <= pa /\ 0 < sz /\ pa + sz + 4096 <= 2 ^ 52 /\ flags_ok f.

Class AddrSpace (V : Type) := {
  as_map : V -> Z -> Z -> Z -> result (Z * V);
  as_unmap : V -> Z -> Z -> result V;
  as_look : V -> Z -> option (Z * Z);
  as_live : (Z -> option (Z * Z)) -> list mapping -> V -> Prop;
}.

(** Memory or addresses have run out. *)
Definition exhausted (f : failure) : Prop := f = Hlt \/ f = OutOfBounds.

Class AddrSpaceLaws (V : Type) `{AddrSpace V} := {
  as_map_live : forall base ms v pa sz f, as_live base ms v -> map_args pa sz f ->
    match as_map v pa sz f with
    | Ok (va, v') => as_live base ({| m_va := va; m_pa := pa; m_sz := sz; m_flags := f |} :: ms) v'
    | Fail e => exhausted e
    end;
  as_unmap_live : forall base ms1 m ms2 v, as_live base (ms1 ++ m :: ms2) v ->
    match as_unmap v (m_va m) (m_sz m) with
    | Ok v' => as_live base (ms1 ++ ms2) v'
    | Fail e => exhausted e
    end;
  as_look_live : forall base ms v m i, as_live base ms v -> m ∈ ms -> 0 <= i < m_sz m ->
    as_look v (m_va m + i) = Some (m_pa m + i, 6 + m_flags m);
  as_va_range : forall base ms v m, as_live base ms v -> m ∈ ms -> 0 < m_va m /\ m_va m + m_sz m <= 2 ^ 32;
  as_apart : forall base ms v i j m n, as_live base ms v -> (i < j)%nat -> ms !! i = Some m -> ms !! j = Some n ->
    disjoint_ranges (m_va m) (m_sz m) (m_va n) (m_sz n);
  as_look_base : forall base v x, as_live base [] v -> 0 <= x < 2 ^ 32 -> as_look v x = base x;
}.

(** ** Runs of requests *)

Section run.
Context {V : Type} `{HV : AddrSpace V} `{HL : !AddrSpaceLaws V}.

(** A mapping, or the end of the live mapping number [i]. *)
Inductive as_req := MapReq (pa sz f : Z) | UnmapReq (i : nat).

Definition as_req_ok (r : as_req) : Prop := match r with MapReq pa sz f => map_args pa sz f | UnmapReq _ => True end.

(** One request; the live mappings are kept as a client would keep them. *)
Definition as_step (ms : list mapping) (v : V) (r : as_req) : result (list mapping * V) :=
  match r with
  | MapReq pa sz f =>
      '(va, v) ← as_map v pa sz f;
      Ok ({| m_va := va; m_pa := pa; m_sz := sz; m_flags := f |} :: ms, v)
  | UnmapReq i =>
      match ms !! i with
      | None => Ok (ms, v)
      | Some m => v ← as_unmap v (m_va m) (m_sz m); Ok (take i ms ++ drop (S i) ms, v)
      end
  end.

Fixpoint as_run (ms : list mapping) (v : V) (rs : list as_req) : result (list mapping * V) :=
  match rs with
  | [] => Ok (ms, v)
  | r :: rs => '(ms, v) ← as_step ms v r; as_run ms v rs
  end.

Lemma as_step_live base ms v r :
  as_live base ms v -> as_req_ok r ->
  match as_step ms v r with Ok (ms', v') => as_live base ms' v' | Fail e => exhausted e end.
Proof.
  intros Hl Hr. destruct r as [pa sz f|i]; cbn [as_step as_req_ok] in *.
  - pose proof (as_map_live base ms v pa sz f Hl Hr) as H.
    destruct (as_map v pa sz f) as [[va v']|e]; cbn [mbind result_bind]; exact H.
  - destruct (ms !! i) as [m|] eqn:Hm; [|done]. rewrite <- (take_drop_middle ms i m Hm) in Hl at 1.
    pose proof (as_unmap_live base _ m _ v Hl) as H.
    destruct (as_unmap v (m_va m) (m_sz m)) as [v'|e]; cbn [mbind result_bind]; exact H.
Qed.

Lemma as_run_live base rs : forall ms v,
  as_live base ms v -> Forall as_req_ok rs ->
  match as_run ms v rs with Ok (ms', v') => as_live base ms' v' | Fail e => exhausted e end.
Proof.
  induction rs as [|r rs IH]; intros ms v Hl Hrs; cbn [as_run]; [done|]. inversion_clear Hrs as [|? ? Hr Hrs'].
  pose proof (as_step_live base ms v r Hl Hr) as H.
  destruct (as_step ms v r) as [[ms' v']|e]; cbn [mbind result_bind]; [by apply IH|done].
Qed.
End run.
