(* ===== verification/VaLive.v ===== *)
(** * [mem_va_map] and [mem_va_unmap] keep the promises of an address space (src/stage2/mem.c)

    The instance of [AddrSpace] for the state of [Va], and the proof of its laws: mappings may be
    made and ended in any order, and the others stay as they are.  [Va] has the theorems about a
    single call. *)

From stdpp Require Import sorting.
From S2P Require Import Prelude Bparm MemMap Paging Va AddrSpace.

(** ** The invariant *)

Definition m_base (m : mapping) : Z := m_va m - m_pa m mod 4096.
Definition m_span (m : mapping) : Z := span (m_pa m) (m_sz m).
Definition in_pages (m : mapping) (x : Z) : Prop := in_span (m_base m) (m_span m) x.

Record mapping_ok (m : mapping) : Prop := {
  mo_args : map_args (m_pa m) (m_sz m) (m_flags m);
  mo_aligned : (4096 | m_base m);
  mo_low : BMEM_MAX_ADDR <= m_base m;
  mo_high : m_base m + m_span m <= 2 ^ 32;
}.

Definition pages_apart (m n : mapping) : Prop := forall x, in_pages m x -> ~ in_pages n x.

#[export] Instance pages_apart_sym : Symmetric pages_apart.
Proof. intros m n H x Hn Hm. by apply (H x). Qed.

Definition in_some (ms : list mapping) (x : Z) : Prop := exists m, m ∈ ms /\ in_pages m x.

Record vm_live (base : Z -> option (Z * Z)) (ms : list mapping) (v : vm) : Prop := {
  lv_ok : vm_ok v;
  lv_blocks : Forall mapping_ok ms;
  lv_apart : StronglySorted pages_apart ms;
  lv_taken : forall x, in_some ms x -> ~ in_va (unused_va_ranges v) x;
  lv_look : forall m x, m ∈ ms -> in_pages m x ->
    translate (vm_pg v) x = Some (align_down (m_pa m) 4096 + (x - m_base m), 6 + m_flags m);
  lv_large : forall m x, m ∈ ms -> in_pages m x -> is_large (vm_pg v) x = true ->
    m_base m <= align_down x LARGE_PAGE_SIZE /\ align_down x LARGE_PAGE_SIZE + LARGE_PAGE_SIZE <= m_base m + m_span m;
  lv_base : forall x, 0 <= x < 2 ^ 32 -> ~ in_some ms x -> translate (vm_pg v) x = base x;
  lv_hole : forall x, in_va (unused_va_ranges v) x \/ in_some ms x -> base x = None;
}.

Lemma in_some_cons m ms x : in_some (m :: ms) x <-> in_pages m x \/ in_some ms x.
Proof.
  unfold in_some. setoid_rewrite elem_of_cons. split.
  - intros (n & [->|Hn] & Hx); [by left|right; by exists n].
  - intros [Hx|(n & Hn & Hx)]; [exists m|exists n]; auto.
Qed.

Lemma vm_live_perm base ms ms' v : ms ≡ₚ ms' -> vm_live base ms v -> vm_live base ms' v.
Proof.
  intros Hp [H1 H2 H3 H4 H5 H6 H7 H8].
  assert (Hin : forall x, in_some ms' x <-> in_some ms x) by (intros x; unfold in_some; by setoid_rewrite Hp).
  split; [done|by rewrite <- Hp|by apply (StronglySorted_perm pages_apart ms)|..].
  - intros x ?%Hin. by apply H4.
  - intros m x Hm. rewrite <- Hp in Hm. by apply H5.
  - intros m x Hm. rewrite <- Hp in Hm. by apply H6.
  - intros x Hx Hn. apply H7; [done|]. by rewrite <- Hin.
  - intros x. rewrite Hin. apply H8.
Qed.

Lemma in_pages_range m x : mapping_ok m -> in_pages m x -> 0 <= x < 2 ^ 32.
Proof. intros [_ _ Hl Hh]. unfold in_pages, in_span, BMEM_MAX_ADDR in *. lia. Qed.

(** The bytes of a block are in its pages. *)
Lemma in_pages_byte m i : mapping_ok m -> 0 <= i < m_sz m -> in_pages m (m_va m + i).
Proof.
  intros [(Hpa & Hsz & _) _ _ _] Hi. destruct (span_facts (m_pa m) (m_sz m) Hpa Hsz) as (_ & _ & ?).
  unfold in_pages, in_span, m_base, m_span. dlia.
Qed.

(** ** [mem_va_map] *)

Lemma vm_live_map base ms v pa sz f :
  vm_live base ms v -> map_args pa sz f ->
  match mem_va_map v pa sz f with
  | Ok (va, v') => vm_live base ({| m_va := va; m_pa := pa; m_sz := sz; m_flags := f |} :: ms) v'
  | Fail e => exhausted e
  end.
Proof.
  intros Hlive (Hpa & Hsz & Hlim & Hf). pose proof (lv_ok _ _ _ Hlive) as Hv.
  pose proof (mem_va_map_spec v pa sz f Hv Hpa Hsz Hlim Hf) as H.
  destruct (mem_va_map v pa sz f) as [[va v']|e]; cycle 1.
  { destruct H as [H|[-> _]]; [|by left]. destruct (vm_tables _ Hv) as (rl & Ht).
    exact (no_page_failure _ _ (tables_ready _ _ Ht) H). }
  destruct H as (a & l1 & l2 & r & El & -> & Ha & Hra & Hre & Hv' & _ & El' & Hlw & Hm).
  destruct (span_facts pa sz Hpa Hsz) as (_ & Hspz & _).
  set (m := {| m_va := a + pa mod 4096; m_pa := pa; m_sz := sz; m_flags := f |}).
  assert (Em : m_base m = a) by (unfold m_base; cbn; lia).
  assert (Hpg : forall x, in_pages m x <-> a <= x < a + span pa sz) by (intros x; unfold in_pages, in_span; by rewrite Em).
  pose proof (vm_ranges _ Hv) as Hok. rewrite El in Hok. apply ok_middle in Hok as [(_ & _ & _ & Hrb & Hrl) _].
  pose proof (vm_apart _ Hv) as Hap. rewrite El in Hap. apply apart_middle in Hap as [_ Hap].
  unfold va_end, BMEM_MAX_ADDR in *.
  assert (Hfree : forall x, in_pages m x -> in_va (unused_va_ranges v) x).
  { intros x ?%Hpg. rewrite El. apply in_va_middle. left. unfold in_range. lia. }
  assert (Hsub : forall x, in_va (unused_va_ranges v') x -> in_va (unused_va_ranges v) x /\ ~ in_pages m x).
  { intros x. rewrite El, El', !in_va_middle, Hpg. unfold in_range. cbn [va_start va_len].
    intros [Hx|Hx]; [split; [left|]; lia|]. split; [by right|]. intros Hxa. apply (Hap x); [unfold in_range; lia|done]. }
  assert (Hnew : forall n x, n ∈ ms -> in_pages n x -> ~ in_pages m x).
  { intros n x Hn Hx Hxm. apply (lv_taken _ _ _ Hlive x); [by exists n|by apply Hfree]. }
  assert (Hmok : mapping_ok m).
  { split; rewrite ?Em; [done|done|unfold BMEM_MAX_ADDR; lia|unfold m_span; cbn; lia]. }
  split; [done|by constructor; [|apply Hlive]|..].
  - constructor; [apply Hlive|]. apply Forall_forall. intros n Hn x Hx Hxn. by apply (Hnew n x).
  - intros x [Hx|Hx]%in_some_cons Hin; apply Hsub in Hin as [Hin Hout]; [done|]. by apply (lv_taken _ _ _ Hlive x).
  - intros n x [->|Hn]%elem_of_cons Hx.
    + rewrite Hm by (by eapply in_pages_range). rewrite decide_True by (by apply Hpg). by rewrite Em.
    + pose proof (proj1 (Forall_forall _ _) (lv_blocks _ _ _ Hlive) n Hn) as Hnok.
      rewrite Hm by (by eapply in_pages_range). rewrite decide_False; [by apply Hlive|].
      rewrite <- Hpg. by apply (Hnew n).
  - intros n x [->|Hn]%elem_of_cons Hx Hl; (destruct (Hlw x) as [Hold|Hin]; [|done|..]).
    1, 4: eapply in_pages_range; [|done]; first [done|exact (proj1 (Forall_forall _ _) (lv_blocks _ _ _ Hlive) n Hn)].
    + exfalso. destruct (vm_tables _ Hv) as (rl & Ht).
      apply (is_large_translate _ _ x Ht (in_pages_range _ _ Hmok Hx) Hold), (vm_unmapped _ Hv), Hfree, Hx.
    + rewrite Em. exact Hin.
    + by apply (lv_large _ _ _ Hlive).
    + exfalso. apply (Hnew n x Hn Hx), Hpg. unfold align_down, LARGE_PAGE_SIZE in Hin. dlia.
  - intros x Hx Hn. rewrite in_some_cons in Hn. rewrite Hm by done.
    rewrite decide_False by (rewrite <- Hpg; tauto). apply Hlive; [done|tauto].
  - intros x. rewrite in_some_cons. intros [Hx|[Hx|Hx]]; apply (lv_hole _ _ _ Hlive); [left; by apply Hsub|left; by apply Hfree|by right].
Qed.

(** ** [mem_va_unmap] *)

Lemma vm_live_unmap base m ms v :
  vm_live base (m :: ms) v ->
  match mem_va_unmap v (m_va m) (m_sz m) with
  | Ok v' => vm_live base ms v'
  | Fail e => exhausted e
  end.
Proof.
  intros Hlive. pose proof (lv_ok _ _ _ Hlive) as Hv. pose proof (lv_blocks _ _ _ Hlive) as Hms.
  apply Forall_cons in Hms as [Hmok Hms]. pose proof Hmok as [(Hpa & Hsz & _ & _) Ha Hlo Hhi].
  pose proof (lv_apart _ _ _ Hlive) as Hap. apply StronglySorted_cons in Hap as [Happ Hap].
  destruct (span_facts (m_pa m) (m_sz m) Hpa Hsz) as (Hspa & Hspz & _). fold (m_span m) in Hspa, Hspz.
  unfold BMEM_MAX_ADDR in Hlo.
  destruct (unmap_args (m_base m) (m_pa m) (m_sz m) Ha ltac:(lia) Hpa Hsz Hhi) as (E1 & E2 & E3).
  fold (m_span m) in E2, E3. specialize (E3 ltac:(lia)).
  replace (m_base m + m_pa m mod 4096) with (m_va m) in E1, E2 by (unfold m_base; lia).
  unfold mem_va_unmap. destruct (Z.eqb_spec (m_sz m) 0) as [|_]; [lia|]. rewrite E1, E2, E3.
  destruct (vm_tables _ Hv) as (rl & Ht).
  destruct (do_va_unmap_spec (vm_pg v) rl (m_base m) (m_span m) Ht ltac:(lia) ltac:(lia) Ha Hspa ltac:(lia))
    as (st & -> & Ht' & _ & _ & Hkept & Hun). cbn [mbind result_bind].
  assert (Htr : forall x, 0 <= x < 2 ^ 32 ->
    translate st x = if decide (in_span (m_base m) (m_span m) x) then None else translate (vm_pg v) x).
  { intros x Hx. rewrite Hun by done. unfold in_span. destruct (decide (m_base m <= x < m_base m + m_span m)) as [Hin|Hin].
    - rewrite decide_True; [done|]. split; [done|]. unfold keeps. apply not_true_is_false.
      intros [Hl Hnot]%andb_true_iff. destruct (lv_large _ _ _ Hlive m x ltac:(by left) Hin Hl) as [? ?].
      by rewrite !(proj2 (Z.leb_le _ _)) in Hnot by done.
    - rewrite decide_False; [done|tauto]. }
  assert (Hout : forall x, m_base m <= x < m_base m + m_span m -> ~ in_va (unused_va_ranges v) x).
  { intros x Hx. apply (lv_taken _ _ _ Hlive), in_some_cons. by left. }
  pose proof (give_back_spec (unused_va_ranges v) (max_unused_va_ranges v) (m_base m) (m_span m)
    (length (unused_va_ranges v)) (vm_ranges _ Hv) (vm_apart _ Hv) (vm_cap _ Hv) ltac:(lia) Ha Hspa ltac:(lia) Hlo Hhi Hout) as Hg.
  destruct (give_back _ _ _ _ _ _) as [l'|e]; cbn [mbind result_bind]; [|by left; apply Hg].
  destruct Hg as (Hok' & Hap' & Hcap' & Hin').
  assert (Hother : forall n x, n ∈ ms -> in_pages n x -> ~ in_span (m_base m) (m_span m) x /\ 0 <= x < 2 ^ 32).
  { intros n x Hn Hx. rewrite Forall_forall in Happ, Hms. split; [|by apply (in_pages_range n x (Hms n Hn))].
    intros Hxm. by apply (Happ n Hn x). }
  split; cbn [vm_pg unused_va_ranges max_unused_va_ranges]; try done.
  - split; cbn [vm_pg unused_va_ranges max_unused_va_ranges]; [by exists rl|done|done| |done].
    intros x Hx. rewrite Htr by (by eapply va_ok_lt). case_decide as Hin; [done|].
    apply Hin' in Hx as [Hx|Hx]; [by apply (vm_unmapped _ Hv)|done].
  - intros x (n & Hn & Hx) [Hx'|Hx']%Hin'; [|by destruct (Hother n x Hn Hx)].
    apply (lv_taken _ _ _ Hlive x); [|done]. apply in_some_cons. right. by exists n.
  - intros n x Hn Hx. destruct (Hother n x Hn Hx) as [Hno Hr]. rewrite Htr by done. rewrite decide_False by done.
    apply (lv_look _ _ _ Hlive); [by right|done].
  - intros n x Hn Hx Hl. destruct (Hother n x Hn Hx) as [_ Hr].
    apply (lv_large _ _ _ Hlive n x); [by right|done|by apply Hkept].
  - intros x Hx Hno. rewrite Htr by done. case_decide as Hin.
    + symmetry. apply (lv_hole _ _ _ Hlive). right. apply in_some_cons. by left.
    + apply (lv_base _ _ _ Hlive); [done|]. by intros [?|?]%in_some_cons.
  - intros x Hx. apply (lv_hole _ _ _ Hlive). rewrite in_some_cons, Hin' in *. unfold in_pages, in_span in *. tauto.
Qed.

(** ** The instance *)

#[export] Instance vm_space : AddrSpace vm :=
  {| as_map := mem_va_map; as_unmap := mem_va_unmap; as_look v x := translate (vm_pg v) x; as_live := vm_live |}.

#[export] Instance vm_space_laws : AddrSpaceLaws vm.
Proof.
  split; cbn [as_map as_unmap as_look as_live vm_space].
  - exact vm_live_map.
  - intros base ms1 m ms2 v Hl. apply vm_live_unmap.
    eapply vm_live_perm; [symmetry; apply Permutation_middle|exact Hl].
  - intros base ms v m i Hl Hm Hi. pose proof (proj1 (Forall_forall _ _) (lv_blocks _ _ _ Hl) m Hm) as Hok.
    rewrite (lv_look _ _ _ Hl m) by (done || by apply in_pages_byte). f_equal. f_equal.
    destruct Hok as [(? & ? & _) _ _ _]. unfold m_base, align_down. lia.
  - intros base ms v m Hl Hm. pose proof (proj1 (Forall_forall _ _) (lv_blocks _ _ _ Hl) m Hm) as [(Hpa & Hsz & _) _ Hlo Hhi].
    destruct (span_facts _ _ Hpa Hsz) as (_ & _ & ?). unfold m_base, m_span, BMEM_MAX_ADDR in *. dlia.
  - intros base ms v i j m n Hl Hij Hm Hn.
    pose proof (proj1 (Forall_lookup _ _) (lv_blocks _ _ _ Hl) i m Hm) as Hmok.
    pose proof (proj1 (Forall_lookup _ _) (lv_blocks _ _ _ Hl) j n Hn) as Hnok.
    apply disjoint_ranges_spec; [apply Hmok|apply Hnok|].
    intros x Hx Hy. unfold in_range in *. pose proof (lv_apart _ _ _ Hl) as Hap.
    rewrite <- (take_drop_middle ms i m Hm) in Hap.
    pose proof (proj1 (StronglySorted_app _ _ _) Hap) as (_ & _ & Hmid). apply StronglySorted_cons in Hmid as [Hmid _].
    rewrite Forall_forall in Hmid. apply (Hmid n) with x.
    + apply list_elem_of_lookup. exists (j - S i)%nat. rewrite lookup_drop. by replace (S i + (j - S i))%nat with j by lia.
    + replace x with (m_va m + (x - m_va m)) by lia. apply in_pages_byte; [done|lia].
    + replace x with (m_va n + (x - m_va n)) by lia. apply in_pages_byte; [done|lia].
  - intros base v x Hl Hx. apply (lv_base _ _ _ Hl); [done|]. by intros (m & ?%not_elem_of_nil & _).
Qed.

(** The state that [va_init] leaves has no live mapping. *)
Lemma vm_live_nil v : vm_ok v -> vm_live (fun x => translate (vm_pg v) x) [] v.
Proof.
  intros Hv. split; [done|constructor|constructor|..].
  - by intros x (m & ?%not_elem_of_nil & _).
  - by intros m x ?%not_elem_of_nil.
  - by intros m x ?%not_elem_of_nil.
  - done.
  - intros x [Hx|(m & ?%not_elem_of_nil & _)]; [by apply (vm_unmapped _ Hv)|done].
Qed.

(** Any sequence of calls of [mem_va_map] and [mem_va_unmap], the mappings ended in any order:
    every mapping that is still live translates each of its bytes to the physical address asked
    for, with its flags; no two of them share an address; every address outside their pages is
    translated as at the start; and a call fails only by halting or by running off the memory map,
    when memory or addresses are used up. *)
Theorem mem_va_run_live v rs :
  vm_ok v -> Forall as_req_ok rs ->
  match as_run [] v rs with
  | Ok (ms, v') => vm_ok v' /\
      (forall m i, m ∈ ms -> 0 <= i < m_sz m ->
        translate (vm_pg v') (m_va m + i) = Some (m_pa m + i, 6 + m_flags m)) /\
      (forall i j m n, (i < j)%nat -> ms !! i = Some m -> ms !! j = Some n ->
        disjoint_ranges (m_va m) (m_sz m) (m_va n) (m_sz n)) /\
      (forall x, 0 <= x < 2 ^ 32 -> ~ in_some ms x -> translate (vm_pg v') x = translate (vm_pg v) x)
  | Fail e => exhausted e
  end.
Proof.
  intros Hv Hrs. pose proof (as_run_live _ rs [] v (vm_live_nil v Hv) Hrs) as H.
  destruct (as_run [] v rs) as [[ms v']|e]; [|done]. split_and!.
  - apply (lv_ok _ _ _ H).
  - intros m i. apply (as_look_live _ ms v' m i H).
  - intros i j m n. apply (as_apart _ ms v' i j m n H).
  - apply (lv_base _ _ _ H).
Qed.

(** ** Witness: two mappings, the older one ended first, then a third *)

Definition demo_reqs : list as_req :=
  [MapReq 0x7ff12345 0x2000 0; MapReq 0x812345678 0x300000 PTE_CD; UnmapReq 1; MapReq 0x900 4 0].

Lemma mem_va_run_live_witness :
  exists ms v', as_run [] demo_vm demo_reqs = Ok (ms, v') /\ map m_pa ms = [0x900; 0x812345678] /\
    forall m i, m ∈ ms -> 0 <= i < m_sz m -> translate (vm_pg v') (m_va m + i) = Some (m_pa m + i, 6 + m_flags m).
Proof.
  assert (Hok : match as_run [] demo_vm demo_reqs with
    | Ok (ms, _) => bool_decide (map m_pa ms = [0x900; 0x812345678]) | Fail _ => false end = true)
    by (vm_compute; reflexivity).
  assert (Hargs : Forall as_req_ok demo_reqs).
  { unfold demo_reqs. rewrite !Forall_cons. unfold as_req_ok, map_args, flags_ok, PTE_CD. split_and!; first [lia|exact I|constructor]. }
  pose proof (mem_va_run_live demo_vm demo_reqs demo_vm_ok Hargs) as H.
  destruct (as_run [] demo_vm demo_reqs) as [[ms v']|e]; [|discriminate Hok].
  apply bool_decide_eq_true_1 in Hok. exists ms, v'. split; [reflexivity|]. split; [exact Hok|]. apply H.
Defined.
