(* ===== verification/Tlb.v ===== *)
(** * The processor's translation cache (src/stage2/stage2.h, src/stage2/mem.c)

    A write to a page table does not reach the translations that the processor has cached; only
    [flush_cr3], with which src/stage2/mem.c ends [mem_va_map] and [mem_va_unmap], drops them.
    The state here is the one of [Va] together with CR3 and that cache.  The cached machine is
    another instance of [AddrSpace]: whatever the processor caches or evicts, and whatever it picks
    up while the tables are being changed, its clients see the translations of the tables. *)

From S2P Require Import Prelude Bparm MemMap Paging Va AddrSpace VaLive.

(** ** The state: the tables, CR3 and the cached translations, by page number *)

Record mmu := { mm_vm : vm; mm_cr3 : Z; mm_tlb : gmap Z (Z * Z) }.

(** The walk that the processor does, from CR3. *)
Definition mmu_walk (c : mmu) (x : Z) : option (Z * Z) := pae_walk (pg_mem (vm_pg (mm_vm c))) (mm_cr3 c) x.

(** The translation it uses: the cached one, or else that of the walk. *)
Definition mmu_look (c : mmu) (x : Z) : option (Z * Z) :=
  match mm_tlb c !! (x / 4096) with
  | Some (frame, f) => Some (frame + x mod 4096, f)
  | None => mmu_walk c x
  end.

Definition with_tlb (t : gmap Z (Z * Z)) (c : mmu) : mmu := {| mm_vm := mm_vm c; mm_cr3 := mm_cr3 c; mm_tlb := t |}.

(** What a processor may do to its cache at any time: look a page up, or forget it. *)
Inductive cache_event := CacheFill (page : Z) | CacheEvict (page : Z).

Definition cache_step (c : mmu) (e : cache_event) : mmu :=
  match e with
  | CacheFill page =>
      match mmu_look c (4096 * page) with
      | Some t => with_tlb (<[page := t]> (mm_tlb c)) c
      | None => c
      end
  | CacheEvict page => with_tlb (delete page (mm_tlb c)) c
  end.

(** ** CR3 *)

Definition rd_cr3 (c : mmu) : Z := mm_cr3 c.

(** A write drops the cached translations: stage 2 sets neither the global bit of an entry nor
    CR4.PGE. *)
Definition wr_cr3 (p : Z) (c : mmu) : mmu := {| mm_vm := mm_vm c; mm_cr3 := p; mm_tlb := ∅ |}.

Definition flush_cr3 (c : mmu) : mmu := wr_cr3 (rd_cr3 c) c.

(** ** The two calls, on the processor *)

Section machine.
(** What the cache holds when the tables have been changed, which is anything; and what the
    processor does to its cache until the next call. *)
Variable stale : mmu -> vm -> gmap Z (Z * Z).
Variable events : mmu -> list cache_event.

Definition settle (c : mmu) : mmu := foldl cache_step c (events c).

(** The tables are now those of [v], and the cache is as it may be. *)
Definition rewritten (c : mmu) (v : vm) : mmu := {| mm_vm := v; mm_cr3 := mm_cr3 c; mm_tlb := stale c v |}.

Definition mmu_va_map (c : mmu) (pa sz pte_flags : Z) : result (Z * mmu) :=
  '(va, v) ← mem_va_map (mm_vm c) pa sz pte_flags;
  Ok (va, settle (if sz =? 0 then c else flush_cr3 (rewritten c v))).

Definition mmu_va_unmap (c : mmu) (va sz : Z) : result mmu :=
  v ← mem_va_unmap (mm_vm c) va sz;
  Ok (settle (if sz =? 0 then c else flush_cr3 (rewritten c v))).

(** ** A cache that agrees with the tables *)

Record coherent (c : mmu) : Prop := {
  co_cr3 : mm_cr3 c = pdpt (vm_pg (mm_vm c));
  co_tlb : forall page frame f, mm_tlb c !! page = Some (frame, f) ->
    translate (vm_pg (mm_vm c)) (4096 * page) = Some (frame, f);
}.

(** Within a page the walk differs by the offset only. *)
Lemma walk_page m p x :
  pae_walk m p x = (fun t => (fst t + x mod 4096, snd t)) <$> pae_walk m p (4096 * (x / 4096)).
Proof.
  assert (E12 : 4096 * (x / 4096) / 2 ^ 12 = x / 2 ^ 12) by dlia.
  assert (E21 : 4096 * (x / 4096) / 2 ^ 21 = x / 2 ^ 21) by dlia.
  assert (E30 : 4096 * (x / 4096) / 2 ^ 30 = x / 2 ^ 30) by dlia.
  assert (M12 : (4096 * (x / 4096)) mod 2 ^ 12 = 0) by dlia.
  assert (M21 : x mod 2 ^ 21 = (4096 * (x / 4096)) mod 2 ^ 21 + x mod 4096) by dlia.
  unfold pae_walk, pae_pde. rewrite E21, E30. destruct (m !! _) as [pdpte|]; cbn [mbind option_bind]; [|done].
  destruct (negb (Z.testbit pdpte 0)); [done|].
  destruct (m !! _) as [pde|]; cbn [mbind option_bind]; [|done].
  unfold walk_pde. rewrite E12, M12. destruct (negb (Z.testbit pde 0)); [done|].
  destruct (Z.testbit pde 7).
  { cbn [fmap option_fmap option_map fst snd]. rewrite M21. by rewrite Z.add_assoc. }
  destruct (m !! _) as [pte|]; cbn [mbind option_bind]; [|done].
  destruct (negb (Z.testbit pte 0)); [done|]. cbn [fmap option_fmap option_map fst snd].
  by rewrite Z.add_0_r.
Qed.

Lemma coherent_walk c x : coherent c -> mmu_walk c x = translate (vm_pg (mm_vm c)) x.
Proof. intros [H _]. unfold mmu_walk, translate. by rewrite H. Qed.

Lemma coherent_look c x : coherent c -> mmu_look c x = translate (vm_pg (mm_vm c)) x.
Proof.
  intros Hc. unfold mmu_look. destruct (mm_tlb c !! (x / 4096)) as [[frame f]|] eqn:E; [|by apply coherent_walk].
  apply (co_tlb _ Hc) in E. unfold translate in *. rewrite (walk_page _ _ x), E. done.
Qed.

Lemma cache_step_ok c e : coherent c -> coherent (cache_step c e) /\ mm_vm (cache_step c e) = mm_vm c.
Proof.
  intros Hc. pose proof Hc as [H3 Ht]. destruct e as [page|page]; cbn [cache_step].
  - rewrite coherent_look by done. destruct (translate _ _) as [[q g]|] eqn:E; [|done].
    split; [|done]. split; [done|]. cbn [with_tlb mm_tlb mm_vm]. intros page' frame f.
    destruct (decide (page = page')) as [<-|Hne].
    + rewrite lookup_insert_eq. intros [= <- <-]. exact E.
    + rewrite lookup_insert_ne by done. apply Ht.
  - split; [|done]. split; [done|]. cbn [with_tlb mm_tlb mm_vm]. intros page' frame f [_ H]%lookup_delete_Some.
    by apply Ht.
Qed.

Lemma cache_steps_ok es : forall c, coherent c -> coherent (foldl cache_step c es) /\ mm_vm (foldl cache_step c es) = mm_vm c.
Proof.
  induction es as [|e es IH]; intros c Hc; cbn [foldl]; [done|].
  destruct (cache_step_ok c e Hc) as [Hc' <-]. by apply IH.
Qed.

(** *** The tables stay where they are *)

Definition keeps_pdpt {A} (st : pgt A) (r : result (pgt A)) : Prop := post r (fun st' => pdpt st' = pdpt st) (fun _ => True).

Definition step_keeps {A B} (st : pgt A) (r : result (B * pgt A)) : Prop :=
  post r (fun r => pdpt (snd r) = pdpt st) (fun _ => True).

Lemma ensure_pt_pdpt (st : pgt mem_map) a : step_keeps st (ensure_pt st a).
Proof.
  unfold step_keeps, ensure_pt, alloc_page. destruct (rd st a) as [pde|]; cbn [mbind result_bind post]; [|done].
  destruct (_ && _); [done|]. destruct (alc_alloc _ _ _) as [[p m]|]; cbn [mbind result_bind post]; [|done].
  by destruct (negb _).
Qed.

Lemma va_map_step_pdpt (st : pgt mem_map) va pa len f : step_keeps st (va_map_step st va pa len f).
Proof.
  unfold step_keeps, va_map_step. destruct (pd_of st va) as [pd|]; cbn [mbind result_bind post]; [|done].
  destruct (rd st _) as [pde|]; cbn [mbind result_bind post]; [|done]. destruct (_ && _); [done|].
  pose proof (ensure_pt_pdpt st (pd + 8 * pdi_of va)) as H. unfold step_keeps in H.
  by destruct (ensure_pt _ _) as [[pt st']|].
Qed.

Lemma va_map_loop_pdpt fuel : forall (st : pgt mem_map) va pa len f, keeps_pdpt st (va_map_loop fuel st va pa len f).
Proof.
  induction fuel as [|fuel IH]; intros st va pa len f; cbn [va_map_loop]; destruct (len =? 0); try done.
  pose proof (va_map_step_pdpt st va pa len f) as H. unfold step_keeps in H.
  destruct (va_map_step _ _ _ _ _) as [[n st']|]; cbn [mbind result_bind post snd] in *; [|done].
  specialize (IH st' (u32 (va + n)) (u64 (pa + n)) (u32 (len - n)) f). unfold keeps_pdpt in *. by rewrite <- H.
Qed.

Lemma va_unmap_step_pdpt (st : pgt mem_map) va len : step_keeps st (va_unmap_step st va len).
Proof.
  unfold step_keeps, va_unmap_step. destruct (pd_of st va) as [pd|]; cbn [mbind result_bind post]; [|done].
  destruct (rd st _) as [pde|]; cbn [mbind result_bind post]; [|done].
  destruct (negb _); [by destruct (_ && _)|]. by destruct (negb _).
Qed.

Lemma va_unmap_loop_pdpt fuel : forall (st : pgt mem_map) va len, keeps_pdpt st (va_unmap_loop fuel st va len).
Proof.
  induction fuel as [|fuel IH]; intros st va len; cbn [va_unmap_loop]; destruct (len =? 0); try done.
  pose proof (va_unmap_step_pdpt st va len) as H. unfold step_keeps in H.
  destruct (va_unmap_step _ _ _) as [[n st']|]; cbn [mbind result_bind post snd] in *; [|done].
  specialize (IH st' (u32 (va + n)) (u32 (len - n))). unfold keeps_pdpt in *. by rewrite <- H.
Qed.

Definition same_pdpt (v v' : vm) : Prop := pdpt (vm_pg v') = pdpt (vm_pg v).

Lemma mem_va_map_pdpt v pa sz f : post (mem_va_map v pa sz f) (fun r => same_pdpt v (snd r)) (fun _ => True).
Proof.
  unfold mem_va_map. destruct (sz =? 0); [done|]. cbv zeta. destruct (_ >=? _); [done|].
  destruct (find_unused _ _ _) as [[i r]|]; [|done].
  match goal with |- post (mbind _ ?r) _ _ => pose proof (va_map_loop_pdpt _ _ _ _ _ _ : keeps_pdpt _ r) as H; destruct r end;
    [|done]. exact H.
Qed.

Lemma mem_va_unmap_pdpt v va sz : post (mem_va_unmap v va sz) (same_pdpt v) (fun _ => True).
Proof.
  unfold mem_va_unmap. destruct (sz =? 0); [done|]. cbv zeta.
  match goal with |- post (mbind _ ?r) _ _ => pose proof (va_unmap_loop_pdpt _ _ _ _ : keeps_pdpt _ r) as H; destruct r end;
    cbn [mbind result_bind post]; [|done]. destruct (give_back _ _ _ _ _ _); [|done]. exact H.
Qed.

(** *** The calls keep the cache coherent *)

Lemma settle_ok c : coherent c -> coherent (settle c) /\ mm_vm (settle c) = mm_vm c.
Proof. apply cache_steps_ok. Qed.

Lemma flushed_ok c v :
  coherent c -> same_pdpt (mm_vm c) v ->
  coherent (settle (flush_cr3 (rewritten c v))) /\ mm_vm (settle (flush_cr3 (rewritten c v))) = v.
Proof.
  intros [H3 _] Hp. apply settle_ok. split; [cbn; by rewrite H3, Hp|].
  intros page frame f E. cbn in E. by rewrite lookup_empty in E.
Qed.

(** What the processor's calls give is what [mem_va_map] and [mem_va_unmap] give, with a cache
    that agrees. *)
Lemma mmu_va_map_spec c pa sz f :
  coherent c ->
  match mmu_va_map c pa sz f with
  | Ok (va, c') => coherent c' /\ mem_va_map (mm_vm c) pa sz f = Ok (va, mm_vm c')
  | Fail e => mem_va_map (mm_vm c) pa sz f = Fail e
  end.
Proof.
  intros Hc. unfold mmu_va_map. pose proof (mem_va_map_pdpt (mm_vm c) pa sz f) as Hp.
  destruct (mem_va_map _ _ _ _) as [[va v]|e] eqn:E; cbn [mbind result_bind post snd] in *; [|done].
  destruct (Z.eqb_spec sz 0) as [->|Hn].
  - unfold mem_va_map in E. cbn in E. injection E as <- <-. destruct (settle_ok c Hc) as [? ->]. done.
  - by destruct (flushed_ok c v Hc Hp) as [? ->].
Qed.

Lemma mmu_va_unmap_spec c va sz :
  coherent c ->
  match mmu_va_unmap c va sz with
  | Ok c' => coherent c' /\ mem_va_unmap (mm_vm c) va sz = Ok (mm_vm c')
  | Fail e => mem_va_unmap (mm_vm c) va sz = Fail e
  end.
Proof.
  intros Hc. unfold mmu_va_unmap. pose proof (mem_va_unmap_pdpt (mm_vm c) va sz) as Hp.
  destruct (mem_va_unmap _ _ _) as [v|e] eqn:E; cbn [mbind result_bind post] in *; [|done].
  destruct (Z.eqb_spec sz 0) as [->|Hn].
  - unfold mem_va_unmap in E. cbn in E. injection E as <-. destruct (settle_ok c Hc) as [? ->]. done.
  - by destruct (flushed_ok c v Hc Hp) as [? ->].
Qed.

(** ** The cached machine is an address space *)

#[local] Instance mmu_space : AddrSpace mmu :=
  {| as_map := mmu_va_map; as_unmap := mmu_va_unmap; as_look := mmu_look;
     as_live base ms c := coherent c /\ as_live base ms (mm_vm c) |}.

#[local] Instance mmu_space_laws : AddrSpaceLaws mmu.
Proof.
  split; cbn [as_map as_unmap as_look as_live mmu_space].
  - intros base ms c pa sz f [Hc Hl] Ha. pose proof (mmu_va_map_spec c pa sz f Hc) as H.
    pose proof (as_map_live base ms (mm_vm c) pa sz f Hl Ha) as Hm. cbn [as_map vm_space] in Hm.
    destruct (mmu_va_map _ _ _ _) as [[va c']|e]; [destruct H as [? H]|]; rewrite H in Hm; done.
  - intros base ms1 m ms2 c [Hc Hl]. pose proof (mmu_va_unmap_spec c (m_va m) (m_sz m) Hc) as H.
    pose proof (as_unmap_live base ms1 m ms2 (mm_vm c) Hl) as Hm. cbn [as_unmap vm_space] in Hm.
    destruct (mmu_va_unmap _ _ _) as [c'|e]; [destruct H as [? H]|]; rewrite H in Hm; done.
  - intros base ms c m i [Hc Hl]. rewrite coherent_look by done. exact (as_look_live base ms (mm_vm c) m i Hl).
  - intros base ms c m [_ Hl]. exact (as_va_range base ms (mm_vm c) m Hl).
  - intros base ms c i j m n [_ Hl]. exact (as_apart base ms (mm_vm c) i j m n Hl).
  - intros base c x [Hc Hl]. rewrite coherent_look by done. exact (as_look_base base (mm_vm c) x Hl).
Qed.

(** The two machines run in step. *)
Lemma mmu_run_follows rs : forall ms c, coherent c ->
  match as_run ms c rs with
  | Ok (ms', c') => coherent c' /\ as_run ms (mm_vm c) rs = Ok (ms', mm_vm c')
  | Fail e => as_run ms (mm_vm c) rs = Fail e
  end.
Proof.
  induction rs as [|r rs IH]; intros ms c Hc; cbn [as_run]; [done|].
  destruct r as [pa sz f|i]; cbn [as_step as_map as_unmap mmu_space vm_space].
  - pose proof (mmu_va_map_spec c pa sz f Hc) as H.
    destruct (mmu_va_map c pa sz f) as [[va c1]|e]; cbn [mbind result_bind]; [destruct H as [Hc1 H]|]; rewrite H;
      cbn [mbind result_bind]; [|done]. by apply IH.
  - destruct (ms !! i) as [m|]; [|by apply IH]. pose proof (mmu_va_unmap_spec c (m_va m) (m_sz m) Hc) as H.
    destruct (mmu_va_unmap c _ _) as [c1|e]; cbn [mbind result_bind]; [destruct H as [Hc1 H]|]; rewrite H;
      cbn [mbind result_bind]; [|done]. by apply IH.
Qed.

(** C38: Any sequence of calls of [mem_va_map] and [mem_va_unmap] on a processor that caches
    translations, whatever it caches or evicts between the calls and whatever stale translations
    it picks up while the tables are written: the calls return what they would without a cache,
    every byte of a mapping that is still live is reached, through the cache, at the physical
    address asked for, with its flags; no two of them share an address; every address outside
    their pages is looked up as at the start; and a call fails only by halting or by running off
    the memory map, when memory or addresses are used up. *)
Theorem cached_run_agrees c rs :
  coherent c -> vm_ok (mm_vm c) -> Forall as_req_ok rs ->
  match as_run [] c rs with
  | Ok (ms, c') => as_run [] (mm_vm c) rs = Ok (ms, mm_vm c') /\
      (forall m i, m ∈ ms -> 0 <= i < m_sz m -> mmu_look c' (m_va m + i) = Some (m_pa m + i, 6 + m_flags m)) /\
      (forall i j m n, (i < j)%nat -> ms !! i = Some m -> ms !! j = Some n ->
        disjoint_ranges (m_va m) (m_sz m) (m_va n) (m_sz n)) /\
      (forall x, 0 <= x < 2 ^ 32 -> ~ in_some ms x -> mmu_look c' x = mmu_look c x)
  | Fail e => as_run [] (mm_vm c) rs = Fail e /\ exhausted e
  end.
Proof.
  intros Hc Hv Hrs. pose proof (mmu_run_follows rs [] c Hc) as Hf.
  pose proof (as_run_live _ rs [] c (conj Hc (vm_live_nil _ Hv)) Hrs) as Hl.
  destruct (as_run [] c rs) as [[ms c']|e]; [|done]. destruct Hf as [Hc' Hf]. split_and!; [done|..].
  - intros m i. apply (as_look_live _ ms c' m i Hl).
  - intros i j m n. apply (as_apart _ ms c' i j m n Hl).
  - intros x Hx Hn. rewrite !coherent_look by done. by apply (lv_base _ _ _ (proj2 Hl)).
Qed.
End machine.

(** ** Witness: the processor keeps every translation it can, and the old ones until the flush *)

Definition demo_stale (c : mmu) (_ : vm) : gmap Z (Z * Z) := mm_tlb c.
Definition demo_events (_ : mmu) : list cache_event := [CacheFill 0; CacheFill 0x7ff12; CacheEvict 0].
Definition demo_mmu : mmu := {| mm_vm := demo_vm; mm_cr3 := pdpt (vm_pg demo_vm); mm_tlb := ∅ |}.

Lemma cached_run_agrees_witness :
  exists ms c', @as_run mmu (mmu_space demo_stale demo_events) [] demo_mmu demo_reqs = Ok (ms, c') /\
    map m_pa ms = [0x900; 0x812345678] /\
    forall m i, m ∈ ms -> 0 <= i < m_sz m -> mmu_look c' (m_va m + i) = Some (m_pa m + i, 6 + m_flags m).
Proof.
  assert (Hok : match @as_run mmu (mmu_space demo_stale demo_events) [] demo_mmu demo_reqs with
    | Ok (ms, _) => bool_decide (map m_pa ms = [0x900; 0x812345678]) | Fail _ => false end = true)
    by (vm_compute; reflexivity).
  assert (Hargs : Forall as_req_ok demo_reqs).
  { unfold demo_reqs. rewrite !Forall_cons. unfold as_req_ok, map_args, flags_ok, PTE_CD. split_and!; first [lia|exact I|constructor]. }
  assert (Hc : coherent demo_mmu).
  { unfold demo_mmu. split; cbn [mm_cr3 mm_vm mm_tlb]; [exact eq_refl|]. intros page frame f E. by rewrite lookup_empty in E. }
  pose proof (cached_run_agrees demo_stale demo_events demo_mmu demo_reqs Hc demo_vm_ok Hargs) as H.
  destruct (@as_run mmu _ [] demo_mmu demo_reqs) as [[ms c']|e]; [|discriminate Hok].
  apply bool_decide_eq_true_1 in Hok. exists ms, c'. split; [reflexivity|]. split; [exact Hok|]. apply H.
Defined.
