(* ===== verification/Kb.v ===== *)
(** * Keyboard interrupt of stage 2 (src/stage2/16/kb.c, BIOS data area of src/stage2/stage2.h)

    The state is the bytes of segment 0x40, where the shift flags, the four pointers of the
    keyboard ring buffer and the buffer itself live; [poke] writes into the same bytes.  The
    specification is a keyboard with named flags and a bounded queue ([keyboard], [kb_step]);
    the theorems show that [handle_code] implements it on every scan code, that the translation
    tables are consistent, and in which order [irq1_impl] touches the hardware. *)

From S2P Require Import Prelude.

(** ** Constants *)

Definition KB_PORT_A : Z := 0x60.
Definition KB_STA : Z := 0x64.
Definition KB_STA_IN_FULL : Z := 0x02.
Definition KB_STA_DIS : Z := 0xad.
Definition KB_STA_ENA : Z := 0xae.
Definition KB_R_OVERRUN : Z := 0xff.
Definition KB_K_CTL : Z := 0x1d.
Definition KB_K_LSHFT : Z := 0x2a.
Definition KB_K_RSHFT : Z := 0x36.
Definition KB_K_ALT : Z := 0x38.
Definition KB_K_CAPLK : Z := 0x3a.
Definition KB_K_NUMLK : Z := 0x45.
Definition KB_K_SCLLK : Z := 0x46.
Definition KB_K_KEY_UP : Z := 0x80.
Definition KB_K_KP7 : Z := 0x47.
Definition KB_K_DEL : Z := 0x53.
Definition KB_K_Q : Z := 0x10.
Definition KB_K_P : Z := 0x19.
Definition KB_K_A : Z := 0x1e.
Definition KB_K_L : Z := 0x26.
Definition KB_K_Z : Z := 0x2c.
Definition KB_K_M : Z := 0x32.

Definition KB_S1_RSHFT : Z := 0x01.
Definition KB_S1_LSHFT : Z := 0x02.
Definition KB_S1_CTL : Z := 0x04.
Definition KB_S1_ALT : Z := 0x08.
Definition KB_S1_SCLLK_ACT : Z := 0x10.
Definition KB_S1_NUMLK_ACT : Z := 0x20.
Definition KB_S1_CAPLK_ACT : Z := 0x40.
Definition KB_S2_SCLLK : Z := 0x10.
Definition KB_S2_NUMLK : Z := 0x20.
Definition KB_S2_CAPLK : Z := 0x40.

Definition PIC1_CMD : Z := 0x20.
Definition OCW2_EOI : Z := 0x20.

(** ** The BIOS data area *)

(** The bytes at 0x40:0, 0x40:1, ... *)
Definition bda_t : Type := Z -> Z.

Definition wr8 (m : bda_t) (o v : Z) : bda_t := fun x => if x =? o then v else m x.
Definition rd16 (m : bda_t) (o : Z) : Z := m o + 256 * m (o + 1).
Definition wr16 (m : bda_t) (o v : Z) : bda_t := wr8 (wr8 m o (v mod 256)) (o + 1) (v / 256).

(** Offsets of the fields. *)
Definition kb_stat1 : Z := 0x17.
Definition kb_stat2 : Z := 0x18.
Definition kb_buf_head : Z := 0x1a.
Definition kb_buf_tail : Z := 0x1c.
Definition kb_buf : Z := 0x1e.
Definition kb_buf_start : Z := 0x80.
Definition kb_buf_end : Z := 0x82.

(** [bda.f |= b], [bda.f &= ~b], [bda.f ^= b] on a byte. *)
Definition set_bits (m : bda_t) (f b : Z) : bda_t := wr8 m f (Z.lor (m f) b).
Definition clear_bits (m : bda_t) (f b : Z) : bda_t := wr8 m f (Z.land (m f) (u8 (Z.lnot b))).
Definition flip_bits (m : bda_t) (f b : Z) : bda_t := wr8 m f (Z.lxor (m f) b).

(** ** Translation tables *)

Definition no_shift_map : list Z := [
    0x0000; 0x011b; 0x0231; 0x0332; 0x0433; 0x0534; 0x0635; 0x0736;
    0x0837; 0x0938; 0x0a39; 0x0b30; 0x0c2d; 0x0d3d; 0x0e08; 0x0f09;
    0x1071; 0x1177; 0x1265; 0x1372; 0x1474; 0x1579; 0x1675; 0x1769;
    0x186f; 0x1970; 0x1a5b; 0x1b5d; 0x1c0d; 0x0000; 0x1e61; 0x1f73;
    0x2064; 0x2166; 0x2267; 0x2368; 0x246a; 0x256b; 0x266c; 0x273b;
    0x2827; 0x2960; 0x0000; 0x2b5c; 0x2c7a; 0x2d78; 0x2e63; 0x2f76;
    0x3062; 0x316e; 0x326d; 0x332c; 0x342e; 0x352f; 0x0000; 0x372a;
    0x0000; 0x3920; 0x0000; 0x3b00; 0x3c00; 0x3d00; 0x3e00; 0x3f00;
    0x4000; 0x4100; 0x4200; 0x4300; 0x4400; 0x0000; 0x0000; 0x4700;
    0x4800; 0x4900; 0x4a2d; 0x4b00; 0x4c00; 0x4d00; 0x4e2b; 0x4f00;
    0x5000; 0x5100; 0x5200; 0x5300 ].

Definition shift_map : list Z := [
    0x0000; 0x011b; 0x0221; 0x0340; 0x0423; 0x0524; 0x0625; 0x075e;
    0x0826; 0x092a; 0x0a28; 0x0b29; 0x0c5f; 0x0d2b; 0x0e08; 0x0f00;
    0x1051; 0x1157; 0x1245; 0x1352; 0x1454; 0x1559; 0x1655; 0x1749;
    0x184f; 0x1950; 0x1a7b; 0x1b7d; 0x1c0d; 0x0000; 0x1e41; 0x1f53;
    0x2044; 0x2146; 0x2247; 0x2348; 0x244a; 0x254b; 0x264c; 0x273a;
    0x2822; 0x297e; 0x0000; 0x2b7c; 0x2c5a; 0x2d58; 0x2e43; 0x2f56;
    0x3042; 0x314e; 0x324d; 0x333c; 0x343e; 0x353f; 0x0000; 0x0000;
    0x0000; 0x3920; 0x0000; 0x5400; 0x5500; 0x5600; 0x5700; 0x5800;
    0x5900; 0x5a00; 0x5b00; 0x5c00; 0x5d00; 0x0000; 0x0000; 0x4737;
    0x4838; 0x4939; 0x4a2d; 0x4b34; 0x4c35; 0x4d36; 0x4e2b; 0x4f31;
    0x5032; 0x5133; 0x5230; 0x532e ].

Definition ctl_map : list Z := [
    0x0000; 0x011b; 0x0000; 0x0300; 0x0000; 0x0000; 0x0000; 0x071e;
    0x0000; 0x0000; 0x0000; 0x0000; 0x0c1f; 0x0000; 0x0e7f; 0x9400;
    0x1011; 0x1117; 0x1205; 0x1312; 0x1414; 0x1519; 0x1615; 0x1709;
    0x180f; 0x1910; 0x1a1b; 0x1b1d; 0x1c0a; 0x0000; 0x1e01; 0x1f13;
    0x2004; 0x2106; 0x2207; 0x2308; 0x240a; 0x250b; 0x260c; 0x0000;
    0x0000; 0x0000; 0x0000; 0x2b1c; 0x2c1a; 0x2d18; 0x2e03; 0x2f16;
    0x3002; 0x310e; 0x320d; 0x0000; 0x0000; 0x0000; 0x0000; 0x9600;
    0x0000; 0x3920; 0x0000; 0x5e00; 0x5f00; 0x6000; 0x6100; 0x6200;
    0x6300; 0x6400; 0x6500; 0x6600; 0x6700; 0x0000; 0x0000; 0x7700;
    0x8d00; 0x8400; 0x8e00; 0x7300; 0x8f00; 0x7400; 0x0000; 0x7500;
    0x9100; 0x7600; 0x9200; 0x9300 ].

Definition alt_map : list Z := [
    0x00; 0x01; 0x78; 0x79; 0x7a; 0x7b; 0x7c; 0x7d;
    0x7e; 0x7f; 0x80; 0x81; 0x82; 0x83; 0x0e; 0xa5;
    0x10; 0x11; 0x12; 0x13; 0x14; 0x15; 0x16; 0x17;
    0x18; 0x19; 0x1a; 0x1b; 0xa6; 0x00; 0x1e; 0x1f;
    0x20; 0x21; 0x22; 0x23; 0x24; 0x25; 0x26; 0x27;
    0x28; 0x29; 0x00; 0x2b; 0x2c; 0x2d; 0x2e; 0x2f;
    0x30; 0x31; 0x32; 0x33; 0x34; 0x35; 0x00; 0x37;
    0x00; 0x39; 0x00; 0x68; 0x69; 0x6a; 0x6b; 0x6c;
    0x6d; 0x6e; 0x6f; 0x70; 0x71; 0x00; 0x00; 0x97;
    0x98; 0x99; 0x4a; 0x9b; 0x9c; 0x9d; 0x4e; 0x9f;
    0xa0; 0xa1; 0xa2; 0xa3 ].

(** ** [handle_code] *)

(** The keys whose scan codes only change flags, with what they do: the cases of the [switch]
    that end in [break]. *)
Definition flag_case (m : bda_t) (code : Z) : option bda_t :=
  if code =? KB_R_OVERRUN then Some m
  else if code =? KB_K_LSHFT then Some (set_bits m kb_stat1 KB_S1_LSHFT)
  else if code =? Z.lor KB_K_LSHFT KB_K_KEY_UP then Some (clear_bits m kb_stat1 KB_S1_LSHFT)
  else if code =? KB_K_RSHFT then Some (set_bits m kb_stat1 KB_S1_RSHFT)
  else if code =? Z.lor KB_K_RSHFT KB_K_KEY_UP then Some (clear_bits m kb_stat1 KB_S1_RSHFT)
  else if code =? KB_K_CTL then Some (set_bits m kb_stat1 KB_S1_CTL)
  else if code =? Z.lor KB_K_CTL KB_K_KEY_UP then Some (clear_bits m kb_stat1 KB_S1_CTL)
  else if code =? KB_K_ALT then Some (set_bits m kb_stat1 KB_S1_ALT)
  else if code =? Z.lor KB_K_ALT KB_K_KEY_UP then Some (clear_bits m kb_stat1 KB_S1_ALT)
  else if code =? KB_K_CAPLK then
    Some (set_bits (flip_bits m kb_stat1 KB_S1_CAPLK_ACT) kb_stat2 KB_S2_CAPLK)
  else if code =? Z.lor KB_K_CAPLK KB_K_KEY_UP then Some (clear_bits m kb_stat2 KB_S2_CAPLK)
  else if code =? KB_K_NUMLK then
    Some (set_bits (flip_bits m kb_stat1 KB_S1_NUMLK_ACT) kb_stat2 KB_S2_NUMLK)
  else if code =? Z.lor KB_K_NUMLK KB_K_KEY_UP then Some (clear_bits m kb_stat2 KB_S2_NUMLK)
  else if code =? KB_K_SCLLK then
    Some (set_bits (flip_bits m kb_stat1 KB_S1_SCLLK_ACT) kb_stat2 KB_S2_SCLLK)
  else if code =? Z.lor KB_K_SCLLK KB_K_KEY_UP then Some (clear_bits m kb_stat2 KB_S2_SCLLK)
  else None.

Definition between (lo hi c : Z) : bool := (lo <=? c) && (c <=? hi).

(** [if (code < sizeof(map) / sizeof(map[0])) key = map[code];] *)
Definition map_key (map : list Z) (code : Z) : Z :=
  if code <? Z.of_nat (length map) then default 0 (map !! Z.to_nat code) else 0.

Definition has (s b : Z) : bool := negb (Z.land s b =? 0).

(** The other cases: the key code, 0 for none. *)
Definition key_of (stat1 code : Z) : Z :=
  let shifted :=
    if between KB_K_KP7 KB_K_DEL code then has stat1 KB_S1_NUMLK_ACT
    else if between KB_K_Q KB_K_P code || between KB_K_A KB_K_L code || between KB_K_Z KB_K_M code
    then has stat1 KB_S1_CAPLK_ACT
    else false in
  if has stat1 KB_S1_ALT then u16 (Z.shiftl (map_key alt_map code) 8)
  else if has stat1 KB_S1_CTL then map_key ctl_map code
  else
    let shifted := if has stat1 (Z.lor KB_S1_RSHFT KB_S1_LSHFT) then negb shifted else shifted in
    if shifted then map_key shift_map code else map_key no_shift_map code.

(** The part after the [switch]. *)
Definition put_key (m : bda_t) (key : Z) : bda_t :=
  if key =? 0 then m
  else
    let old_tail := rd16 m kb_buf_tail in
    let new_tail := u16 (old_tail + 2) in
    let new_tail := if u16 (rd16 m kb_buf_end - new_tail) <? 2 then rd16 m kb_buf_start else new_tail in
    if new_tail =? rd16 m kb_buf_head then m
    else wr16 (wr16 m old_tail key) kb_buf_tail new_tail.

Definition handle_code (m : bda_t) (code : Z) : bda_t :=
  match flag_case m code with
  | Some m => m
  | None => put_key m (key_of (m kb_stat1) code)
  end.

(** ** Port input and output *)

(** What the code does to the machine, in order; [Delay] is the write to port 0x80 that delays. *)
Inductive io_event :=
  | PortIn (port : Z)
  | PortOut (port v : Z)
  | Delay.

(** [sta n] is what the [n]-th read of the status port returns, [data] what the read of port A
    does; [sta_reads] counts the reads of the status port so far. *)
Record kb_hw := { sta : nat -> Z; data : Z }.
Record kb_io := { sta_reads : nat; trace : list io_event }.

Definition emit (s : kb_io) (e : io_event) : kb_io :=
  {| sta_reads := sta_reads s; trace := trace s ++ [e] |}.

(** [inp_w(KB_STA)] *)
Definition inp_sta (hw : kb_hw) (s : kb_io) : Z * kb_io :=
  (sta hw (sta_reads s), {| sta_reads := S (sta_reads s); trace := trace s ++ [Delay; PortIn KB_STA] |}).

(** [while (--cnt != 0 && (inp_w(KB_STA) & KB_STA_IN_FULL) != 0);] with a 16-bit counter. *)
Fixpoint wait_loop (fuel : nat) (hw : kb_hw) (s : kb_io) (cnt : Z) : result kb_io :=
  match fuel with
  | O => Fail Diverges
  | S fuel =>
      let cnt := u16 (cnt - 1) in
      if cnt =? 0 then Ok s
      else
        let '(v, s) := inp_sta hw s in
        if negb (Z.land v KB_STA_IN_FULL =? 0) then wait_loop fuel hw s cnt else Ok s
  end.

Definition wait_kb_in_buf_clear (hw : kb_hw) (s : kb_io) : result kb_io := wait_loop (Z.to_nat (2 ^ 16)) hw s 0.

Definition snd_sta (hw : kb_hw) (s : kb_io) (cmd : Z) : result kb_io :=
  s ← wait_kb_in_buf_clear hw s; Ok (emit s (PortOut KB_STA cmd)).

Definition irq1_impl (hw : kb_hw) (s : kb_io) (m : bda_t) : result (kb_io * bda_t) :=
  s ← snd_sta hw s KB_STA_DIS;
  s ← wait_kb_in_buf_clear hw s;
  let s := emit s (PortIn KB_PORT_A) in
  let m := handle_code m (data hw) in
  let s := emit s (PortOut PIC1_CMD OCW2_EOI) in
  s ← snd_sta hw s KB_STA_ENA;
  Ok (s, m).

(** ** The specification: a keyboard *)

Record keyboard := {
  rshift : bool; lshift : bool; ctl : bool; alt : bool;
  scroll_on : bool; num_on : bool; caps_on : bool; insert_on : bool;
  scroll_held : bool; num_held : bool; caps_held : bool;
  queue : list Z;
}.

Inductive modifier := RShift | LShift | Ctl | Alt.
Inductive lock := Scroll | Num | Caps.

Definition set_modifier (k : keyboard) (mo : modifier) (b : bool) : keyboard :=
  {| rshift := match mo with RShift => b | _ => rshift k end;
     lshift := match mo with LShift => b | _ => lshift k end;
     ctl := match mo with Ctl => b | _ => ctl k end;
     alt := match mo with Alt => b | _ => alt k end;
     scroll_on := scroll_on k; num_on := num_on k; caps_on := caps_on k; insert_on := insert_on k;
     scroll_held := scroll_held k; num_held := num_held k; caps_held := caps_held k;
     queue := queue k |}.

(** A lock key toggles when it goes down. *)
Definition set_lock (k : keyboard) (lo : lock) (b : bool) : keyboard :=
  {| rshift := rshift k; lshift := lshift k; ctl := ctl k; alt := alt k;
     scroll_on := match lo with Scroll => xorb b (scroll_on k) | _ => scroll_on k end;
     num_on := match lo with Num => xorb b (num_on k) | _ => num_on k end;
     caps_on := match lo with Caps => xorb b (caps_on k) | _ => caps_on k end;
     insert_on := insert_on k;
     scroll_held := match lo with Scroll => b | _ => scroll_held k end;
     num_held := match lo with Num => b | _ => num_held k end;
     caps_held := match lo with Caps => b | _ => caps_held k end;
     queue := queue k |}.

Definition set_queue (k : keyboard) (q : list Z) : keyboard :=
  {| rshift := rshift k; lshift := lshift k; ctl := ctl k; alt := alt k;
     scroll_on := scroll_on k; num_on := num_on k; caps_on := caps_on k; insert_on := insert_on k;
     scroll_held := scroll_held k; num_held := num_held k; caps_held := caps_held k;
     queue := q |}.

Inductive key_class := Overrun | Modifier (mo : modifier) (down : bool) | Lock (lo : lock) (down : bool) | Other.

Definition classify (code : Z) : key_class :=
  if code =? 0xff then Overrun
  else
    let down := code <? 0x80 in
    let c := code mod 0x80 in
    if c =? 0x2a then Modifier LShift down
    else if c =? 0x36 then Modifier RShift down
    else if c =? 0x1d then Modifier Ctl down
    else if c =? 0x38 then Modifier Alt down
    else if c =? 0x3a then Lock Caps down
    else if c =? 0x45 then Lock Num down
    else if c =? 0x46 then Lock Scroll down
    else Other.

Definition is_letter (code : Z) : bool :=
  between 0x10 0x19 code || between 0x1e 0x26 code || between 0x2c 0x32 code.

Definition is_keypad (code : Z) : bool := between 0x47 0x53 code.

Definition spec_key (k : keyboard) (code : Z) : Z :=
  if alt k then 256 * map_key alt_map code
  else if ctl k then map_key ctl_map code
  else if xorb ((is_keypad code && num_on k) || (is_letter code && caps_on k)) (lshift k || rshift k)
  then map_key shift_map code else map_key no_shift_map code.

(** A buffer of [n] places holds [n - 1] keys; a key that does not fit is dropped. *)
Definition kb_put (n : Z) (q : list Z) (key : Z) : list Z :=
  if (key =? 0) || (n - 1 <=? Z.of_nat (length q)) then q else q ++ [key].

Definition kb_step (n : Z) (k : keyboard) (code : Z) : keyboard :=
  match classify code with
  | Overrun => k
  | Modifier mo b => set_modifier k mo b
  | Lock lo b => set_lock k lo b
  | Other => set_queue k (kb_put n (queue k) (spec_key k code))
  end.

(** ** How the BIOS data area represents a keyboard *)

(** The ring buffer has [n] places, is where the pointers say, and overlaps no field used here;
    [h] and [t] are the indices of head and tail. *)
Record ring (m : bda_t) (s n h t : Z) : Prop := {
  ring_bytes : forall x, 0 <= m x < 256;
  ring_start : rd16 m kb_buf_start = s;
  ring_end : rd16 m kb_buf_end = s + 2 * n;
  ring_head : rd16 m kb_buf_head = s + 2 * h;
  ring_tail : rd16 m kb_buf_tail = s + 2 * t;
  ring_where : 0x1e <= s /\ s + 2 * n <= 0x80 \/ 0x84 <= s;
  ring_index : 0 <= h < n /\ 0 <= t < n;
}.

Definition slot (m : bda_t) (s n i : Z) : Z := rd16 m (s + 2 * (i mod n)).

Definition ring_queue (m : bda_t) (s n h t : Z) : list Z :=
  (fun i => slot m s n (h + Z.of_nat i)) <$> seq 0 (Z.to_nat ((t - h) mod n)).

Definition decode (m : bda_t) (s n h t : Z) : keyboard :=
  {| rshift := Z.testbit (m kb_stat1) 0; lshift := Z.testbit (m kb_stat1) 1;
     ctl := Z.testbit (m kb_stat1) 2; alt := Z.testbit (m kb_stat1) 3;
     scroll_on := Z.testbit (m kb_stat1) 4; num_on := Z.testbit (m kb_stat1) 5;
     caps_on := Z.testbit (m kb_stat1) 6; insert_on := Z.testbit (m kb_stat1) 7;
     scroll_held := Z.testbit (m kb_stat2) 4; num_held := Z.testbit (m kb_stat2) 5;
     caps_held := Z.testbit (m kb_stat2) 6;
     queue := ring_queue m s n h t |}.

(** ** Bits *)

Lemma has_testbit s i : 0 <= i -> has s (2 ^ i) = Z.testbit s i.
Proof.
  intros Hi. unfold has. destruct (Z.testbit s i) eqn:E.
  - apply negb_true_iff, Z.eqb_neq. intros H.
    assert (Hb : Z.testbit (Z.land s (2 ^ i)) i = false) by (rewrite H; apply Z.bits_0).
    rewrite Z.land_spec, E, Z.pow2_bits_true in Hb by done. done.
  - apply negb_false_iff, Z.eqb_eq. apply Z.bits_inj'. intros j Hj.
    rewrite Z.land_spec, Z.pow2_bits_eqb, Z.bits_0 by done.
    destruct (Z.eqb_spec i j) as [<-|]; [by rewrite E|by rewrite andb_false_r].
Qed.

Lemma has_shift s : has s (Z.lor KB_S1_RSHFT KB_S1_LSHFT) = Z.testbit s 1 || Z.testbit s 0.
Proof.
  unfold has, KB_S1_RSHFT, KB_S1_LSHFT. rewrite Z.land_lor_distr_r.
  rewrite <- (has_testbit s 1), <- (has_testbit s 0) by lia. unfold has.
  change (2 ^ 1) with 2. change (2 ^ 0) with 1.
  destruct (Z.eqb_spec (Z.lor (Z.land s 1) (Z.land s 2)) 0) as [E|E].
  - apply Z.lor_eq_0_iff in E as [-> ->]. done.
  - destruct (Z.eqb_spec (Z.land s 1) 0) as [E1|], (Z.eqb_spec (Z.land s 2) 0) as [E2|]; try done.
    by rewrite E1, E2 in E.
Qed.

Lemma map_key_range map code b :
  forallb (fun k => (0 <=? k) && (k <? b)) map = true -> 0 < b -> 0 <= map_key map code < b.
Proof.
  intros H Hb. unfold map_key. destruct (code <? Z.of_nat (length map)); [|lia].
  destruct (map !! Z.to_nat code) as [k|] eqn:E; cbn; [|lia].
  rewrite forallb_forall in H. specialize (H k). rewrite <- list_elem_of_In in H.
  specialize (H ltac:(by eapply list_elem_of_lookup_2)). lia.
Qed.

Lemma key_of_spec m s n h t code : key_of (m kb_stat1) code = spec_key (decode m s n h t) code.
Proof.
  unfold key_of, spec_key, decode. cbn [alt ctl num_on caps_on lshift rshift].
  rewrite has_shift. unfold KB_S1_NUMLK_ACT, KB_S1_CAPLK_ACT, KB_S1_ALT, KB_S1_CTL.
  rewrite (has_testbit _ 5), (has_testbit _ 6), (has_testbit _ 3), (has_testbit _ 2) by lia.
  destruct (Z.testbit (m kb_stat1) 3).
  { pose proof (map_key_range alt_map code 256 ltac:(vm_compute; reflexivity) ltac:(lia)).
    rewrite Z.shiftl_mul_pow2 by lia. change (2 ^ 8) with 256. rewrite wrap_small by lia. lia. }
  destruct (Z.testbit (m kb_stat1) 2); [done|].
  assert (Hdis : between KB_K_KP7 KB_K_DEL code = true -> is_letter code = false).
  { unfold is_letter, between, KB_K_KP7, KB_K_DEL. lia. }
  change (between KB_K_KP7 KB_K_DEL code) with (is_keypad code) in *.
  change (between KB_K_Q KB_K_P code || between KB_K_A KB_K_L code || between KB_K_Z KB_K_M code)
    with (is_letter code).
  destruct (is_keypad code); [rewrite Hdis by done|destruct (is_letter code)]; cbn [andb orb].
  all: destruct (Z.testbit (m kb_stat1) 0), (Z.testbit (m kb_stat1) 1), (Z.testbit (m kb_stat1) 5),
    (Z.testbit (m kb_stat1) 6); done.
Qed.

Lemma spec_key_range k code : 0 <= spec_key k code < 65536.
Proof.
  unfold spec_key.
  pose proof (map_key_range alt_map code 256 ltac:(vm_compute; reflexivity) ltac:(lia)).
  pose proof (map_key_range ctl_map code 65536 ltac:(vm_compute; reflexivity) ltac:(lia)).
  pose proof (map_key_range shift_map code 65536 ltac:(vm_compute; reflexivity) ltac:(lia)).
  pose proof (map_key_range no_shift_map code 65536 ltac:(vm_compute; reflexivity) ltac:(lia)).
  destruct (alt k); [lia|]. destruct (ctl k); [lia|]. destruct (xorb _ _); lia.
Qed.

(** ** The ring buffer *)

Lemma wr8_eq m o v : wr8 m o v o = v.
Proof. unfold wr8. by rewrite Z.eqb_refl. Qed.

Lemma wr8_ne m o v x : x <> o -> wr8 m o v x = m x.
Proof. intros H. unfold wr8. by destruct (Z.eqb_spec x o). Qed.

Lemma rd16_wr16 m o v : rd16 (wr16 m o v) o = v.
Proof.
  unfold rd16, wr16. rewrite (wr8_ne _ (o + 1)), !wr8_eq by lia. pose proof (Z.div_mod v 256). lia.
Qed.

Lemma wr16_ne m o v x : x <> o -> x <> o + 1 -> wr16 m o v x = m x.
Proof. intros H1 H2. unfold wr16. by rewrite !wr8_ne. Qed.

Lemma mod_succ t n : 0 <= t < n -> (t + 1) mod n = if t + 1 =? n then 0 else t + 1.
Proof.
  intros Ht. destruct (Z.eqb_spec (t + 1) n) as [->|]; [apply Z.mod_same; lia|]. apply Z.mod_small. lia.
Qed.

Lemma mod_diff a b n : 0 <= a < n -> 0 <= b < n -> (a - b) mod n = if b <=? a then a - b else a - b + n.
Proof.
  intros Ha Hb. destruct (Z.leb_spec b a); [apply Z.mod_small; lia|].
  rewrite <- (Z_mod_plus_full (a - b) 1 n). rewrite Z.mul_1_l. apply Z.mod_small. lia.
Qed.

Lemma mod_sum a b n : 0 <= a < n -> 0 <= b < n -> (a + b) mod n = if a + b <? n then a + b else a + b - n.
Proof.
  intros Ha Hb. destruct (Z.ltb_spec (a + b) n); [apply Z.mod_small; lia|].
  rewrite <- (Z_mod_plus_full (a + b) (-1) n). apply Z.mod_small. lia.
Qed.

(** Bytes that the representation depends on, the flags apart. *)
Definition ring_byte (s n x : Z) : Prop :=
  0x1a <= x < 0x1e \/ 0x80 <= x < 0x84 \/ s <= x < s + 2 * n.

Lemma slot_where s n i x : 0 < n -> s + 2 * (i mod n) <= x <= s + 2 * (i mod n) + 1 -> s <= x < s + 2 * n.
Proof. intros Hn Hx. pose proof (Z.mod_pos_bound i n Hn). lia. Qed.

(** Writing elsewhere changes neither the pointers nor the keys. *)
Lemma ring_frame m m' s n h t :
  ring m s n h t -> (forall x, 0 <= m' x < 256) -> (forall x, ring_byte s n x -> m' x = m x) ->
  ring m' s n h t /\ ring_queue m' s n h t = ring_queue m s n h t.
Proof.
  intros [Hb Hs He Hh Ht Hw [Hi1 Hi2]] Hb' Hsame. unfold ring_byte in Hsame. split.
  - split; unfold rd16, kb_buf_start, kb_buf_end, kb_buf_head, kb_buf_tail in *; try done;
      rewrite !Hsame by lia; done.
  - unfold ring_queue. apply list_fmap_ext. intros i k _. unfold slot, rd16.
    pose proof (slot_where s n (h + Z.of_nat k)) as Hsl. rewrite !Hsame; [done|..]; right; right; apply (Hsl _); lia.
Qed.

(** Writing the key behind the last and moving the tail on. *)
Lemma ring_put m s n h t key :
  ring m s n h t -> 0 <= key < 65536 -> (t + 1) mod n <> h ->
  let m' := wr16 (wr16 m (s + 2 * t) key) kb_buf_tail (s + 2 * ((t + 1) mod n)) in
  ring m' s n h ((t + 1) mod n) /\
  ring_queue m' s n h ((t + 1) mod n) = ring_queue m s n h t ++ [key] /\
  (forall x, x <> kb_buf_tail -> x <> kb_buf_tail + 1 -> x <> s + 2 * t -> x <> s + 2 * t + 1 -> m' x = m x).
Proof.
  intros [Hb Hs He Hh Ht Hw [Hi1 Hi2]] Hkey Hroom m'.
  assert (Htm : 0 <= (t + 1) mod n < n) by (apply Z.mod_pos_bound; lia).
  assert (Hend : 0 <= s + 2 * n < 65536).
  { rewrite <- He. unfold rd16. pose proof (Hb kb_buf_end). pose proof (Hb (kb_buf_end + 1)). lia. }
  unfold kb_buf_start, kb_buf_end, kb_buf_head, kb_buf_tail in *.
  assert (Hm' : forall x, x <> 0x1c -> x <> 0x1d -> x <> s + 2 * t -> x <> s + 2 * t + 1 -> m' x = m x).
  { intros x ? ? ? ?. unfold m'. by rewrite !wr16_ne by lia. }
  split_and!.
  - split; unfold kb_buf_start, kb_buf_end, kb_buf_head, kb_buf_tail.
    + intros x. unfold m', wr16, wr8. repeat case_match; [dlia|dlia|dlia|dlia|done].
    + rewrite <- Hs. unfold rd16. rewrite !Hm' by lia. done.
    + rewrite <- He. unfold rd16. rewrite !Hm' by lia. done.
    + rewrite <- Hh. unfold rd16. rewrite !Hm' by lia. done.
    + apply rd16_wr16.
    + done.
    + lia.
  - unfold ring_queue. rewrite mod_diff, (mod_diff t h) by lia.
    assert (Elen : (if h <=? (t + 1) mod n then (t + 1) mod n - h else (t + 1) mod n - h + n) =
      (if h <=? t then t - h else t - h + n) + 1).
    { rewrite mod_succ in * by lia. destruct (Z.eqb_spec (t + 1) n), (Z.leb_spec h t); try lia;
        destruct (Z.leb_spec h 0), (Z.leb_spec h (t + 1)); lia. }
    rewrite Elen. set (q := if h <=? t then t - h else t - h + n) in *.
    assert (Hq : 0 <= q < n - 1).
    { unfold q. rewrite mod_succ in * by lia. destruct (Z.eqb_spec (t + 1) n), (Z.leb_spec h t); lia. }
    replace (Z.to_nat (q + 1)) with (S (Z.to_nat q)) by lia. rewrite seq_S, fmap_app. cbn [fmap list_fmap Nat.add].
    f_equal.
    + apply list_fmap_ext. intros i k Hk%lookup_seq. unfold slot, rd16.
      assert (Hne : (h + Z.of_nat k) mod n <> t).
      { rewrite mod_sum by lia. unfold q in *. destruct (Z.ltb_spec (h + Z.of_nat k) n), (Z.leb_spec h t); lia. }
      pose proof (slot_where s n (h + Z.of_nat k)) as Hsl. pose proof (Hsl (s + 2 * ((h + Z.of_nat k) mod n)) ltac:(lia) ltac:(lia)).
      rewrite !Hm' by lia. done.
    + unfold slot. f_equal. replace ((h + Z.of_nat (Z.to_nat q)) mod n) with t.
      * unfold m'. unfold rd16. rewrite !(wr16_ne _ 0x1c) by lia. apply rd16_wr16.
      * rewrite Z2Nat.id by lia. rewrite mod_sum by lia. unfold q. destruct (Z.leb_spec h t).
        -- destruct (Z.ltb_spec (h + (t - h)) n); lia.
        -- destruct (Z.ltb_spec (h + (t - h + n)) n); lia.
  - intros x ? ? ? ?. by apply Hm'.
Qed.

Lemma ring_queue_full m s n h t :
  ring m s n h t -> (n - 1 <=? Z.of_nat (length (ring_queue m s n h t))) = ((t + 1) mod n =? h).
Proof.
  intros [_ _ _ _ _ _ [Hh Ht]]. unfold ring_queue. rewrite length_fmap, length_seq.
  rewrite mod_diff, mod_succ by lia.
  destruct (Z.leb_spec h t), (Z.eqb_spec (t + 1) n);
    destruct (Z.eqb_spec 0 h), (Z.eqb_spec (t + 1) h); rewrite Z2Nat.id by lia; lia.
Qed.

(** [put_key] on the representation. *)
Lemma put_key_spec m s n h t key :
  ring m s n h t -> 0 <= key < 65536 ->
  exists t', ring (put_key m key) s n h t' /\
    ring_queue (put_key m key) s n h t' = kb_put n (ring_queue m s n h t) key /\
    (forall x, ~ ring_byte s n x -> put_key m key x = m x).
Proof.
  intros Hr Hkey. pose proof Hr as [Hb Hs He Hh Ht Hw [Hi1 Hi2]]. unfold put_key, kb_put.
  destruct (Z.eqb_spec key 0); cbn [orb]; [by exists t|].
  assert (Hend : 0 <= s + 2 * n < 65536).
  { rewrite <- He. unfold rd16. pose proof (Hb kb_buf_end). pose proof (Hb (kb_buf_end + 1)). lia. }
  rewrite (ring_queue_full _ _ _ _ _ Hr), Ht, He, Hs, Hh.
  rewrite (wrap_small 16 (s + 2 * t + 2)) by lia. rewrite wrap_small by lia.
  assert (Enew : (if s + 2 * n - (s + 2 * t + 2) <? 2 then s else s + 2 * t + 2) = s + 2 * ((t + 1) mod n)).
  { rewrite mod_succ by lia. destruct (Z.eqb_spec (t + 1) n), (Z.ltb_spec (s + 2 * n - (s + 2 * t + 2)) 2); lia. }
  rewrite Enew. destruct (Z.eqb_spec ((t + 1) mod n) h) as [->|Hroom].
  { rewrite Z.eqb_refl. by exists t. }
  destruct (Z.eqb_spec (s + 2 * ((t + 1) mod n)) (s + 2 * h)); [lia|].
  destruct (ring_put m s n h t key Hr Hkey Hroom) as (Hr' & Hq & Hf).
  exists ((t + 1) mod n). split_and!; [done|done|]. intros x Hx. unfold ring_byte, kb_buf_tail in *. apply Hf; lia.
Qed.

(** ** The flags *)

Lemma stat_not_ring m s n h t x : ring m s n h t -> x = kb_stat1 \/ x = kb_stat2 -> ~ ring_byte s n x.
Proof. intros [_ _ _ _ _ Hw _] Hx. unfold ring_byte, kb_stat1, kb_stat2 in *. lia. Qed.

(** A byte-wide bit operation keeps a byte a byte. *)
Lemma byte_op s v : 0 <= s < 256 -> (forall i, 8 <= i -> Z.testbit v i = false) -> 0 <= v -> 0 <= v < 256.
Proof.
  intros _ Hv H0. split; [done|]. destruct (decide (v = 0)) as [->|]; [lia|].
  apply (Z.log2_lt_pow2 v 8); [lia|]. destruct (decide (Z.log2 v < 8)); [done|].
  pose proof (Z.bit_log2 v ltac:(lia)) as Hb. rewrite Hv in Hb by lia. done.
Qed.

Lemma byte_high s i : 0 <= s < 256 -> 8 <= i -> Z.testbit s i = false.
Proof.
  intros Hs Hi. destruct (decide (s = 0)) as [->|]; [by rewrite Z.testbit_0_l|].
  apply Z.bits_above_log2; [lia|]. enough (Z.log2 s < 8) by lia. apply Z.log2_lt_pow2; lia.
Qed.

Lemma byte_lor s b : 0 <= s < 256 -> 0 <= b < 256 -> 0 <= Z.lor s b < 256.
Proof.
  intros Hs Hb. apply (byte_op s); [done| |apply Z.lor_nonneg; lia].
  intros i Hi. by rewrite Z.lor_spec, !byte_high.
Qed.

Lemma byte_land s b : 0 <= s < 256 -> 0 <= Z.land s b < 256.
Proof.
  intros Hs. apply (byte_op s); [done| |apply Z.land_nonneg; lia].
  intros i Hi. by rewrite Z.land_spec, byte_high.
Qed.

Lemma byte_lxor s b : 0 <= s < 256 -> 0 <= b < 256 -> 0 <= Z.lxor s b < 256.
Proof.
  intros Hs Hb. apply (byte_op s); [done| |apply Z.lxor_nonneg; lia].
  intros i Hi. by rewrite Z.lxor_spec, !byte_high.
Qed.

Lemma flag_case_frame m code m' :
  (forall x, 0 <= m x < 256) -> flag_case m code = Some m' ->
  (forall x, 0 <= m' x < 256) /\ forall x, x <> kb_stat1 -> x <> kb_stat2 -> m' x = m x.
Proof.
  intros Hb. unfold flag_case.
  assert (Hset : forall m f b, (forall x, 0 <= m x < 256) -> 0 <= b < 256 -> forall x, 0 <= set_bits m f b x < 256).
  { intros m0 f b H Hb' x. unfold set_bits, wr8. destruct (x =? f); [by apply byte_lor|done]. }
  assert (Hclear : forall m f b, (forall x, 0 <= m x < 256) -> forall x, 0 <= clear_bits m f b x < 256).
  { intros m0 f b H x. unfold clear_bits, wr8. destruct (x =? f); [by apply byte_land|done]. }
  assert (Hflip : forall m f b, (forall x, 0 <= m x < 256) -> 0 <= b < 256 -> forall x, 0 <= flip_bits m f b x < 256).
  { intros m0 f b H Hb' x. unfold flip_bits, wr8. destruct (x =? f); [by apply byte_lxor|done]. }
  assert (Hc : forall b, List.In b [1; 2; 4; 8; 16; 32; 64] -> 0 <= b < 256) by (intros b; cbn; lia).
  intros H. repeat case_match; simplify_eq; (split; [|intros x Hx1 Hx2;
    unfold set_bits, clear_bits, flip_bits; rewrite ?wr8_ne by done; done]).
  all: repeat first [exact Hb | apply Hset | apply Hclear | apply Hflip | apply Hc; cbn; tauto].
Qed.

(** A property of bytes is checked on all of them. *)
Lemma forall_bytes (P : Z -> bool) :
  forallb P (Z.of_nat <$> seq 0 256) = true -> forall c, 0 <= c < 256 -> P c = true.
Proof.
  intros H c Hc. rewrite forallb_forall in H. apply H. rewrite <- list_elem_of_In.
  apply list_elem_of_fmap. exists (Z.to_nat c). split; [lia|]. apply elem_of_seq. lia.
Qed.

(** The codes that reach the translation tables. *)
Lemma flag_case_classify m code :
  0 <= code < 256 -> flag_case m code = None <-> classify code = Other.
Proof.
  intros Hc.
  pose proof (forall_bytes (fun code => Bool.eqb (match flag_case m code with None => true | _ => false end)
    (match classify code with Other => true | _ => false end)) ltac:(vm_compute; reflexivity) code Hc) as H.
  cbn beta in H. destruct (flag_case m code), (classify code); try done.
Qed.

Ltac flag_bits :=
  unfold set_bits, clear_bits, flip_bits; rewrite ?(wr8_ne _ kb_stat2 _ kb_stat1), ?(wr8_ne _ kb_stat1 _ kb_stat2) by done;
  rewrite ?wr8_eq; rewrite ?Z.lor_spec, ?Z.land_spec, ?Z.lxor_spec;
  repeat match goal with |- context [Z.testbit ?c ?i] =>
    lazymatch c with context [kb_stat1] => fail | context [kb_stat2] => fail | _ =>
      let v := eval vm_compute in (Z.testbit c i) in change (Z.testbit c i) with v end end;
  rewrite ?orb_false_r, ?orb_true_r, ?andb_true_r, ?andb_false_r, ?xorb_false_r, ?xorb_true_r, ?xorb_true_l, ?xorb_false_l; reflexivity.

Lemma flag_case_decode m code m' s n h t :
  ring m s n h t -> flag_case m code = Some m' -> ring_queue m' s n h t = ring_queue m s n h t ->
  decode m' s n h t = kb_step n (decode m s n h t) code.
Proof.
  intros Hr H Hq. unfold decode at 1. rewrite Hq. unfold flag_case in H.
  repeat lazymatch type of H with
  | (if ?b then _ else _) = _ => destruct b eqn:?
  end; simplify_eq; try match goal with E : (code =? _) = true |- _ => apply Z.eqb_eq in E; subst code end.
  all: unfold kb_step; match goal with |- context [classify ?c] =>
    let v := eval vm_compute in (classify c) in change (classify c) with v end; cbn iota beta;
    unfold set_modifier, set_lock, decode; cbn [rshift lshift ctl alt scroll_on num_on caps_on insert_on scroll_held num_held caps_held queue].
  all: try reflexivity; f_equal; flag_bits.
Qed.

(** [handle_code] is a step of the keyboard, whatever the code. *)
Lemma handle_code_spec m s n h t code :
  ring m s n h t -> 0 <= code < 256 ->
  exists t', ring (handle_code m code) s n h t' /\
    decode (handle_code m code) s n h t' = kb_step n (decode m s n h t) code /\
    forall x, ~ ring_byte s n x -> x <> kb_stat1 -> x <> kb_stat2 -> handle_code m code x = m x.
Proof.
  intros Hr Hc. unfold handle_code. destruct (flag_case m code) as [m'|] eqn:E.
  - destruct (flag_case_frame m code m' (ring_bytes _ _ _ _ _ Hr) E) as [Hb Hf].
    assert (Hsame : forall x, ring_byte s n x -> m' x = m x).
    { intros x Hx. apply Hf; intros ->; revert Hx; eapply stat_not_ring; eauto. }
    destruct (ring_frame m m' s n h t Hr Hb Hsame) as [Hr' Hq]. exists t. split_and!; [done| |].
    + by apply flag_case_decode.
    + intros x _. apply Hf.
  - assert (Ecl : classify code = Other) by by apply (flag_case_classify m).
    rewrite (key_of_spec m s n h t).
    destruct (put_key_spec m s n h t _ Hr (spec_key_range (decode m s n h t) code)) as (t' & Hr' & Hq & Hf).
    exists t'. split_and!; [done| |intros x Hx _ _; by apply Hf].
    unfold kb_step. rewrite Ecl. unfold decode at 1. rewrite Hq.
    rewrite !Hf by (eapply stat_not_ring; eauto). done.
Qed.

(** ** Waiting for the controller *)

(** [k] reads of the status port, each with its delay. *)
Definition status_reads (k : nat) : list io_event := concat (replicate k [Delay; PortIn KB_STA]).

Definition in_full (hw : kb_hw) (i : nat) : bool := negb (Z.land (sta hw i) KB_STA_IN_FULL =? 0).

(** The reads stop at the first that finds the input buffer empty, or after 65535. *)
Definition waited (hw : kb_hw) (s : kb_io) (k : nat) (s' : kb_io) : Prop :=
  Z.of_nat k <= 65535 /\ sta_reads s' = (sta_reads s + k)%nat /\ trace s' = trace s ++ status_reads k /\
  (forall i, (S i < k)%nat -> in_full hw (sta_reads s + i) = true) /\
  (Z.of_nat k < 65535 -> (1 <= k)%nat /\ in_full hw (sta_reads s + (k - 1)) = false).

Lemma wait_loop_spec hw c : forall fuel s,
  (c < fuel)%nat -> Z.of_nat c < 65536 ->
  exists k s', wait_loop fuel hw s (Z.of_nat c + 1) = Ok s' /\ (k <= c)%nat /\
    sta_reads s' = (sta_reads s + k)%nat /\ trace s' = trace s ++ status_reads k /\
    (forall i, (S i < k)%nat -> in_full hw (sta_reads s + i) = true) /\
    ((k < c)%nat -> (1 <= k)%nat /\ in_full hw (sta_reads s + (k - 1)) = false).
Proof.
  induction c as [|c IH]; intros [|fuel] s Hf Hc; try lia; cbn [wait_loop].
  - exists 0%nat, s. replace (u16 (Z.of_nat 0 + 1 - 1) =? 0) with true by reflexivity.
    split_and!; [done|lia|lia|by rewrite app_nil_r|intros; lia|lia].
  - replace (u16 (Z.of_nat (S c) + 1 - 1)) with (Z.of_nat c + 1) by (rewrite wrap_small; lia).
    destruct (Z.eqb_spec (Z.of_nat c + 1) 0); [lia|]. unfold inp_sta. cbn iota beta zeta.
    set (s1 := {| sta_reads := S (sta_reads s); trace := _ |}).
    change (negb (Z.land (sta hw (sta_reads s)) KB_STA_IN_FULL =? 0)) with (in_full hw (sta_reads s)).
    destruct (in_full hw (sta_reads s)) eqn:E.
    + destruct (IH fuel s1 ltac:(lia) ltac:(lia)) as (k & s' & H & Hk & Hr & Ht & Hall & Hlast).
      exists (S k), s'. rewrite Hr, Ht. unfold s1. cbn [sta_reads trace]. split_and!; [done|lia|lia| | |].
      * by rewrite <- app_assoc.
      * intros [|i] Hi; [by rewrite Nat.add_0_r|]. specialize (Hall i ltac:(lia)). cbn in Hall.
        by rewrite Nat.add_succ_r.
      * intros Hk'. destruct (Hlast ltac:(lia)) as [H1 H2]. split; [lia|]. cbn in H2.
        by replace (sta_reads s + (S k - 1))%nat with (S (sta_reads s + (k - 1))) by lia.
    + exists 1%nat, s1. split_and!; [done|lia|cbn; lia|done|intros; lia|]. intros _. split; [lia|].
      by rewrite Nat.sub_diag, Nat.add_0_r.
Qed.

Lemma wait_spec hw s : exists k s', wait_kb_in_buf_clear hw s = Ok s' /\ waited hw s k s'.
Proof.
  unfold wait_kb_in_buf_clear.
  assert (exists c, Z.of_nat c = 65535) as [c Hc] by (exists (Z.to_nat 65535); apply Z2Nat.id; lia).
  assert (Hf : Z.of_nat (Z.to_nat (2 ^ 16)) = 65536) by (apply Z2Nat.id; lia).
  revert Hf. generalize (Z.to_nat (2 ^ 16)). intros fuel Hf.
  destruct (wait_loop_spec hw c fuel s ltac:(lia) ltac:(lia)) as (k & s' & H & Hk & Hr & Ht & Hall & Hl).
  exists k, s'. split; [|split_and!; try done; try lia; intros; apply Hl; lia].
  rewrite Hc in H. destruct fuel as [|f]; [lia|]. revert H.
  cbn [wait_loop]. by replace (u16 (65535 + 1 - 1)) with (u16 (0 - 1)) by reflexivity.
Qed.

(** ** Properties *)

(** C20: [handle_code] implements the keyboard: whatever scan codes arrive, in whatever order, the
    flags and the ring buffer of the BIOS data area go on representing the keyboard that processed
    the same codes - keys come out in the order typed, those that find the buffer full are
    dropped - and no other byte of the segment changes. *)
Theorem handle_code_refines m s n h t codes :
  ring m s n h t -> Forall (fun c => 0 <= c < 256) codes ->
  exists t', ring (fold_left handle_code codes m) s n h t' /\
    decode (fold_left handle_code codes m) s n h t' = fold_left (kb_step n) codes (decode m s n h t) /\
    forall x, ~ ring_byte s n x -> x <> kb_stat1 -> x <> kb_stat2 ->
      fold_left handle_code codes m x = m x.
Proof.
  intros Hr Hall. revert m t Hr. induction Hall as [|c codes Hc _ IH]; intros m t Hr; cbn [fold_left].
  { by exists t. }
  destruct (handle_code_spec m s n h t c Hr Hc) as (t1 & Hr1 & Hd & Hf).
  destruct (IH _ _ Hr1) as (t' & Hr' & Hd' & Hf'). exists t'. split_and!; [done|by rewrite Hd', Hd|].
  intros x H1 H2 H3. by rewrite Hf', Hf.
Qed.

(** The data area after [clear] with an empty buffer at its default place. *)
Definition demo_bda : bda_t := fun x =>
  if (x =? 0x1a) || (x =? 0x1c) || (x =? 0x80) then 0x1e else if x =? 0x82 then 0x3e else 0.

Lemma demo_ring : ring demo_bda 0x1e 16 0 0.
Proof.
  split; try reflexivity; try lia.
  intros x. unfold demo_bda. repeat case_match; lia.
Qed.

(** "a", then Shift held, "a" again, Shift released. *)
Lemma handle_code_refines_witness :
  Forall (fun c => 0 <= c < 256) [0x1e; 0x9e; 0x2a; 0x1e; 0x9e; 0xaa] /\
  exists t', decode (fold_left handle_code [0x1e; 0x9e; 0x2a; 0x1e; 0x9e; 0xaa] demo_bda) 0x1e 16 0 t' =
    set_queue (decode demo_bda 0x1e 16 0 0) [0x1e61; 0x1e41].
Proof.
  assert (Hc : Forall (fun c => 0 <= c < 256) [0x1e; 0x9e; 0x2a; 0x1e; 0x9e; 0xaa]) by (repeat constructor; lia).
  split; [exact Hc|].
  destruct (handle_code_refines demo_bda 0x1e 16 0 0 _ demo_ring Hc) as (t' & _ & Hd & _).
  exists t'. rewrite Hd. vm_compute. reflexivity.
Defined.

(** C21: The interrupt handler always finishes, whatever the controller answers: it waits for the
    controller at most 65535 status reads at a time, disables the keyboard before it reads the
    scan code, acknowledges the interrupt exactly once, after the scan code is processed, and
    enables the keyboard last; its effect on the data area is that of [handle_code]. *)
Theorem irq1_impl_order hw s m :
  exists s' k1 s1 k2 s2 k3 s3,
    irq1_impl hw s m = Ok (s', handle_code m (data hw)) /\
    waited hw s k1 s1 /\
    waited hw (emit s1 (PortOut KB_STA KB_STA_DIS)) k2 s2 /\
    waited hw (emit (emit s2 (PortIn KB_PORT_A)) (PortOut PIC1_CMD OCW2_EOI)) k3 s3 /\
    trace s' = trace s ++ status_reads k1 ++ [PortOut KB_STA KB_STA_DIS] ++ status_reads k2 ++
      [PortIn KB_PORT_A; PortOut PIC1_CMD OCW2_EOI] ++ status_reads k3 ++ [PortOut KB_STA KB_STA_ENA].
Proof.
  unfold irq1_impl, snd_sta. pose proof (wait_spec hw) as Hw. revert Hw.
  generalize (wait_kb_in_buf_clear hw). intros w Hw.
  destruct (Hw s) as (k1 & s1 & E1 & W1). rewrite E1. cbn [mbind result_bind].
  destruct (Hw (emit s1 (PortOut KB_STA KB_STA_DIS))) as (k2 & s2 & E2 & W2).
  rewrite E2. cbn [mbind result_bind].
  destruct (Hw (emit (emit s2 (PortIn KB_PORT_A)) (PortOut PIC1_CMD OCW2_EOI))) as (k3 & s3 & E3 & W3).
  rewrite E3. cbn [mbind result_bind]. do 7 eexists. split; [done|]. split_and!; try eassumption.
  pose proof W1 as (_ & _ & T1 & _). pose proof W2 as (_ & _ & T2 & _). pose proof W3 as (_ & _ & T3 & _).
  unfold emit in *. cbn [trace] in *. rewrite T3, T2, T1. by rewrite <- !app_assoc.
Qed.

(** The letter on a letter key, in lower case. *)
Definition letter_on (code : Z) : Z := map_key no_shift_map code mod 256.

(** The key code expected of a letter key. *)
Definition letter_key (stat1 code : Z) : Z :=
  256 * code +
    (if Z.testbit stat1 3 then 0
     else if Z.testbit stat1 2 then letter_on code - 0x60
     else if xorb (Z.testbit stat1 6) (Z.testbit stat1 0 || Z.testbit stat1 1) then letter_on code - 0x20
     else letter_on code).

Lemma letter_keys_ok :
  forallb (fun code => negb (is_letter code) ||
    ((0x61 <=? letter_on code) && (letter_on code <=? 0x7a) &&
     forallb (fun st => key_of st code =? letter_key st code) (Z.of_nat <$> seq 0 256)))
    (Z.of_nat <$> seq 0 256) = true.
Proof. vm_compute. reflexivity. Qed.

(** The translation tables agree with one another on every letter key, under every
    combination of flags: the high byte of the key code is the scan code; the low byte is 0 with
    Alt, the control character of the key's letter with Ctrl, and otherwise the letter, in upper
    case exactly when one of Shift and Caps Lock is on but not both. *)
Theorem key_of_letter stat1 code :
  0 <= stat1 < 256 -> is_letter code = true ->
  0x61 <= letter_on code <= 0x7a /\
  key_of stat1 code = letter_key stat1 code.
Proof.
  intros Hs Hl. assert (Hc : 0 <= code < 256) by (revert Hl; unfold is_letter, between; lia).
  pose proof (forall_bytes _ letter_keys_ok code Hc) as H. cbn beta in H. rewrite Hl in H. cbn [negb orb] in H.
  apply andb_true_iff in H as [[H1 H2]%andb_true_iff H3].
  pose proof (forall_bytes _ H3 stat1 Hs) as H'. cbn beta in H'. apply Z.eqb_eq in H'. split; [lia|done].
Qed.

Lemma key_of_letter_witness :
  is_letter 0x10 = true /\ key_of 0x42 0x10 = 0x1071 /\ key_of 0x40 0x10 = 0x1051.
Proof.
  pose proof (key_of_letter 0x42 0x10 ltac:(lia) ltac:(reflexivity)) as [_ H1].
  pose proof (key_of_letter 0x40 0x10 ltac:(lia) ltac:(reflexivity)) as [_ H2].
  split_and!; [reflexivity|rewrite H1; reflexivity|rewrite H2; reflexivity].
Defined.
