(* ===== verification/Rimg.v ===== *)
(** * Option ROM images (src/pci.h, first half of src/stage1/pci.c)

    A C pointer into a ROM image is an offset into the list of bytes of the object it points
    into, so that a read past the object is [Fail OutOfBounds].  The theorems say which images
    [rimg_find_pcir] accepts, when [rimg_pcir_find_dev_id_list] finds a terminated list, and that
    neither ever reads outside the image it is given. *)

From S2P Require Import Prelude Util.

(** ** Reads of little-endian fields *)

Definition rd8 (m : list Z) (o : Z) : result Z := aget m o.
Definition rd16 (m : list Z) (o : Z) : result Z := a ← rd8 m o; b ← rd8 m (o + 1); Ok (a + 256 * b).
Definition rd32 (m : list Z) (o : Z) : result Z := a ← rd16 m o; b ← rd16 m (o + 2); Ok (a + 65536 * b).

(** ** Structures of pci.h *)

(** [rimg_hdr_t], by the offsets of its fields. *)
Definition hdr_sig : Z := 0x00.
Definition hdr_rimg_sz_hkib_legacy : Z := 0x02.
Definition hdr_pcir_off : Z := 0x18.

(** [rimg_pcir_t]. *)
Definition pcir_sig : Z := 0.
Definition pcir_pci_id : Z := 4.
Definition pcir_dev_ids_off : Z := 8.
Definition pcir_pcir_sz : Z := 10.
Definition pcir_pcir_rev : Z := 12.
Definition pcir_class_if : Z := 13.
Definition pcir_rimg_sz_hkib : Z := 16.
Definition pcir_type : Z := 20.
Definition pcir_flags : Z := 21.
Definition pcir_max_rt_sz_hkib : Z := 22.

Definition PCIR_SIG_PCIR : Z := MAGIC32 80 67 73 82.
Definition PCIR_TYP_PCAT : Z := 0x00.
Definition PCIR_FLAGS_LAST_IMAGE : Z := 0x80.
Definition PCIR_MIN_SZ : Z := pcir_max_rt_sz_hkib.

Definition pci_id_vendor (pci_id : Z) : Z := u16 pci_id.
Definition pci_id_dev (pci_id : Z) : Z := u16 (Z.shiftr pci_id 16).
Definition pci_make_id (vendor dev : Z) : Z := Z.lor (Z.shiftl dev 16) vendor.

Definition PCI_VENDOR_ID_VBOX : Z := 0x80ee.
Definition PCI_DEVICE_ID_VBOX_VESA : Z := 0xbeef.

(** ** [rimg_find_pcir] *)

(** The image starts at [rimg]; the result is the offset of its PCI data structure. *)
Definition rimg_find_pcir (m : list Z) (rimg rom_sz : Z) : result (option Z) :=
  if rom_sz <? HKIBYTE then Ok None
  else
    sig ← rd16 m (rimg + hdr_sig);
    if negb (sig =? 0xaa55) then Ok None
    else
      pcir_off ← rd16 m (rimg + hdr_pcir_off);
      if pcir_off =? 0 then Ok None
      else if pcir_off >? u64 (rom_sz - PCIR_MIN_SZ) then Ok None
      else
        let pcir := rimg + pcir_off in
        psig ← rd32 m (pcir + pcir_sig);
        if negb (psig =? PCIR_SIG_PCIR) then Ok None
        else
          pcir_sz ← rd16 m (pcir + pcir_pcir_sz);
          if (pcir_sz <? PCIR_MIN_SZ) || (pcir_sz >? u64 (rom_sz - pcir_off)) then Ok None
          else
            rimg_sz_hkib ← rd16 m (pcir + pcir_rimg_sz_hkib);
            if (rimg_sz_hkib =? 0) || (rimg_sz_hkib >? rom_sz / HKIBYTE) then Ok None
            else
              let rimg_sz := rimg_sz_hkib * HKIBYTE in
              if (pcir_off >? u64 (rimg_sz - PCIR_MIN_SZ)) || (pcir_sz >? u64 (rimg_sz - pcir_off))
              then Ok None
              else
                cksum ← compute_cksum (drop (Z.to_nat rimg) m) (Z.to_nat rimg_sz);
                if negb (cksum =? 0) then Ok None else Ok (Some pcir).

(** ** [rimg_pcir_find_dev_id_list] *)

(** The [do] loop from [p]; [false] is the early return with a warning. *)
Fixpoint dev_ids_loop (fuel : nat) (m : list Z) (p rimg_end : Z) : result bool :=
  match fuel with
  | O => Fail Diverges
  | S fuel =>
      if (p >=? rimg_end) || (p + 1 >=? rimg_end) then Ok false
      else
        let p := p + 2 in
        b0 ← rd8 m (p - 2);
        if negb (b0 =? 0) then dev_ids_loop fuel m p rimg_end
        else
          b1 ← rd8 m (p - 1);
          if negb (b1 =? 0) then dev_ids_loop fuel m p rimg_end else Ok true
  end.

Definition rimg_pcir_find_dev_id_list (m : list Z) (pcir rimg_end : Z) : result (option Z) :=
  rev ← rd8 m (pcir + pcir_pcir_rev);
  if rev <? 3 then Ok None
  else
    off ← rd16 m (pcir + pcir_dev_ids_off);
    if off =? 0 then Ok None
    else
      let dev_ids := pcir + off in
      found ← dev_ids_loop (S (length m)) m dev_ids rimg_end;
      Ok (if (found : bool) then Some dev_ids else None).

(** ** [rimg_find] *)

Definition rimg_find (m : list Z) (rimg : Z) : result Z :=
  sig ← rd16 m (rimg + hdr_sig);
  if negb (sig =? 0xaa55) then Ok 0
  else
    rimg_sz_hkib ← rd8 m (rimg + hdr_rimg_sz_hkib_legacy);
    if (rimg_sz_hkib =? 0) || (rimg_sz_hkib >? 0x7f) then Ok 0
    else
      let rimg_sz := rimg_sz_hkib * HKIBYTE in
      cksum ← compute_cksum (drop (Z.to_nat rimg) m) (Z.to_nat rimg_sz);
      if negb (cksum =? 0) then Ok 0 else Ok rimg_sz.

(** ** Reads inside the object *)

Definition le8 (m : list Z) (o : Z) : Z := default 0 (m !! Z.to_nat o).
Definition le16 (m : list Z) (o : Z) : Z := le8 m o + 256 * le8 m (o + 1).

Definition zlen (m : list Z) : Z := Z.of_nat (length m).

Lemma rd8_ok m o : 0 <= o < zlen m -> rd8 m o = Ok (le8 m o).
Proof. intros Ho. destruct (aget_total m o Ho) as (x & H & Hx). unfold rd8, le8. by rewrite H, Hx. Qed.

Lemma rd16_ok m o : 0 <= o -> o + 2 <= zlen m -> rd16 m o = Ok (le16 m o).
Proof. intros H1 H2. unfold rd16. by rewrite !rd8_ok by lia. Qed.

Lemma rd32_ok m o : 0 <= o -> o + 4 <= zlen m -> rd32 m o = Ok (le16 m o + 65536 * le16 m (o + 2)).
Proof. intros H1 H2. unfold rd32. by rewrite !rd16_ok by lia. Qed.

Lemma le8_range m o : bytes_ok m -> 0 <= le8 m o < 256.
Proof.
  intros Hm. unfold le8. destruct (m !! Z.to_nat o) as [b|] eqn:E; cbn; [|lia].
  exact (proj1 (Forall_lookup _ _) Hm _ _ E).
Qed.

Lemma le16_range m o : bytes_ok m -> 0 <= le16 m o < 65536.
Proof. intros Hm. unfold le16. pose proof (le8_range m o Hm). pose proof (le8_range m (o + 1) Hm). lia. Qed.

Lemma le16_bytes m o b0 b1 :
  bytes_ok m -> 0 <= b0 < 256 -> 0 <= b1 < 256 ->
  le16 m o = b0 + 256 * b1 <-> le8 m o = b0 /\ le8 m (o + 1) = b1.
Proof.
  intros Hm H0 H1. unfold le16. pose proof (le8_range m o Hm). pose proof (le8_range m (o + 1) Hm). lia.
Qed.

(** The sum of the [sz] bytes at [o]. *)
Definition sum_at (m : list Z) (o sz : Z) : Z := byte_sum (take (Z.to_nat sz) (drop (Z.to_nat o) m)).

Lemma cksum_at m o sz :
  0 <= o -> 0 <= sz -> o + sz <= zlen m ->
  compute_cksum (drop (Z.to_nat o) m) (Z.to_nat sz) = Ok (u8 (- sum_at m o sz)).
Proof. intros. apply compute_cksum_ok. rewrite length_drop. unfold zlen in *. lia. Qed.

(** ** Well-formed images *)

(** A PC-compatible or UEFI option ROM image of [sz] bytes at [rimg], with its PCI data structure
    at [pcir], in a ROM of which [rom_sz] bytes are left: the rules of the PCI Firmware
    Specification that the code relies on. *)
Record rom_image (m : list Z) (rimg rom_sz pcir sz : Z) : Prop := {
  img_sig : le8 m rimg = 0x55 /\ le8 m (rimg + 1) = 0xaa;
  img_pcir : le16 m (rimg + 0x18) = pcir - rimg /\ pcir <> rimg;
  img_pcir_sig : le8 m pcir = 80 /\ le8 m (pcir + 1) = 67 /\ le8 m (pcir + 2) = 73 /\ le8 m (pcir + 3) = 82;
  img_size : sz = 512 * le16 m (pcir + 16) /\ 0 < sz <= rom_sz;
  img_pcir_in : 22 <= le16 m (pcir + 10) /\ pcir + le16 m (pcir + 10) <= rimg + sz;
  img_sum : sum_at m rimg sz mod 256 = 0;
}.

Lemma pcir_sig_bytes m o :
  bytes_ok m -> (le16 m o + 65536 * le16 m (o + 2) =? PCIR_SIG_PCIR) = true <->
  le8 m o = 80 /\ le8 m (o + 1) = 67 /\ le8 m (o + 2) = 73 /\ le8 m (o + 3) = 82.
Proof.
  intros Hm. change PCIR_SIG_PCIR with 1380533072. rewrite Z.eqb_eq. unfold le16. replace (o + 2 + 1) with (o + 3) by lia.
  pose proof (le8_range m o Hm). pose proof (le8_range m (o + 1) Hm).
  pose proof (le8_range m (o + 2) Hm). pose proof (le8_range m (o + 3) Hm). lia.
Qed.

(** No image here: the data structure would be at an offset that a check has ruled out. *)
Ltac reject := match goal with Hno : _ -> ex _, Hpc : forall p sz, rom_image _ _ _ p sz -> _ |- _ =>
    apply Hno; let Hi := fresh in intros ? ? Hi; rewrite (Hpc _ _ Hi) in Hi; destruct Hi; lia end.

(** [rimg_find_pcir] decides [rom_image]. *)
Lemma rimg_find_pcir_spec m rimg rom_sz :
  bytes_ok m -> 0 <= rimg -> 0 <= rom_sz < 2 ^ 64 -> rimg + rom_sz <= zlen m ->
  exists r, rimg_find_pcir m rimg rom_sz = Ok r /\
    forall pcir, r = Some pcir <-> exists sz, rom_image m rimg rom_sz pcir sz.
Proof.
  intros Hm H0 Hrom Hlen. unfold rimg_find_pcir.
  assert (Hno : (forall pcir sz, ~ rom_image m rimg rom_sz pcir sz) ->
    exists r, Ok None = Ok r /\ forall pcir, r = Some pcir <-> exists sz, rom_image m rimg rom_sz pcir sz).
  { intros Hn. exists None. split; [done|]. intros p. split; [done|]. intros [sz Hi]. by destruct (Hn p sz). }
  unfold hdr_sig, hdr_pcir_off, pcir_sig, pcir_pcir_sz, pcir_rimg_sz_hkib. rewrite !Z.add_0_r.
  change HKIBYTE with 512. change PCIR_MIN_SZ with 22.
  destruct (Z.ltb_spec rom_sz 512).
  { apply Hno. intros p sz [_ _ _ [-> Hs] _ _]. lia. }
  rewrite !rd16_ok by lia. cbn [mbind result_bind].
  pose proof (le16_range m (rimg + 0x18) Hm) as Hoff. pose proof (le16_bytes m rimg 0x55 0xaa Hm) as Hsig.
  destruct (Z.eqb_spec (le16 m rimg) 0xaa55); cbn [negb].
  2: { apply Hno. intros p sz Hi. destruct Hi. lia. }
  set (off := le16 m (rimg + 24)) in *.
  destruct (Z.eqb_spec off 0); [apply Hno; intros p sz []; lia|].
  rewrite (wrap_small 64 (rom_sz - 22)) by lia.
  pose proof (le16_range m (rimg + off + 10) Hm) as Hpsz. pose proof (le16_range m (rimg + off + 16) Hm) as Hrsz.
  assert (Hpc : forall p sz, rom_image m rimg rom_sz p sz -> p = rimg + off) by (intros p sz []; lia).
  rewrite Z.gtb_ltb. destruct (Z.ltb_spec (rom_sz - 22) off).
  { reject. }
  rewrite (Z.add_0_r (rimg + off)), rd32_ok by lia. cbn [mbind result_bind].
  pose proof (pcir_sig_bytes m (rimg + off) Hm) as Hps.
  destruct (_ =? PCIR_SIG_PCIR); cbn [negb].
  2: { apply Hno. intros p sz Hi. rewrite (Hpc p sz Hi) in Hi. destruct Hi. intuition congruence. }
  rewrite !rd16_ok by lia. cbn [mbind result_bind].
  set (psz := le16 m (rimg + off + 10)) in *. rewrite Z.gtb_ltb.
  rewrite (wrap_small 64 (rom_sz - off)) by lia.
  destruct (Z.ltb_spec psz 22), (Z.ltb_spec (rom_sz - off) psz); cbn [orb];
    try reject.
  set (hk := le16 m (rimg + off + 16)) in *. rewrite Z.gtb_ltb.
  pose proof (Z.div_mod rom_sz 512 ltac:(lia)). pose proof (Z.mod_pos_bound rom_sz 512 ltac:(lia)).
  destruct (Z.eqb_spec hk 0), (Z.ltb_spec (rom_sz / 512) hk); cbn [orb];
    try reject.
  rewrite !Z.gtb_ltb, (wrap_small 64 (hk * 512 - 22)) by lia.
  destruct (Z.ltb_spec (hk * 512 - 22) off); cbn [orb];
    [reject|].
  rewrite (wrap_small 64 (hk * 512 - off)) by lia. destruct (Z.ltb_spec (hk * 512 - off) psz);
    [reject|].
  rewrite cksum_at by lia. cbn [mbind result_bind].
  pose proof (neg_mod_zero (sum_at m rimg (hk * 512))) as Hck.
  destruct (Z.eqb_spec (u8 (- sum_at m rimg (hk * 512))) 0); cbn [negb].
  2: { apply Hno. intros p sz Hi. rewrite (Hpc p sz Hi) in Hi.
       destruct Hi as [_ _ _ [E _] _ Hs]. replace sz with (hk * 512) in Hs by lia. tauto. }
  eexists. split; [done|]. intros p. split; [intros [= <-]|intros [sz Hi]; by rewrite (Hpc p sz Hi)].
  exists (hk * 512). split; (tauto || lia).
Qed.

(** ** Device lists *)

(** The zero-terminated list of device ids at [p], all of it before [rimg_end]. *)
Inductive dev_ids (m : list Z) (rimg_end : Z) : Z -> list Z -> Prop :=
  | dev_ids_end p : p + 2 <= rimg_end -> le16 m p = 0 -> dev_ids m rimg_end p []
  | dev_ids_more p l : p + 2 <= rimg_end -> le16 m p <> 0 -> dev_ids m rimg_end (p + 2) l ->
      dev_ids m rimg_end p (le16 m p :: l).

Lemma dev_ids_det m e p l1 l2 : dev_ids m e p l1 -> dev_ids m e p l2 -> l1 = l2.
Proof.
  intros H. revert l2. induction H as [p Hp Hz|p l Hp Hnz H IH]; intros l2 H2; inversion H2; subst; try done.
  f_equal. by apply IH.
Qed.

Lemma dev_ids_loop_spec m e fuel : forall p,
  bytes_ok m -> 0 <= p -> e <= zlen m -> zlen m - p < Z.of_nat fuel -> (0 < fuel)%nat ->
  exists b, dev_ids_loop fuel m p e = Ok b /\ (b = true <-> exists l, dev_ids m e p l).
Proof.
  induction fuel as [|fuel IH]; intros p Hm Hp He Hf Hpos; [lia|]. cbn [dev_ids_loop].
  rewrite !Z.geb_leb. destruct (Z.leb_spec e p), (Z.leb_spec e (p + 1)); cbn [orb]; try lia.
  1, 2: exists false; split; [done|split; [done|]]; intros [l H']; inversion H'; lia.
  replace (p + 2 - 2) with p by lia. replace (p + 2 - 1) with (p + 1) by lia.
  rewrite !rd8_ok by lia. cbn [mbind result_bind].
  assert (Hnext : le16 m p <> 0 -> exists b, dev_ids_loop fuel m (p + 2) e = Ok b /\
    (b = true <-> exists l, dev_ids m e p l)).
  { intros Hnz. destruct (IH (p + 2) Hm ltac:(lia) He ltac:(lia) ltac:(lia)) as (b & E & Hb). exists b. split; [done|].
    rewrite Hb. split; intros [l Hl]; [eexists; apply dev_ids_more; [lia|done|exact Hl]|]. inversion Hl; subst; [done|by eexists]. }
  pose proof (le8_range m p Hm). pose proof (le8_range m (p + 1) Hm).
  destruct (Z.eqb_spec (le8 m p) 0); cbn [negb]; [|apply Hnext; unfold le16; lia].
  destruct (Z.eqb_spec (le8 m (p + 1)) 0); cbn [negb]; [|apply Hnext; unfold le16; lia].
  exists true. split; [done|]. split; [|done]. intros _. exists []. apply dev_ids_end; unfold le16; lia.
Qed.

(** The list belongs to a data structure of revision 3 or later, which must point to it. *)
Definition has_dev_ids (m : list Z) (pcir rimg_end p : Z) (l : list Z) : Prop :=
  3 <= le8 m (pcir + 12) /\ le16 m (pcir + 8) <> 0 /\ p = pcir + le16 m (pcir + 8) /\ dev_ids m rimg_end p l.

Lemma find_dev_id_list_spec m pcir rimg_end :
  bytes_ok m -> 0 <= pcir -> pcir + 22 <= zlen m -> rimg_end <= zlen m ->
  exists r, rimg_pcir_find_dev_id_list m pcir rimg_end = Ok r /\
    forall p, r = Some p <-> exists l, has_dev_ids m pcir rimg_end p l.
Proof.
  intros Hm Hp Hlen He. unfold rimg_pcir_find_dev_id_list, pcir_pcir_rev, pcir_dev_ids_off.
  rewrite rd8_ok by lia. cbn [mbind result_bind]. unfold has_dev_ids.
  destruct (Z.ltb_spec (le8 m (pcir + 12)) 3).
  { exists None. split; [done|]. intros p. split; [done|]. intros (l & ? & _). lia. }
  rewrite rd16_ok by lia. cbn [mbind result_bind]. pose proof (le16_range m (pcir + 8) Hm).
  destruct (Z.eqb_spec (le16 m (pcir + 8)) 0).
  { exists None. split; [done|]. intros p. split; [done|]. by intros (l & _ & ? & _). }
  destruct (dev_ids_loop_spec m rimg_end (S (length m)) (pcir + le16 m (pcir + 8))) as (b & E & Hb);
    [done|lia|done|unfold zlen in *; lia|lia|].
  rewrite E. cbn [mbind result_bind]. eexists. split; [done|]. intros p. destruct b.
  - split.
    + intros [= <-]. destruct (proj1 Hb eq_refl) as [l Hl]. by exists l.
    + by intros (l & _ & _ & -> & _).
  - split; [done|]. intros (l & _ & _ & -> & Hl). by assert (false = true) by (apply Hb; eauto).
Qed.

(** ** Ids *)

Definition le32 (m : list Z) (o : Z) : Z := le16 m o + 65536 * le16 m (o + 2).

Lemma pci_make_id_sum vendor dev : 0 <= vendor < 65536 -> 0 <= dev -> pci_make_id vendor dev = 65536 * dev + vendor.
Proof.
  intros Hv Hd. unfold pci_make_id. rewrite Z.shiftl_mul_pow2 by lia.
  rewrite (lor_add_low 16); [lia|lia|by exists dev|lia].
Qed.

(** Class code, subclass and interface as the code keeps them, with the low byte clear. *)
Definition class_at (m : list Z) (pcir : Z) : Z :=
  2 ^ 24 * le8 m (pcir + 15) + 2 ^ 16 * le8 m (pcir + 14) + 2 ^ 8 * le8 m (pcir + 13).

Lemma class_shifts c2 c1 c0 :
  0 <= c2 < 256 -> 0 <= c1 < 256 -> 0 <= c0 < 256 ->
  Z.lor (Z.lor (Z.shiftl c2 24) (Z.shiftl c1 16)) (Z.shiftl c0 8) = 2 ^ 24 * c2 + 2 ^ 16 * c1 + 2 ^ 8 * c0.
Proof.
  intros. rewrite !Z.shiftl_mul_pow2 by lia.
  rewrite (lor_add_low 24 (c2 * 2 ^ 24)); [|lia|by exists c2|lia].
  rewrite (lor_add_low 16); [lia|lia| |lia]. exists (c2 * 2 ^ 8 + c1). lia.
Qed.

(** A list of device ids fits in the object it lies in. *)
Lemma dev_ids_length m e p l : dev_ids m e p l -> p + 2 * (Z.of_nat (length l) + 1) <= e.
Proof. induction 1; cbn [length]; lia. Qed.

(** The image and its data structure lie in the object; the image can be copied and read alone. *)
Lemma rom_image_bounds m rimg rom_sz pcir sz :
  bytes_ok m -> rom_image m rimg rom_sz pcir sz ->
  512 <= sz /\ sz <= rom_sz /\ sz <= 512 * 65535 /\ rimg < pcir /\ pcir + 22 <= rimg + sz.
Proof.
  intros Hm [_ [H1 H2] _ [H3 H4] [H5 H6] _].
  pose proof (le16_range m (rimg + 0x18) Hm). pose proof (le16_range m (pcir + 16) Hm). lia.
Qed.

(** ** An image copied out of its ROM *)

Definition bytes_at (m : list Z) (o n : Z) : list Z := take (Z.to_nat n) (drop (Z.to_nat o) m).

Section copied.
Context (m : list Z) (o n : Z) (Ho : 0 <= o) (Hn : 0 <= n) (Hlen : o + n <= zlen m).

Lemma bytes_at_len : zlen (bytes_at m o n) = n.
Proof. unfold zlen, bytes_at in *. rewrite length_take, length_drop. lia. Qed.

Lemma bytes_at_ok : bytes_ok m -> bytes_ok (bytes_at m o n).
Proof. intros H. unfold bytes_at. by apply Forall_take, Forall_drop. Qed.

Lemma le8_bytes_at x : 0 <= x < n -> le8 (bytes_at m o n) x = le8 m (o + x).
Proof.
  intros Hx. unfold le8, bytes_at. rewrite lookup_take_lt, lookup_drop by lia. do 2 f_equal. lia.
Qed.

Lemma le16_bytes_at x : 0 <= x -> x + 2 <= n -> le16 (bytes_at m o n) x = le16 m (o + x).
Proof. intros. unfold le16. rewrite !le8_bytes_at by lia. by rewrite Z.add_assoc. Qed.

Lemma dev_ids_bytes_at x l : 0 <= x -> dev_ids m (o + n) (o + x) l <-> dev_ids (bytes_at m o n) n x l.
Proof.
  intros Hx. split.
  - intros H. remember (o + x) as p eqn:Ep. revert x Hx Ep.
    induction H as [p Hp Hz|p l Hp Hz H IH]; intros x Hx ->.
    + constructor; [lia|]. by rewrite le16_bytes_at by lia.
    + rewrite <- (le16_bytes_at x) by lia. constructor; [lia|by rewrite le16_bytes_at by lia|]. apply IH; lia.
  - intros H. revert Hx. induction H as [x Hp Hz|x l Hp Hz H IH]; intros Hx.
    + constructor; [lia|]. by rewrite <- le16_bytes_at by lia.
    + rewrite le16_bytes_at by lia. constructor; [lia|by rewrite <- le16_bytes_at by lia|].
      replace (o + x + 2) with (o + (x + 2)) by lia. apply IH. lia.
Qed.
End copied.

Lemma rom_image_bytes_at m o rom_sz pcir sz :
  bytes_ok m -> 0 <= o -> o + rom_sz <= zlen m -> rom_image m o rom_sz pcir sz ->
  rom_image (bytes_at m o sz) 0 sz (pcir - o) sz.
Proof.
  intros Hm Ho Hlen Hi. destruct (rom_image_bounds _ _ _ _ _ Hm Hi) as (B1 & B2 & B3 & B4 & B5).
  destruct Hi as [H1 [H2 H2'] H3 H4 H5 H6].
  assert (E8 : forall x, 0 <= x < sz -> le8 (bytes_at m o sz) x = le8 m (o + x)) by (intros; apply le8_bytes_at; lia).
  assert (E16 : forall x, 0 <= x -> x + 2 <= sz -> le16 (bytes_at m o sz) x = le16 m (o + x))
    by (intros; apply le16_bytes_at; lia).
  split.
  - rewrite !E8 by lia. by rewrite Z.add_0_r.
  - rewrite Z.add_0_l, E16 by lia. lia.
  - rewrite !E8 by lia. by replace (o + (pcir - o)) with pcir by lia;
      replace (o + (pcir - o + 1)) with (pcir + 1) by lia; replace (o + (pcir - o + 2)) with (pcir + 2) by lia;
      replace (o + (pcir - o + 3)) with (pcir + 3) by lia.
  - rewrite E16 by lia. replace (o + (pcir - o + 16)) with (pcir + 16) by lia. lia.
  - rewrite E16 by lia. replace (o + (pcir - o + 10)) with (pcir + 10) by lia. lia.
  - unfold sum_at, bytes_at in *. cbn. by rewrite drop_0, take_take, Nat.min_id.
Qed.

Lemma has_dev_ids_bytes_at m o rom_sz pcir sz p l :
  bytes_ok m -> 0 <= o -> o + rom_sz <= zlen m -> rom_image m o rom_sz pcir sz ->
  has_dev_ids m pcir (o + sz) p l <-> has_dev_ids (bytes_at m o sz) (pcir - o) sz (p - o) l.
Proof.
  intros Hm Ho Hlen Hi. destruct (rom_image_bounds _ _ _ _ _ Hm Hi) as (B1 & B2 & B3 & B4 & B5).
  pose proof (le16_range m (pcir + 8) Hm). unfold has_dev_ids.
  rewrite le8_bytes_at, le16_bytes_at by lia.
  replace (o + (pcir - o + 12)) with (pcir + 12) by lia. replace (o + (pcir - o + 8)) with (pcir + 8) by lia.
  assert (Hiff : p = pcir + le16 m (pcir + 8) ->
    dev_ids m (o + sz) p l <-> dev_ids (bytes_at m o sz) sz (p - o) l).
  { intros ->. rewrite <- dev_ids_bytes_at by lia. by replace (o + (pcir + le16 m (pcir + 8) - o)) with
      (pcir + le16 m (pcir + 8)) by lia. }
  split; intros (H1 & H2 & H3 & H4); (split_and!; [done|done|lia|]); apply Hiff; (done || lia).
Qed.

(** ** Properties *)

(** C29: [rimg_find_pcir] decides whether an option ROM image starts at [rimg]: it returns the
    address of the PCI data structure exactly when signature, pointer, sizes and checksum are
    those of an image that fits in what is left of the ROM, and NULL in every other case - and it
    never reads a byte outside that ROM to find out, whatever the bytes are. *)
Theorem rimg_find_pcir_decides m rimg rom_sz :
  bytes_ok m -> 0 <= rimg -> 0 <= rom_sz < 2 ^ 64 -> rimg + rom_sz <= zlen m ->
  (forall pcir, rimg_find_pcir m rimg rom_sz = Ok (Some pcir) <-> exists sz, rom_image m rimg rom_sz pcir sz) /\
  (rimg_find_pcir m rimg rom_sz = Ok None <-> forall pcir sz, ~ rom_image m rimg rom_sz pcir sz).
Proof.
  intros H1 H2 H3 H4. destruct (rimg_find_pcir_spec m rimg rom_sz H1 H2 H3 H4) as (r & -> & Hr). split.
  - intros pcir. rewrite <- Hr. split; congruence.
  - split.
    + intros [= ->] pcir sz Hi. by assert (None = Some pcir) by (apply Hr; eauto).
    + intros Hn. destruct r as [p|]; [|done]. destruct (proj1 (Hr p) eq_refl) as [sz Hi]. by destruct (Hn p sz).
Qed.

(** [rimg_pcir_find_dev_id_list] terminates on every image; it returns a list exactly when
    the data structure is of revision 3 or later, points to one, and the list is terminated
    before the end of the image; it never reads past that end, so that [fv_cache_rimg] may walk
    the list it returns without a bound. *)
Theorem find_dev_id_list_bounded m pcir rimg_end :
  bytes_ok m -> 0 <= pcir -> pcir + 22 <= zlen m -> rimg_end <= zlen m ->
  (forall p, rimg_pcir_find_dev_id_list m pcir rimg_end = Ok (Some p) <->
     exists l, has_dev_ids m pcir rimg_end p l) /\
  (rimg_pcir_find_dev_id_list m pcir rimg_end = Ok None <->
     forall p l, ~ has_dev_ids m pcir rimg_end p l).
Proof.
  intros H1 H2 H3 H4. destruct (find_dev_id_list_spec m pcir rimg_end H1 H2 H3 H4) as (r & -> & Hr). split.
  - intros p. rewrite <- Hr. split; congruence.
  - split.
    + intros [= ->] p l Hl. by assert (None = Some p) by (apply Hr; eauto).
    + intros Hn. destruct r as [p|]; [|done]. destruct (proj1 (Hr p) eq_refl) as [l Hl]. by destruct (Hn p l).
Qed.

(** ** A concrete image *)

Definition poke_bytes (l : list (Z * Z)) (m : list Z) : list Z :=
  fold_left (fun m p => <[Z.to_nat p.1 := p.2]> m) l m.

(** One image of 512 bytes for vendor 0x8086, device 0x1111, with device 0x2222 in the list;
    revision 3; data structure at 0x1c, list at 0x40. *)
Definition demo_rimg : list Z := poke_bytes
  [(0, 0x55); (1, 0xaa); (0x18, 0x1c);
   (0x1c, 80); (0x1d, 67); (0x1e, 73); (0x1f, 82);
   (0x20, 0x86); (0x21, 0x80); (0x22, 0x11); (0x23, 0x11); (0x24, 0x24); (0x26, 0x1c); (0x28, 3);
   (0x2b, 3); (0x2c, 1); (0x31, 0x80); (0x32, 2); (0x40, 0x22); (0x41, 0x22); (0x1ff, 0x82)]
  (replicate 512 0).

Lemma demo_rimg_bytes : bytes_ok demo_rimg.
Proof.
  unfold bytes_ok. apply Forall_forall. intros x Hx. unfold byte_ok.
  assert (H : forallb (fun b => (0 <=? b) && (b <? 256)) demo_rimg = true) by (vm_compute; reflexivity).
  rewrite forallb_forall in H. specialize (H x). rewrite <- list_elem_of_In in H. specialize (H Hx). lia.
Qed.

Lemma demo_rimg_len : zlen demo_rimg = 512.
Proof. vm_compute. reflexivity. Qed.

Lemma rimg_find_pcir_decides_witness :
  rimg_find_pcir demo_rimg 0 512 = Ok (Some 0x1c) /\
  exists sz, rom_image demo_rimg 0 512 0x1c sz.
Proof.
  assert (E : rimg_find_pcir demo_rimg 0 512 = Ok (Some 0x1c)) by (vm_compute; reflexivity).
  split; [exact E|]. pose proof demo_rimg_len.
  apply (rimg_find_pcir_decides demo_rimg 0 512 demo_rimg_bytes); [lia..|exact E].
Defined.

Lemma find_dev_id_list_bounded_witness :
  rimg_pcir_find_dev_id_list demo_rimg 0x1c 512 = Ok (Some 0x40) /\
  exists l, has_dev_ids demo_rimg 0x1c 512 0x40 l.
Proof.
  assert (E : rimg_pcir_find_dev_id_list demo_rimg 0x1c 512 = Ok (Some 0x40)) by (vm_compute; reflexivity).
  split; [exact E|]. pose proof demo_rimg_len.
  apply (find_dev_id_list_bounded demo_rimg 0x1c 512 demo_rimg_bytes); [lia..|exact E].
Defined.
