(* ===== verification/Phys.v ===== *)
(** * Physical memory

    Memory is a function from addresses to bytes; what lies in it is read as little-endian fields
    and written by [memcpy], [memset] and stores of bytes.  Each write comes with the lemma that
    says what is read back and the one that says what stays. *)

From S2P Require Import Prelude Util Bmem Bparm Rimg.

(** ** The BIOS data area

    The two of its fields that stage 1 hands to stage 2, as linear addresses: the segment of the
    extended BIOS data area, which becomes that of the real-mode data, and the size of base memory. *)

Definition bda_ebda : Z := 0x040e.
Definition bda_base_kib : Z := 0x0413.
#[export] Hint Unfold bda_ebda bda_base_kib : consts.

(** ** Memory *)

Definition phys : Type := Z -> Z.

Definition region (pm : phys) (a n : Z) : list Z := (fun i => pm (a + Z.of_nat i)) <$> seq 0 (Z.to_nat n).

Definition memcpy (pm : phys) (dst src n : Z) : phys :=
  fun x => if (dst <=? x) && (x <? dst + n) then pm (x - dst + src) else pm x.

Definition m16 (pm : phys) (a : Z) : Z := pm a + 256 * pm (a + 1).
Definition m32 (pm : phys) (a : Z) : Z := m16 pm a + 2 ^ 16 * m16 pm (a + 2).
Definition m64 (pm : phys) (a : Z) : Z := m32 pm a + 2 ^ 32 * m32 pm (a + 4).

Definition memset (pm : phys) (a n : Z) : phys := fun x => if (a <=? x) && (x <? a + n) then 0 else pm x.

Definition write_bytes (pm : phys) (a : Z) (l : list Z) : phys :=
  fun x => if (a <=? x) && (x <? a + zlen l) then le8 l (x - a) else pm x.

(** The bytes of a little-endian field. *)
Fixpoint enc (n : nat) (x : Z) : list Z :=
  match n with O => [] | S n => x mod 256 :: enc n (x / 256) end.

(** ** Reading *)

Definition pm_ok (pm : phys) : Prop := forall x, 0 <= pm x < 256.

Lemma region_len pm a n : 0 <= n -> zlen (region pm a n) = n.
Proof. intros Hn. unfold zlen, region. rewrite length_fmap, length_seq. lia. Qed.

Lemma region_ok pm a n : pm_ok pm -> bytes_ok (region pm a n).
Proof. intros H. apply Forall_fmap, Forall_true. intros i. apply H. Qed.

Lemma region_ext pm pm' a a' n :
  (forall i, 0 <= i < n -> pm' (a' + i) = pm (a + i)) -> region pm' a' n = region pm a n.
Proof. intros H. apply list_fmap_ext. intros i k Hk%lookup_seq. apply H. lia. Qed.

Lemma region_take pm a n k : 0 <= k <= n -> take (Z.to_nat k) (region pm a n) = region pm a k.
Proof. intros Hk. unfold region. rewrite <- fmap_take, take_seq. do 2 f_equal. lia. Qed.

Lemma region_app pm a n m : 0 <= n -> 0 <= m -> region pm a (n + m) = region pm a n ++ region pm (a + n) m.
Proof.
  intros Hn Hm. unfold region. rewrite Z2Nat.inj_add, seq_app, fmap_app by done. f_equal.
  rewrite (Nat.add_comm 0), <- fmap_add_seq, <- list_fmap_compose. apply list_fmap_ext.
  intros i k _. cbn. f_equal. lia.
Qed.

Lemma le8_region pm a n x : 0 <= x < n -> le8 (region pm a n) x = pm (a + x).
Proof.
  intros Hx. unfold le8, region. rewrite list_lookup_fmap.
  assert (E : seq 0 (Z.to_nat n) !! Z.to_nat x = Some (Z.to_nat x)) by (apply lookup_seq; lia).
  rewrite E. cbn. f_equal. lia.
Qed.

Lemma memcpy_region pm dst src n : region (memcpy pm dst src n) dst n = region pm src n.
Proof.
  apply region_ext. intros i Hi. unfold memcpy.
  destruct (Z.leb_spec dst (dst + i)), (Z.ltb_spec (dst + i) (dst + n)); try lia. cbn. f_equal. lia.
Qed.

Lemma memcpy_ok pm dst src n : pm_ok pm -> pm_ok (memcpy pm dst src n).
Proof. intros H x. unfold memcpy. destruct (_ && _); apply H. Qed.

Section read.
Context (pm : phys) (Hpm : pm_ok pm).

Lemma m16_range a : 0 <= m16 pm a < 2 ^ 16.
Proof. unfold m16. pose proof (Hpm a). pose proof (Hpm (a + 1)). lia. Qed.
Lemma m32_range a : 0 <= m32 pm a < 2 ^ 32.
Proof. unfold m32. pose proof (m16_range a). pose proof (m16_range (a + 2)). lia. Qed.
End read.

(** ** Writing *)

Lemma write_bytes_in pm a l x : a <= x < a + zlen l -> write_bytes pm a l x = le8 l (x - a).
Proof. intros H. unfold write_bytes. destruct (Z.leb_spec a x), (Z.ltb_spec x (a + zlen l)); try lia. done. Qed.

Lemma write_bytes_out pm a l x : ~ (a <= x < a + zlen l) -> write_bytes pm a l x = pm x.
Proof. intros H. unfold write_bytes. destruct (Z.leb_spec a x), (Z.ltb_spec x (a + zlen l)); try lia; done. Qed.

Lemma memset_in pm a n x : a <= x < a + n -> memset pm a n x = 0.
Proof. intros H. unfold memset. destruct (Z.leb_spec a x), (Z.ltb_spec x (a + n)); try lia. done. Qed.

Lemma memset_out pm a n x : ~ (a <= x < a + n) -> memset pm a n x = pm x.
Proof. intros H. unfold memset. destruct (Z.leb_spec a x), (Z.ltb_spec x (a + n)); try lia; done. Qed.

Lemma write_bytes_ok pm a l : pm_ok pm -> bytes_ok l -> pm_ok (write_bytes pm a l).
Proof. intros Hpm Hl x. unfold write_bytes. destruct (_ && _); [by apply le8_range|apply Hpm]. Qed.

Lemma memset_ok pm a n : pm_ok pm -> pm_ok (memset pm a n).
Proof. intros Hpm x. unfold memset. destruct (_ && _); [done|apply Hpm]. Qed.

Lemma enc32_dec x : 0 <= x < 2 ^ 32 ->
  x mod 256 + 256 * (x / 256 mod 256) + 2 ^ 16 * (x / 256 / 256 mod 256 + 256 * (x / 256 / 256 / 256 mod 256)) = x.
Proof. intros Hx. change (2 ^ 16) with 65536. change (2 ^ 32) with 0x100000000 in Hx. dlia. Qed.

Lemma write_bytes_at pm a l o : 0 <= o < zlen l -> write_bytes pm a l (a + o) = le8 l o.
Proof.
  intros Ho. unfold write_bytes. destruct (Z.leb_spec a (a + o)), (Z.ltb_spec (a + o) (a + zlen l)); try lia. cbn.
  f_equal. lia.
Qed.

Lemma region_write pm a l1 l2 l3 :
  region (write_bytes pm a (l1 ++ l2 ++ l3)) (a + zlen l1) (zlen l2) = l2.
Proof.
  unfold region, zlen. apply list_eq. intros i. rewrite list_lookup_fmap, Nat2Z.id.
  destruct (decide (i < length l2)%nat) as [Hi|Hi].
  - rewrite lookup_seq_lt by done. cbn [fmap option_fmap option_map].
    replace (a + Z.of_nat (length l1) + Z.of_nat (0 + i)) with (a + (Z.of_nat (length l1) + Z.of_nat i)) by lia.
    rewrite write_bytes_at by (unfold zlen; rewrite !length_app; lia). unfold le8.
    replace (Z.to_nat (Z.of_nat (length l1) + Z.of_nat i)) with (length l1 + i)%nat by lia.
    rewrite lookup_app_r by lia. replace (length l1 + i - length l1)%nat with i by lia.
    rewrite lookup_app_l by done. by destruct (lookup_lt_is_Some_2 l2 i Hi) as [x ->].
  - rewrite (lookup_ge_None_2 (seq _ _)) by (rewrite length_seq; lia). by rewrite lookup_ge_None_2 by lia.
Qed.

Lemma enc_ok n : forall x, bytes_ok (enc n x).
Proof. induction n as [|n IH]; intros x; constructor; [unfold byte_ok; dlia|apply IH]. Qed.


(** Stores of two, four and eight bytes. *)
Definition store16 (pm : phys) (a v : Z) : phys := write_bytes pm a (enc 2 v).
Definition store32 (pm : phys) (a v : Z) : phys := write_bytes pm a (enc 4 v).
Definition store64 (pm : phys) (a v : Z) : phys := write_bytes pm a (enc 8 v).

Lemma zlen_enc n x : zlen (enc n x) = Z.of_nat n.
Proof. revert x. induction n as [|n IH]; intros x; unfold zlen in *; cbn [enc length]; [done|]. specialize (IH (x / 256)). lia. Qed.

Lemma store_ok pm a n x : pm_ok pm -> pm_ok (write_bytes pm a (enc n x)).
Proof. intros H. by apply write_bytes_ok, enc_ok. Qed.

Lemma store_out pm a n v x : ~ in_range a (Z.of_nat n) x -> write_bytes pm a (enc n v) x = pm x.
Proof. intros H. apply write_bytes_out. rewrite zlen_enc. exact H. Qed.

Lemma store16_out pm a v x : ~ in_range a 2 x -> store16 pm a v x = pm x.
Proof. apply (store_out pm a 2). Qed.

Lemma store32_out pm a v x : ~ in_range a 4 x -> store32 pm a v x = pm x.
Proof. apply (store_out pm a 4). Qed.

Lemma store64_out pm a v x : ~ in_range a 8 x -> store64 pm a v x = pm x.
Proof. apply (store_out pm a 8). Qed.

Lemma m16_ext pm pm' a : (forall i, 0 <= i < 2 -> pm' (a + i) = pm (a + i)) -> m16 pm' a = m16 pm a.
Proof. intros H. unfold m16. rewrite <- (Z.add_0_r a) at 1 3. by rewrite !H by lia. Qed.

Lemma m32_ext pm pm' a : (forall i, 0 <= i < 4 -> pm' (a + i) = pm (a + i)) -> m32 pm' a = m32 pm a.
Proof.
  intros H. unfold m32. rewrite !(m16_ext pm pm'); [done| |].
  - intros i Hi. rewrite <- Z.add_assoc. apply H. lia.
  - intros i Hi. apply H. lia.
Qed.

Lemma m64_ext pm pm' a : (forall i, 0 <= i < 8 -> pm' (a + i) = pm (a + i)) -> m64 pm' a = m64 pm a.
Proof.
  intros H. unfold m64. rewrite !(m32_ext pm pm'); [done| |].
  - intros i Hi. rewrite <- Z.add_assoc. apply H. lia.
  - intros i Hi. apply H. lia.
Qed.

Lemma write_bytes_first pm a b l : write_bytes pm a (b :: l) a = b.
Proof. pose proof (write_bytes_at pm a (b :: l) 0) as H. rewrite Z.add_0_r in H. apply H. unfold zlen. cbn. lia. Qed.

Ltac le8_cons := unfold le8, wrap;
  repeat match goal with |- context [Z.to_nat ?n] => let k := eval vm_compute in (Z.to_nat n) in change (Z.to_nat n) with k end;
  cbn [lookup list_lookup default from_option id].

Ltac stored := rewrite <- ?Z.add_assoc; cbn [Z.add Pos.add enc]; rewrite write_bytes_first;
  rewrite !write_bytes_at by (unfold zlen; cbn; lia); le8_cons.

Lemma m16_store16 pm a v : 0 <= v < 2 ^ 16 -> m16 (store16 pm a v) a = v.
Proof. intros Hv. unfold m16, store16. stored. change (2 ^ 16) with 65536 in Hv. dlia. Qed.

Lemma m32_store32 pm a v : 0 <= v < 2 ^ 32 -> m32 (store32 pm a v) a = v.
Proof. intros Hv. unfold m32, m16, store32. stored. pose proof (enc32_dec v Hv); lia. Qed.

(** The halves of a store of eight bytes. *)
Lemma m32_store64_low pm a v : m32 (store64 pm a v) a = u32 v.
Proof.
  unfold m32, m16, store64. stored. change (2 ^ 16) with 65536. change (2 ^ 32) with 0x100000000. dlia.
Qed.

Lemma m32_store64_high pm a v : m32 (store64 pm a v) (a + 4) = u32 (v / 2 ^ 32).
Proof.
  unfold m32, m16, store64. rewrite <- !Z.add_assoc. cbn [Z.add Pos.add enc].
  rewrite !write_bytes_at by (unfold zlen; cbn; lia). le8_cons.
  change (2 ^ 16) with 65536. change (2 ^ 32) with 0x100000000. dlia.
Qed.

Lemma m16_store32 pm a v : 0 <= v < 2 ^ 32 ->
  m16 (store32 pm a v) a = v mod 2 ^ 16 /\ m16 (store32 pm a v) (a + 2) = v / 2 ^ 16.
Proof.
  intros Hv. unfold m16, store32. rewrite <- !Z.add_assoc. cbn [Z.add Pos.add enc]. rewrite write_bytes_first.
  rewrite !write_bytes_at by (unfold zlen; cbn; lia). le8_cons.
  change (2 ^ 16) with 65536. change (2 ^ 32) with 0x100000000 in Hv. dlia.
Qed.

Lemma m32_write_bytes pm a l o :
  0 <= o -> o + 4 <= zlen l -> m32 (write_bytes pm a l) (a + o) = le16 l o + 2 ^ 16 * le16 l (o + 2).
Proof. intros Ho Hl. unfold m32, m16, le16. rewrite <- !Z.add_assoc, !write_bytes_at by lia. done. Qed.

Lemma m64_store64 pm a v : 0 <= v < 2 ^ 64 -> m64 (store64 pm a v) a = v.
Proof.
  intros Hv. unfold m64. rewrite m32_store64_low, m32_store64_high. unfold wrap.
  change (2 ^ 64) with (0x100000000 * 0x100000000) in Hv. change (2 ^ 32) with 0x100000000. dlia.
Qed.

Lemma bytes_at_all l n : n = zlen l -> bytes_at l 0 n = l.
Proof. intros ->. unfold bytes_at, zlen. rewrite Nat2Z.id. apply firstn_all. Qed.

Lemma store16_at pm a v x : 0 <= v < 2 ^ 16 ->
  store16 pm a v x = if x =? a then v mod 256 else if x =? a + 1 then v / 256 else pm x.
Proof.
  intros Hv. change (2 ^ 16) with 65536 in Hv. unfold store16. destruct (Z.eqb_spec x a) as [->|].
  { apply write_bytes_first. }
  destruct (Z.eqb_spec x (a + 1)) as [->|]; [|apply store_out; unfold in_range; lia].
  rewrite write_bytes_at by (unfold zlen; cbn; lia). cbn [enc]. le8_cons. dlia.
Qed.

(** A high half and a low half. *)
Lemma lor_shiftl16 a b : 0 <= b < 2 ^ 16 -> Z.lor (Z.shiftl a 16) b = 2 ^ 16 * a + b.
Proof.
  intros Hb. pose proof (Z.add_lor_land (Z.shiftl a 16) b) as H.
  assert (E : Z.land (Z.shiftl a 16) b = 0).
  { apply Z.bits_inj'. intros i Hi. rewrite Z.land_spec, Z.bits_0. destruct (decide (i < 16)).
    - by rewrite Z.shiftl_spec_low.
    - destruct (decide (b = 0)) as [->|]; [by rewrite Z.testbit_0_l, andb_false_r|].
      rewrite (Z.bits_above_log2 b), andb_false_r; [done|lia|]. enough (Z.log2 b < 16) by lia. apply Z.log2_lt_pow2; lia. }
  rewrite E, Z.shiftl_mul_pow2 in * by lia. lia.
Qed.

(** Reading through stores that lie elsewhere. *)
Ltac frame_side := unfold in_range in *; unfold_consts; lia.
Ltac frame := repeat first [rewrite store16_out by frame_side | rewrite store32_out by frame_side |
  rewrite store64_out by frame_side | rewrite memset_out by frame_side | rewrite write_bytes_out by frame_side].
