(* ===== verification/RunStage2.v ===== *)
(** * From stage 1 into stage 2 (src/stage1/run-stage2.asm)

    [run_stage2] is called with the boot services gone.  It clears the interrupt vectors and the
    BIOS data area, copies its second half to the page for the trampoline, and continues there: to
    32-bit mode without paging, on to two fields of the BIOS data area and the output register of
    the display, and into the ELF program.  The state is physical memory, the stack pointer, which
    points into the trampoline's page, and the few registers that carry something.  The theorem
    says what the program finds, and which memory changes. *)

From S2P Require Import Prelude Util Bmem Bparm Rimg Phys.

(** What is cleared with the interrupt vectors and the BIOS data area. *)
Definition LOW_AREA : Z := 0x0600.
#[export] Hint Unfold LOW_AREA : consts.

(** ** The stack *)

Definition push64 (sp : Z) (pm : phys) (v : Z) : Z * phys := (sp - 8, store64 pm (sp - 8) v).
Definition pop64 (sp : Z) (pm : phys) : Z * Z := (m64 pm sp, sp + 8).
Definition pop32 (sp : Z) (pm : phys) : Z * Z := (m32 pm sp, sp + 4).

(** ** [run_stage2] *)

(** How the ELF program is entered: the instruction pointer, the register with the boot parameters,
    the stack pointer, the base of the descriptor table, memory, and what is written to port 0x3c2. *)
Record entered := { s2_eip : Z; s2_ebp : Z; s2_esp : Z; s2_gdt : Z; s2_mem : phys; s2_misc : Z }.

Section run.
(** The bytes from LB to LE; where in them [Lpm32] and [Lpm32_gdtr] are; what [ebx] holds, and what
    port 0x3cc answers. *)
Context (code : list Z) (Lpm32 Lpm32_gdtr : Z) (ebx misc : Z).

(** From [Lpm32] on, in 32-bit mode; the stack holds the base memory size, the segment of the
    temporary EBDA, and the entry point. *)
Definition pm32 (ebp sp gdt : Z) (pm : phys) : entered :=
  let '(eax, sp) := pop32 sp pm in
  let pm := store16 pm bda_base_kib (u16 eax) in
  let '(eax, sp) := pop32 sp pm in
  let pm := store16 pm bda_ebda (u16 eax) in
  let al := Z.lor (u8 misc) 1 in
  let '(eip, sp) := pop32 sp pm in
  {| s2_eip := eip; s2_ebp := ebp; s2_esp := sp; s2_gdt := gdt; s2_mem := pm; s2_misc := al |}.

(** The copy, with [rdi] at its end: the address of the descriptor table is read from the copy, and
    the far return goes to [Lpm32] in the copy. *)
Definition trampoline_code (ebp sp rdi : Z) (pm : phys) : Z * entered :=
  let len := zlen code in
  let gdt := m64 pm (rdi - len + Lpm32_gdtr + 2) in
  let '(sp, pm) := push64 sp pm 8 in
  let '(sp, pm) := push64 sp pm (rdi - len + Lpm32) in
  let '(rip, sp) := pop64 sp pm in
  let '(_, sp) := pop64 sp pm in
  (rip, pm32 ebp sp gdt pm).

(** The address the first part returns to, the one the second does, and the outcome. *)
Definition run_stage2 (entry trampoline base_kib temp_ebda_seg bparm : Z) (pm : phys) : Z * Z * entered :=
  let ebp := u32 bparm in
  let sp := u32 (trampoline + 0x1000) in
  let pm := store32 pm (sp + 4) ebx in
  let '(sp, pm) := push64 sp pm (u32 entry) in
  let '(sp, pm) := push64 sp pm base_kib in
  let pm := store32 pm (sp + 4) temp_ebda_seg in
  let pm := memset pm 0 (8 * (LOW_AREA / 8)) in
  let '(sp, pm) := push64 sp pm trampoline in
  let n := 8 * (zlen code / 8) in
  let pm := write_bytes pm trampoline (bytes_at code 0 n) in
  let rdi := trampoline + n in
  let gdtr := rdi - zlen code + Lpm32_gdtr + 2 in
  let pm := store32 pm gdtr (u32 (m32 pm gdtr + trampoline)) in
  let '(rip, sp) := pop64 sp pm in
  let '(rip2, r) := trampoline_code ebp sp rdi pm in
  (rip, rip2, r).
End run.

(** ** What the program finds *)

(** The code fits into its page below the stack, its length is a multiple of eight, and the pseudo
    descriptor, with a 64-bit offset that is small, is in it. *)
Record code_ok (code : list Z) (Lpm32 Lpm32_gdtr gdt_off : Z) : Prop := {
  code_bytes : bytes_ok code;
  code_len : (8 | zlen code) /\ zlen code <= 0x1000 - 0x28;
  code_gdtr : 0 <= Lpm32_gdtr /\ Lpm32_gdtr + 10 <= zlen code;
  code_gdt : le16 code (Lpm32_gdtr + 2) + 2 ^ 16 * le16 code (Lpm32_gdtr + 4) = gdt_off /\
    le16 code (Lpm32_gdtr + 6) = 0 /\ le16 code (Lpm32_gdtr + 8) = 0;
  code_inside : 0 <= Lpm32 < zlen code /\ 0 <= gdt_off < zlen code;
}.

(** The trampoline's page and four bytes behind it. *)
Definition scratch (trampoline x : Z) : Prop :=
  in_range trampoline 0x1000 x \/ in_range (trampoline + 0x1004) 4 x.

(** The bytes of the interrupt vectors and the BIOS data area. *)
Definition low_byte (base_kib ebda x : Z) : Z :=
  if x =? bda_base_kib then base_kib mod 256
  else if x =? bda_base_kib + 1 then base_kib / 256
  else if x =? bda_ebda then ebda mod 256
  else if x =? bda_ebda + 1 then ebda / 256
  else 0.

(** The outcome of [run_stage2]. *)
Record entered_ok (code : list Z) (Lpm32_gdtr gdt_off entry trampoline base_kib ebda bparm misc : Z) (pm : phys)
    (r : entered) : Prop := {
  en_eip : s2_eip r = entry;
  en_ebp : s2_ebp r = bparm;
  en_esp : s2_esp r = trampoline + 0xffc;
  en_gdt : s2_gdt r = trampoline + gdt_off;
  en_copy : forall i, 0 <= i < zlen code -> ~ in_range (Lpm32_gdtr + 2) 4 i -> s2_mem r (trampoline + i) = le8 code i;
  en_low : forall x, in_range 0 LOW_AREA x -> s2_mem r x = low_byte base_kib ebda x;
  en_rest : forall x, ~ in_range 0 LOW_AREA x -> ~ scratch trampoline x -> s2_mem r x = pm x;
  en_bytes : pm_ok pm -> pm_ok (s2_mem r);
  en_misc : s2_misc r = Z.lor (u8 misc) 1;
}.

(** Memory when the copy is entered. *)
Record copied (code : list Z) (Lpm32_gdtr gdt_off ebx entry T base_kib ebda : Z) (pm pm' : phys) : Prop := {
  cp_ret : m64 pm' (T + 0xfe8) = T;
  cp_kib : m32 pm' (T + 0xff0) = base_kib;
  cp_ebda : m32 pm' (T + 0xff4) = ebda;
  cp_entry : m32 pm' (T + 0xff8) = entry;
  cp_gdt : m64 pm' (T + (Lpm32_gdtr + 2)) = T + gdt_off;
  cp_code : forall i, 0 <= i < zlen code -> ~ in_range (Lpm32_gdtr + 2) 4 i -> pm' (T + i) = le8 code i;
  cp_low : forall x, in_range 0 LOW_AREA x -> pm' x = 0;
  cp_rest : forall x, ~ in_range 0 LOW_AREA x -> ~ scratch T x -> pm' x = pm x;
  cp_bytes : pm_ok pm -> pm_ok pm';
  cp_past : m32 pm' (T + 0x1004) = ebx;
}.

Lemma copied_ok code Lpm32 Lpm32_gdtr gdt_off ebx entry T base_kib ebda pm :
  code_ok code Lpm32 Lpm32_gdtr gdt_off ->
  BMEM_MAX_ADDR <= T -> T + 0x1008 <= 2 ^ 32 -> 0 <= entry < 2 ^ 32 -> 0 <= base_kib < 2 ^ 16 -> 0 <= ebda < 2 ^ 16 ->
  0 <= ebx < 2 ^ 32 ->
  let M1 := store32 pm (T + 0x1004) ebx in
  let M4 := store32 (store64 (store64 M1 (T + 0xff8) entry) (T + 0xff0) base_kib) (T + 0xff4) ebda in
  let M6 := store64 (memset M4 0 LOW_AREA) (T + 0xfe8) T in
  let M7 := write_bytes M6 T code in
  copied code Lpm32_gdtr gdt_off ebx entry T base_kib ebda pm
    (store32 M7 (T + (Lpm32_gdtr + 2)) (u32 (m32 M7 (T + (Lpm32_gdtr + 2)) + T))).
Proof.
  intros [Hcb [Hc8 Hcl] [Hg0 Hg1] (Hgo & Hgo2 & Hgo3) [Hl Hgi]] Ht Ht2 He Hk Hb Hx M1 M4 M6 M7.
  change BMEM_MAX_ADDR with 0x100000 in Ht.
  assert (Eg : m32 M7 (T + (Lpm32_gdtr + 2)) = gdt_off).
  { unfold M7. rewrite m32_write_bytes by lia. replace (Lpm32_gdtr + 2 + 2) with (Lpm32_gdtr + 4) by lia. done. }
  rewrite Eg, (wrap_small 32 (gdt_off + T)) by lia.
  assert (Hfar : forall x n, T + 0xfe0 <= x -> 0 <= n -> forall i, 0 <= i < n ->
    store32 M7 (T + (Lpm32_gdtr + 2)) (gdt_off + T) (x + i) = M6 (x + i)).
  { intros x n Hx' Hn i Hi. unfold M7. by frame. }
  split.
  - rewrite (m64_ext M6) by (apply (Hfar _ 8); lia). unfold M6. apply m64_store64. lia.
  - rewrite (m32_ext M6) by (apply (Hfar _ 4); lia).
    rewrite (m32_ext (store64 (store64 M1 (T + 0xff8) entry) (T + 0xff0) base_kib)).
    { rewrite m32_store64_low, wrap_small; lia. }
    intros i Hi. unfold M6, M4. by frame.
  - rewrite (m32_ext M6) by (apply (Hfar _ 4); lia). rewrite (m32_ext M4).
    { apply m32_store32. lia. }
    intros i Hi. unfold M6. by frame.
  - rewrite (m32_ext M6) by (apply (Hfar _ 4); lia). rewrite (m32_ext (store64 M1 (T + 0xff8) entry)).
    { rewrite m32_store64_low, wrap_small; lia. }
    intros i Hi. unfold M6, M4. by frame.
  - unfold m64. rewrite m32_store32 by lia. rewrite (m32_ext M7) by (intros i Hi; by frame).
    replace (T + (Lpm32_gdtr + 2) + 4) with (T + (Lpm32_gdtr + 6)) by lia. unfold M7. rewrite m32_write_bytes by lia.
    replace (Lpm32_gdtr + 6 + 2) with (Lpm32_gdtr + 8) by lia.
    rewrite Hgo2, Hgo3. lia.
  - intros i Hi Hn. frame. unfold M7. by rewrite write_bytes_at by lia.
  - intros x Hxl. unfold M7, M6. frame. apply memset_in. unfold in_range in Hxl. lia.
  - intros x Hxl Hs. unfold scratch, in_range in Hs, Hxl. unfold M7, M6, M4, M1. by frame.
  - intros Hpm. unfold M7, M6, M4, M1, store32, store64. repeat first [apply store_ok | apply memset_ok | apply write_bytes_ok | done].
  - rewrite (m32_ext M6) by (apply (Hfar _ 4); lia). rewrite (m32_ext M1).
    { apply m32_store32. lia. }
    intros i Hi. unfold M6, M4. by frame.
Qed.

Lemma pm32_ok code Lpm32_gdtr gdt_off ebx entry T base_kib ebda ebp misc pm pm' rip :
  copied code Lpm32_gdtr gdt_off ebx entry T base_kib ebda pm pm' -> zlen code <= 0xfd8 ->
  BMEM_MAX_ADDR <= T -> 0 <= base_kib < 2 ^ 16 -> 0 <= ebda < 2 ^ 16 ->
  let r := pm32 misc ebp (T + 0xff0) (T + gdt_off) (store64 (store64 pm' (T + 0xfe8) 8) (T + 0xfe0) rip) in
  entered_ok code Lpm32_gdtr gdt_off entry T base_kib ebda ebp misc pm r /\ m32 (s2_mem r) (T + 0x1004) = ebx.
Proof.
  intros [C1 C2 C3 C4 C5 C6 C7 C8 C9 C10] Hlen Ht Hk Hb. change BMEM_MAX_ADDR with 0x100000 in Ht.
  set (pm1 := store64 _ (T + 0xfe0) rip).
  assert (Hpm1 : forall x, ~ in_range (T + 0xfe0) 16 x -> pm1 x = pm' x).
  { intros x Hx. unfold pm1. by frame. }
  unfold pm32, pop32. cbv zeta. rewrite (m32_ext pm' pm1 (T + 0xff0)) by (intros i Hi; apply Hpm1; unfold in_range; lia).
  rewrite C2, (wrap_small 16 base_kib) by lia. set (pm2 := store16 pm1 bda_base_kib base_kib).
  replace (T + 0xff0 + 4) with (T + 0xff4) by lia. replace (T + 0xff4 + 4) with (T + 0xff8) by lia.
  rewrite (m32_ext pm' pm2 (T + 0xff4)) by (intros i Hi; unfold pm2; frame; apply Hpm1; unfold in_range; lia).
  rewrite C3, (wrap_small 16 ebda) by lia. set (pm3 := store16 pm2 bda_ebda ebda).
  assert (Hpm3 : forall x, ~ in_range 0 LOW_AREA x -> ~ in_range (T + 0xfe0) 16 x -> pm3 x = pm' x).
  { intros x Hx Hx'. unfold pm3, pm2. frame. by apply Hpm1. }
  assert (Hhigh : forall x i, T <= x -> 0 <= i -> ~ in_range (T + 0xfe0) 16 (x + i) -> pm3 (x + i) = pm' (x + i)).
  { intros x i Hx Hi Hn. apply Hpm3; [unfold in_range, LOW_AREA; lia|done]. }
  rewrite (m32_ext pm' pm3) by (intros i Hi; apply Hhigh; unfold in_range; lia). rewrite C4.
  split; [split; cbn [s2_eip s2_ebp s2_esp s2_gdt s2_mem s2_misc]; try done; try lia|].
  - intros i Hi Hn. rewrite Hhigh by (unfold in_range; lia). by apply C6.
  - intros x Hx. unfold pm3, pm2. rewrite !store16_at by lia. rewrite (Hpm1 x), (C7 x Hx) by (unfold in_range, LOW_AREA in *; lia).
    unfold low_byte, bda_ebda, bda_base_kib in *.
    repeat match goal with |- context [?a =? ?b] => destruct (Z.eqb_spec a b) end; (done || lia).
  - intros x Hx Hs. rewrite Hpm3; [by apply C8|done|]. unfold scratch, in_range in *. lia.
  - intros Hpm. unfold pm3, pm2, pm1, store16, store64. repeat first [apply store_ok|done]. by apply C9.
  - cbn [s2_mem]. rewrite (m32_ext pm' pm3) by (intros i Hi; apply Hhigh; unfold in_range; lia). exact C10.
Qed.

Lemma run_stage2_spec code Lpm32 Lpm32_gdtr gdt_off ebx misc entry trampoline base_kib ebda bparm pm :
  code_ok code Lpm32 Lpm32_gdtr gdt_off ->
  BMEM_MAX_ADDR <= trampoline -> trampoline + 0x1008 <= 2 ^ 32 ->
  0 <= entry < 2 ^ 32 -> 0 <= base_kib < 2 ^ 16 -> 0 <= ebda < 2 ^ 16 -> 0 <= bparm < 2 ^ 32 -> 0 <= ebx < 2 ^ 32 ->
  match run_stage2 code Lpm32 Lpm32_gdtr ebx misc entry trampoline base_kib ebda bparm pm with
  | (rip, rip2, r) => rip = trampoline /\ rip2 = trampoline + Lpm32 /\
      entered_ok code Lpm32_gdtr gdt_off entry trampoline base_kib ebda bparm misc pm r /\
      m32 (s2_mem r) (trampoline + 0x1004) = ebx
  end.
Proof.
  intros Hcode Ht Ht2 He Hk Hb Hp Hx. pose proof Hcode as [_ [Hc8 Hcl] _ _ [Hl _]]. unfold BMEM_MAX_ADDR in Ht.
  unfold run_stage2, trampoline_code, push64, pop64. cbv zeta.
  rewrite !(wrap_small 32 (trampoline + 0x1000)), (wrap_small 32 entry), (wrap_small 32 bparm) by lia.
  replace (8 * (zlen code / 8)) with (zlen code) by (destruct Hc8 as [q ->]; rewrite Z.div_mul; lia).
  rewrite !(bytes_at_all code) by done. change (8 * (LOW_AREA / 8)) with LOW_AREA.
  replace (trampoline + zlen code - zlen code + Lpm32_gdtr + 2) with (trampoline + (Lpm32_gdtr + 2)) by lia.
  replace (trampoline + zlen code - zlen code + Lpm32) with (trampoline + Lpm32) by lia.
  replace (trampoline + 0x1000 + 4) with (trampoline + 0x1004) by lia.
  replace (trampoline + 0x1000 - 8) with (trampoline + 0xff8) by lia.
  replace (trampoline + 0xff8 - 8) with (trampoline + 0xff0) by lia.
  replace (trampoline + 0xff0 + 4) with (trampoline + 0xff4) by lia.
  replace (trampoline + 0xff0 - 8) with (trampoline + 0xfe8) by lia.
  replace (trampoline + 0xfe8 + 8) with (trampoline + 0xff0) by lia.
  replace (trampoline + 0xff0 - 8) with (trampoline + 0xfe8) by lia.
  replace (trampoline + 0xfe8 - 8) with (trampoline + 0xfe0) by lia.
  replace (trampoline + 0xfe0 + 8 + 8) with (trampoline + 0xff0) by lia.
  pose proof (copied_ok code Lpm32 Lpm32_gdtr gdt_off ebx entry trampoline base_kib ebda pm Hcode Ht Ht2 He Hk Hb Hx) as Hc.
  cbv zeta in Hc. set (pm' := store32 _ (trampoline + (Lpm32_gdtr + 2)) _) in *.
  pose proof Hc as [Hret _ _ _ Hgdt _ _ _ _ _]. rewrite Hret, Hgdt.
  rewrite m64_store64 by lia. split; [done|]. split; [done|]. by eapply pm32_ok; [exact Hc|lia|done|..].
Qed.

(** ** Properties *)

(** C4: [run_stage2] enters the ELF program at its entry point, with the boot parameters in [ebp] and
    a stack at the end of the trampoline's page.  Both of its jumps into the page go to code that
    is there: the copy is intact but for the address of its own descriptor table, which points
    into the copy.  The interrupt vectors and the BIOS data area are clear but for the base memory
    size and the segment of the temporary EBDA; no other byte of memory changes, except in the
    trampoline's page and in four bytes behind it. *)
Theorem run_stage2_enters code Lpm32 Lpm32_gdtr gdt_off ebx misc entry trampoline base_kib ebda bparm pm :
  code_ok code Lpm32 Lpm32_gdtr gdt_off ->
  BMEM_MAX_ADDR <= trampoline -> trampoline + 0x1008 <= 2 ^ 32 ->
  0 <= entry < 2 ^ 32 -> 0 <= base_kib < 2 ^ 16 -> 0 <= ebda < 2 ^ 16 -> 0 <= bparm < 2 ^ 32 -> 0 <= ebx < 2 ^ 32 ->
  match run_stage2 code Lpm32 Lpm32_gdtr ebx misc entry trampoline base_kib ebda bparm pm with
  | (rip, rip2, r) => rip = trampoline /\ rip2 = trampoline + Lpm32 /\
      entered_ok code Lpm32_gdtr gdt_off entry trampoline base_kib ebda bparm misc pm r /\
      m32 (s2_mem r) (trampoline + 0x1004) = ebx
  end.
Proof. apply run_stage2_spec. Qed.

(** Code of 96 bytes, with the pseudo descriptor at offset 0x40 and the table at 0x48. *)
Definition demo_code : list Z := <[66%nat := 0x48]> (<[64%nat := 0x17]> (replicate 64 0x90 ++ replicate 32 0)).

Lemma demo_code_ok : code_ok demo_code 0x20 0x40 0x48.
Proof.
  split; [|split; [by exists 12|by vm_compute]|split; by vm_compute|by vm_compute|split; split; by vm_compute].
  unfold bytes_ok, byte_ok. unfold demo_code. cbn. repeat constructor; lia.
Qed.

Lemma run_stage2_enters_witness :
  exists r, run_stage2 demo_code 0x20 0x40 7 0x66 0x301060 0x300000 639 0x9fc0 0x1000 (fun x => x mod 256) =
    (0x300000, 0x300020, r) /\ s2_eip r = 0x301060 /\ m16 (s2_mem r) 0x413 = 639 /\ m16 (s2_mem r) 0x40e = 0x9fc0 /\
    s2_mem r 0x1234 = 0x34 /\ s2_misc r = 0x67.
Proof.
  pose proof (run_stage2_enters demo_code 0x20 0x40 0x48 7 0x66 0x301060 0x300000 639 0x9fc0 0x1000 (fun x => x mod 256)
    demo_code_ok ltac:(done) ltac:(done) ltac:(done) ltac:(done) ltac:(done) ltac:(done) ltac:(done)) as H.
  destruct (run_stage2 _ _ _ _ _ _ _ _ _ _ _) as [[rip rip2] r]. destruct H as (-> & -> & H & _). exists r.
  split; [reflexivity|]. split; [exact (en_eip _ _ _ _ _ _ _ _ _ _ _ H)|].
  unfold m16. rewrite !(en_low _ _ _ _ _ _ _ _ _ _ _ H) by (unfold in_range; vm_compute; split; [discriminate|reflexivity]).
  split; [reflexivity|]. split; [reflexivity|]. split; [|exact (en_misc _ _ _ _ _ _ _ _ _ _ _ H)].
  rewrite (en_rest _ _ _ _ _ _ _ _ _ _ _ H); [reflexivity|unfold in_range, LOW_AREA; lia|unfold scratch, in_range; lia].
Defined.
