(* ===== verification/Rm16.v ===== *)
(** * Making the real-mode code ready (src/stage2/rm16.asm, src/stage2/16/16.ld)

    [rm16_init] allocates memory below 1 MiB for the 16-bit code and its data, copies both there,
    clears the uninitialized data, fills the table of interrupt vectors and empties the keyboard
    buffer.  The state is the virtual memory of [Va], whose memory map it allocates from, and
    physical memory.  What the linker and the assembler make of the 16-bit program is a parameter
    ([rm16_image]).  The theorems: where code and data are, what they contain, that the keyboard
    interrupt finds an empty keyboard, and that no other memory changes. *)

From S2P Require Import Prelude Kb Util Bmem Bparm MemMap Paging Va AddrSpace VaLive Rimg Phys RunStage2.

(** The symbols of the 16-bit program, its code and its initialized data. *)
Record rm16_image := {
  stext16 : Z; etext16 : Z; text16 : list Z; rm_cs16 : Z;
  sdata16 : Z; end16 : Z; data16 : list Z; vecs16 : Z; NUM_VECS16 : nat;
  hello16 : Z;
}.

(** Offsets of the BIOS data area from its start. *)
Definition BDA : Z := 0x400.
Definition def_kb_buf : Z := 0x1e.
Definition def_kb_buf_end : Z := 0x3e.

(** [rep movsd] of the program's bytes. *)
Definition movsd (pm : phys) (edi : Z) (l : list Z) : phys := write_bytes pm edi (bytes_at l 0 (4 * (zlen l / 4))).

(** [.vecs: lodsw; stosd; loop .vecs]; the upper half of [eax] holds the segment. *)
Fixpoint vecs_loop (n : nat) (seg esi edi : Z) (pm : phys) : phys :=
  match n with
  | O => pm
  | S n => vecs_loop n seg (esi + 2) (edi + 4) (store32 pm edi (Z.lor (Z.shiftl seg 16) (m16 pm esi)))
  end.

(** The code at [eax], with the segment patched into it. *)
Definition place_text (I : rm16_image) (eax : Z) (pm : phys) : phys :=
  let pm := movsd pm (eax + stext16 I) (text16 I) in
  store16 pm (eax + rm_cs16 I) (u16 (Z.shiftr eax 4)).

(** [initialize IRQ 1 keyboard buffer] *)
Definition kb_init (pm : phys) : phys :=
  let pm := store16 pm (BDA + kb_buf_start) def_kb_buf in
  let pm := store16 pm (BDA + kb_buf_head) def_kb_buf in
  let pm := store16 pm (BDA + kb_buf_tail) def_kb_buf in
  store16 pm (BDA + kb_buf_end) def_kb_buf_end.

(** The data at [eax], the vectors of the code in segment [seg], and the keyboard buffer. *)
Definition place_data (I : rm16_image) (seg eax : Z) (pm : phys) : phys :=
  let pm := store16 pm (BDA + 0x0e) (u16 (Z.shiftr eax 4)) in
  let pm := movsd pm (eax + sdata16 I) (data16 I) in
  let edi := eax + sdata16 I + 4 * (zlen (data16 I) / 4) in
  let ecx := Z.shiftr (u32 (eax + end16 I + 3 - edi)) 2 in
  let pm := memset pm edi (4 * ecx) in
  let pm := vecs_loop (NUM_VECS16 I) seg (eax + vecs16 I) 0 pm in
  kb_init pm.

(** Returns [rm16_cs], the segment of the data, the base that the descriptor of the 16-bit code
    segment gets, virtual memory and memory. *)
Definition rm16_init (I : rm16_image) (gdt_base : Z) (v : vm) (pm : phys) : result (Z * Z * Z * vm * phys) :=
  '(cs, s) ← mem_alloc (vm_map v) (etext16 I) PARA_SIZE BMEM_MAX_ADDR;
  let gdt_base := Z.lor gdt_base cs in
  let pm := place_text I cs pm in
  '(ds, s) ← mem_alloc s (end16 I) KIBYTE BMEM_MAX_ADDR;
  let pm := place_data I (Z.shiftr cs 4) ds pm in
  Ok (u16 (Z.shiftr cs 4), u16 (Z.shiftr ds 4), gdt_base,
      {| vm_pg := {| pg_alloc := s; pg_mem := pg_mem (vm_pg v); pdpt := pdpt (vm_pg v) |};
         unused_va_ranges := unused_va_ranges v; max_unused_va_ranges := max_unused_va_ranges v |}, pm).

(** ** What a sensible image is *)

Record image_ok (I : rm16_image) : Prop := {
  im_text : 0 <= stext16 I /\ (4 | zlen (text16 I)) /\ stext16 I + zlen (text16 I) <= etext16 I;
  im_cs : stext16 I <= rm_cs16 I /\ rm_cs16 I + 2 <= stext16 I + zlen (text16 I);
  im_data : 0 <= sdata16 I /\ (4 | sdata16 I) /\ (4 | zlen (data16 I)) /\ (4 | end16 I) /\
    sdata16 I + zlen (data16 I) <= end16 I;
  im_vecs : sdata16 I <= vecs16 I /\ vecs16 I + 2 * Z.of_nat (NUM_VECS16 I) <= sdata16 I + zlen (data16 I);
  im_num : 0 < Z.of_nat (NUM_VECS16 I) < 256;
  im_size : 0 < etext16 I /\ 0 < end16 I /\ etext16 I + end16 I + PARA_SIZE + KIBYTE <= 128 * KIBYTE;
  im_bytes : bytes_ok (text16 I) /\ bytes_ok (data16 I);
}.

(** Code and data as [rm16_init] leaves them: [pm] was memory before, [pm'] is memory after. *)
Record placed (I : rm16_image) (cs ds : Z) (pm pm' : phys) : Prop := {
  pl_text : forall i, 0 <= i < zlen (text16 I) -> ~ in_range (rm_cs16 I) 2 (stext16 I + i) ->
    pm' (16 * cs + stext16 I + i) = le8 (text16 I) i;
  pl_cs : m16 pm' (16 * cs + rm_cs16 I) = cs;
  pl_data : forall i, 0 <= i < zlen (data16 I) -> pm' (16 * ds + sdata16 I + i) = le8 (data16 I) i;
  pl_bss : forall o, sdata16 I + zlen (data16 I) <= o < end16 I -> pm' (16 * ds + o) = 0;
  pl_ebda : m16 pm' (BDA + 0x0e) = ds;
  pl_vecs : forall i, 0 <= i < Z.of_nat (NUM_VECS16 I) ->
    m16 pm' (4 * i) = le16 (data16 I) (vecs16 I - sdata16 I + 2 * i) /\ m16 pm' (4 * i + 2) = cs;
  pl_kb : m16 pm' (BDA + kb_buf_start) = def_kb_buf /\ m16 pm' (BDA + kb_buf_end) = def_kb_buf_end /\
    m16 pm' (BDA + kb_buf_head) = def_kb_buf /\ m16 pm' (BDA + kb_buf_tail) = def_kb_buf;
  pl_low : forall x, 4 * Z.of_nat (NUM_VECS16 I) <= x < LOW_AREA ->
    ~ in_range (BDA + 0x0e) 2 x -> ~ in_range (BDA + kb_buf_head) 4 x -> ~ in_range (BDA + kb_buf_start) 4 x ->
    pm' x = pm x;
}.

(** ** What [rm16_init] writes *)

Lemma vecs_loop_frame n seg : forall esi edi pm x,
  ~ in_range edi (4 * Z.of_nat n) x -> vecs_loop n seg esi edi pm x = pm x.
Proof.
  induction n as [|n IH]; intros esi edi pm x Hx; cbn [vecs_loop]; [done|].
  rewrite IH by (unfold in_range in *; lia). by frame.
Qed.

Lemma vecs_loop_ok n seg : forall esi edi pm, pm_ok pm -> pm_ok (vecs_loop n seg esi edi pm).
Proof. induction n as [|n IH]; intros esi edi pm Hpm; cbn [vecs_loop]; [done|]. by apply IH, store_ok. Qed.

Lemma vecs_loop_spec seg : 0 <= seg < 2 ^ 16 -> forall n esi edi pm,
  pm_ok pm -> edi + 4 * Z.of_nat n <= esi \/ esi + 2 * Z.of_nat n <= edi ->
  forall i, 0 <= i < Z.of_nat n ->
    m16 (vecs_loop n seg esi edi pm) (edi + 4 * i) = m16 pm (esi + 2 * i) /\
    m16 (vecs_loop n seg esi edi pm) (edi + 4 * i + 2) = seg.
Proof.
  intros Hseg. induction n as [|n IH]; intros esi edi pm Hpm Hd i Hi; cbn [vecs_loop]; [lia|].
  pose proof (m16_range pm Hpm esi) as Hv. rewrite lor_shiftl16 by done.
  set (pm1 := store32 pm edi _). assert (Hpm1 : pm_ok pm1) by by apply store_ok.
  destruct (decide (i = 0)) as [->|].
  - rewrite Z.mul_0_r, Z.add_0_r. destruct (m16_store32 pm edi (2 ^ 16 * seg + m16 pm esi) ltac:(lia)) as [E1 E2].
    rewrite !(m16_ext pm1 (vecs_loop _ _ _ _ _)) by (intros j Hj; apply vecs_loop_frame; unfold in_range; lia).
    fold pm1 in E1, E2. rewrite E1, E2. change (2 * 0) with 0. rewrite Z.add_0_r. change (2 ^ 16) with 65536 in *. dlia.
  - destruct (IH (esi + 2) (edi + 4) pm1 Hpm1 ltac:(lia) (i - 1) ltac:(lia)) as [E1 E2].
    replace (edi + 4 * i) with (edi + 4 + 4 * (i - 1)) by lia. rewrite E1, E2. split; [|done].
    replace (esi + 2 + 2 * (i - 1)) with (esi + 2 * i) by lia. apply m16_ext. intros j Hj. unfold pm1. by frame.
Qed.

(** The keyboard buffer. *)
Lemma kb_init_frame pm x : ~ in_range 0x480 4 x -> ~ in_range 0x41a 4 x -> kb_init pm x = pm x.
Proof.
  intros X1 X2. unfold kb_init, BDA, kb_buf_start, kb_buf_head, kb_buf_tail, kb_buf_end, in_range in *. by frame.
Qed.

Lemma kb_init_ok pm : pm_ok pm -> pm_ok (kb_init pm).
Proof. intros Hpm. unfold kb_init. by repeat apply store_ok. Qed.

Lemma kb_init_reads pm :
  m16 (kb_init pm) (BDA + kb_buf_start) = def_kb_buf /\ m16 (kb_init pm) (BDA + kb_buf_end) = def_kb_buf_end /\
  m16 (kb_init pm) (BDA + kb_buf_head) = def_kb_buf /\ m16 (kb_init pm) (BDA + kb_buf_tail) = def_kb_buf.
Proof.
  unfold kb_init, BDA, kb_buf_start, kb_buf_head, kb_buf_tail, kb_buf_end.
  set (pm1 := store16 pm _ _). set (pm2 := store16 pm1 _ _). set (pm3 := store16 pm2 _ _). split_and!.
  - rewrite (m16_ext pm1) by (intros j Hj; unfold pm3, pm2; by frame). by apply m16_store16.
  - by apply m16_store16.
  - rewrite (m16_ext pm2) by (intros j Hj; unfold pm3; by frame). by apply m16_store16.
  - rewrite (m16_ext pm3) by (intros j Hj; by frame). by apply m16_store16.
Qed.

Section place.
Context (I : rm16_image) (HI : image_ok I).

Lemma movsd_all pm edi l : (4 | zlen l) -> movsd pm edi l = write_bytes pm edi l.
Proof. intros [q Hq]. unfold movsd. rewrite bytes_at_all; [done|]. rewrite Hq, Z.div_mul by lia. lia. Qed.

Lemma place_text_spec A cs pm :
  A = 16 * cs -> 0 <= cs < 2 ^ 16 ->
  let pm' := place_text I A pm in
  (forall x, ~ in_range A (etext16 I) x -> pm' x = pm x) /\ (pm_ok pm -> pm_ok pm') /\
  (forall i, 0 <= i < zlen (text16 I) -> ~ in_range (rm_cs16 I) 2 (stext16 I + i) ->
    pm' (A + stext16 I + i) = le8 (text16 I) i) /\
  m16 pm' (A + rm_cs16 I) = cs.
Proof.
  intros EA Hcs. destruct (im_text _ HI) as (T0 & T4 & Te), (im_cs _ HI) as (C1 & C2), (im_bytes _ HI) as [B1 _].
  assert (Es : u16 (Z.shiftr A 4) = cs).
  { rewrite Z.shiftr_div_pow2, EA, (Z.mul_comm 16) by lia. change (2 ^ 4) with 16. by rewrite Z.div_mul, wrap_small by lia. }
  unfold place_text. rewrite movsd_all, Es by done. cbv zeta. split_and!.
  - intros x Hx. unfold in_range in Hx. by frame.
  - intros Hpm. by apply store_ok, write_bytes_ok.
  - intros i Hi Hn. unfold in_range in Hn. frame. by apply write_bytes_at.
  - by apply m16_store16.
Qed.

(** What [place_data] leaves below [LOW_AREA]. *)
Record low_area (ds seg : Z) (pm pm' : phys) : Prop := {
  la_ebda : m16 pm' (BDA + 0x0e) = ds;
  la_vecs : forall i, 0 <= i < Z.of_nat (NUM_VECS16 I) ->
    m16 pm' (4 * i) = le16 (data16 I) (vecs16 I - sdata16 I + 2 * i) /\ m16 pm' (4 * i + 2) = seg;
  la_kb : m16 pm' (BDA + kb_buf_start) = def_kb_buf /\ m16 pm' (BDA + kb_buf_end) = def_kb_buf_end /\
    m16 pm' (BDA + kb_buf_head) = def_kb_buf /\ m16 pm' (BDA + kb_buf_tail) = def_kb_buf;
  la_rest : forall x, 4 * Z.of_nat (NUM_VECS16 I) <= x < LOW_AREA ->
    ~ in_range (BDA + 0x0e) 2 x -> ~ in_range (BDA + kb_buf_head) 4 x -> ~ in_range (BDA + kb_buf_start) 4 x ->
    pm' x = pm x;
}.

(** [place_data] with the sizes of the image in place of what is computed from them. *)
Lemma place_data_eq seg D ds pm :
  D = 16 * ds -> 0 <= ds < 2 ^ 16 -> D + end16 I < 2 ^ 32 ->
  place_data I seg D pm =
    kb_init (vecs_loop (NUM_VECS16 I) seg (D + vecs16 I) 0
      (memset (write_bytes (store16 pm (BDA + 0x0e) ds) (D + sdata16 I) (data16 I))
        (D + sdata16 I + zlen (data16 I)) (end16 I - sdata16 I - zlen (data16 I)))).
Proof.
  intros ED Hds Hend. destruct (im_data _ HI) as (D0 & D1 & D4 & De & Dl).
  pose proof (im_size _ HI) as Hsize. unfold PARA_SIZE, KIBYTE in Hsize.
  set (n := zlen (data16 I)) in *. assert (Hn : 0 <= n) by (unfold n, zlen; lia).
  assert (Es : u16 (Z.shiftr D 4) = ds).
  { rewrite Z.shiftr_div_pow2, ED, (Z.mul_comm 16) by lia. change (2 ^ 4) with 16. by rewrite Z.div_mul, wrap_small by lia. }
  assert (E4 : 4 * (n / 4) = n) by (destruct D4 as [q Hq]; fold n in Hq; rewrite Hq, Z.div_mul; lia).
  assert (Ebss : 4 * Z.shiftr (u32 (D + end16 I + 3 - (D + sdata16 I + n))) 2 = end16 I - sdata16 I - n).
  { rewrite Z.shiftr_div_pow2 by lia. change (2 ^ 2) with 4. rewrite wrap_small by lia.
    destruct D1 as [q1 Hq1], D4 as [q2 Hq2], De as [q3 Hq3]. fold n in Hq2.
    replace (D + end16 I + 3 - (D + sdata16 I + n)) with (3 + (q3 - q1 - q2) * 4) by lia.
    rewrite Z.div_add by lia. change (3 / 4) with 0. lia. }
  unfold place_data. rewrite movsd_all, Es by done. fold n. cbv zeta. by rewrite E4, Ebss.
Qed.

(** What stays, wherever the data goes. *)
Lemma place_data_frame seg D ds pm :
  D = 16 * ds -> 0 <= ds < 2 ^ 16 -> D + end16 I < 2 ^ 32 ->
  (pm_ok pm -> pm_ok (place_data I seg D pm)) /\
  forall x, ~ in_range 0 LOW_AREA x -> ~ in_range D (end16 I) x -> place_data I seg D pm x = pm x.
Proof.
  intros ED Hds Hend. rewrite (place_data_eq seg D ds) by done. unfold LOW_AREA in *.
  destruct (im_data _ HI) as (D0 & _ & _ & _ & Dl), (im_bytes _ HI) as [_ B2]. pose proof (im_num _ HI) as Hnum.
  split.
  - intros Hpm. by apply kb_init_ok, vecs_loop_ok, memset_ok, write_bytes_ok, B2; apply store_ok.
  - intros x X1 X2. unfold in_range, LOW_AREA in *. rewrite kb_init_frame, vecs_loop_frame by (unfold in_range; lia).
    rewrite memset_out, write_bytes_out by (unfold zlen in *; lia). unfold BDA. by frame.
Qed.

Lemma place_data_spec seg D ds pm :
  D = 16 * ds -> 0 <= ds < 2 ^ 16 -> 0 <= seg < 2 ^ 16 -> LOW_AREA <= D -> D + end16 I < 2 ^ 32 -> pm_ok pm ->
  let pm' := place_data I seg D pm in
  low_area ds seg pm pm' /\
  (forall i, 0 <= i < zlen (data16 I) -> pm' (D + sdata16 I + i) = le8 (data16 I) i) /\
  (forall o, sdata16 I + zlen (data16 I) <= o < end16 I -> pm' (D + o) = 0).
Proof.
  intros ED Hds Hseg HD Hend Hpm. rewrite (place_data_eq seg D ds) by done. unfold LOW_AREA in HD.
  destruct (im_data _ HI) as (D0 & _ & _ & _ & Dl), (im_vecs _ HI) as (V1 & V2), (im_bytes _ HI) as [_ B2].
  pose proof (im_num _ HI) as Hnum. set (n := zlen (data16 I)) in *. assert (Hn : 0 <= n) by (unfold n, zlen; lia).
  set (pm1 := store16 pm (BDA + 14) ds). set (pm3 := memset _ _ _).
  assert (Hpm3 : pm_ok pm3) by by apply memset_ok, write_bytes_ok, B2; apply store_ok.
  pose proof (vecs_loop_spec seg Hseg (NUM_VECS16 I) (D + vecs16 I) 0 pm3 Hpm3 ltac:(lia)) as W3.
  set (pm4 := vecs_loop _ _ _ _ _) in *.
  assert (H4 : forall x, 0x400 <= x -> pm4 x = pm3 x) by (intros x X; apply vecs_loop_frame; unfold in_range; lia).
  assert (Hdata : forall i, 0 <= i < n -> pm3 (D + sdata16 I + i) = le8 (data16 I) i).
  { intros i Hi. unfold pm3. rewrite memset_out by lia. by apply write_bytes_at. }
  assert (Hlow3 : forall x, x < 0x600 -> pm3 x = pm1 x).
  { intros x X. unfold pm3. by rewrite memset_out, write_bytes_out by (fold n; lia). }
  split_and!; [split| |].
  - rewrite (m16_ext pm1); [by apply m16_store16|].
    intros i Hi. unfold BDA. rewrite kb_init_frame, H4, Hlow3 by (unfold in_range; lia). done.
  - intros i Hi. destruct (W3 i Hi) as [W4 W5]. rewrite Z.add_0_l in W4, W5.
    rewrite !(m16_ext pm4 (kb_init pm4)) by (intros j Hj; apply kb_init_frame; unfold in_range; lia).
    rewrite W4, W5. split; [|done]. unfold m16, le16.
    rewrite <- (Hdata (vecs16 I - sdata16 I + 2 * i)), <- (Hdata (vecs16 I - sdata16 I + 2 * i + 1)) by lia.
    by replace (D + sdata16 I + (vecs16 I - sdata16 I + 2 * i)) with (D + vecs16 I + 2 * i) by lia;
      replace (D + sdata16 I + (vecs16 I - sdata16 I + 2 * i + 1)) with (D + vecs16 I + 2 * i + 1) by lia.
  - apply kb_init_reads.
  - intros x Hx N1 N2 N3. unfold BDA, kb_buf_head, kb_buf_start, LOW_AREA in *.
    rewrite kb_init_frame by (unfold in_range in *; lia). unfold pm4.
    rewrite vecs_loop_frame, Hlow3 by (unfold in_range in *; lia). by apply store16_out.
  - intros i Hi. rewrite kb_init_frame, H4 by (unfold in_range; lia). by apply Hdata.
  - intros o Ho. rewrite kb_init_frame, H4 by (unfold in_range; lia). apply memset_in. lia.
Qed.
End place.

(** ** [rm16_init] *)

(** The real-mode code and data lie below 1 MiB, where their segments reach them, apart, in memory
    that was free; virtual memory is as before.  Above the interrupt vectors and the BIOS data
    area they contain what the image says. *)
Record rm16_ready (I : rm16_image) (v : vm) (pm : phys) (cs ds : Z) (v' : vm) (pm' : phys) : Prop := {
  rm_ok : vm_ok v';
  rm_segs : 0 <= cs < 2 ^ 16 /\ 0 <= ds < 2 ^ 16;
  rm_code : 16 * cs + etext16 I <= BMEM_MAX_ADDR;
  rm_data : 16 * ds + end16 I <= BMEM_MAX_ADDR /\ (KIBYTE | 16 * ds);
  rm_apart : disjoint_ranges (16 * cs) (etext16 I) (16 * ds) (end16 I);
  rm_was_ram : forall x, in_range (16 * cs) (etext16 I) x \/ in_range (16 * ds) (end16 I) x -> is_ram (vm_map v) x;
  rm_look : forall x, translate (vm_pg v') x = translate (vm_pg v) x;
  rm_bytes : pm_ok pm -> pm_ok pm';
  rm_rest : forall x, ~ in_range 0 LOW_AREA x -> ~ in_range (16 * cs) (etext16 I) x -> ~ in_range (16 * ds) (end16 I) x ->
    pm' x = pm x;
  rm_placed : LOW_AREA <= 16 * cs -> LOW_AREA <= 16 * ds -> placed I cs ds pm pm';
  (** where there is room for both, they are there *)
  rm_room : forall b, headroom (vm_map v) b (128 * KIBYTE) BMEM_MAX_ADDR -> b <= 16 * cs /\ b <= 16 * ds;
}.

Lemma shiftr_seg a : 0 <= a < BMEM_MAX_ADDR -> (PARA_SIZE | a) -> 16 * u16 (Z.shiftr a 4) = a.
Proof. intros Ha Hd. rewrite Z.shiftr_div_pow2 by lia. apply rm_seg_addr; [lia|done]. Qed.

(** Code and data in turn. *)
Lemma place_placed I cs ds pm :
  image_ok I -> pm_ok pm -> 0 <= cs < 2 ^ 16 -> 0 <= ds < 2 ^ 16 -> LOW_AREA <= 16 * cs -> LOW_AREA <= 16 * ds ->
  disjoint_ranges (16 * cs) (etext16 I) (16 * ds) (end16 I) -> 16 * ds + end16 I < 2 ^ 32 ->
  placed I cs ds pm (place_data I cs (16 * ds) (place_text I (16 * cs) pm)).
Proof.
  intros HI Hpm Hc Hd Lc Ld Hap Hend.
  destruct (place_text_spec I HI (16 * cs) cs pm eq_refl Hc) as (T1 & T2 & T3 & T4).
  set (pm1 := place_text I (16 * cs) pm) in *.
  destruct (place_data_spec I HI cs (16 * ds) ds pm1 eq_refl Hd Hc Ld Hend (T2 Hpm)) as ([L1 L2 L3 L4] & D4 & D5).
  destruct (place_data_frame I HI cs (16 * ds) ds pm1 eq_refl Hd Hend) as [_ D3].
  set (pm2 := place_data I cs (16 * ds) pm1) in *.
  destruct (im_text _ HI) as (X0 & _ & X1), (im_cs _ HI) as (Y0 & Y1). pose proof (im_size _ HI) as (Z0 & Z1 & _).
  assert (Hcode : forall o, 0 <= o < etext16 I -> pm2 (16 * cs + o) = pm1 (16 * cs + o)).
  { intros o Ho. unfold LOW_AREA in *. apply D3; unfold in_range, disjoint_ranges in *; lia. }
  split; try done.
  - intros i Hi Hn. rewrite <- Z.add_assoc, Hcode, Z.add_assoc by lia. by apply T3.
  - rewrite (m16_ext pm1); [done|]. intros i Hi. rewrite <- Z.add_assoc. apply Hcode. lia.
  - intros x Hx N1 N2 N3. rewrite L4 by done. apply T1. unfold in_range, LOW_AREA in *. lia.
Qed.

Lemma place_frame I cs ds pm :
  image_ok I -> 0 <= cs < 2 ^ 16 -> 0 <= ds < 2 ^ 16 -> 16 * ds + end16 I < 2 ^ 32 ->
  let pm' := place_data I cs (16 * ds) (place_text I (16 * cs) pm) in
  (pm_ok pm -> pm_ok pm') /\
  forall x, ~ in_range 0 LOW_AREA x -> ~ in_range (16 * cs) (etext16 I) x -> ~ in_range (16 * ds) (end16 I) x -> pm' x = pm x.
Proof.
  intros HI Hc Hd Hend. destruct (place_text_spec I HI (16 * cs) cs pm eq_refl Hc) as (T1 & T2 & _).
  destruct (place_data_frame I HI cs (16 * ds) ds (place_text I (16 * cs) pm) eq_refl Hd Hend) as [D2 D3].
  split; [by intros Hpm; apply D2, T2|]. intros x X1 X2 X3. by rewrite D3, T1.
Qed.

(** Nothing changes at or above 1 MiB. *)
Lemma rm_high I v pm cs ds v' pm' : rm16_ready I v pm cs ds v' pm' -> forall x, BMEM_MAX_ADDR <= x -> pm' x = pm x.
Proof.
  intros Hr x Hx. pose proof (rm_code _ _ _ _ _ _ _ Hr). destruct (rm_data _ _ _ _ _ _ _ Hr).
  apply (rm_rest _ _ _ _ _ _ _ Hr); unfold in_range, LOW_AREA; unfold_consts; lia.
Qed.

(** Memory from below 1 MiB. *)
Lemma low_alloc s sz al :
  alloc_ready s -> 0 < sz -> is_pow2 al -> al <= 4096 ->
  post (mem_alloc s sz al BMEM_MAX_ADDR) (fun '(a, s') =>
    alloc_ready s' /\ 0 <= a /\ a + sz <= BMEM_MAX_ADDR /\ (al | a) /\
    (forall x, in_range a sz x -> is_ram s x /\ ~ is_ram s' x) /\ (forall x, is_ram s' x -> is_ram s x) /\
    forall b k, headroom s b k BMEM_MAX_ADDR -> sz + al <= k -> b <= a /\ headroom s' b (k - sz - al) BMEM_MAX_ADDR) exhausted.
Proof.
  intros Hs Hsz Hal Hle. assert (Hlim : limit_ok BMEM_MAX_ADDR) by by right.
  destruct (mem_alloc s sz al BMEM_MAX_ADDR) as [[a s']|f] eqn:E; cbn [post].
  - destruct (mem_alloc_facts s sz al _ a s' Hs Hsz Hal Hle Hlim E) as (H1 & (H2 & H3 & H4 & H5) & H6).
    split_and!; try done. intros b k. by apply (mem_alloc_headroom s sz al _ a s' b k Hs Hsz Hal Hle Hlim E).
  - by apply (mem_alloc_failure s sz al _ f Hs Hsz Hal Hle Hlim E).
Qed.

Lemma rm16_init_post I gdt_base v pm :
  vm_ok v -> image_ok I -> pm_ok pm ->
  post (rm16_init I gdt_base v pm) (fun '(cs, ds, gdt, v', pm') =>
    rm16_ready I v pm cs ds v' pm' /\ gdt = Z.lor gdt_base (16 * cs)) exhausted.
Proof.
  intros Hv HI Hpm. destruct (vm_tables _ Hv) as (rl & Htab). pose proof (tables_ready _ _ Htab) as Hs.
  pose proof (im_size _ HI) as (Ht & He & Hsum). unfold rm16_init. fold (vm_map v) in Hs. unfold PARA_SIZE, KIBYTE in *.
  eapply post_bind; [by apply (low_alloc (vm_map v) (etext16 I) 16 Hs Ht); [exists 4|]|].
  intros [A s1] (Hs1 & Hc0 & Hcl & Hcd & Hcr & Hmono1 & Hr1).
  eapply post_bind; [by apply (low_alloc s1 (end16 I) 1024 Hs1 He); [exists 10|]|].
  intros [D s2] (Hs2 & Hd0 & Hdl & Hdd & Hdr & Hmono2 & Hr2). cbn [post].
  assert (Ecs : 16 * u16 (Z.shiftr A 4) = A) by (apply shiftr_seg; [lia|done]).
  assert (Eds : 16 * u16 (Z.shiftr D 4) = D).
  { apply shiftr_seg; [lia|]. destruct Hdd as [k ->]. exists (64 * k). unfold PARA_SIZE. lia. }
  assert (Esh : Z.shiftr A 4 = u16 (Z.shiftr A 4)).
  { rewrite <- Ecs at 1. rewrite Z.shiftr_div_pow2, Z.mul_comm by lia. by apply Z.div_mul. }
  pose proof (wrap_range 16 (Z.shiftr A 4) ltac:(lia)) as Rc. pose proof (wrap_range 16 (Z.shiftr D 4) ltac:(lia)) as Rd.
  set (cs := u16 (Z.shiftr A 4)) in *. set (ds := u16 (Z.shiftr D 4)) in *. rewrite Esh. clearbody cs ds. subst A D.
  assert (Hap : disjoint_ranges (16 * cs) (etext16 I) (16 * ds) (end16 I)).
  { apply disjoint_ranges_spec; [done|done|]. intros x Hx Hy. destruct (Hcr x Hx) as [_ Hn]. by destruct (Hdr x Hy) as [Hf _]. }
  split; [|done]. split; try done.
  - destruct Hv as [_ H2 H3 H4 H5]. split; cbn [vm_pg unused_va_ranges max_unused_va_ranges]; try done.
    exists rl. apply (tables_alloc (vm_pg v) rl s2 Htab Hs2). intros x Hx. by apply Hmono1, Hmono2.
  - intros x [Hx|Hx]; [by apply Hcr|]. apply Hmono1, Hdr, Hx.
  - by apply place_frame; [..|unfold_consts; lia].
  - by apply place_frame; [..|unfold_consts; lia].
  - intros Lc Ld. apply place_placed; try done. unfold_consts. lia.
  - intros b Hb. unfold KIBYTE in Hb. destruct (Hr1 b _ Hb ltac:(lia)) as [B1 Hb1]. destruct (Hr2 b _ Hb1 ltac:(lia)) as [B2 _]. done.
Qed.

(** ** Properties *)

(** The keyboard with no key held, no lock on and no key waiting. *)
Definition idle_keyboard : keyboard :=
  {| rshift := false; lshift := false; ctl := false; alt := false;
     scroll_on := false; num_on := false; caps_on := false; insert_on := false;
     scroll_held := false; num_held := false; caps_held := false; queue := [] |}.

(** Segment 0x40 of memory, as the keyboard interrupt sees it. *)
Definition seg40 (pm : phys) : bda_t := fun o => pm (BDA + o).

Lemma keyboard_ready I cs ds pm pm' :
  image_ok I -> placed I cs ds pm pm' -> pm_ok pm' -> pm (BDA + kb_stat1) = 0 -> pm (BDA + kb_stat2) = 0 ->
  ring (seg40 pm') def_kb_buf 16 0 0 /\ decode (seg40 pm') def_kb_buf 16 0 0 = idle_keyboard.
Proof.
  intros HI Hp Hpm H1 H2. destruct (pl_kb _ _ _ _ _ Hp) as (K1 & K2 & K3 & K4). pose proof (im_num _ HI) as Hn.
  assert (Hrd : forall o, Kb.rd16 (seg40 pm') o = m16 pm' (BDA + o)) by (intros o; unfold Kb.rd16, seg40, m16; by rewrite Z.add_assoc).
  split.
  - split; rewrite ?Hrd; try done; [|by left]. intros x. apply Hpm.
  - assert (Hs : seg40 pm' kb_stat1 = 0 /\ seg40 pm' kb_stat2 = 0).
    { unfold seg40, BDA, kb_stat1, kb_stat2 in *.
      rewrite !(pl_low _ _ _ _ _ Hp) by (unfold in_range, BDA, kb_buf_head, kb_buf_start, LOW_AREA; lia). done. }
    destruct Hs as [E1 E2]. unfold decode. by rewrite E1, E2.
Qed.

(** C6: [rm16_init].  When [k] bytes of RAM below 1 MiB are free from [b] on, as many as the 128
    KiB that stage 1 keeps free, the real-mode code and its data go there, at paragraphs that
    their segments name, and apart from each other; memory then holds the code, with its own segment
    patched in, the data, zeros behind it, the segment of the data where the 16-bit code looks for
    it, and the interrupt vectors of the code; the keyboard interrupt finds a keyboard at rest;
    and nothing else in memory has changed, nor has the translation of any address.  It stops
    early only when memory runs out. *)
Theorem rm16_init_correct I gdt_base v pm b :
  vm_ok v -> image_ok I -> pm_ok pm -> headroom (vm_map v) b (128 * KIBYTE) BMEM_MAX_ADDR -> LOW_AREA <= b ->
  pm (BDA + kb_stat1) = 0 -> pm (BDA + kb_stat2) = 0 ->
  post (rm16_init I gdt_base v pm) (fun '(cs, ds, gdt, v', pm') =>
    rm16_ready I v pm cs ds v' pm' /\ gdt = Z.lor gdt_base (16 * cs) /\ b <= 16 * cs /\ b <= 16 * ds /\
    placed I cs ds pm pm' /\ ring (seg40 pm') def_kb_buf 16 0 0 /\ decode (seg40 pm') def_kb_buf 16 0 0 = idle_keyboard) exhausted.
Proof.
  intros Hv HI Hpm Hroom Hb H1 H2. eapply post_mono; [by apply rm16_init_post| |done].
  intros [[[[cs ds] gdt] v'] pm'] [Hr Hg]. destruct (rm_room _ _ _ _ _ _ _ Hr b Hroom) as [Bc Bd].
  pose proof (rm_placed _ _ _ _ _ _ _ Hr ltac:(lia) ltac:(lia)) as Hp.
  destruct (keyboard_ready I cs ds pm pm' HI Hp (rm_bytes _ _ _ _ _ _ _ Hr Hpm) H1 H2) as [K1 K2]. done.
Qed.

(** A program of 16 bytes of code and 64 of data: the far pointer at 4, one vector. *)
Definition demo_image : rm16_image :=
  {| stext16 := 0; etext16 := 0x800; text16 := replicate 0x20 0x90; rm_cs16 := 4;
     sdata16 := 0; end16 := 0x400; data16 := 0x34 :: 0x12 :: replicate 0x3e 7; vecs16 := 0; NUM_VECS16 := 1; hello16 := 0x40 |}.

Lemma demo_image_ok : image_ok demo_image.
Proof.
  split; cbn [stext16 etext16 text16 rm_cs16 sdata16 end16 data16 vecs16 NUM_VECS16 demo_image].
  1: split_and!; [done|by exists 8|done].
  2: split_and!; [done|by exists 0|by exists 16|by exists 0x100|done].
  all: try (by vm_compute). split; repeat constructor; unfold byte_ok; lia.
Qed.

Lemma rm16_init_correct_witness :
  exists cs ds gdt v' pm', rm16_init demo_image 0x10000 demo_vm (fun _ => 0) = Ok (cs, ds, gdt, v', pm') /\
    m16 pm' 0 = 0x1234 /\ m16 pm' 2 = cs /\ 0x7f000 <= 16 * cs /\ 0x7f000 <= 16 * ds.
Proof.
  assert (Hroom : headroom (vm_map demo_vm) 0x7f000 (128 * KIBYTE) BMEM_MAX_ADDR).
  { exists {| start := 0; len := 0x9f000; e820_type := E820_RAM; e820_ext_attr := 1; uefi_attr := 8 |}.
    split; [vm_compute; by left|]. split; [done|]. split; [cbn; lia|unfold range_end; cbn; vm_compute; split; discriminate]. }
  pose proof (rm16_init_correct demo_image 0x10000 demo_vm (fun _ => 0) 0x7f000 demo_vm_ok demo_image_ok
    ltac:(intros x; lia) Hroom ltac:(by vm_compute) eq_refl eq_refl) as H.
  assert (Hok : match rm16_init demo_image 0x10000 demo_vm (fun _ => 0) with Ok _ => true | Fail _ => false end = true)
    by (vm_compute; reflexivity).
  destruct (rm16_init _ _ _ _) as [[[[[cs ds] gdt] v'] pm']|f]; [|discriminate Hok]. destruct H as (_ & _ & Bc & Bd & Hp & _).
  exists cs, ds, gdt, v', pm'. split; [reflexivity|].
  destruct (pl_vecs _ _ _ _ _ Hp 0 ltac:(cbn; lia)) as [V1 V2]. split; [exact V1|]. split; [exact V2|]. by split.
Defined.
