(* ===== verification/X86.v ===== *)
(** * The instructions of the real-mode code

    The assembly files of src/stage2/16 are modelled as lists of lines, one for each label and each
    instruction, with an executable semantics of the instructions they use: 8-, 16- and 32-bit
    registers that share their bits, segment registers, the carry and zero flags, real-mode
    addresses into physical memory, a stack of 16-bit words, and ports.  What a port does and what
    an interrupt or a C function does that the code calls are parameters.  A run of the code ends
    where it returns to whoever interrupted or called it. *)

From S2P Require Import Prelude Util Bmem Bparm Rimg Phys.

(** ** Registers *)

Inductive reg := EAX | EBX | ECX | EDX | ESI | EDI | EBP.
Inductive sreg := DS | ES | FS | GS | SS.

Record regs := Regs { eax : Z; ebx : Z; ecx : Z; edx : Z; esi : Z; edi : Z; ebp : Z }.
Record segs := Segs { ds : Z; es : Z; fs : Z; gs : Z; ss : Z }.

Definition get_reg (r : reg) (g : regs) : Z :=
  match r with EAX => eax g | EBX => ebx g | ECX => ecx g | EDX => edx g | ESI => esi g | EDI => edi g | EBP => ebp g end.

Definition set_reg (r : reg) (v : Z) (g : regs) : regs :=
  let 'Regs a b c d si di bp := g in
  match r with
  | EAX => Regs v b c d si di bp | EBX => Regs a v c d si di bp | ECX => Regs a b v d si di bp
  | EDX => Regs a b c v si di bp | ESI => Regs a b c d v di bp | EDI => Regs a b c d si v bp
  | EBP => Regs a b c d si di v
  end.

Definition get_seg (s : sreg) (g : segs) : Z :=
  match s with DS => ds g | ES => es g | FS => fs g | GS => gs g | SS => ss g end.

Definition set_seg (s : sreg) (v : Z) (g : segs) : segs :=
  let 'Segs d e f gg st := g in
  match s with
  | DS => Segs v e f gg st | ES => Segs d v f gg st | FS => Segs d e v gg st | GS => Segs d e f v st
  | SS => Segs d e f gg v
  end.

(** The parts of a 32-bit register: its low half, and the two bytes of that. *)
Definition lo16 (x : Z) : Z := x mod 2 ^ 16.
Definition lo8 (x : Z) : Z := x mod 2 ^ 8.
Definition hi8 (x : Z) : Z := x / 2 ^ 8 mod 2 ^ 8.
Definition with16 (x v : Z) : Z := 2 ^ 16 * (x / 2 ^ 16) + v.
Definition with_lo8 (x v : Z) : Z := 2 ^ 8 * (x / 2 ^ 8) + v.
Definition with_hi8 (x v : Z) : Z := 2 ^ 16 * (x / 2 ^ 16) + 2 ^ 8 * v + x mod 2 ^ 8.

Lemma lo16_range x : 0 <= lo16 x < 2 ^ 16.
Proof. by apply Z.mod_pos_bound. Qed.
Lemma lo8_range x : 0 <= lo8 x < 2 ^ 8.
Proof. by apply Z.mod_pos_bound. Qed.
Lemma hi8_range x : 0 <= hi8 x < 2 ^ 8.
Proof. by apply Z.mod_pos_bound. Qed.

Lemma lo16_with16 x v : 0 <= v < 2 ^ 16 -> lo16 (with16 x v) = v.
Proof. intros H. unfold lo16, with16. rewrite Z.add_comm, Z.mul_comm, Z_mod_plus_full. by apply Z.mod_small. Qed.
Lemma hi_with16 x v : 0 <= v < 2 ^ 16 -> with16 x v / 2 ^ 16 = x / 2 ^ 16.
Proof. intros H. unfold with16. rewrite Z.mul_comm, Z.div_add_l, (Z.div_small v) by lia. lia. Qed.
Lemma with16_with16 x v w : 0 <= v < 2 ^ 16 -> with16 (with16 x v) w = with16 x w.
Proof. intros H. unfold with16 at 1. by rewrite hi_with16. Qed.
Lemma with16_lo16 x : with16 x (lo16 x) = x.
Proof. unfold with16, lo16. symmetry. by apply Z.div_mod. Qed.
Lemma lo8_with_lo8 x v : 0 <= v < 2 ^ 8 -> lo8 (with_lo8 x v) = v.
Proof. intros H. unfold lo8, with_lo8. rewrite Z.add_comm, Z.mul_comm, Z_mod_plus_full. by apply Z.mod_small. Qed.
Lemma hi8_with_lo8 x v : 0 <= v < 2 ^ 8 -> hi8 (with_lo8 x v) = hi8 x.
Proof. intros H. unfold hi8, with_lo8. rewrite (Z.mul_comm (2 ^ 8)), Z.div_add_l, (Z.div_small v) by lia. by rewrite Z.add_0_r. Qed.

Lemma with_lo8_with_lo8 x v w : 0 <= v < 2 ^ 8 -> with_lo8 (with_lo8 x v) w = with_lo8 x w.
Proof. intros H. unfold with_lo8. rewrite (Z.mul_comm (2 ^ 8) (x / _)), Z.div_add_l, (Z.div_small v) by lia. lia. Qed.

Lemma with_hi8_alt x v : with_hi8 x v = (2 ^ 8 * (x / 2 ^ 16) + v) * 2 ^ 8 + x mod 2 ^ 8.
Proof. unfold with_hi8. change (2 ^ 16) with (2 ^ 8 * 2 ^ 8). ring. Qed.

Lemma hi8_with_hi8 x v : 0 <= v < 2 ^ 8 -> hi8 (with_hi8 x v) = v.
Proof.
  intros H. unfold hi8. pose proof (lo8_range x) as L. unfold lo8 in L.
  rewrite with_hi8_alt, Z.div_add_l, (Z.div_small (x mod 2 ^ 8)), Z.add_0_r by lia.
  rewrite Z.add_comm, Z.mul_comm, Z_mod_plus_full. by apply Z.mod_small.
Qed.

Lemma lo8_with_hi8 x v : lo8 (with_hi8 x v) = lo8 x.
Proof. unfold lo8. rewrite with_hi8_alt, Z.add_comm, Z_mod_plus_full. by rewrite Z.mod_mod. Qed.

Lemma hi_with_lo8 x v : 0 <= v < 2 ^ 8 -> with_lo8 x v / 2 ^ 16 = x / 2 ^ 16.
Proof.
  intros H. unfold with_lo8. change (2 ^ 16) with (2 ^ 8 * 2 ^ 8). rewrite <- !Z.div_div by lia.
  rewrite (Z.mul_comm (2 ^ 8) (x / _)), Z.div_add_l, (Z.div_small v) by lia. by rewrite Z.add_0_r.
Qed.

Lemma hi_with_hi8 x v : 0 <= v < 2 ^ 8 -> with_hi8 x v / 2 ^ 16 = x / 2 ^ 16.
Proof.
  intros H. pose proof (lo8_range x) as L. unfold lo8 in L. unfold with_hi8.
  rewrite <- Z.add_assoc, (Z.mul_comm (2 ^ 16) (x / _)), Z.div_add_l by lia.
  rewrite (Z.div_small (2 ^ 8 * v + _)); [by rewrite Z.add_0_r|]. change (2 ^ 16) with 65536. change (2 ^ 8) with 256 in *. lia.
Qed.

Lemma with16_with_lo8 x v w : 0 <= v < 2 ^ 8 -> with16 (with_lo8 x v) w = with16 x w.
Proof. intros H. unfold with16. by rewrite hi_with_lo8. Qed.
Lemma with16_lo16_lo8 x v : 0 <= v < 2 ^ 8 -> with16 x (lo16 (with_lo8 x v)) = with_lo8 x v.
Proof. intros H. rewrite <- (with16_with_lo8 x v) by done. apply with16_lo16. Qed.
Lemma with16_with_hi8 x v w : 0 <= v < 2 ^ 8 -> with16 (with_hi8 x v) w = with16 x w.
Proof. intros H. unfold with16. by rewrite hi_with_hi8. Qed.

Lemma lo8_of_with16 x w : lo8 (with16 x w) = lo8 w.
Proof.
  unfold lo8, with16. change (2 ^ 16) with (2 ^ 8 * 2 ^ 8) at 1.
  by rewrite <- Z.mul_assoc, Z.add_comm, Z.mul_comm, Z_mod_plus_full.
Qed.

Lemma lo8_lo16 x : lo8 (lo16 x) = lo8 x.
Proof. rewrite <- (with16_lo16 x) at 2. by rewrite lo8_of_with16. Qed.

Lemma with_hi8_with16 x w v : 0 <= w < 2 ^ 16 -> with_hi8 (with16 x w) v = with16 x (2 ^ 8 * v + lo8 w).
Proof. intros H. unfold with_hi8. rewrite hi_with16 by done. fold (lo8 (with16 x w)). rewrite lo8_of_with16. unfold with16. lia. Qed.

Lemma word_range h l : 0 <= h < 2 ^ 8 -> 0 <= l < 2 ^ 8 -> 0 <= 2 ^ 8 * h + l < 2 ^ 16.
Proof. change (2 ^ 16) with 65536. change (2 ^ 8) with 256. lia. Qed.

Lemma with_lo8_with16 x w v : 0 <= w < 2 ^ 16 -> with_lo8 (with16 x w) v = with16 x (with_lo8 w v).
Proof.
  intros H. unfold with_lo8, with16. change (2 ^ 16) with (2 ^ 8 * 2 ^ 8).
  rewrite <- Z.mul_assoc, (Z.mul_comm (2 ^ 8) (2 ^ 8 * _)), Z.div_add_l by lia. ring.
Qed.

Lemma push_pop_dword x : 2 ^ 16 * (x / 2 ^ 16) + x mod 2 ^ 16 = x.
Proof. symmetry. by apply Z.div_mod. Qed.

Lemma lor8_range x y : 0 <= x < 2 ^ 8 -> 0 <= y < 2 ^ 8 -> 0 <= Z.lor x y < 2 ^ 8.
Proof.
  intros Hx Hy. rewrite <- (Z.mod_small x (2 ^ 8)), <- (Z.mod_small y (2 ^ 8)) by done.
  rewrite <- !Z.land_ones, <- Z.land_lor_distr_l, Z.land_ones by done. by apply Z.mod_pos_bound.
Qed.

Lemma land8_range x y : 0 <= x < 2 ^ 8 -> 0 <= Z.land x y < 2 ^ 8.
Proof.
  intros Hx. rewrite <- (Z.mod_small x (2 ^ 8)) by done. rewrite <- Z.land_ones by done.
  rewrite (Z.land_comm x), <- Z.land_assoc, Z.land_comm, Z.land_ones by done. by apply Z.mod_pos_bound.
Qed.

Lemma with16_range x v : 0 <= x < 2 ^ 32 -> 0 <= v < 2 ^ 16 -> 0 <= with16 x v < 2 ^ 32.
Proof. intros Hx Hv. unfold with16. change (2 ^ 32) with 4294967296 in *. change (2 ^ 16) with 65536 in *. dlia. Qed.
Lemma with_lo8_range x v : 0 <= x < 2 ^ 32 -> 0 <= v < 2 ^ 8 -> 0 <= with_lo8 x v < 2 ^ 32.
Proof. intros Hx Hv. unfold with_lo8. change (2 ^ 32) with 4294967296 in *. change (2 ^ 8) with 256 in *. dlia. Qed.
Lemma with_hi8_range x v : 0 <= x < 2 ^ 32 -> 0 <= v < 2 ^ 8 -> 0 <= with_hi8 x v < 2 ^ 32.
Proof.
  intros Hx Hv. pose proof (lo8_range x) as L. unfold lo8 in L. unfold with_hi8.
  change (2 ^ 32) with 4294967296 in *. change (2 ^ 16) with 65536. change (2 ^ 8) with 256 in *. dlia.
Qed.

Lemma u8_range x : 0 <= u8 x < 2 ^ 8.
Proof. by apply wrap_range. Qed.
Lemma u16_range x : 0 <= u16 x < 2 ^ 16.
Proof. by apply wrap_range. Qed.

Lemma shiftr8_range x n : 0 <= x < 2 ^ 8 -> 0 <= n -> 0 <= Z.shiftr x n < 2 ^ 8.
Proof.
  intros Hx Hn. split; [apply Z.shiftr_nonneg, Hx|]. rewrite Z.shiftr_div_pow2 by lia.
  apply Z.le_lt_trans with x; [|lia]. apply Z.div_le_upper_bound; [lia|]. nia.
Qed.

(** A register with the two bytes of its low half written out. *)
Definition bytes16 (x h l : Z) : Z := with16 x (2 ^ 8 * h + l).

Lemma bytes16_id x : bytes16 x (hi8 x) (lo8 x) = x.
Proof.
  unfold bytes16, hi8, lo8. rewrite <- (with16_lo16 x) at 4. f_equal. unfold lo16. change (2 ^ 16) with (2 ^ 8 * 2 ^ 8).
  rewrite Z.rem_mul_r by done. lia.
Qed.

Lemma lo8_bytes16 x h l : 0 <= l < 2 ^ 8 -> lo8 (bytes16 x h l) = l.
Proof.
  intros Hl. unfold bytes16. rewrite lo8_of_with16. unfold lo8. rewrite Z.add_comm, Z.mul_comm, Z_mod_plus_full.
  by apply Z.mod_small.
Qed.

Lemma hi8_bytes16 x h l : 0 <= h < 2 ^ 8 -> 0 <= l < 2 ^ 8 -> hi8 (bytes16 x h l) = h.
Proof.
  intros Hh Hl. unfold bytes16. rewrite <- (Z.mod_small l (2 ^ 8)) by done. fold (lo8 l).
  rewrite <- (with_hi8_with16 x l h), hi8_with_hi8; [done|done|].
  change (2 ^ 16) with 65536. change (2 ^ 8) with 256 in *. lia.
Qed.

Lemma with_lo8_bytes16 x h l v : 0 <= h < 2 ^ 8 -> 0 <= l < 2 ^ 8 -> with_lo8 (bytes16 x h l) v = bytes16 x h v.
Proof.
  intros Hh Hl. unfold bytes16. rewrite with_lo8_with16 by by apply word_range. f_equal.
  unfold with_lo8. rewrite (Z.mul_comm _ h), Z.div_add_l, (Z.div_small l) by lia. lia.
Qed.

Lemma with_hi8_bytes16 x h l v : 0 <= h < 2 ^ 8 -> 0 <= l < 2 ^ 8 -> with_hi8 (bytes16 x h l) v = bytes16 x v l.
Proof.
  intros Hh Hl. unfold bytes16. rewrite with_hi8_with16 by by apply word_range. f_equal. f_equal.
  rewrite <- (lo8_of_with16 x). by apply lo8_bytes16.
Qed.

Lemma lo16_bytes16 x h l : 0 <= h < 2 ^ 8 -> 0 <= l < 2 ^ 8 -> lo16 (bytes16 x h l) = 2 ^ 8 * h + l.
Proof. intros Hh Hl. by apply lo16_with16, word_range. Qed.

Lemma with16_bytes16 x h l w : 0 <= h < 2 ^ 8 -> 0 <= l < 2 ^ 8 -> with16 (bytes16 x h l) w = with16 x w.
Proof. intros Hh Hl. by apply with16_with16, word_range. Qed.

Lemma bytes16_with16 x w h l : 0 <= w < 2 ^ 16 -> bytes16 (with16 x w) h l = bytes16 x h l.
Proof. intros Hw. by apply with16_with16. Qed.

Lemma bytes16_with_lo8 x v h l : 0 <= v < 2 ^ 8 -> bytes16 (with_lo8 x v) h l = bytes16 x h l.
Proof. intros Hv. by apply with16_with_lo8. Qed.

Lemma bytes16_bytes16 x h0 l0 h l :
  0 <= h0 < 2 ^ 8 -> 0 <= l0 < 2 ^ 8 -> bytes16 (bytes16 x h0 l0) h l = bytes16 x h l.
Proof. intros Hh Hl. by apply with16_bytes16. Qed.

Lemma hi8_lo16 x : hi8 (lo16 x) = hi8 x.
Proof.
  rewrite <- (bytes16_id x) at 1. rewrite lo16_bytes16 by (apply hi8_range || apply lo8_range).
  unfold hi8 at 1. rewrite (Z.mul_comm _ (hi8 x)), Z.div_add_l, (Z.div_small (lo8 x)), Z.add_0_r by (apply lo8_range || lia).
  apply Z.mod_small, hi8_range.
Qed.

Lemma hi8_of_with16 x w : 0 <= w < 2 ^ 16 -> hi8 (with16 x w) = hi8 w.
Proof. intros Hw. rewrite <- hi8_lo16. by rewrite lo16_with16. Qed.

(** ** Operands and instructions *)

Inductive width := Byte | Word | Dword.

Definition bits (w : width) : Z := match w with Byte => 8 | Word => 16 | Dword => 32 end.

(** [Mem w s b off] is [w [s:b+off]]. *)
Inductive opnd :=
  | R32 (r : reg) | R16 (r : reg) | Lo (r : reg) | Hi (r : reg) | Seg (s : sreg)
  | Imm (v : Z) | Mem (w : width) (s : sreg) (b : option reg) (off : Z).

Inductive cond := c_ae | c_a | c_be | c_b | c_nz | c_z.

(** A program is a list of these; a label does nothing, and [Db] is a byte of data between the
    instructions, which [mov_cs] reads at the address in a register ([mov d, [cs:r]]).  [mov_sp] is
    [mov sp, _stack16]: the stack that begins there is empty.

    [mov_esp], [align_esp] and [pop_esp] are [mov d, esp], [and esp, -4] and [pop esp] on a stack whose
    first word was pushed below the address [base]; what lies in the word that an alignment skips does
    not matter, as nothing reads it.  [ccall n] calls the C function number [n]: its return takes the
    pushed 0 off the stack with the address. *)
Inductive instr :=
  | Lbl (name : string) | Db (v : Z) | mov_cs (d : opnd) (r : reg) | mov_sp
  | mov_esp (d : opnd) (base : Z) | align_esp (base : Z) | pop_esp (base : Z) | ccall (n : Z)
  | mov (d s : opnd) | movzx (d s : opnd) | xchg (a b : opnd)
  | push (o : opnd) | pop (o : opnd)
  | add (d s : opnd) | and_ (d s : opnd) | or_ (d s : opnd) | xor (d s : opnd)
  | shl (d : opnd) (n : Z) | shr (d : opnd) (n : Z) | inc (d : opnd) | dec (d : opnd)
  | cmp (a b : opnd) | test (a b : opnd) | clc | stc | sti | cli
  | out (p : Z) (s : opnd) | inp (d : opnd) (p : Z)
  | jmp (l : string) | jcc (c : cond) (l : string) | loopnz (l : string)
  | jmp_table (r : reg) (ls : list string)
  | call (l : string) | ret | iret | retf (n : Z) | int (n : Z) | hlt.

Coercion R32 : reg >-> opnd.
Coercion Seg : sreg >-> opnd.
Coercion Imm : Z >-> opnd.

Abbreviation AX := (R16 EAX).
Abbreviation BX := (R16 EBX).
Abbreviation CX := (R16 ECX).
Abbreviation DX := (R16 EDX).
Abbreviation SI := (R16 ESI).
Abbreviation BP := (R16 EBP).
Abbreviation AL := (Lo EAX).
Abbreviation AH := (Hi EAX).
Abbreviation BH := (Hi EBX).
Abbreviation CL := (Lo ECX).
Abbreviation CH := (Hi ECX).
Abbreviation DL := (Lo EDX).
Abbreviation DH := (Hi EDX).

Fixpoint label_pos (code : list instr) (l : string) (n : nat) : option nat :=
  match code with
  | [] => None
  | Lbl l' :: code => if String.eqb l l' then Some n else label_pos code l (S n)
  | _ :: code => label_pos code l (S n)
  end.

(** The place of a label the program has. *)
Definition entry (code : list instr) (l : string) : nat := default 0%nat (label_pos code l 0).

(** ** The machine *)

Record mach {D : Type} := Mach {
  gpr : regs; sgr : segs; cf : bool; zf : bool; mem : phys; stk : list Z; dev : D; pc : nat
}.
Arguments mach : clear implicits.
Arguments Mach {D} _ _ _ _ _ _ _ _.

(** How control leaves the code. *)
Inductive exit := Iret (ip cs fl : Z) | Retf (ip cs : Z) | Halted.

Section run.
Context {D : Type} (outb : Z -> Z -> D -> D) (inb : Z -> D -> Z * D) (soft : Z -> mach D -> mach D) (code : list instr).

Implicit Types m : mach D.

Definition set_gpr (g : regs) m := Mach g (sgr m) (cf m) (zf m) (mem m) (stk m) (dev m) (pc m).
Definition set_sgr (g : segs) m := Mach (gpr m) g (cf m) (zf m) (mem m) (stk m) (dev m) (pc m).
Definition set_flags (c z : bool) m := Mach (gpr m) (sgr m) c z (mem m) (stk m) (dev m) (pc m).
Definition set_mem (pm : phys) m := Mach (gpr m) (sgr m) (cf m) (zf m) pm (stk m) (dev m) (pc m).
Definition set_stk (l : list Z) m := Mach (gpr m) (sgr m) (cf m) (zf m) (mem m) l (dev m) (pc m).
Definition set_dev (d : D) m := Mach (gpr m) (sgr m) (cf m) (zf m) (mem m) (stk m) d (pc m).
Definition set_pc (n : nat) m := Mach (gpr m) (sgr m) (cf m) (zf m) (mem m) (stk m) (dev m) n.

Definition wid (o : opnd) : width :=
  match o with R32 _ => Dword | Lo _ | Hi _ => Byte | Mem w _ _ _ => w | _ => Word end.

Definition linear m (s : sreg) (b : option reg) (off : Z) : Z :=
  16 * get_seg s (sgr m) + match b with Some r => u16 (get_reg r (gpr m) + off) | None => off end.

Definition rd m (o : opnd) : Z :=
  match o with
  | R32 r => get_reg r (gpr m)
  | R16 r => lo16 (get_reg r (gpr m))
  | Lo r => lo8 (get_reg r (gpr m))
  | Hi r => hi8 (get_reg r (gpr m))
  | Seg s => get_seg s (sgr m)
  | Imm v => v
  | Mem Byte s b off => mem m (linear m s b off)
  | Mem Word s b off => m16 (mem m) (linear m s b off)
  | Mem Dword s b off => m32 (mem m) (linear m s b off)
  end.

Definition wr m (o : opnd) (v : Z) : mach D :=
  match o with
  | R32 r => set_gpr (set_reg r v (gpr m)) m
  | R16 r => set_gpr (set_reg r (with16 (get_reg r (gpr m)) v) (gpr m)) m
  | Lo r => set_gpr (set_reg r (with_lo8 (get_reg r (gpr m)) v) (gpr m)) m
  | Hi r => set_gpr (set_reg r (with_hi8 (get_reg r (gpr m)) v) (gpr m)) m
  | Seg s => set_sgr (set_seg s v (sgr m)) m
  | Imm _ => m
  | Mem Byte s b off => set_mem (write_bytes (mem m) (linear m s b off) [v]) m
  | Mem Word s b off => set_mem (store16 (mem m) (linear m s b off) v) m
  | Mem Dword s b off => set_mem (store32 (mem m) (linear m s b off) v) m
  end.

(** A push of 32 bits puts the high word below the low one. *)
Definition push_val (w : width) (v : Z) (l : list Z) : list Z :=
  match w with Dword => v mod 2 ^ 16 :: v / 2 ^ 16 :: l | _ => v :: l end.

Definition pop_val (w : width) (l : list Z) : result (Z * list Z) :=
  match w, l with
  | Dword, lo :: hi :: l => Ok (2 ^ 16 * hi + lo, l)
  | Dword, _ | _, [] => Fail OutOfBounds
  | _, v :: l => Ok (v, l)
  end.

(** The stack pointer, when the first word was pushed below [base]. *)
Definition sp_of (base : Z) (l : list Z) : Z := base - 2 * Z.of_nat (length l).

(** The result of an operation on operands of [w] bits, with the flags that follow from it. *)
Definition result_flags (w : width) (c : bool) (v : Z) m : mach D := set_flags c (v =? 0) m.

Definition logic m (d : opnd) (v : Z) : mach D := result_flags (wid d) false v (wr m d v).

Definition holds (c : cond) m : bool :=
  match c with
  | c_ae => negb (cf m) | c_a => negb (cf m) && negb (zf m) | c_be => cf m || zf m | c_b => cf m
  | c_nz => negb (zf m) | c_z => zf m
  end.

Definition target (l : string) : result nat := checked (label_pos code l 0).

(** The instruction [i]; [pc m] is that of the next one. *)
Definition exec (i : instr) m : result (mach D + exit * mach D) :=
  match i with
  | Lbl _ => Ok (inl m)
  | Db _ => Fail OutOfBounds
  | mov_cs d r =>
      match code !! Z.to_nat (rd m (R16 r)) with Some (Db v) => Ok (inl (wr m d v)) | _ => Fail OutOfBounds end
  | mov_sp => Ok (inl (set_stk [] m))
  | mov_esp d base => Ok (inl (wr m d (u32 (sp_of base (stk m)))))
  | align_esp base => Ok (inl (if sp_of base (stk m) mod 4 =? 0 then m else set_stk (0 :: stk m) m))
  | pop_esp base =>
      '(v, l) ← pop_val Dword (stk m); Ok (inl (set_stk (drop (length l - Z.to_nat ((base - v) / 2)) l) m))
  | ccall n => match stk m with 0 :: l => Ok (inl (soft n (set_stk l m))) | _ => Fail OutOfBounds end
  | mov d s | movzx d s => Ok (inl (wr m d (rd m s)))
  | xchg a b => Ok (inl (wr (wr m a (rd m b)) b (rd m a)))
  | push o => Ok (inl (set_stk (push_val (wid o) (rd m o) (stk m)) m))
  | pop o => '(v, l) ← pop_val (wid o) (stk m); Ok (inl (wr (set_stk l m) o v))
  | add d s =>
      let v := rd m d + rd m s in let r := wrap (bits (wid d)) v in
      Ok (inl (result_flags (wid d) (negb (v <? 2 ^ bits (wid d))) r (wr m d r)))
  | and_ d s => Ok (inl (logic m d (Z.land (rd m d) (rd m s))))
  | or_ d s => Ok (inl (logic m d (Z.lor (rd m d) (rd m s))))
  | xor d s => Ok (inl (logic m d (Z.lxor (rd m d) (rd m s))))
  | shl d n =>
      let r := wrap (bits (wid d)) (Z.shiftl (rd m d) n) in
      Ok (inl (result_flags (wid d) (Z.testbit (rd m d) (bits (wid d) - n)) r (wr m d r)))
  | shr d n =>
      let r := Z.shiftr (rd m d) n in Ok (inl (result_flags (wid d) (Z.testbit (rd m d) (n - 1)) r (wr m d r)))
  | inc d => let r := wrap (bits (wid d)) (rd m d + 1) in Ok (inl (result_flags (wid d) (cf m) r (wr m d r)))
  | dec d => let r := wrap (bits (wid d)) (rd m d - 1) in Ok (inl (result_flags (wid d) (cf m) r (wr m d r)))
  | cmp a b => Ok (inl (set_flags (rd m a <? rd m b) (rd m a =? rd m b) m))
  | test a b => Ok (inl (set_flags false (Z.land (rd m a) (rd m b) =? 0) m))
  | clc => Ok (inl (set_flags false (zf m) m))
  | stc => Ok (inl (set_flags true (zf m) m))
  | sti | cli => Ok (inl m)
  | out p s => Ok (inl (set_dev (outb p (rd m s) (dev m)) m))
  | inp d p => Ok (inl (wr (set_dev (snd (inb p (dev m))) m) d (fst (inb p (dev m)))))
  | jmp l => n ← target l; Ok (inl (set_pc n m))
  | jcc c l => n ← target l; Ok (inl (if holds c m then set_pc n m else m))
  | loopnz l =>
      n ← target l;
      let v := u16 (rd m CX - 1) in let m := wr m CX v in
      Ok (inl (if negb (v =? 0) && negb (zf m) then set_pc n m else m))
  | jmp_table r ls => l ← checked (ls !! Z.to_nat (rd m (R16 r) / 2)); n ← target l; Ok (inl (set_pc n m))
  | call l => n ← target l; Ok (inl (set_pc n (set_stk (Z.of_nat (pc m) :: stk m) m)))
  | ret => '(v, l) ← pop_val Word (stk m); Ok (inl (set_pc (Z.to_nat v) (set_stk l m)))
  | iret =>
      match stk m with
      | ip :: c :: fl :: l => Ok (inr (Iret ip c fl, set_stk l m))
      | _ => Fail OutOfBounds
      end
  | retf n =>
      match stk m with
      | ip :: c :: l => Ok (inr (Retf ip c, set_stk (drop (Z.to_nat (n / 2)) l) m))
      | _ => Fail OutOfBounds
      end
  | int n => Ok (inl (soft n m))
  | hlt => Ok (inr (Halted, m))
  end.

Definition step m : result (mach D + exit * mach D) :=
  match code !! pc m with
  | Some i => exec i (set_pc (S (pc m)) m)
  | None => Fail OutOfBounds
  end.

Fixpoint run (fuel : nat) m : result (exit * mach D) :=
  match fuel with
  | O => Fail Diverges
  | S fuel => r ← step m; match r with inl m => run fuel m | inr e => Ok e end
  end.

(** ** Runs in parts *)

(** From [m], after some instructions, the machine is in state [m']. *)
Definition reaches m m' : Prop := exists n, forall k, run (n + k) m = run k m'.

(** From [m] the code leaves. *)
Definition leaves m (e : exit) m' : Prop := exists n, forall k, run (n + k) m = Ok (e, m').

#[export] Instance reaches_preorder : PreOrder reaches.
Proof.
  split; [by exists 0%nat|]. intros m1 m2 m3 [a Ha] [b Hb]. exists (a + b)%nat. intros k.
  by rewrite <- Nat.add_assoc, Ha, Hb.
Qed.

Lemma reaches_step m m' m'' : step m = Ok (inl m') -> reaches m' m'' -> reaches m m''.
Proof. intros E [n Hn]. exists (S n). intros k. cbn [run Nat.add]. rewrite E. cbn [mbind result_bind]. apply Hn. Qed.

Lemma leaves_step m m' e m'' : step m = Ok (inl m') -> leaves m' e m'' -> leaves m e m''.
Proof. intros E [n Hn]. exists (S n). intros k. cbn [run Nat.add]. rewrite E. cbn [mbind result_bind]. apply Hn. Qed.

Lemma leaves_now m e m' : step m = Ok (inr (e, m')) -> leaves m e m'.
Proof. intros E. exists 1%nat. intros k. cbn [run Nat.add]. by rewrite E. Qed.

Lemma leaves_reaches m m' e m'' : reaches m m' -> leaves m' e m'' -> leaves m e m''.
Proof. intros [a Ha] [b Hb]. exists (a + b)%nat. intros k. by rewrite <- Nat.add_assoc, Ha, Hb. Qed.

(** The outcome does not depend on how much fuel there is. *)
Lemma run_more a m r : run a m = Ok r -> forall k, run (a + k) m = Ok r.
Proof.
  revert m. induction a as [|a IH]; intros m E k; cbn [run Nat.add] in *; [done|].
  destruct (step m) as [[m'|e]|f]; cbn [mbind result_bind] in *; [by apply IH|done|done].
Qed.

Lemma run_stuck a m : run a m <> Fail Diverges -> forall k, run (a + k) m = run a m.
Proof.
  revert m. induction a as [|a IH]; intros m E k; cbn [run Nat.add] in *; [done|].
  destruct (step m) as [[m'|e]|f]; cbn [mbind result_bind] in *; [by apply IH|done|done].
Qed.

(** Code that comes back to where it was never leaves. *)
Lemma never_leaves (Q : mach D -> Prop) :
  (forall m, Q m -> exists m1 m2, reaches m m1 /\ step m1 = Ok (inl m2) /\ Q m2) ->
  forall k m, Q m -> run k m = Fail Diverges.
Proof.
  intros HQ k. induction k as [k IH] using lt_wf_ind. intros m Hm.
  destruct (HQ m Hm) as (m1 & m2 & [n Hn] & E & Hm2).
  assert (Hs : forall j, run (n + S j) m = run j m2)
    by (intros j; rewrite Hn; cbn [run]; rewrite E; done).
  destruct (decide (n < k)%nat) as [Hk|Hk].
  - replace k with (n + S (k - S n))%nat by lia. rewrite Hs. apply IH; [lia|done].
  - assert (Hc : run k m = Fail Diverges \/ run k m <> Fail Diverges)
      by (destruct (run k m) as [|[]]; auto; right; done).
    destruct Hc as [|Hd]; [done|]. pose proof (run_stuck k m Hd (n + 1 - k)) as H.
    replace (k + (n + 1 - k))%nat with (n + 1)%nat in H by lia. rewrite Hs in H. by rewrite <- H.
Qed.

Lemma never_leaves_from (Q : mach D -> Prop) k m m0 :
  (forall m, Q m -> exists m1 m2, reaches m m1 /\ step m1 = Ok (inl m2) /\ Q m2) ->
  reaches m m0 -> Q m0 -> run k m = Fail Diverges.
Proof.
  intros HQ [n Hn] Hm0.
  assert (Hc : run k m = Fail Diverges \/ run k m <> Fail Diverges)
    by (destruct (run k m) as [|[]]; auto; right; done).
  destruct Hc as [|Hd]; [done|]. rewrite <- (run_stuck k m Hd n), (Nat.add_comm k), Hn. by apply (never_leaves Q).
Qed.

Lemma leaves_run m e m' : leaves m e m' <-> exists fuel, run fuel m = Ok (e, m').
Proof.
  split; [intros [n Hn]; exists n; by rewrite <- (Hn 0%nat), Nat.add_0_r|].
  intros [n Hn]. exists n. by apply run_more.
Qed.

Lemma leaves_det m e1 m1 e2 m2 : leaves m e1 m1 -> leaves m e2 m2 -> e1 = e2 /\ m1 = m2.
Proof. intros [a Ha] [b Hb]. specialize (Ha b). specialize (Hb a). rewrite Nat.add_comm, Ha in Hb. by inversion Hb. Qed.
End run.

(** ** Interrupts *)

Section interrupts.
Context {D : Type} (code : list instr).

Implicit Types m : mach D.

(** The machine where the handler [l] of an interrupt starts that came at [cs:ip]. *)
Definition interrupted (l : string) (ip c fl : Z) m : mach D :=
  set_pc (entry code l) (set_stk (ip :: c :: fl :: stk m) m).

Lemma interrupted_mach l ip c fl g s cy z pm st dv p :
  interrupted l ip c fl (Mach g s cy z pm st dv p) = Mach g s cy z pm (ip :: c :: fl :: st) dv (entry code l).
Proof. done. Qed.

(** An interrupt handler that puts the registers and the stack back. *)
Definition keeps m m' : Prop := gpr m' = gpr m /\ sgr m' = sgr m /\ stk m' = stk m /\ pc m' = pc m.

Lemma keeps_mach m m' : keeps m m' -> m' = Mach (gpr m) (sgr m) (cf m') (zf m') (mem m') (stk m) (dev m') (pc m).
Proof. intros (? & ? & ? & ?). destruct m'; cbn in *. by subst. Qed.
End interrupts.

(** ** Stepping through code

    [steps] runs the machine as far as the code is straight: each instruction is looked up by
    computation in the closed program, executed, and the state it leaves simplified. *)

Create Rewrite HintDb x86.
#[export] Hint Rewrite Z.lxor_nilpotent with16_lo16 push_pop_dword Nat2Z.id Z.mul_0_r Z.add_0_l : x86.
Ltac literal z := match z with Z0 => idtac | Zpos _ => idtac | Zneg _ => idtac end.

Create HintDb x86_range.
#[export] Hint Extern 1 (0 <= ?x < _) => literal x; done : x86_range.
#[export] Hint Extern 1 (0 <= ?x) => literal x; done : x86_range.
#[export] Hint Resolve lo16_range lo8_range hi8_range word_range lor8_range land8_range u8_range u16_range shiftr8_range : x86_range.
#[export] Hint Rewrite lo16_with16 with16_with16 lo8_with_lo8 with_lo8_with_lo8 hi8_with_lo8 hi8_with_hi8 lo8_with_hi8
  with16_with_lo8 with16_lo16_lo8 with16_with_hi8 with_hi8_with16 lo8_of_with16 lo8_lo16
  lo8_bytes16 hi8_bytes16 with_lo8_bytes16 with_hi8_bytes16 lo16_bytes16 with16_bytes16 bytes16_with16 bytes16_with_lo8
  bytes16_bytes16 hi8_lo16 hi8_of_with16
  using (first [done | assumption | solve [auto with x86_range]]) : x86.

Ltac exec_cbn :=
  cbv beta iota zeta delta [exec rd wr wid bits get_reg set_reg get_seg set_seg set_gpr set_sgr set_flags set_mem set_stk set_dev set_pc
       gpr sgr cf zf mem stk dev pc eax ebx ecx edx esi edi ebp ds es fs gs ss linear logic result_flags holds
       push_val pop_val mbind result_bind negb andb orb].

Ltac look_up :=
  repeat match goal with
  | |- context [?a <? ?b] => literal a; literal b; let v := eval vm_compute in (a <? b) in change (a <? b) with v
  | |- context [?a =? ?b] => literal a; literal b; let v := eval vm_compute in (a =? b) in change (a =? b) with v
  | |- context [lo8 ?a] => literal a; let v := eval vm_compute in (lo8 a) in change (lo8 a) with v
  | |- context [wrap ?w ?f] =>
      match f with _ ?a ?b => literal a; literal b end; let v := eval vm_compute in (wrap w f) in change (wrap w f) with v
  | |- context [target ?c ?l] => let v := eval vm_compute in (target c l) in change (target c l) with v
  | |- context [checked (?ls !! Z.to_nat ?n)] =>
      match n with ?a / 2 => literal a end;
      let v := eval vm_compute in (checked (ls !! Z.to_nat n)) in change (checked (ls !! Z.to_nat n)) with v
  end.

Ltac locate :=
  repeat match goal with
  | |- context [entry ?c ?l] => let v := eval vm_compute in (entry c l) in change (entry c l) with v
  end.

Ltac one_step :=
  unfold step; cbn [pc];
  match goal with
  | |- context [?c !! ?n] => let v := eval vm_compute in (c !! n) in change (c !! n) with v
  end; cbv iota beta; exec_cbn; autorewrite with x86; look_up; exec_cbn; look_up; exec_cbn; reflexivity.

Ltac next :=
  look_up; first [ eapply reaches_step; [one_step|] | eapply leaves_step; [one_step|] | eapply leaves_now; one_step ];
  autorewrite with x86.

(** ** Types

    A machine is well typed when every register has 32 bits, every segment and every word on the
    stack 16, and memory holds bytes; an instruction when its operands have the widths it needs and
    its immediate operands fit.  Well-typed code keeps the machine well typed. *)

Definition regs_ok (g : regs) : Prop := forall r, 0 <= get_reg r g < 2 ^ 32.
Definition segs_ok (g : segs) : Prop := forall s, 0 <= get_seg s g < 2 ^ 16.
Definition words_ok (l : list Z) : Prop := Forall (fun x => 0 <= x < 2 ^ 16) l.

Definition mach_ok {D} (m : mach D) : Prop :=
  regs_ok (gpr m) /\ segs_ok (sgr m) /\ words_ok (stk m) /\ pm_ok (mem m).

(** The operand can be one of [w] bits. *)
Definition fits (w : width) (o : opnd) : bool :=
  match o, w with
  | Imm v, _ => (0 <=? v) && (v <? 2 ^ bits w)
  | (R32 _ | Mem Dword _ _ _), Dword | (R16 _ | Seg _ | Mem Word _ _ _), Word
  | (Lo _ | Hi _ | Mem Byte _ _ _), Byte => true
  | _, _ => false
  end.

Definition place (o : opnd) : bool := match o with Imm _ => false | _ => true end.

Definition instr_ok (i : instr) : bool :=
  match i with
  | Db v => (0 <=? v) && (v <? 2 ^ 8)
  | mov_cs d _ => place d && fits Byte d
  | mov_esp d _ => place d && fits Dword d
  | mov d s | add d s | and_ d s | or_ d s | xor d s => place d && fits (wid d) s
  | movzx d s => place d && place s && (bits (wid s) <=? bits (wid d))
  | xchg a b => place a && place b && fits (wid a) b
  | push o => fits (wid o) o && (16 <=? bits (wid o))
  | pop o => place o && (16 <=? bits (wid o))
  | shl d n | shr d n => place d && (0 <=? n)
  | inc d | dec d => place d
  | cmp a b | test a b => fits (wid a) b
  | inp d _ => place d && fits Byte d
  | out _ s => fits Byte s
  | _ => true
  end.

Definition code_ok (code : list instr) : bool := forallb instr_ok code && (Z.of_nat (length code) <? 2 ^ 16).

Lemma fits_wid o : place o = true -> fits (wid o) o = true.
Proof. by destruct o as [| | | | | |[]]. Qed.

Lemma fits_place w o : place o = true -> fits w o = true -> w = wid o.
Proof. by destruct o as [| | | | | |[]], w. Qed.

Section types.
Context {D : Type} (outb : Z -> Z -> D -> D) (inb : Z -> D -> Z * D) (soft : Z -> mach D -> mach D) (code : list instr).

Implicit Types m : mach D.

Lemma rd_ok m w o : mach_ok m -> fits w o = true -> 0 <= rd m o < 2 ^ bits w.
Proof.
  intros (Hg & Hs & _ & Hp). destruct o as [r|r|r|r|s|v|[] s b off], w; try done; intros Hf; cbn [rd bits].
  - apply Hg.
  - apply lo16_range.
  - apply lo8_range.
  - apply hi8_range.
  - apply Hs.
  - apply andb_prop in Hf as [?%Z.leb_le ?%Z.ltb_lt]. done.
  - apply andb_prop in Hf as [?%Z.leb_le ?%Z.ltb_lt]. done.
  - apply andb_prop in Hf as [?%Z.leb_le ?%Z.ltb_lt]. done.
  - apply Hp.
  - by apply m16_range.
  - by apply m32_range.
Qed.

Lemma set_reg_ok r v g : regs_ok g -> 0 <= v < 2 ^ 32 -> regs_ok (set_reg r v g).
Proof. destruct g. intros Hg Hv r'. pose proof (Hg r'). by destruct r, r'. Qed.

Lemma set_seg_ok s v g : segs_ok g -> 0 <= v < 2 ^ 16 -> segs_ok (set_seg s v g).
Proof. destruct g. intros Hg Hv s'. pose proof (Hg s'). by destruct s, s'. Qed.

Lemma wr_ok m o v : mach_ok m -> 0 <= v < 2 ^ bits (wid o) -> mach_ok (wr m o v).
Proof.
  intros (Hg & Hs & Hl & Hp) Hv. destruct o as [r|r|r|r|s|v'|[] s b off]; cbn [wid bits] in Hv; split_and!; try done.
  - by apply set_reg_ok.
  - apply set_reg_ok; [done|]. by apply with16_range.
  - apply set_reg_ok; [done|]. by apply with_lo8_range.
  - apply set_reg_ok; [done|]. by apply with_hi8_range.
  - by apply set_seg_ok.
  - apply write_bytes_ok; [done|]. by apply Forall_singleton.
  - by apply store_ok.
  - by apply store_ok.
Qed.

Hypothesis inb_byte : forall p d, 0 <= fst (inb p d) < 2 ^ 8.
Hypothesis soft_ok : forall n m, mach_ok m -> mach_ok (soft n m).

Lemma bits_pos w : 0 <= bits w.
Proof. by destruct w. Qed.

Lemma logic_ok m d s (f : Z -> Z -> Z) :
  (forall n a b, 0 <= n -> f (Z.land a (Z.ones n)) (Z.land b (Z.ones n)) = Z.land (f a b) (Z.ones n)) ->
  mach_ok m -> place d = true -> fits (wid d) s = true -> mach_ok (logic m d (f (rd m d) (rd m s))).
Proof.
  intros Hf Hm Hd Hs. pose proof (rd_ok m _ d Hm (fits_wid d Hd)) as H1. pose proof (rd_ok m _ s Hm Hs) as H2.
  apply (wr_ok m d); [done|].
  rewrite <- (Z.mod_small (rd m d) (2 ^ bits (wid d))), <- (Z.mod_small (rd m s) (2 ^ bits (wid d))) by done.
  rewrite <- !Z.land_ones, Hf, Z.land_ones by apply bits_pos. apply Z.mod_pos_bound. by destruct (wid d).
Qed.

Lemma wr_wrap m o v : mach_ok m -> mach_ok (wr m o (wrap (bits (wid o)) v)).
Proof. intros Hm. apply wr_ok; [done|]. apply wrap_range, bits_pos. Qed.

Lemma push_ok w v l : 0 <= v < 2 ^ bits w -> 16 <= bits w -> words_ok l -> words_ok (push_val w v l).
Proof.
  intros Hv Hw Hl. destruct w; cbn [push_val bits] in *; [lia| |]; repeat constructor; try done; try lia.
  all: change (2 ^ 32) with 4294967296 in *; change (2 ^ 16) with 65536; dlia.
Qed.

Lemma pop_ok w v l l' : 16 <= bits w -> words_ok l -> pop_val w l = Ok (v, l') -> 0 <= v < 2 ^ bits w /\ words_ok l'.
Proof.
  intros Hw Hl. unfold words_ok in *.
  destruct w; cbn [bits] in *; [lia| |]; destruct l as [|a [|b l]]; cbn [pop_val]; intros E; inversion E; subst.
  all: rewrite ?Forall_cons in Hl; split; [|rewrite ?Forall_cons; tauto]. all: change (2 ^ 32) with 4294967296; change (2 ^ 16) with 65536 in *; lia.
Qed.

Lemma set_stk_ok m l : mach_ok m -> words_ok l -> mach_ok (set_stk l m).
Proof. by intros (? & ? & ? & ?) Hl. Qed.

Definition outcome_ok (r : mach D + exit * mach D) : Prop :=
  match r with
  | inl m => mach_ok m
  | inr (Iret ip c fl, m) => mach_ok m /\ 0 <= ip < 2 ^ 16 /\ 0 <= c < 2 ^ 16 /\ 0 <= fl < 2 ^ 16
  | inr (Retf ip c, m) => mach_ok m /\ 0 <= ip < 2 ^ 16 /\ 0 <= c < 2 ^ 16
  | inr (Halted, m) => mach_ok m
  end.

Lemma code_instr_ok n i : forallb instr_ok code = true -> code !! n = Some i -> instr_ok i = true.
Proof. rewrite forallb_forall. intros Hc E. apply Hc, list_elem_of_In. by eapply list_elem_of_lookup_2. Qed.

Lemma exec_ok i m r :
  forallb instr_ok code = true ->
  instr_ok i = true -> mach_ok m -> Z.of_nat (pc m) < 2 ^ 16 -> exec outb inb soft code i m = Ok r -> outcome_ok r.
Proof.
  intros Hcode Hi Hm Hpc. pose proof Hm as (_ & _ & Hstk & _).
  destruct i; cbn [exec instr_ok] in *; rewrite ?andb_true_iff, ?Z.leb_le in Hi; destruct_and?; intros E; inv_result.
  all: cbn [outcome_ok]; try exact Hm; try (by apply wr_wrap).
  - destruct (code !! _) as [i|] eqn:Ei; [|done]. apply (code_instr_ok _ i Hcode) in Ei.
    destruct i; try done. injection E as <-. cbn [instr_ok] in Ei. apply andb_prop in Ei as [?%Z.leb_le ?%Z.ltb_lt].
    apply wr_ok; [done|]. rewrite <- (fits_place Byte d) by done. cbn [bits]. lia.
  - apply set_stk_ok; [done|constructor].
  - apply wr_ok; [done|]. rewrite <- (fits_place Dword d) by done. by apply wrap_range.
  - destruct (_ =? _); [done|]. apply set_stk_ok; [done|]. by constructor.
  - match goal with H : pop_val _ _ = _ |- _ => apply pop_ok in H as [Hv Hl]; [|done..] end.
    apply set_stk_ok; [done|]. by apply Forall_drop.
  - destruct (stk m) as [|[] l]; try done. injection E as <-. apply soft_ok, set_stk_ok; [done|].
    by apply Forall_cons in Hstk as [_ ?].
  - apply wr_ok; [done|]. by apply rd_ok.
  - apply wr_ok; [done|]. pose proof (rd_ok m _ s Hm (fits_wid s ltac:(done))) as Hr.
    pose proof (Z.pow_le_mono_r 2 _ _ ltac:(lia) ltac:(eassumption)). lia.
  - pose proof (fits_place _ b ltac:(done) ltac:(done)) as Ew.
    apply wr_ok; [apply wr_ok; [done|by apply rd_ok]|]. rewrite <- Ew. by apply rd_ok, fits_wid.
  - apply set_stk_ok; [done|]. apply push_ok; [by apply rd_ok|done|done].
  - match goal with H : pop_val _ _ = _ |- _ => apply pop_ok in H as [Hv Hl]; [|done..] end.
    apply wr_ok; [by apply set_stk_ok|done].
  - apply (logic_ok m d s Z.land); try done. intros n a b Hn. apply Z.bits_inj'. intros k Hk.
    rewrite !Z.land_spec. by destruct (Z.testbit a k), (Z.testbit b k), (Z.testbit (Z.ones n) k).
  - apply (logic_ok m d s Z.lor); try done. intros n a b Hn. by rewrite Z.land_lor_distr_l.
  - apply (logic_ok m d s Z.lxor); try done. intros n a b Hn. apply Z.bits_inj'. intros k Hk.
    rewrite !Z.land_spec, !Z.lxor_spec, !Z.land_spec.
    by destruct (Z.testbit a k), (Z.testbit b k), (Z.testbit (Z.ones n) k).
  - pose proof (rd_ok m _ d Hm (fits_wid d ltac:(done))) as Hr. apply wr_ok; [done|].
    split; [apply Z.shiftr_nonneg, Hr|]. rewrite Z.shiftr_div_pow2 by lia.
    apply Z.le_lt_trans with (rd m d); [|lia]. apply Z.div_le_upper_bound; [lia|]. nia.
  - apply wr_ok; [exact Hm|]. rewrite <- (fits_place Byte d) by done. apply inb_byte.
  - by destruct (holds c m).
  - destruct (_ && _); apply (wr_wrap m CX); done.
  - apply set_stk_ok; [done|]. constructor; [lia|done].
  - match goal with H : pop_val _ _ = _ |- _ => apply pop_ok in H as [Hv Hl]; [|done..] end. by apply (set_stk_ok m).
  - destruct (stk m) as [|ip [|c [|fl l]]]; try done. injection E as <-. unfold words_ok in Hstk.
    rewrite !Forall_cons in Hstk. destruct Hstk as (? & ? & ? & ?). cbn [outcome_ok]. split; [by apply set_stk_ok|done].
  - destruct (stk m) as [|ip [|c l]]; try done. injection E as <-. unfold words_ok in Hstk.
    rewrite !Forall_cons in Hstk. destruct Hstk as (? & ? & ?). cbn [outcome_ok].
    split; [|done]. apply set_stk_ok; [done|]. by apply Forall_drop.
  - by apply soft_ok.
Qed.

Lemma step_ok m r : code_ok code = true -> mach_ok m -> step outb inb soft code m = Ok r -> outcome_ok r.
Proof.
  intros [Hc Hlen%Z.ltb_lt]%andb_prop Hm. unfold step. destruct (code !! pc m) as [i|] eqn:E; [|done].
  pose proof (lookup_lt_Some _ _ _ E) as Hl.
  apply exec_ok; [done|by apply (code_instr_ok (pc m))|exact Hm|cbn [set_pc pc]; lia].
Qed.

Lemma run_ok_spec fuel m e m' :
  code_ok code = true -> mach_ok m -> run outb inb soft code fuel m = Ok (e, m') -> outcome_ok (inr (e, m')).
Proof.
  intros Hc. revert m. induction fuel as [|fuel IH]; intros m Hm; cbn [run]; [done|].
  destruct (step outb inb soft code m) as [[m1|[e1 m1]]|f] eqn:E; cbn [mbind result_bind]; [|intros [= <- <-]|done].
  - apply IH. exact (step_ok m _ Hc Hm E).
  - exact (step_ok m _ Hc Hm E).
Qed.
End types.
