(* ===== verification/Rm16Call.v ===== *)
(** * Calling real-mode code: [rm16_call] (src/stage2/rm16.asm, src/stage2/16/do-rm16-call.asm)

    [rm16_call] leaves protected mode and paging, calls a far address in real mode, and comes back.
    The state is the processor's registers, the control registers and the table of descriptors, and
    memory.  What is called is a parameter.  The theorem: when the code that is called returns and
    leaves the routine's few words in memory alone, its caller is returned to with its registers,
    stack, flags, page tables and descriptors, whatever that code did to the processor; and the
    code is entered in real mode, without paging, interrupts or extended page tables, with the
    registers that were asked for.

    The addresses are those of an identity mapping, which is what [Va] keeps below 4 GiB. *)

From S2P Require Import Prelude Util Bmem Bparm Rimg Phys X86.

Definition CR0_PE : Z := 1.
Definition CR0_PG : Z := 2 ^ 31.
Definition CR4_PAE : Z := 32.
Definition EFL_IF : Z := 512.
Definition SEL_CS32 : Z := 0x08.
Definition SEL_DS32 : Z := 0x10.
Definition SEL_CS16 : Z := 0x18.
Definition SEL_DS16_ZERO : Z := 0x20.

(** What the linker decides: the top of the 16-bit stack and the variables in the data segment, the
    word of the jump that the segment is patched into, the address the real-mode code returns to,
    and the address the 16-bit half jumps back to. *)
Record rm16_syms := { stack16 : Z; sp32 : Z; ptpd32 : Z; gdtr : Z; rm_cs16 : Z; ret16 : Z; ret32 : Z }.

Record cpu := Cpu {
  gp : regs; esp : Z; sg : segs; cs : Z; efl : Z; cr0 : Z; cr3 : Z; cr4 : Z; gdt : Z * Z
}.

Definition set_gp r v c := Cpu (set_reg r v (gp c)) (esp c) (sg c) (cs c) (efl c) (cr0 c) (cr3 c) (cr4 c) (gdt c).
Definition set_esp v c := Cpu (gp c) v (sg c) (cs c) (efl c) (cr0 c) (cr3 c) (cr4 c) (gdt c).
Definition set_sg s v c := Cpu (gp c) (esp c) (set_seg s v (sg c)) (cs c) (efl c) (cr0 c) (cr3 c) (cr4 c) (gdt c).
Definition set_cs v c := Cpu (gp c) (esp c) (sg c) v (efl c) (cr0 c) (cr3 c) (cr4 c) (gdt c).
Definition set_efl v c := Cpu (gp c) (esp c) (sg c) (cs c) v (cr0 c) (cr3 c) (cr4 c) (gdt c).
Definition set_cr0 v c := Cpu (gp c) (esp c) (sg c) (cs c) (efl c) v (cr3 c) (cr4 c) (gdt c).
Definition set_cr3 v c := Cpu (gp c) (esp c) (sg c) (cs c) (efl c) (cr0 c) v (cr4 c) (gdt c).
Definition set_cr4 v c := Cpu (gp c) (esp c) (sg c) (cs c) (efl c) (cr0 c) (cr3 c) v (gdt c).
Definition set_gdt v c := Cpu (gp c) (esp c) (sg c) (cs c) (efl c) (cr0 c) (cr3 c) (cr4 c) v.

(** The 32-bit stack. *)
Definition push32 (v : Z) (s : cpu * phys) : cpu * phys :=
  let '(c, pm) := s in let a := u32 (esp c - 4) in (set_esp a c, store32 pm a v).

Definition pop32 (s : cpu * phys) : Z * (cpu * phys) :=
  let '(c, pm) := s in (m32 pm (esp c), (set_esp (u32 (esp c + 4)) c, pm)).

(** The 16-bit stack. *)
Definition push16 (v : Z) (s : cpu * phys) : cpu * phys :=
  let '(c, pm) := s in
  let sp := u16 (esp c - 2) in (set_esp (with16 (esp c) sp) c, store16 pm (16 * ss (sg c) + sp) v).

Definition cli (c : cpu) : cpu := set_efl (Z.ldiff (efl c) EFL_IF) c.

Section rm16_call.
Context (S : rm16_syms) (callee : Z -> Z -> cpu -> phys -> cpu * phys).

(** [rm16_call] up to its far call. *)
Definition save32 (c : cpu) (pm : phys) : cpu * phys :=
  let '(c, pm) := push32 (ebx (gp c)) (c, pm) in
  let '(c, pm) := push32 (esi (gp c)) (c, pm) in
  let '(c, pm) := push32 (edi (gp c)) (c, pm) in
  let '(c, pm) := push32 (ebp (gp c)) (c, pm) in
  let '(c, pm) := push32 (efl c) (c, pm) in
  let c := set_gp EBX (m32 pm (u32 (esp c + 5 * 4 + 4))) c in
  let c := set_gp EDI (u32 (esp c + 5 * 4 + 4 + 4)) c in
  let c := cli c in
  let '(c, pm) := push32 (cs c) (c, pm) in
  let '(c, pm) := push32 (ret32 S) (c, pm) in
  (set_cs SEL_CS16 c, pm).

(** [rm16_call.cont1]: out of protected mode and paging.  The code is at [text]. *)
Definition cont1 (text : Z) (c : cpu) (pm : phys) : cpu :=
  let c := set_gp ESI (with16 (esi (gp c)) SEL_DS16_ZERO) c in
  let c := set_sg DS SEL_DS16_ZERO (set_sg ES SEL_DS16_ZERO (set_sg FS SEL_DS16_ZERO (set_sg GS SEL_DS16_ZERO c))) in
  let c := set_gp ESI (Z.ldiff (cr0 c) (Z.lor CR0_PG CR0_PE)) c in
  let c := set_cr0 (esi (gp c)) c in
  set_cs (m16 pm (text + rm_cs16 S)) c.

(** [rm16_call.cont2] up to the far call; [ds] still has the base 0 of its protected-mode
    descriptor when the segment of the data is read. *)
Definition cont2 (c : cpu) (pm : phys) : cpu * phys :=
  let seg := m16 pm bda_ebda in
  let c := set_gp ESI (with16 (esi (gp c)) seg) c in
  let c := set_sg DS seg c in
  let pm := store32 pm (16 * ds (sg c) + sp32 S) (esp c) in
  let c := set_esp (cr3 c) c in
  let pm := store32 pm (16 * ds (sg c) + ptpd32 S) (esp c) in
  let c := set_sg SS seg c in
  let c := set_esp (stack16 S) c in
  let c := set_sg ES seg c in
  let c := set_gp ESI (with16 (esi (gp c)) 0) c in
  let c := set_sg FS 0 (set_sg GS 0 c) in
  let pm := store16 pm (16 * ds (sg c) + gdtr S) (fst (gdt c)) in
  let pm := store32 pm (16 * ds (sg c) + gdtr S + 2) (snd (gdt c)) in
  let c := set_gp ESI (Z.ldiff (cr4 c) CR4_PAE) c in
  let c := set_cr4 (esi (gp c)) c in
  let '(c, pm) := push16 (cs c) (c, pm) in push16 (ret16 S) (c, pm).

(** After the call: the stack, the page tables, the descriptors and protected mode are put back.
    [lgdt] with 16-bit operands loads 24 bits of the base. *)
Definition back32 (c : cpu) (pm : phys) : cpu :=
  let c := cli c in
  let c := set_gp ESI (with16 (esi (gp c)) 0) c in
  let c := set_sg SS 0 c in
  let c := set_sg DS (m16 pm (16 * ss (sg c) + bda_ebda)) c in
  let c := set_esp (m32 pm (16 * ds (sg c) + sp32 S)) c in
  let c := set_gp ESI (m32 pm (16 * ds (sg c) + ptpd32 S)) c in
  let c := set_cr3 (esi (gp c)) c in
  let c := set_gdt (m16 pm (16 * ds (sg c) + gdtr S), m32 pm (16 * ds (sg c) + gdtr S + 2) mod 2 ^ 24) c in
  let c := set_gp ESI (Z.lor (cr4 c) CR4_PAE) c in
  let c := set_cr4 (esi (gp c)) c in
  let c := set_gp ESI (Z.lor (cr0 c) (Z.lor CR0_PG CR0_PE)) c in
  let c := set_cr0 (esi (gp c)) c in
  set_esp (u32 (esp c + 8)) c.

(** [rm16_call] from its far call on, to its [ret 8]. *)
Definition restore32 (c : cpu) (pm : phys) : Z * cpu :=
  let c := set_gp ESI (with16 (esi (gp c)) SEL_DS32) c in
  let c := set_sg DS SEL_DS32 (set_sg ES SEL_DS32 (set_sg SS SEL_DS32 (set_sg FS SEL_DS32 (set_sg GS SEL_DS32 c)))) in
  let '(v, (c, pm)) := pop32 (c, pm) in let c := set_efl v c in
  let '(v, (c, pm)) := pop32 (c, pm) in let c := set_gp EBP v c in
  let '(v, (c, pm)) := pop32 (c, pm) in let c := set_gp EDI v c in
  let '(v, (c, pm)) := pop32 (c, pm) in let c := set_gp ESI v c in
  let '(v, (c, pm)) := pop32 (c, pm) in let c := set_gp EBX v c in
  let '(eip, (c, pm)) := pop32 (c, pm) in (eip, set_esp (u32 (esp c + 8)) c).

(** The state in which the real-mode code is entered. *)
Definition rm16_entry (text : Z) (c : cpu) (pm : phys) : cpu * phys :=
  let '(c, pm) := save32 c pm in cont2 (cont1 text c pm) pm.

(** Returns the address that is returned to; the jump back must lead to [rm16_call]. *)
Definition rm16_call (text : Z) (c : cpu) (pm : phys) : result (Z * cpu * phys) :=
  let '(c, pm) := rm16_entry text c pm in
  let '(c, pm) := callee (m16 pm (edi (gp c) + 2)) (m16 pm (edi (gp c))) c pm in
  let c := back32 c pm in
  let eip := m32 pm (16 * ss (sg c) + u32 (esp c - 8)) in
  let c := set_cs (m16 pm (16 * ss (sg c) + u32 (esp c - 8) + 4)) c in
  if eip =? ret32 S then let '(eip, c) := restore32 c pm in Ok (eip, c, pm) else Fail OutOfBounds.
End rm16_call.

(** ** Before the call *)

(** The variables and the 16-bit stack lie apart in the data segment, above the BIOS data area. *)
Record syms_ok (S : rm16_syms) : Prop := {
  so_stack : 4 <= stack16 S < 2 ^ 16;
  so_vars : 0 <= sp32 S /\ sp32 S + 4 <= ptpd32 S /\ ptpd32 S + 4 <= gdtr S /\ gdtr S + 6 <= 2 ^ 16;
  so_apart : stack16 S <= sp32 S \/ gdtr S + 6 <= stack16 S - 4;
  so_ret : 0 <= ret16 S < 2 ^ 16 /\ 0 <= ret32 S < 2 ^ 32;
}.

(** What a caller in 32-bit protected mode has. *)
Record cpu_ok (c : cpu) : Prop := {
  co_regs : forall r, 0 <= get_reg r (gp c) < 2 ^ 32;
  co_esp : 2 ^ 20 + 2 ^ 17 <= esp c /\ esp c + 16 < 2 ^ 32;
  co_cs : 0 <= cs c < 2 ^ 16;
  co_efl : 0 <= efl c < 2 ^ 32;
  co_cr3 : 0 <= cr3 c < 2 ^ 32;
  co_gdt : 0 <= fst (gdt c) < 2 ^ 16 /\ 0 <= snd (gdt c) < 2 ^ 24;
}.

(** The words of the 32-bit stack and the variables that the way back uses. *)
Definition kept32 (S : rm16_syms) (c : cpu) (seg : Z) (pm : phys) : Prop :=
  m32 pm (esp c - 4) = ebx (gp c) /\ m32 pm (esp c - 8) = esi (gp c) /\ m32 pm (esp c - 12) = edi (gp c) /\
  m32 pm (esp c - 16) = ebp (gp c) /\ m32 pm (esp c - 20) = efl c /\ m32 pm (esp c - 24) = cs c /\
  m32 pm (esp c - 28) = ret32 S /\ m16 pm bda_ebda = seg /\
  m32 pm (16 * seg + sp32 S) = esp c - 28 /\ m32 pm (16 * seg + ptpd32 S) = cr3 c /\
  m16 pm (16 * seg + gdtr S) = fst (gdt c) /\ m32 pm (16 * seg + gdtr S + 2) = snd (gdt c).

(** Where [rm16_call] writes before the call. *)
Definition scratch (S : rm16_syms) (c : cpu) (seg : Z) (x : Z) : Prop :=
  in_range (esp c - 28) 28 x \/ in_range (16 * seg + sp32 S) 4 x \/ in_range (16 * seg + ptpd32 S) 4 x \/
  in_range (16 * seg + gdtr S) 6 x \/ in_range (16 * seg + stack16 S - 4) 4 x.

Lemma push32_eq v c pm : 4 <= esp c < 2 ^ 32 -> push32 v (c, pm) = (set_esp (esp c - 4) c, store32 pm (esp c - 4) v).
Proof. intros H. unfold push32. by rewrite (wrap_small 32) by lia. Qed.

Lemma pop32_eq c pm : 0 <= esp c -> esp c + 4 < 2 ^ 32 -> pop32 (c, pm) = (m32 pm (esp c), (set_esp (esp c + 4) c, pm)).
Proof. intros H1 H2. unfold pop32. by rewrite (wrap_small 32) by lia. Qed.

Lemma m32_skip32 pm a v x : a + 4 <= x \/ x + 4 <= a -> m32 (store32 pm a v) x = m32 pm x.
Proof. intros H. apply m32_ext. intros i Hi. apply store32_out. unfold in_range. lia. Qed.
Lemma m32_skip16 pm a v x : a + 2 <= x \/ x + 4 <= a -> m32 (store16 pm a v) x = m32 pm x.
Proof. intros H. apply m32_ext. intros i Hi. apply store16_out. unfold in_range. lia. Qed.
Lemma m16_skip32 pm a v x : a + 4 <= x \/ x + 2 <= a -> m16 (store32 pm a v) x = m16 pm x.
Proof. intros H. apply m16_ext. intros i Hi. apply store32_out. unfold in_range. lia. Qed.
Lemma m16_skip16 pm a v x : a + 2 <= x \/ x + 2 <= a -> m16 (store16 pm a v) x = m16 pm x.
Proof. intros H. apply m16_ext. intros i Hi. apply store16_out. unfold in_range. lia. Qed.

Ltac skip := repeat first [rewrite m32_skip32 by lia | rewrite m32_skip16 by lia | rewrite m16_skip32 by lia | rewrite m16_skip16 by lia].

Ltac sums :=
  repeat match goal with
  | |- context [?a + ?b] => literal a; literal b; let v := eval vm_compute in (a + b) in change (a + b) with v
  | |- context [?a - ?b] => literal a; literal b; let v := eval vm_compute in (a - b) in change (a - b) with v
  | |- context [?a * ?b] => literal a; literal b; let v := eval vm_compute in (a * b) in change (a * b) with v
  end.

Ltac cpu_cbn :=
  cbv beta iota zeta delta [gp esp sg cs efl cr0 cr3 cr4 gdt set_gp set_esp set_sg set_cs set_efl set_cr0 set_cr3 set_cr4 set_gdt cli
       set_reg get_reg set_seg get_seg eax ebx ecx edx esi edi ebp ds es fs gs ss].

Section rm16_call_spec.
Context (S : rm16_syms) (Hsyms : syms_ok S).

Lemma save32_spec c pm :
  cpu_ok c ->
  let '(c1, pm1) := save32 S c pm in
  c1 = Cpu (set_reg EBX (m32 pm (esp c + 4)) (set_reg EDI (esp c + 8) (gp c))) (esp c - 28) (sg c) SEL_CS16
         (Z.ldiff (efl c) EFL_IF) (cr0 c) (cr3 c) (cr4 c) (gdt c) /\
  m32 pm1 (esp c - 4) = ebx (gp c) /\ m32 pm1 (esp c - 8) = esi (gp c) /\ m32 pm1 (esp c - 12) = edi (gp c) /\
  m32 pm1 (esp c - 16) = ebp (gp c) /\ m32 pm1 (esp c - 20) = efl c /\ m32 pm1 (esp c - 24) = cs c /\
  m32 pm1 (esp c - 28) = ret32 S /\ (pm_ok pm -> pm_ok pm1) /\ forall x, ~ in_range (esp c - 28) 28 x -> pm1 x = pm x.
Proof.
  intros [Hr [He1 He2] Hcs Hf Hc3 _]. destruct c as [[a b cx d si di bp] sp s c f x0 x3 x4 g].
  cbn [gp esp cs efl cr3 eax ebx ecx edx esi edi ebp] in *.
  pose proof (Hr EBX). pose proof (Hr ESI). pose proof (Hr EDI). pose proof (Hr EBP). cbn [get_reg ebx esi edi ebp] in *.
  destruct Hsyms as [_ _ _ [_ Hret]].
  change (2 ^ 20 + 2 ^ 17) with 1179648 in *. 
  unfold save32. do 5 (rewrite push32_eq by (cpu_cbn; lia); cpu_cbn).
  do 2 (rewrite push32_eq by (cpu_cbn; lia); cpu_cbn).
  rewrite !(wrap_small 32) by lia. rewrite <- !Z.sub_add_distr. sums.
  replace (sp - 20 + 20 + 4) with (sp + 4) by lia. replace (sp + 4 + 4) with (sp + 8) by lia. skip.
  split_and!; try done; try (skip; apply m32_store32; lia).
  - intros Hpm. by do 7 apply store_ok.
  - intros x Hx. by frame.
Qed.


Lemma with16_small x v : 0 <= x < 2 ^ 16 -> with16 x v = v.
Proof. intros H. unfold with16. rewrite Z.div_small by done. lia. Qed.

Lemma rm16_entry_spec text c pm :
  let seg := m16 pm bda_ebda in
  cpu_ok c -> pm_ok pm -> 0x410 <= 16 * seg -> 0 <= text + rm_cs16 S -> text + rm_cs16 S + 2 <= 2 ^ 20 ->
  let '(c1, pm1) := rm16_entry S text c pm in
  c1 = Cpu (Regs (eax (gp c)) (m32 pm (esp c + 4)) (ecx (gp c)) (edx (gp c)) (Z.ldiff (cr4 c) CR4_PAE) (esp c + 8) (ebp (gp c)))
         (stack16 S - 4) (Segs seg seg 0 0 seg) (m16 pm (text + rm_cs16 S)) (Z.ldiff (efl c) EFL_IF)
         (Z.ldiff (cr0 c) (Z.lor CR0_PG CR0_PE)) (cr3 c) (Z.ldiff (cr4 c) CR4_PAE) (gdt c) /\
  kept32 S c seg pm1 /\
  m16 pm1 (16 * seg + stack16 S - 4) = ret16 S /\ m16 pm1 (16 * seg + stack16 S - 2) = m16 pm (text + rm_cs16 S) /\
  pm_ok pm1 /\ forall x, ~ scratch S c seg x -> pm1 x = pm x.
Proof.
  intros seg Hc Hpm Hseg Ht1 Ht2. pose proof (save32_spec c pm Hc) as Hs. unfold rm16_entry.
  destruct (save32 S c pm) as [c1 pm1]. destruct Hs as (-> & Hb & Hsi & Hdi & Hbp & Hf & Hcs & Hret & Hok & Hrest). specialize (Hok Hpm).
  destruct Hc as [Hr [He1 He2] Hcsr Hefl Hcr3 [Hg1 Hg2]]. destruct Hsyms as [[Ho1 Ho2] (Ho3 & Ho4 & Ho5 & Ho6) Ho7 [[Ho8 Ho9] Ho10]].
  pose proof (m16_range pm Hpm bda_ebda) as Hsegr. fold seg in Hsegr.
  assert (Eseg : m16 pm1 bda_ebda = seg).
  { apply m16_ext. intros i Hi. apply Hrest. unfold in_range, bda_ebda. lia. }
  assert (Ecs : m16 pm1 (text + rm_cs16 S) = m16 pm (text + rm_cs16 S)).
  { apply m16_ext. intros i Hi. apply Hrest. unfold in_range. lia. }
  pose proof (m16_range pm Hpm (text + rm_cs16 S)) as Hcs16.
  destruct c as [[a b cx d si di bp] sp s cc f x0 x3 x4 g]. destruct s as [sd se sf sg0 ss0].
  cbn [gp esp cs efl cr0 cr3 cr4 gdt eax ebx ecx edx esi edi ebp] in *.
  unfold cont1, cont2, push16. cpu_cbn. rewrite Eseg, Ecs.
  rewrite !(with16_small (stack16 S)) by lia.
  rewrite (wrap_small 16 (stack16 S - 2)) by lia. rewrite (with16_small (stack16 S - 2)) by lia.
  rewrite (wrap_small 16 (stack16 S - 2 - 2)) by lia.
  rewrite <- !Z.sub_add_distr. sums. rewrite !Z.add_sub_assoc.
  change (2 ^ 32) with 4294967296 in *. change (2 ^ 16) with 65536 in *. change (2 ^ 20) with 1048576 in *. change (2 ^ 17) with 131072 in *.
  split; [done|]. unfold kept32. cbn [gp esp cs efl cr3 gdt ebx esi edi ebp].
  change bda_ebda with 0x40e in *. change (2 ^ 24) with 16777216 in *. clearbody seg.
  split_and!; try (skip; first [done | apply m32_store32; change (2 ^ 32) with 4294967296; lia
    | apply m16_store16; change (2 ^ 16) with 65536; lia]).
  { by repeat apply store_ok. }
  intros x Hx. unfold scratch in Hx. cbn [esp] in Hx. rewrite <- Hrest by tauto. unfold in_range in Hx. by frame.
Qed.

(** ** After the call *)

Lemma back_spec c seg c2 pm2 :
  cpu_ok c -> pm_ok pm2 -> kept32 S c seg pm2 ->
  let c3 := back32 S c2 pm2 in
  let eip := m32 pm2 (16 * ss (sg c3) + u32 (esp c3 - 8)) in
  let c4 := set_cs (m16 pm2 (16 * ss (sg c3) + u32 (esp c3 - 8) + 4)) c3 in
  eip = ret32 S /\
  restore32 c4 pm2 =
    (m32 pm2 (esp c),
     Cpu (Regs (eax (gp c2)) (ebx (gp c)) (ecx (gp c2)) (edx (gp c2)) (esi (gp c)) (edi (gp c)) (ebp (gp c)))
       (esp c + 12) (Segs SEL_DS32 SEL_DS32 SEL_DS32 SEL_DS32 SEL_DS32) (cs c) (efl c)
       (Z.lor (cr0 c2) (Z.lor CR0_PG CR0_PE)) (cr3 c) (Z.lor (cr4 c2) CR4_PAE) (gdt c)).
Proof.
  intros [Hr [He1 He2] Hcsr Hefl Hcr3 [Hg1 Hg2]] Hpm (Hb & Hsi & Hdi & Hbp & Hf & Hcs & Hret & Eseg & Hsp & Hpt & Hgl & Hgb).
  destruct c as [[a b cx d si di bp] sp s cc f x0 x3 x4 g].
  destruct c2 as [[a2 b2 cx2 d2 si2 di2 bp2] sp2 [sd2 se2 sf2 sg2 ss2] cc2 f2 x02 x32 x42 g2].
  cbn [gp esp cs efl cr0 cr3 cr4 gdt eax ebx ecx edx esi edi ebp] in *.
  assert (Ecs : m16 pm2 (sp - 24) = cc).
  { unfold m32 in Hcs. pose proof (m16_range pm2 Hpm (sp - 24)). pose proof (m16_range pm2 Hpm (sp - 24 + 2)). lia. }
  unfold back32. cpu_cbn. rewrite !Z.mul_0_r, !Z.add_0_l, !Eseg, Hsp, Hpt, Hgl, Hgb.
  change (2 ^ 20 + 2 ^ 17) with 1179648 in *. change (2 ^ 32) with 4294967296 in *.
  assert (U1 : u32 (sp - 28 + 8) = sp - 20) by (rewrite (wrap_small 32); change (2 ^ 32) with 4294967296; lia).
  assert (U2 : u32 (sp - 20 - 8) = sp - 28) by (rewrite (wrap_small 32); change (2 ^ 32) with 4294967296; lia).
  rewrite !U1, !U2. split; [done|]. replace (sp - 28 + 4) with (sp - 24) by lia. rewrite Ecs.
  unfold restore32. do 6 (rewrite pop32_eq by (cpu_cbn; change (2 ^ 32) with 4294967296; lia); cpu_cbn).
  assert (S1 : forall k j, sp - k + j = sp - (k - j)) by lia. 
  rewrite !S1. sums. rewrite Z.sub_0_r, Hb, Hsi, Hdi, Hbp, Hf. destruct g as [g1 g2']. cbn [fst snd] in *.
  rewrite (Z.mod_small g2') by done. rewrite (wrap_small 32) by (change (2 ^ 32) with 4294967296; lia).
  by replace (sp - -12) with (sp + 12) by lia.
Qed.
End rm16_call_spec.

(** What the code that is called must not touch: its caller's stack from the return address down,
    the three variables, and the pointer to the data segment. *)
Definition untouchable (S : rm16_syms) (c : cpu) (seg x : Z) : Prop :=
  in_range (esp c - 28) 32 x \/ in_range (16 * seg + sp32 S) 4 x \/ in_range (16 * seg + ptpd32 S) 4 x \/
  in_range (16 * seg + gdtr S) 6 x \/ in_range bda_ebda 2 x.

Lemma kept32_ext S c seg pm pm' :
  (forall x, untouchable S c seg x -> pm' x = pm x) -> kept32 S c seg pm -> kept32 S c seg pm'.
Proof.
  intros H (? & ? & ? & ? & ? & ? & ? & ? & ? & ? & ? & ?). unfold untouchable, in_range in H.
  unfold kept32. rewrite !(m32_ext pm pm'), !(m16_ext pm pm') by (intros i Hi; apply H; lia). by split_and!.
Qed.

(** The whole call. *)
Lemma rm16_call_spec S callee text c pm :
  syms_ok S -> cpu_ok c -> pm_ok pm -> 0x410 <= 16 * m16 pm bda_ebda ->
  0 <= text + rm_cs16 S -> text + rm_cs16 S + 2 <= 2 ^ 20 ->
  let seg := m16 pm bda_ebda in
  let '(c1, pm1) := rm16_entry S text c pm in
  let '(c2, pm2) := callee (m16 pm (esp c + 10)) (m16 pm (esp c + 8)) c1 pm1 in
  (pm_ok pm1 -> pm_ok pm2) -> (forall x, untouchable S c seg x -> pm2 x = pm1 x) ->
  (eax (gp c1) = eax (gp c) /\ ebx (gp c1) = m32 pm (esp c + 4) /\ ecx (gp c1) = ecx (gp c) /\ edx (gp c1) = edx (gp c) /\
   Z.land (cr0 c1) (Z.lor CR0_PG CR0_PE) = 0 /\ Z.land (cr4 c1) CR4_PAE = 0 /\ Z.land (efl c1) EFL_IF = 0 /\
   sg c1 = Segs seg seg 0 0 seg /\ esp c1 = stack16 S - 4 /\
   m16 pm1 (16 * seg + esp c1) = ret16 S /\ m16 pm1 (16 * seg + esp c1 + 2) = m16 pm (text + rm_cs16 S) /\
   forall x, ~ scratch S c seg x -> pm1 x = pm x) /\
  rm16_call S callee text c pm =
    Ok (m32 pm (esp c),
        Cpu (Regs (eax (gp c2)) (ebx (gp c)) (ecx (gp c2)) (edx (gp c2)) (esi (gp c)) (edi (gp c)) (ebp (gp c)))
          (esp c + 12) (Segs SEL_DS32 SEL_DS32 SEL_DS32 SEL_DS32 SEL_DS32) (cs c) (efl c)
          (Z.lor (cr0 c2) (Z.lor CR0_PG CR0_PE)) (cr3 c) (Z.lor (cr4 c2) CR4_PAE) (gdt c),
        pm2).
Proof.
  intros HS Hc Hpm Hseg Ht1 Ht2 seg. pose proof (rm16_entry_spec S HS text c pm Hc Hpm Hseg Ht1 Ht2) as He. fold seg in He.
  pose proof (m16_range pm Hpm bda_ebda) as Hsegr. fold seg in Hsegr.
  unfold rm16_call. destruct (rm16_entry S text c pm) as [c1 pm1]. destruct He as (-> & Hk & Hr1 & Hr2 & Hok & Hrest).
  cbn [gp sg cs efl cr0 cr4 esp edi].
  assert (Hfar : forall k, 8 <= k <= 10 -> m16 pm1 (esp c + k) = m16 pm (esp c + k)).
  { intros k Hk1. apply m16_ext. intros i Hi. apply Hrest. destruct Hc as [_ [He1 He2] _ _ _ _], HS as [? ? _ _].
    unfold scratch, in_range. change (2 ^ 20 + 2 ^ 17) with 1179648 in *. change (2 ^ 16) with 65536 in *. lia. }
  replace (esp c + 8 + 2) with (esp c + 10) by lia. rewrite !Hfar by lia.
  destruct (callee _ _ _ _) as [c2 pm2]. intros Hpm2 Hun. specialize (Hpm2 Hok).
  assert (Hland : forall a b, Z.land (Z.ldiff a b) b = 0).
  { clear. intros a b. apply Z.bits_inj'. intros i Hi. rewrite Z.land_spec, Z.ldiff_spec, Z.bits_0.
    by destruct (Z.testbit a i), (Z.testbit b i). }
  split.
  - cbn [eax ebx ecx edx]. split_and!; try done; try apply Hland.
    + replace (16 * seg + (stack16 S - 4)) with (16 * seg + stack16 S - 4) by lia. exact Hr1.
    + replace (16 * seg + (stack16 S - 4) + 2) with (16 * seg + stack16 S - 2) by lia. exact Hr2.
  - destruct (back_spec S c seg c2 pm2 Hc Hpm2 (kept32_ext S c seg pm1 pm2 Hun Hk)) as [E1 E2].
    assert (E3 : m32 pm2 (esp c) = m32 pm (esp c)).
    { etrans; [apply (m32_ext pm1 pm2); intros i Hi; apply Hun; left; unfold in_range; lia|].
      apply m32_ext. intros i Hi. apply Hrest. destruct Hc as [_ [He1 He2] _ _ _ _], HS as [? ? _ _].
      unfold scratch, in_range. change (2 ^ 20 + 2 ^ 17) with 1179648 in *. change (2 ^ 16) with 65536 in *. lia. }
    cbn zeta in E1, E2. by rewrite E1, Z.eqb_refl, E2, E3.
Qed.

(** C7: [rm16_call] enters the far address on its stack in real mode, with paging, interrupts and extended
    page tables off, on the 16-bit stack, with the registers it was given; and when that code
    returns and has left [untouchable] alone, [rm16_call] returns to its caller in protected mode,
    with the registers, the flags, the code segment, the page tables and the descriptors that were
    there before, its stack arguments popped, whatever the code did to the processor and to the rest
    of memory. *)
Theorem rm16_call_returns S callee text c pm :
  syms_ok S -> cpu_ok c -> pm_ok pm -> 0x410 <= 16 * m16 pm bda_ebda ->
  0 <= text + rm_cs16 S -> text + rm_cs16 S + 2 <= 2 ^ 20 ->
  let seg := m16 pm bda_ebda in
  let '(c1, pm1) := rm16_entry S text c pm in
  let '(c2, pm2) := callee (m16 pm (esp c + 10)) (m16 pm (esp c + 8)) c1 pm1 in
  (pm_ok pm1 -> pm_ok pm2) -> (forall x, untouchable S c seg x -> pm2 x = pm1 x) ->
  (eax (gp c1) = eax (gp c) /\ ebx (gp c1) = m32 pm (esp c + 4) /\ ecx (gp c1) = ecx (gp c) /\ edx (gp c1) = edx (gp c) /\
   Z.land (cr0 c1) (Z.lor CR0_PG CR0_PE) = 0 /\ Z.land (cr4 c1) CR4_PAE = 0 /\ Z.land (efl c1) EFL_IF = 0 /\
   sg c1 = Segs seg seg 0 0 seg /\ esp c1 = stack16 S - 4 /\
   m16 pm1 (16 * seg + esp c1) = ret16 S /\ m16 pm1 (16 * seg + esp c1 + 2) = m16 pm (text + rm_cs16 S) /\
   forall x, ~ scratch S c seg x -> pm1 x = pm x) /\
  rm16_call S callee text c pm =
    Ok (m32 pm (esp c),
        Cpu (Regs (eax (gp c2)) (ebx (gp c)) (ecx (gp c2)) (edx (gp c2)) (esi (gp c)) (edi (gp c)) (ebp (gp c)))
          (esp c + 12) (Segs SEL_DS32 SEL_DS32 SEL_DS32 SEL_DS32 SEL_DS32) (cs c) (efl c)
          (Z.lor (cr0 c2) (Z.lor CR0_PG CR0_PE)) (cr3 c) (Z.lor (cr4 c2) CR4_PAE) (gdt c),
        pm2).
Proof. apply rm16_call_spec. Qed.

(** A call of a far address with all zero registers; the code that is called turns paging structures and
    flags upside down, and returns. *)
Definition demo_syms : rm16_syms :=
  {| stack16 := 0x1000; sp32 := 0x1100; ptpd32 := 0x1104; gdtr := 0x1108; rm_cs16 := 0x20; ret16 := 0x70; ret32 := 0x301234 |}.

Definition demo_cpu : cpu :=
  Cpu (Regs 1 2 3 4 5 6 7) 0x400000 (Segs 16 16 16 16 16) 8 0x202 0x80000001 0x310000 0x20 (0x27, 0x302000).

Definition demo_pm : phys := store16 (store32 (fun _ => 0) 0x400000 0x301500) bda_ebda 0x9e00.

Definition demo_callee (seg off : Z) (c : cpu) (pm : phys) : cpu * phys :=
  (Cpu (Regs 9 9 9 9 9 9 9) 0 (Segs 1 2 3 4 5) 0 0 0 0xdead000 0 (0, 0), memset pm 0xb8000 4000).

Lemma rm16_call_returns_witness :
  exists c' pm', rm16_call demo_syms demo_callee 0x9000 demo_cpu demo_pm = Ok (0x301500, c', pm') /\
    gp c' = Regs 9 2 9 9 5 6 7 /\ esp c' = 0x40000c /\ cr3 c' = 0x310000 /\ gdt c' = (0x27, 0x302000).
Proof.
  assert (HS : syms_ok demo_syms) by (split; cbn; lia).
  assert (Hc : cpu_ok demo_cpu) by (split; [intros []; cbn; lia|cbn; lia..]).
  assert (Hpm : pm_ok demo_pm) by (do 2 apply store_ok; done).
  assert (Hseg : 0x410 <= 16 * m16 demo_pm bda_ebda) by (vm_compute; intros E; discriminate E).
  assert (Ht1 : 0 <= 0x9000 + rm_cs16 demo_syms) by (vm_compute; intros E; discriminate E).
  assert (Ht2 : 0x9000 + rm_cs16 demo_syms + 2 <= 2 ^ 20) by (vm_compute; intros E; discriminate E).
  pose proof (rm16_call_returns demo_syms demo_callee 0x9000 demo_cpu demo_pm HS Hc Hpm Hseg Ht1 Ht2) as H.
  cbv zeta in H. destruct (rm16_entry demo_syms 0x9000 demo_cpu demo_pm) as [c1 pm1]. cbn [demo_callee] in H.
  destruct H as [_ H].
  - intros Hok x. unfold memset. destruct (_ && _); [lia|apply Hok].
  - assert (Es : m16 demo_pm bda_ebda = 0x9e00) by (vm_compute; reflexivity). rewrite Es.
    intros x Hx. apply memset_out. unfold untouchable, in_range, bda_ebda in *. cbn in Hx. lia.
  - assert (Er : m32 demo_pm (esp demo_cpu) = 0x301500) by (vm_compute; reflexivity). rewrite Er in H.
    eexists _, _. split; [exact H|]. split_and!; reflexivity.
Defined.
