(* ===== verification/Start.v ===== *)
(** * The entry of stage 2 (src/stage2/start.asm), and the switch to paging (src/stage2/mem.c)

    [_start] is where the ELF file's entry point leads: it takes the stack and the descriptors of
    stage 2 in place of those of [RunStage2], and calls [stage2_main].  [enable_paging] is the end of
    [va_init].  The state is the processor of [Rm16Call] and memory.  The theorem says in what state
    the C code is entered; descriptors are decoded as the processor does it. *)

From S2P Require Import Prelude Util Bmem Bparm Rimg Phys X86 Rm16Call.

(** ** Segment descriptors *)

Definition seg_base (d : Z) : Z := d / 2 ^ 16 mod 2 ^ 24 + 2 ^ 24 * (d / 2 ^ 56).

(** The highest offset; bit 55 makes the unit 4 KiB. *)
Definition seg_limit (d : Z) : Z :=
  let l := d mod 2 ^ 16 + 2 ^ 16 * (d / 2 ^ 48 mod 16) in if Z.testbit d 55 then 4096 * l + 4095 else l.

(** Present, of ring 0 and not a system segment; and code that can be read, or data that can be written. *)
Definition seg_code (d : Z) : bool := d / 2 ^ 40 mod 256 =? 0x9a.
Definition seg_data (d : Z) : bool := d / 2 ^ 40 mod 256 =? 0x92.

(** Bit 54: operands, addresses and the stack pointer have 32 bits. *)
Definition seg_32 (d : Z) : bool := Z.testbit d 54.

(** The table at [gdt], whose entry 0 is not there: [SEL_CS32], [SEL_DS32], [SEL_CS16], [SEL_DS16_ZERO]. *)
Definition gdt_descs : list Z := [0x00cf9a000000ffff; 0x00cf92000000ffff; 0x008f9a000000ffff; 0x008f92000000ffff].

(** [gdt_end-gdt-1] *)
Definition gdt_limit : Z := 8 * (1 + Z.of_nat (length gdt_descs)) - 1.

(** What selector [sel] stands for, with the descriptor table [g] in memory. *)
Definition descriptor (g : Z * Z) (pm : phys) (sel : Z) : option Z :=
  if (8 <=? sel) && (sel + 7 <=? fst g) then Some (m64 pm (snd g + sel)) else None.

(** [or \[gdt_desc_cs16+2\], eax] on the descriptor as a number. *)
Definition fix_up (d a : Z) : Z := d mod 2 ^ 16 + 2 ^ 16 * Z.lor (d / 2 ^ 16 mod 2 ^ 32) a + 2 ^ 48 * (d / 2 ^ 48).

(** The four segments: flat 32-bit code and data, and 16-bit code and data from address 0 on. *)
Lemma gdt_decoded :
  (fun d => (seg_base d, seg_limit d, seg_code d, seg_data d, seg_32 d)) <$> gdt_descs =
  [(0, 2 ^ 32 - 1, true, false, true); (0, 2 ^ 32 - 1, false, true, true);
   (0, 2 ^ 32 - 1, true, false, false); (0, 2 ^ 32 - 1, false, true, false)].
Proof. vm_compute. reflexivity. Qed.

Lemma lor_low_byte a : 0 <= a < 2 ^ 24 -> Z.lor 0x9a000000 a = 0x9a000000 + a.
Proof.
  intros Ha. symmetry. rewrite <- Z.lxor_lor; [apply Z.add_nocarry_lxor|].
  all: apply Z.bits_inj'; intros n Hn; rewrite Z.land_spec, Z.bits_0; destruct (decide (n < 24)).
  1,3: replace (Z.testbit 0x9a000000 n) with false; [done|];
    symmetry; change 0x9a000000 with (Z.shiftl 0x9a 24); rewrite Z.shiftl_spec_low; [done|lia].
  all: rewrite andb_comm; rewrite <- (Z.mod_small a (2 ^ 24)) by done; rewrite Z.mod_pow2_bits_high by lia; done.
Qed.

(** The address of the 16-bit code becomes the base of its segment, and nothing else changes. *)
Lemma fix_up_base a :
  0 <= a < 2 ^ 24 ->
  let d := fix_up 0x008f9a000000ffff a in
  seg_base d = a /\ seg_limit d = 2 ^ 32 - 1 /\ seg_code d = true /\ seg_32 d = false.
Proof.
  intros Ha. unfold fix_up. change (0x008f9a000000ffff / 2 ^ 16 mod 2 ^ 32) with 0x9a000000.
  change (0x008f9a000000ffff mod 2 ^ 16) with 0xffff. change (0x008f9a000000ffff / 2 ^ 48) with 0x8f.
  rewrite lor_low_byte by done. cbv zeta. set (d := _ + _ + _).
  assert (E : d = 0x008f9a000000ffff + a * 2 ^ 16) by (unfold d; lia).
  assert (H : d / 2 ^ 40 = 0x8f9a).
  { symmetry. apply (Z.div_unique_pos _ _ _ (0xffff + a * 2 ^ 16)); [|rewrite E; lia].
    change (2 ^ 40) with (2 ^ 24 * 2 ^ 16). change (2 ^ 24) with 16777216 in *. change (2 ^ 16) with 65536. lia. }
  assert (H48 : d / 2 ^ 48 = 0x8f).
  { change (2 ^ 48) with (2 ^ 40 * 2 ^ 8). rewrite <- Z.div_div by lia. rewrite H. reflexivity. }
  assert (H16 : d / 2 ^ 16 = 0x8f9a000000 + a).
  { symmetry. apply (Z.div_unique_pos _ _ _ 0xffff); [lia|rewrite E; lia]. }
  unfold seg_base, seg_limit, seg_code, seg_32. split_and!.
  - rewrite H16. replace (0x8f9a000000 + a) with (a + 0x8f9a * 2 ^ 24) by lia. rewrite Z_mod_plus_full, Z.mod_small by done.
    change (2 ^ 56) with (2 ^ 48 * 2 ^ 8). rewrite <- Z.div_div by lia. rewrite H48. change (0x8f / 2 ^ 8) with 0. lia.
  - change 55 with (7 + 48). rewrite <- Z.shiftr_spec, Z.shiftr_div_pow2, H48 by lia.
    replace (d mod 2 ^ 16) with 0xffff; [done|].
    apply (Z.mod_unique_pos _ _ (0x8f9a000000 + a)); [lia|rewrite E; lia].
  - rewrite H. done.
  - change 54 with (6 + 48). rewrite <- Z.shiftr_spec, Z.shiftr_div_pow2, H48 by lia. done.
Qed.

(** ** [_start] *)

Definition EFL_DF : Z := 0x400.

Definition cld (c : cpu) : cpu := set_efl (Z.ldiff (efl c) EFL_DF) c.

(** What the linker decides: the top of the stack, the two operands of [lgdt] and [lidt], and the
    address after the call. *)
Record start_syms := { starting_stack : Z; gdtr_at : Z; idtrrm_at : Z; after_call : Z }.

(** The limit and the base at [a] in memory. *)
Definition pseudo_desc (pm : phys) (a : Z) : Z * Z := (m16 pm a, m32 pm (a + 2)).

(** Up to the call of [stage2_main], whose first argument is in [eax]; the table of interrupt
    vectors, the processor and memory. *)
Definition _start (L : start_syms) (c : cpu) (pm : phys) : (Z * Z) * cpu * phys :=
  let c := cld (cli c) in
  let c := set_esp (starting_stack L) c in
  let c := set_gdt (pseudo_desc pm (gdtr_at L)) c in
  let idt := pseudo_desc pm (idtrrm_at L) in
  let c := set_cs SEL_CS32 c in
  let c := set_gp EAX (with16 (eax (gp c)) SEL_DS32) c in
  let s := lo16 (eax (gp c)) in
  let c := set_sg GS s (set_sg FS s (set_sg SS s (set_sg ES s (set_sg DS s c)))) in
  let c := set_gp EAX (ebp (gp c)) c in
  let '(c, pm) := push32 (after_call L) (c, pm) in (idt, c, pm).

(** The file's read-only data and descriptors, as the ELF loader has put them into memory; the table,
    whose entry 0 would be at [g], is below 16 MiB, and the stack above base memory. *)
Record start_image (L : start_syms) (g : Z) (pm : phys) : Prop := {
  si_gdtr : pseudo_desc pm (gdtr_at L) = (gdt_limit, g);
  si_idtr : pseudo_desc pm (idtrrm_at L) = (0x100 * 4 - 1, 0);
  si_descs : forall i d, gdt_descs !! i = Some d -> m64 pm (g + 8 * (1 + Z.of_nat i)) = d;
  si_gdt : 0 <= g < 2 ^ 24;
  si_stack : 2 ^ 20 + 2 ^ 17 + 4 <= starting_stack L < 2 ^ 32 - 16;
  si_apart : starting_stack L <= g \/ g + 40 <= starting_stack L - 4;
  si_call : 0 <= after_call L < 2 ^ 32;
}.

(** ** Paging *)

Definition rd_cr0 (c : cpu) : Z := cr0 c.
Definition wr_cr0 (v : Z) (c : cpu) : cpu := set_cr0 v c.
Definition wr_cr3 (v : Z) (c : cpu) : cpu := set_cr3 v c.
Definition rd_cr4 (c : cpu) : Z := cr4 c.
Definition wr_cr4 (v : Z) (c : cpu) : cpu := set_cr4 v c.

(** The end of [va_init]. *)
Definition enable_paging (pdpt : Z) (c : cpu) : cpu :=
  let c := wr_cr4 (Z.lor (rd_cr4 c) CR4_PAE) c in
  let c := wr_cr3 (u32 pdpt) c in
  wr_cr0 (Z.lor (rd_cr0 c) CR0_PG) c.

(** ** The state that C code runs in *)

Lemma descriptor_at L g pm i d :
  start_image L g pm -> gdt_descs !! i = Some d -> descriptor (gdt_limit, g) pm (8 * (1 + Z.of_nat i)) = Some d.
Proof.
  intros Hi E. pose proof (lookup_lt_Some _ _ _ E) as Hl. cbn [gdt_descs length] in Hl. unfold descriptor. cbn [fst snd].
  rewrite (si_descs _ _ _ Hi i d E). change gdt_limit with 39.
  destruct (Z.leb_spec 8 (8 * (1 + Z.of_nat i))); [|lia]. by destruct (Z.leb_spec (8 * (1 + Z.of_nat i) + 7) 39); [|lia].
Qed.

Lemma land_ldiff_0 a b : Z.land (Z.ldiff a b) b = 0.
Proof.
  apply Z.bits_inj'. intros i Hi. rewrite Z.land_spec, Z.ldiff_spec, Z.bits_0. by destruct (Z.testbit a i), (Z.testbit b i).
Qed.

Lemma ldiff_range n a b : 0 <= n -> 0 <= a < 2 ^ n -> 0 <= Z.ldiff a b < 2 ^ n.
Proof.
  intros Hn Ha. split; [apply Z.ldiff_nonneg; lia|].
  assert (E : Z.ldiff a b = Z.land (Z.ldiff a b) (Z.ones n)).
  { apply Z.bits_inj'. intros i Hi. rewrite Z.land_spec, Z.ldiff_spec, Z.testbit_ones by lia.
    destruct (Z.ltb_spec i n); destruct (Z.leb_spec 0 i); try lia; [by rewrite andb_true_r|].
    rewrite <- (Z.mod_small a (2 ^ n)) by done. by rewrite Z.mod_pow2_bits_high by lia. }
  rewrite E, Z.land_ones by done. by apply Z.mod_pos_bound, Z.pow_pos_nonneg.
Qed.

(** A flat segment of the given kind. *)
Definition flat (code big : bool) (d : Z) : Prop :=
  seg_base d = 0 /\ seg_limit d = 2 ^ 32 - 1 /\ seg_code d = code /\ seg_data d = negb code /\ seg_32 d = big.

(** The segments and the descriptors of stage 2. *)
Record segments_ok (c : cpu) (pm : phys) : Prop := {
  sk_data : forall s, exists d, descriptor (gdt c) pm (get_seg s (sg c)) = Some d /\ flat false true d;
  sk_code : exists d, descriptor (gdt c) pm (cs c) = Some d /\ flat true true d;
  sk_code16 : exists d, descriptor (gdt c) pm SEL_CS16 = Some d /\ flat true false d;
  sk_data16 : exists d, descriptor (gdt c) pm SEL_DS16_ZERO = Some d /\ flat false false d;
}.

Lemma start_descs_frame L g pm v :
  start_image L g pm -> forall i d, gdt_descs !! i = Some d ->
  descriptor (gdt_limit, g) (store32 pm (starting_stack L - 4) v) (8 * (1 + Z.of_nat i)) = Some d.
Proof.
  intros Hi i d E. pose proof (lookup_lt_Some _ _ _ E) as Hl. cbn [gdt_descs length] in Hl.
  rewrite <- (descriptor_at L g pm i d Hi E). unfold descriptor. cbn [fst snd].
  destruct (_ && _); [|done]. f_equal. apply m64_ext. intros j Hj. apply store32_out.
  pose proof (si_apart _ _ _ Hi). unfold in_range. lia.
Qed.

Lemma start_spec L g c pm :
  start_image L g pm -> regs_ok (gp c) -> 0 <= efl c < 2 ^ 32 -> 0 <= cr3 c < 2 ^ 32 ->
  _start L c pm =
    ((0x3ff, 0),
     Cpu (set_reg EAX (ebp (gp c)) (gp c)) (starting_stack L - 4) (Segs SEL_DS32 SEL_DS32 SEL_DS32 SEL_DS32 SEL_DS32) SEL_CS32
       (Z.ldiff (Z.ldiff (efl c) EFL_IF) EFL_DF) (cr0 c) (cr3 c) (cr4 c) (gdt_limit, g),
     store32 pm (starting_stack L - 4) (after_call L)).
Proof.
  intros Hi Hg Hf H3. destruct c as [[a b cx d si di bp] sp [sd se sf sg0 ss0] cc f x0 x3 x4 g0].
  pose proof (si_stack _ _ _ Hi) as Hs. change (2 ^ 32 - 16) with 4294967280 in Hs.
  unfold _start, cld. rewrite (si_gdtr _ _ _ Hi), (si_idtr _ _ _ Hi).
  cbv beta iota zeta delta [gp esp sg cs efl cr0 cr3 cr4 gdt set_gp set_esp set_sg set_cs set_efl set_gdt cli
     set_reg set_seg eax ebp].
  rewrite lo16_with16 by done. rewrite push32_eq by (cbn [esp]; lia). done.
Qed.

(** C5: [_start] enters [stage2_main] with the list of boot parameters that [run_stage2] passed on,
    on the stack of stage 2 and with nothing else changed in memory; every data segment is flat, the
    code segment is that of 32-bit code, and the two that [rm16_call] leaves protected mode through
    are of 16 bits; interrupts are off, string instructions go up, and the table of interrupt
    vectors is the one at address 0 that [rm16_init] fills. *)
Theorem start_ready L g c pm :
  start_image L g pm -> regs_ok (gp c) -> 0 <= efl c < 2 ^ 32 -> 0 <= cr3 c < 2 ^ 32 ->
  let '(idt, c', pm') := _start L c pm in
  idt = (0x100 * 4 - 1, 0) /\ eax (gp c') = ebp (gp c) /\ esp c' = starting_stack L - 4 /\
  m32 pm' (esp c') = after_call L /\ segments_ok c' pm' /\
  Z.land (efl c') EFL_IF = 0 /\ Z.land (efl c') EFL_DF = 0 /\ cpu_ok c' /\
  cr0 c' = cr0 c /\ cr3 c' = cr3 c /\ cr4 c' = cr4 c /\
  forall x, ~ in_range (starting_stack L - 4) 4 x -> pm' x = pm x.
Proof.
  intros Hi Hg Hf H3. rewrite (start_spec L g c pm Hi Hg Hf H3). cbn [gp esp sg cs efl cr0 cr3 cr4 gdt].
  pose proof (start_descs_frame L g pm (after_call L) Hi) as Hd.
  pose proof (si_stack _ _ _ Hi) as Hs. pose proof (si_gdt _ _ _ Hi) as Hgr.
  split_and!; try done.
  - by destruct (gp c).
  - apply m32_store32, (si_call _ _ _ Hi).
  - split; cbn [gdt sg cs].
    + intros s. exists 0x00cf92000000ffff. split; [destruct s; exact (Hd 1%nat _ eq_refl)|by vm_compute].
    + exists 0x00cf9a000000ffff. split; [exact (Hd 0%nat _ eq_refl)|by vm_compute].
    + exists 0x008f9a000000ffff. split; [exact (Hd 2%nat _ eq_refl)|by vm_compute].
    + exists 0x008f92000000ffff. split; [exact (Hd 3%nat _ eq_refl)|by vm_compute].
  - apply Z.bits_inj'. intros i Hb. rewrite Z.land_spec, !Z.ldiff_spec, Z.bits_0.
    by destruct (Z.testbit (efl c) i), (Z.testbit EFL_IF i), (Z.testbit EFL_DF i).
  - apply land_ldiff_0.
  - split; cbn [gp esp cs efl cr3 gdt].
    + apply set_reg_ok; [exact Hg|]. exact (Hg EBP).
    + change (2 ^ 32 - 16) with 4294967280 in Hs. change (2 ^ 32) with 4294967296. lia.
    + done.
    + by apply ldiff_range, ldiff_range.
    + done.
    + done.
  - intros x Hx. apply store32_out. exact Hx.
Qed.

(** ** A concrete image *)

Definition demo_start : start_syms :=
  {| starting_stack := 0x310000; gdtr_at := 0x303000; idtrrm_at := 0x303006; after_call := 0x301040 |}.

Definition demo_start_mem : phys :=
  write_bytes (write_bytes (fun _ => 0) 0x303000 (enc 2 gdt_limit ++ enc 4 0x302000 ++ enc 2 0x3ff ++ enc 4 0))
    0x302008 (mjoin (enc 8 <$> gdt_descs)).

Lemma demo_start_image : start_image demo_start 0x302000 demo_start_mem.
Proof.
  split; [vm_compute; reflexivity|vm_compute; reflexivity| |done|done|right; done|done].
  intros i d E. assert (Hl : (i < 4)%nat) by exact (lookup_lt_Some _ _ _ E).
  do 4 (destruct i as [|i]; [injection E as <-; vm_compute; reflexivity|]). lia.
Qed.

Definition demo_start_cpu : cpu :=
  Cpu (Regs 0xdead 1 2 3 4 5 0x9160) 0x300ffc (Segs 0x10 0x10 0x10 0x10 0x10) 8 0x602 1 0 0 (0x17, 0x300048).

Lemma start_ready_witness :
  exists idt c pm, _start demo_start demo_start_cpu demo_start_mem = (idt, c, pm) /\ eax (gp c) = 0x9160 /\
    esp c = 0x30fffc /\ segments_ok c pm /\ m32 pm (esp c) = 0x301040.
Proof.
  pose proof (start_ready demo_start 0x302000 demo_start_cpu demo_start_mem demo_start_image
    ltac:(intros []; cbn; lia) ltac:(done) ltac:(done)) as H.
  destruct (_start _ _ _) as [[idt c] pm]. destruct H as (_ & H1 & H2 & H3 & H4 & _). exists idt, c, pm. done.
Defined.
