(* ===== verification/Clib.v ===== *)
(** * Copying memory in stage 2: src/stage2/clib.asm

    [memcpy] and [memmove] are one routine there: it copies upwards or downwards, by double words
    and then by bytes, with the processor's string instructions.  The theorem is that the areas may
    overlap: what arrives is what was there, which is what [Phys.memcpy] says at once. *)

From S2P Require Import Prelude Util Bmem Bparm Rimg Phys.

(** [rep movsb] ([w] is 1) and [rep movsd] (4): [ecx] times an element goes from [esi] to [edi], and
    both move on by its size, downwards when the direction flag is set. *)
Fixpoint rep_movs (w : Z) (df : bool) (ecx : nat) (edi esi : Z) (pm : phys) : Z * Z * phys :=
  match ecx with
  | O => (edi, esi, pm)
  | S ecx =>
      let d := if df then - w else w in
      rep_movs w df ecx (u32 (edi + d)) (u32 (esi + d)) (write_bytes pm edi (region pm esi w))
  end.

(** From the label [.finish] on; [edx] is the number of bytes. *)
Definition finish (df : bool) (edi esi edx : Z) (pm : phys) : phys :=
  let '(_, _, pm) := rep_movs 1 df (Z.to_nat (Z.land (u8 edx) 3)) edi esi pm in pm.

(** Returns [eax], the direction flag and memory; the flag is [df] before. *)
Definition memmove (eax edx ecx : Z) (df : bool) (pm : phys) : Z * bool * phys :=
  let edi := eax in
  let esi := edx in
  if edi >? esi then
    let edi := u32 (edi + ecx - 4) in
    let esi := u32 (esi + ecx - 4) in
    let edx := ecx in
    let '(edi, esi, pm) := rep_movs 4 true (Z.to_nat (Z.shiftr ecx 2)) edi esi pm in
    (eax, false, finish true (u32 (edi + 3)) (u32 (esi + 3)) edx pm)
  else if edi =? esi then (eax, df, pm)
  else
    let edx := ecx in
    let '(edi, esi, pm) := rep_movs 4 df (Z.to_nat (Z.shiftr ecx 2)) edi esi pm in
    (eax, false, finish df edi esi edx pm).

(** ** One element *)

(** Memory [pm] with the [n] bytes at [src] copied to [dst]. *)
Definition copied (pm : phys) (dst src n : Z) (pm' : phys) : Prop := forall x, pm' x = memcpy pm dst src n x.

Lemma memcpy_in pm dst src n x : in_range dst n x -> memcpy pm dst src n x = pm (x - dst + src).
Proof. intros Hx. unfold memcpy, in_range in *. destruct (Z.leb_spec dst x), (Z.ltb_spec x (dst + n)); try lia. done. Qed.

Lemma memcpy_out pm dst src n x : ~ in_range dst n x -> memcpy pm dst src n x = pm x.
Proof. intros Hx. unfold memcpy, in_range in *. destruct (Z.leb_spec dst x), (Z.ltb_spec x (dst + n)); try lia; done. Qed.

Lemma copied_0 pm dst src : copied pm dst src 0 pm.
Proof. intros x. symmetry. apply memcpy_out. unfold in_range. lia. Qed.

(** An element is read from where nothing has been copied to, so it joins what has been copied. *)
Lemma copied_more pm dst src n pm' a k w :
  copied pm dst src n pm' -> 0 <= w -> 0 <= n ->
  (forall i, 0 <= i < w -> ~ in_range dst n (a + (src - dst) + i)) ->
  (a = dst + n /\ k = dst \/ a = dst - w /\ k = a) ->
  copied pm k (k + (src - dst)) (n + w) (write_bytes pm' a (region pm' (a + (src - dst)) w)).
Proof.
  intros Hc Hw Hn Hsep Hak x. pose proof (region_len pm' (a + (src - dst)) w Hw) as Hlen.
  destruct (decide (a <= x < a + w)) as [Hx|Hx].
  - rewrite write_bytes_in by (rewrite Hlen; done). rewrite le8_region by lia.
    rewrite memcpy_in by (unfold in_range; lia). rewrite Hc, memcpy_out by (apply Hsep; lia). f_equal. lia.
  - rewrite write_bytes_out by (rewrite Hlen; done). rewrite Hc.
    destruct (decide (in_range dst n x)) as [Hi|Hi].
    + rewrite !memcpy_in by (unfold in_range in *; lia). f_equal. lia.
    + by rewrite !memcpy_out by (unfold in_range in *; lia).
Qed.

(** ** Upwards *)

Lemma u32_back x : u32 (u32 (x - 4) + 3) = u32 (x - 1).
Proof. unfold wrap. rewrite Zplus_mod_idemp_l. f_equal. lia. Qed.

Section copy.
Context (pm : phys) (dst src n : Z).
Hypothesis bounds : 0 <= dst < 2 ^ 32 /\ 0 <= src < 2 ^ 32 /\ 0 <= n /\ dst + n <= 2 ^ 32 /\ src + n <= 2 ^ 32.

Lemma rep_up w k : 0 < w -> dst < src -> forall m pm1,
  copied pm dst src m pm1 -> 0 <= m -> m + w * Z.of_nat k <= n ->
  let '(edi, esi, pm2) := rep_movs w false k (u32 (dst + m)) (u32 (src + m)) pm1 in
  edi = u32 (dst + (m + w * Z.of_nat k)) /\ esi = u32 (src + (m + w * Z.of_nat k)) /\
  copied pm dst src (m + w * Z.of_nat k) pm2.
Proof.
  intros Hw Hlt. induction k as [|k IH]; intros m pm1 Hc Hm Hn; cbn [rep_movs].
  { change (Z.of_nat 0) with 0. rewrite Z.mul_0_r, Z.add_0_r. done. }
  rewrite !(wrap_small 32 (_ + m)) by lia.
  pose proof (copied_more pm dst src m pm1 (dst + m) dst w Hc ltac:(lia) Hm ltac:(unfold in_range; lia)
    ltac:(left; done)) as Hc2.
  replace (dst + (src - dst)) with src in Hc2 by lia. replace (dst + m + (src - dst)) with (src + m) in Hc2 by lia.
  specialize (IH (m + w) _ Hc2 ltac:(lia) ltac:(lia)). rewrite !Z.add_assoc in IH.
  replace (m + w + w * Z.of_nat k) with (m + w * Z.of_nat (S k)) in IH by lia.
  destruct (rep_movs _ _ _ _ _ _) as [[edi esi] pm2]. rewrite !Z.add_assoc.
  replace (dst + m + w + w * Z.of_nat k) with (dst + m + w * Z.of_nat (S k)) in IH by lia.
  replace (src + m + w + w * Z.of_nat k) with (src + m + w * Z.of_nat (S k)) in IH by lia. done.
Qed.

(** ** Downwards *)

Lemma rep_down w k : 0 < w -> src < dst -> forall m pm1,
  copied pm (dst + m) (src + m) (n - m) pm1 -> m <= n -> w * Z.of_nat k <= m ->
  let '(edi, esi, pm2) := rep_movs w true k (u32 (dst + m - w)) (u32 (src + m - w)) pm1 in
  edi = u32 (dst + (m - w * Z.of_nat k) - w) /\ esi = u32 (src + (m - w * Z.of_nat k) - w) /\
  copied pm (dst + (m - w * Z.of_nat k)) (src + (m - w * Z.of_nat k)) (n - (m - w * Z.of_nat k)) pm2.
Proof.
  intros Hw Hlt. induction k as [|k IH]; intros m pm1 Hc Hm Hn; cbn [rep_movs].
  { change (Z.of_nat 0) with 0. rewrite Z.mul_0_r, Z.sub_0_r. done. }
  rewrite !(wrap_small 32 (_ + m - w)) by lia.
  pose proof (copied_more pm (dst + m) (src + m) (n - m) pm1 (dst + m - w) (dst + m - w) w Hc ltac:(lia) ltac:(lia)
    ltac:(unfold in_range; lia) ltac:(right; done)) as Hc2.
  replace (dst + m - w + (src + m - (dst + m))) with (src + m - w) in Hc2 by lia.
  replace (n - m + w) with (n - (m - w)) in Hc2 by lia.
  replace (dst + m - w) with (dst + (m - w)) in Hc2 by lia. replace (src + m - w) with (src + (m - w)) in Hc2 by lia.
  specialize (IH (m - w) _ Hc2 ltac:(lia) ltac:(lia)).
  replace (m - w - w * Z.of_nat k) with (m - w * Z.of_nat (S k)) in IH by lia.
  replace (dst + m - w) with (dst + (m - w)) by lia. replace (src + m - w) with (src + (m - w)) by lia. done.
Qed.

Lemma count_split : 4 * (n / 4) + Z.land (u8 n) 3 = n.
Proof.
  destruct bounds as (_ & _ & Hn & _). change 3 with (Z.ones 2). rewrite Z.land_ones by done. unfold wrap.
  change (2 ^ 2) with 4. change (2 ^ 8) with 256. rewrite Z.mod_mod_divide by (exists 64; done).
  pose proof (Z.div_mod n 4 ltac:(lia)). lia.
Qed.

(** The direction flag is clear when C code calls, and clear again when it is returned to. *)
Lemma memmove_spec :
  let '(eax, df, pm') := memmove dst src n false pm in eax = dst /\ df = false /\ copied pm dst src n pm'.
Proof.
  pose proof count_split as Hs. assert (H3 : 0 <= Z.land (u8 n) 3) by (apply Z.land_nonneg; lia).
  destruct bounds as (Hd & Hsr & Hn & Hd2 & Hs2). unfold memmove.
  assert (Hq : Z.of_nat (Z.to_nat (Z.shiftr n 2)) = n / 4)
    by (rewrite Z.shiftr_div_pow2, Z2Nat.id by (done || apply Z.div_pos; lia); done).
  assert (Hq0 : 0 <= n / 4) by (apply Z.div_pos; lia).
  rewrite Z.gtb_ltb. destruct (Z.ltb_spec src dst) as [Hlt|Hge].
  - pose proof (rep_down 4 (Z.to_nat (Z.shiftr n 2)) eq_refl Hlt n pm) as Hr.
    rewrite Hq in Hr. unfold finish. set (q := Z.to_nat (Z.shiftr n 2)) in *.
    assert (H0 : copied pm (dst + n) (src + n) (n - n) pm) by (rewrite Z.sub_diag; apply copied_0).
    specialize (Hr H0 ltac:(lia) ltac:(lia)).
    destruct (rep_movs 4 true q _ _ pm) as [[edi esi] pm2]. destruct Hr as (-> & -> & Hc).
    pose proof (rep_down 1 (Z.to_nat (Z.land (u8 n) 3)) eq_refl Hlt (n - 4 * (n / 4)) pm2 Hc ltac:(lia) ltac:(lia)) as Hr.
    rewrite !u32_back.
    destruct (rep_movs 1 true _ _ _ pm2) as [[edi' esi'] pm3]. destruct Hr as (_ & _ & Hc3).
    split_and!; [done..|]. rewrite Z2Nat.id in Hc3 by done.
    replace (n - 4 * (n / 4) - 1 * Z.land (u8 n) 3) with 0 in Hc3 by lia. by rewrite !Z.add_0_r, Z.sub_0_r in Hc3.
  - destruct (Z.eqb_spec dst src) as [->|Hne].
    { split_and!; [done..|]. intros x. unfold memcpy. replace (x - src + src) with x by lia. by destruct (_ && _). }
    pose proof (rep_up 4 (Z.to_nat (Z.shiftr n 2)) eq_refl ltac:(lia) 0 pm (copied_0 _ _ _) ltac:(lia)) as Hr.
    rewrite Hq in Hr. specialize (Hr ltac:(lia)). unfold finish. set (q := Z.to_nat (Z.shiftr n 2)) in *.
    rewrite !Z.add_0_r, !Z.add_0_l, (wrap_small 32 dst), (wrap_small 32 src) in Hr by lia.
    destruct (rep_movs 4 false q _ _ pm) as [[edi esi] pm2]. destruct Hr as (-> & -> & Hc).
    pose proof (rep_up 1 (Z.to_nat (Z.land (u8 n) 3)) eq_refl ltac:(lia) (4 * (n / 4)) pm2 Hc ltac:(lia) ltac:(lia)) as Hr.
    destruct (rep_movs 1 false _ _ _ pm2) as [[edi' esi'] pm3]. destruct Hr as (_ & _ & Hc3).
    split_and!; [done..|]. rewrite Z2Nat.id in Hc3 by done.
    by replace (4 * (n / 4) + 1 * Z.land (u8 n) 3) with n in Hc3 by lia.
Qed.
End copy.

(** C28: [memmove] does what [memcpy] of the memory model does at once: every byte of the destination
    gets what the source held, overlapping or not, and no other byte changes.  It returns its first
    argument, with the direction flag clear as it was. *)
Theorem memmove_is_memcpy pm dst src n :
  0 <= dst < 2 ^ 32 -> 0 <= src < 2 ^ 32 -> 0 <= n -> dst + n <= 2 ^ 32 -> src + n <= 2 ^ 32 ->
  let '(eax, df, pm') := memmove dst src n false pm in
  eax = dst /\ df = false /\ forall x, pm' x = memcpy pm dst src n x.
Proof. intros. by apply memmove_spec. Qed.

(** Eleven bytes move up by two: the areas overlap, and the copy starts from the end. *)
Lemma memmove_is_memcpy_witness :
  let '(eax, df, pm') := memmove 0x1002 0x1000 11 false (fun x => x mod 256) in
  eax = 0x1002 /\ df = false /\ region pm' 0x1000 15 = [0; 1; 0; 1; 2; 3; 4; 5; 6; 7; 8; 9; 10; 13; 14].
Proof.
  pose proof (memmove_is_memcpy (fun x => x mod 256) 0x1002 0x1000 11 ltac:(done) ltac:(done) ltac:(done)
    ltac:(done) ltac:(done)) as H.
  destruct (memmove 0x1002 0x1000 11 false (fun x => x mod 256)) as [[eax df] pm'].
  destruct H as (-> & -> & Hc). split_and!; [reflexivity..|].
  etrans; [apply (region_ext (memcpy (fun x => x mod 256) 0x1002 0x1000 11)); intros i _; apply Hc|].
  vm_compute. reflexivity.
Defined.
