(* ===== verification/Time.v ===== *)
(** * The clock: src/stage2/16/time.asm

    [time_code] is the file's code: the handler of the timer interrupt, [irq0], and that of
    int 0x1a.  [clock_of] is the clock the BIOS data area holds: the ticks since midnight and the
    count of midnights passed. *)

From S2P Require Import Prelude Util Bmem Bparm Rimg Phys X86.

(** [bda.timer] and [bda.timer_ovf]; with [ds] zero their offsets are their addresses. *)
Definition timer : Z := 0x46c.
Definition timer_ovf : Z := 0x470.
Definition ticks_per_day : Z := 0x1800b0.

Definition PIC1_CMD : Z := 0x20.
Definition OCW2_EOI : Z := 0x20.
Definition PORT_CMOS_IDX : Z := 0x70.
Definition PORT_CMOS_DATA : Z := 0x71.
Definition PORT_DUMMY : Z := 0x80.
Definition CMOS_RTC_SEC : Z := 0x00.
Definition CMOS_RTC_MIN : Z := 0x02.
Definition CMOS_RTC_HR : Z := 0x04.
Definition CMOS_RTC_STA_A : Z := 0x0a.
Definition CMOS_RTC_STA_B : Z := 0x0b.
Definition CMOS_RTC_STA_D : Z := 0x0d.
Definition CMOS_DIAG : Z := 0x0e.
Definition CMOS_NMI_DIS : Z := 0x80.
Definition RTC_A_UIP : Z := 0x80.
Definition RTC_B_DST : Z := 0x01.
Definition DIAG_BAD : Z := Z.lor 0x80 (Z.lor 0x40 0x04).

Definition irq0_code : list instr := [
  Lbl "irq0";
    push DS; push EAX; xor AX AX; mov DS AX;
    mov EAX (Mem Dword DS None timer); inc EAX; cmp EAX ticks_per_day; jcc c_ae "irq0.ovf";
  Lbl "irq0.cont";
    mov (Mem Dword DS None timer) EAX; int 0x1c; mov AL OCW2_EOI; out PIC1_CMD AL;
    pop EAX; pop DS; iret;
  Lbl "irq0.ovf";
    inc (Mem Byte DS None timer_ovf); xor EAX EAX; jmp "irq0.cont" ].

Definition int1a_code : list instr := [
  Lbl "isr16_0x1a";
    cmp AH 3; jcc c_ae ".not_time_fn"; push SI; movzx SI AH; shl SI 1;
    jmp_table ESI [".fn0x00"; ".fn0x01"; ".fn0x02"];
  Lbl ".fn0x00";
    push DS; xor DX DX; mov DS DX; mov CX (Mem Word DS None (timer + 2)); mov DX (Mem Word DS None timer);
    mov AL 0; xchg AL (Mem Byte DS None timer_ovf); pop DS;
  Lbl ".iret";
    pop SI; iret;
  Lbl ".fn0x01";
    cmp CX 0x18; jcc c_a ".iret"; jcc c_b ".ok0x01"; cmp DX 0x00b0; jcc c_ae ".iret";
  Lbl ".ok0x01";
    push DS; push 0; pop DS; mov (Mem Word DS None (timer + 2)) CX; mov (Mem Word DS None timer) DX;
    pop DS; pop SI; iret;
  Lbl ".fn0x02";
    call "is_rtc_ok"; jcc c_nz ".error"; push AX; push BX; push SI; xor SI SI;
  Lbl ".wait0x02";
    call "read_rtc"; xchg CX AX; mov BX DX; call "read_rtc"; cmp AX CX; jcc c_nz ".wait0x02";
    cmp BX DX; jcc c_z ".ok0x02";
  Lbl ".retry0x02";
    dec SI; jcc c_nz ".wait0x02"; pop BX; pop AX;
  Lbl ".error";
    pop SI; stc; jmp ".done";
  Lbl ".ok0x02";
    pop BX; pop AX; clc;
  Lbl ".done";
    sti; retf 2;
  Lbl ".not_time_fn";
    stc; jmp ".done" ].

Definition rtc_code : list instr := [
  Lbl "is_rtc_ok";
    push AX; mov AL CMOS_DIAG; call "read_cmos"; test AL DIAG_BAD; pop AX; ret;
  Lbl "read_rtc";
    push AX; push CX; xor CX CX;
  Lbl "read_rtc.wait_for_no_upd";
    mov AL CMOS_RTC_STA_A; call "read_cmos"; test AL RTC_A_UIP; loopnz "read_rtc.wait_for_no_upd";
    jcc c_nz "read_rtc.error"; pop CX; mov AL CMOS_RTC_STA_B; call "read_cmos"; and_ AL RTC_B_DST; xchg DX AX;
    mov AL CMOS_RTC_SEC; call "read_cmos"; mov DH AL; mov AL CMOS_RTC_MIN; call "read_cmos"; xchg CX AX;
    mov AL CMOS_RTC_HR; call "read_cmos"; mov CH AL; pop AX; clc; ret;
  Lbl "read_rtc.error";
    pop CX; pop AX; stc; ret;
  Lbl "read_cmos";
    or_ AL CMOS_NMI_DIS; out PORT_CMOS_IDX AL; out PORT_DUMMY AL; inp AL PORT_CMOS_DATA; push AX;
    mov AL CMOS_RTC_STA_D; out PORT_CMOS_IDX AL; out PORT_DUMMY AL; pop AX; ret ].

Definition time_code : list instr := irq0_code ++ int1a_code ++ rtc_code.

(** ** The clock *)

Record clock := Clock { ticks : Z; days : Z }.

Definition clock_of (pm : phys) : clock := Clock (m32 pm timer) (pm timer_ovf).

(** One timer tick: past the last one of a day midnight is counted and the ticks start again. *)
Definition tick (c : clock) : clock :=
  let t := u32 (ticks c + 1) in if t <? ticks_per_day then Clock t (days c) else Clock 0 (u8 (days c + 1)).

Definition same_but_clock (pm pm' : phys) : Prop := forall x, ~ in_range timer 5 x -> pm' x = pm x.

Lemma store_clock pm t :
  pm_ok pm -> 0 <= t < 2 ^ 32 ->
  clock_of (store32 pm timer t) = Clock t (pm timer_ovf) /\ same_but_clock pm (store32 pm timer t) /\
  pm_ok (store32 pm timer t).
Proof.
  intros Hpm Ht. unfold clock_of. rewrite m32_store32 by done. rewrite store32_out.
  2: unfold in_range, timer, timer_ovf; lia.
  split_and!; [done| |by apply store_ok]. intros x Hx. apply store32_out. unfold in_range in *. lia.
Qed.

Lemma store_midnight pm d :
  pm_ok pm -> 0 <= d < 256 ->
  let pm' := write_bytes pm timer_ovf [d] in
  pm_ok pm' /\ m32 pm' timer = m32 pm timer /\ pm' timer_ovf = d /\ same_but_clock pm pm'.
Proof.
  intros Hpm Hd. cbn zeta.
  assert (Hout : forall x, x <> timer_ovf -> write_bytes pm timer_ovf [d] x = pm x).
  { intros x Hx. apply write_bytes_out. unfold zlen. cbn [length]. lia. }
  split_and!.
  - apply write_bytes_ok; [done|]. by apply Forall_singleton.
  - apply m32_ext. intros i Hi. apply Hout. unfold timer, timer_ovf. lia.
  - apply write_bytes_first.
  - intros x Hx. apply Hout. intros ->. apply Hx. unfold in_range, timer, timer_ovf. lia.
Qed.

(** ** The timer interrupt *)

Section irq0.
Context {D : Type} (outb : Z -> Z -> D -> D) (inb : Z -> D -> Z * D) (soft : Z -> mach D -> mach D).

Implicit Types m : mach D.

Hypothesis soft_keeps : forall m, keeps m (soft 0x1c m).

(** What the handler does from the count of ticks [t] on: it stores that, and leaves. *)
Definition tick_stored (t : Z) m m' : Prop :=
  exists m1, mem m1 = store32 (mem m) timer t /\ dev m1 = dev m /\
    mem m' = mem (soft 0x1c m1) /\ dev m' = outb PIC1_CMD OCW2_EOI (dev (soft 0x1c m1)).

(** At the label [.cont] the new count of ticks is in [eax]. *)
Lemma irq0_cont m t a s ip c fl l :
  pc m = entry time_code "irq0.cont" -> ds (sgr m) = 0 -> eax (gpr m) = t ->
  stk m = a mod 2 ^ 16 :: a / 2 ^ 16 :: s :: ip :: c :: fl :: l ->
  exists m', leaves outb inb soft time_code m (Iret ip c fl) m' /\ tick_stored t m m' /\
    stk m' = l /\ gpr m' = set_reg EAX a (gpr m) /\ sgr m' = set_seg DS s (sgr m).
Proof.
  destruct m as [[x b ecx d si di bp] [sd se sf sg ss] cy z pm stk0 dv p]. cbn [pc sgr ds eax gpr stk].
  intros -> -> -> ->. locate. eexists. split.
  - next. next. next.
    match goal with |- leaves _ _ _ _ (soft 28 ?m) _ _ => rewrite (keeps_mach _ _ (soft_keeps m)) end.
    exec_cbn. next. next. next. next. next.
  - split_and!; [eexists; split_and!; [| |reflexivity..]; reflexivity|reflexivity..].
Qed.

Lemma irq0_spec m ip c fl :
  pm_ok (mem m) ->
  exists m1 m', leaves outb inb soft time_code (interrupted time_code "irq0" ip c fl m) (Iret ip c fl) m' /\
    gpr m' = gpr m /\ sgr m' = sgr m /\ stk m' = stk m /\
    clock_of (mem m1) = tick (clock_of (mem m)) /\ same_but_clock (mem m) (mem m1) /\ pm_ok (mem m1) /\
    dev m1 = dev m /\ mem m' = mem (soft 0x1c m1) /\ dev m' = outb PIC1_CMD OCW2_EOI (dev (soft 0x1c m1)).
Proof.
  intros Hpm. destruct m as [[a b ecx d si di bp] [sd se sf sg ss] cy z pm l dv p]. cbn [mem] in Hpm.
  rewrite interrupted_mach. locate. unfold tick. cbn [ticks days clock_of mem gpr sgr stk dev].
  set (t := u32 (m32 pm timer + 1)). assert (Ht : 0 <= t < 2 ^ 32) by (apply wrap_range; lia).
  destruct (t <? ticks_per_day) eqn:Hl.
  - destruct (irq0_cont (Mach (Regs t b ecx d si di bp) (Segs 0 se sf sg ss) true (t =? ticks_per_day) pm
      (a mod 2 ^ 16 :: a / 2 ^ 16 :: sd :: ip :: c :: fl :: l) dv (entry time_code "irq0.cont"))
      t a sd ip c fl l) as (m' & Hm' & (m1 & Em1 & Ed1 & Em & Ed) & Es & Eg & Esg); try done.
    destruct (store_clock pm t Hpm Ht) as (Ec & Ek & Hok). exists m1, m'. cbn [mem dev gpr sgr stk] in *.
    rewrite Em1, Ec. split_and!; try done. revert Hm'. locate. intros Hm'.
    do 8 next. change (u32 (m32 pm 1132 + 1)) with t. change 1573040 with ticks_per_day. rewrite Hl.
    next. exact Hm'.
  - destruct (store_midnight pm (u8 (pm timer_ovf + 1))) as (Hpm' & Em0 & Eo & Ek0); [done|apply wrap_range; lia|].
    set (pm' := write_bytes pm timer_ovf [u8 (pm timer_ovf + 1)]) in *.
    destruct (irq0_cont (Mach (Regs 0 b ecx d si di bp) (Segs 0 se sf sg ss) false true pm'
      (a mod 2 ^ 16 :: a / 2 ^ 16 :: sd :: ip :: c :: fl :: l) dv (entry time_code "irq0.cont"))
      0 a sd ip c fl l) as (m' & Hm' & (m1 & Em1 & Ed1 & Em & Ed) & Es & Eg & Esg); try done.
    destruct (store_clock pm' 0 Hpm') as (Ec & Ek & Hok); [lia|]. exists m1, m'. cbn [mem dev gpr sgr stk] in *.
    rewrite Em1, Ec, Eo. split_and!; try done.
    2: { intros x Hx. by rewrite Ek, Ek0. }
    revert Hm'. locate. intros Hm'.
    do 8 next. change (u32 (m32 pm 1132 + 1)) with t. change 1573040 with ticks_per_day. rewrite Hl.
    do 5 next. exact Hm'.
Qed.

(** ** A day of interrupts *)

(** [n] timer interrupts in turn; between two of them whatever runs leaves the clock alone. *)
Inductive timer_interrupts : nat -> mach D -> mach D -> Prop :=
  | no_interrupt m : timer_interrupts 0 m m
  | one_more n m m1 m2 m3 ip c fl :
      timer_interrupts n m m1 -> leaves outb inb soft time_code (interrupted time_code "irq0" ip c fl m1) (Iret ip c fl) m2 ->
      clock_of (mem m3) = clock_of (mem m2) -> pm_ok (mem m3) -> timer_interrupts (S n) m m3.

Hypothesis soft_clock : forall m, clock_of (mem (soft 0x1c m)) = clock_of (mem m).

Definition clock_ok (c : clock) : Prop := 0 <= ticks c < ticks_per_day /\ 0 <= days c < 256.

(** The clock [n] ticks after [c]. *)
Definition later (n : Z) (c : clock) : clock :=
  Clock ((ticks c + n) mod ticks_per_day) (u8 (days c + (ticks c + n) / ticks_per_day)).

Lemma later_ok n c : clock_ok (later n c).
Proof. split; cbn [later ticks days]; [by apply Z.mod_pos_bound|apply wrap_range; lia]. Qed.

Lemma later_0 c : clock_ok c -> later 0 c = c.
Proof.
  destruct c as [t d]. intros [Ht Hd]. cbn [ticks days] in *. unfold later. cbn [ticks days].
  rewrite Z.add_0_r, Z.mod_small, Z.div_small, Z.add_0_r, (wrap_small 8) by done. done.
Qed.

Lemma tick_later n c : clock_ok c -> 0 <= n -> tick (later n c) = later (n + 1) c.
Proof.
  destruct c as [t d]. intros [Ht Hd] Hn. cbn [ticks days] in *. unfold tick, later. cbn [ticks days].
  pose proof (Z.mod_pos_bound (t + n) ticks_per_day eq_refl) as Hm.
  pose proof (Z.div_mod (t + n) ticks_per_day ltac:(done)) as E.
  set (q := (t + n) / ticks_per_day) in *. set (r := (t + n) mod ticks_per_day) in *.
  rewrite (wrap_small 32) by (unfold ticks_per_day in Hm; lia).
  destruct (Z.ltb_spec (r + 1) ticks_per_day).
  - rewrite <- (Z.mod_unique_pos (t + (n + 1)) ticks_per_day q (r + 1)), <- (Z.div_unique_pos (t + (n + 1)) ticks_per_day q (r + 1)) by lia.
    done.
  - rewrite <- (Z.mod_unique_pos (t + (n + 1)) ticks_per_day (q + 1) 0), <- (Z.div_unique_pos (t + (n + 1)) ticks_per_day (q + 1) 0) by lia.
    f_equal. unfold u8, wrap. rewrite Zplus_mod_idemp_l. f_equal. lia.
Qed.

Lemma timer_interrupts_clock n m m' :
  pm_ok (mem m) -> clock_ok (clock_of (mem m)) -> timer_interrupts n m m' ->
  clock_of (mem m') = later (Z.of_nat n) (clock_of (mem m)) /\ pm_ok (mem m').
Proof.
  intros Hpm Hc H. induction H as [m|n m m1 m2 m3 ip c fl _ IH Hl E Hpm3]; [by rewrite later_0|].
  destruct (IH Hpm Hc) as [E1 Hpm1].
  destruct (irq0_spec m1 ip c fl Hpm1) as (mt & m' & Hl' & _ & _ & _ & Et & _ & _ & _ & Em & _).
  destruct (leaves_det _ _ _ _ _ _ _ _ _ Hl Hl') as [_ ->].
  split; [|done]. rewrite E, Em, soft_clock, Et, E1, tick_later by (done || lia). f_equal. lia.
Qed.
End irq0.
(** ** Int 0x1a *)

Section int1a.
Context {D : Type} (outb : Z -> Z -> D -> D) (inb : Z -> D -> Z * D) (soft : Z -> mach D -> mach D).

Implicit Types m : mach D.

(** Function [n] is asked for; the handler is at its code, with [si] saved. *)
Lemma dispatch m ip c fl n l :
  hi8 (eax (gpr m)) = n -> [".fn0x00"; ".fn0x01"; ".fn0x02"] !! Z.to_nat n = Some l -> 0 <= n ->
  exists cy z, reaches outb inb soft time_code (interrupted time_code "isr16_0x1a" ip c fl m)
    (Mach (set_reg ESI (with16 (esi (gpr m)) (2 * n)) (gpr m)) (sgr m) cy z (mem m)
       (lo16 (esi (gpr m)) :: ip :: c :: fl :: stk m) (dev m) (entry time_code l)).
Proof.
  intros Hn Hl H0. destruct m as [[a b ecx d si di bp] [sd se sf sg ss] cy z pm st dv p].
  rewrite interrupted_mach. locate. cbn [gpr sgr mem stk dev eax esi] in *.
  assert (Hc : n = 0 \/ n = 1 \/ n = 2) by (apply lookup_lt_Some in Hl; cbn [length] in Hl; lia).
  destruct Hc as [->|[->| ->]]; cbn in Hl; injection Hl as <-; locate; eexists _, _.
  all: do 2 next; rewrite Hn; do 3 next; rewrite Hn; do 2 next; done.
Qed.

(** Function 0: the ticks come in [cx:dx], the count of midnights in [al]; the count is cleared. *)
Lemma get_time_spec m ip c fl :
  hi8 (eax (gpr m)) = 0 ->
  exists m', leaves outb inb soft time_code (interrupted time_code "isr16_0x1a" ip c fl m) (Iret ip c fl) m' /\
    gpr m' = set_reg ECX (with16 (ecx (gpr m)) (m16 (mem m) (timer + 2)))
               (set_reg EDX (with16 (edx (gpr m)) (m16 (mem m) timer))
                 (set_reg EAX (with_lo8 (eax (gpr m)) (mem m timer_ovf)) (gpr m))) /\
    sgr m' = sgr m /\ stk m' = stk m /\ dev m' = dev m /\ mem m' = write_bytes (mem m) timer_ovf [0].
Proof.
  intros Hn. destruct (dispatch m ip c fl 0 ".fn0x00" Hn eq_refl) as (cy & z & Hd); [done|].
  destruct m as [[a b ecx d si di bp] [sd se sf sg ss] cy0 z0 pm st dv p].
  cbn [gpr sgr mem stk dev eax Z.mul] in *. eexists. split.
  - eapply leaves_reaches; [exact Hd|]. locate. do 12 next.
  - split_and!; done.
Qed.

(** What function 1 sets: the ticks in [cx:dx], when they are less than a day's. *)
Definition set_clock (hi lo : Z) (pm : phys) : phys :=
  if 2 ^ 16 * hi + lo <? ticks_per_day then store16 (store16 pm (timer + 2) hi) timer lo else pm.

Lemma set_time_spec m ip c fl :
  hi8 (eax (gpr m)) = 1 ->
  exists m', leaves outb inb soft time_code (interrupted time_code "isr16_0x1a" ip c fl m) (Iret ip c fl) m' /\
    gpr m' = gpr m /\ sgr m' = sgr m /\ stk m' = stk m /\ dev m' = dev m /\
    mem m' = set_clock (lo16 (ecx (gpr m))) (lo16 (edx (gpr m))) (mem m).
Proof.
  intros Hn. destruct (dispatch m ip c fl 1 ".fn0x01" Hn eq_refl) as (cy & z & Hd); [done|].
  destruct m as [[a b ecx d si di bp] [sd se sf sg ss] cy0 z0 pm st dv p].
  cbn [gpr sgr mem stk dev eax Z.mul X86.ecx edx] in *. unfold set_clock, ticks_per_day.
  pose proof (lo16_range ecx) as Hc. pose proof (lo16_range d) as Hx.
  change (2 ^ 16) with 65536 in *.
  destruct (lo16 ecx <? 24) eqn:E1; [|destruct (lo16 ecx =? 24) eqn:E2; [destruct (lo16 d <? 176) eqn:E3|]].
  all: destruct (Z.ltb_spec (65536 * lo16 ecx + lo16 d) 0x1800b0) as [H|H].
  all: try (exfalso; rewrite ?Z.ltb_lt, ?Z.ltb_ge, ?Z.eqb_eq, ?Z.eqb_neq in *; lia).
  all: eexists; split; [eapply leaves_reaches; [exact Hd|]; locate; do 2 next|].
  - rewrite E1. repeat next.
  - done.
  - rewrite E1, E2. do 3 next. rewrite E3. repeat next.
  - done.
  - rewrite E1, E2. do 3 next. rewrite E3. repeat next.
  - done.
  - rewrite E1, E2. repeat next.
  - done.
Qed.

(** A function number the handler does not know: the carry flag says so. *)
Lemma no_function_spec m ip c fl :
  3 <= hi8 (eax (gpr m)) ->
  exists m', leaves outb inb soft time_code (interrupted time_code "isr16_0x1a" ip c fl m) (Retf ip c) m' /\
    gpr m' = gpr m /\ sgr m' = sgr m /\ stk m' = stk m /\ dev m' = dev m /\ mem m' = mem m /\ cf m' = true.
Proof.
  intros Hn%Z.ltb_ge. destruct m as [[a b ecx d si di bp] [sd se sf sg ss] cy0 z0 pm st dv p].
  rewrite interrupted_mach. locate. cbn [gpr sgr mem stk dev eax] in *. eexists. split.
  - do 2 next. rewrite Hn. repeat next.
  - done.
Qed.
End int1a.

(** ** The real-time clock *)

Section rtc.
Context {D : Type} (outb : Z -> Z -> D -> D) (inb : Z -> D -> Z * D) (soft : Z -> mach D -> mach D).
Hypothesis inb_byte : forall p d, 0 <= fst (inb p d) < 2 ^ 8.

Implicit Types m : mach D.

(** What reading the CMOS register [i] does and gives: the port is left at register 0x0d, with NMIs on. *)
Definition cmos_asked (i : Z) (d : D) : D :=
  outb PORT_DUMMY (Z.lor i CMOS_NMI_DIS) (outb PORT_CMOS_IDX (Z.lor i CMOS_NMI_DIS) d).
Definition cmos_val (i : Z) (d : D) : Z := fst (inb PORT_CMOS_DATA (cmos_asked i d)).
Definition cmos_dev (i : Z) (d : D) : D :=
  outb PORT_DUMMY CMOS_RTC_STA_D (outb PORT_CMOS_IDX CMOS_RTC_STA_D (snd (inb PORT_CMOS_DATA (cmos_asked i d)))).

Lemma cmos_byte i d : 0 <= cmos_val i d < 2 ^ 8.
Proof. apply inb_byte. Qed.
Hint Resolve cmos_byte : x86_range.

Lemma read_cmos_spec a b c x si di bp s cy z pm r st dv i :
  lo8 a = i ->
  reaches outb inb soft time_code
    (Mach (Regs a b c x si di bp) s cy z pm (Z.of_nat r :: st) dv (entry time_code "read_cmos"))
    (Mach (Regs (with_lo8 a (cmos_val i dv)) b c x si di bp) s false (Z.lor i CMOS_NMI_DIS =? 0) pm st (cmos_dev i dv) r).
Proof.
  intros <-. destruct s as [sd se sf sg ss]. locate. unfold cmos_val, cmos_dev, cmos_asked.
  do 11 next. done.
Qed.

(** ** Waiting for the clock *)

(** At most [n] times, until it is not being updated, the clock's status is read. *)
Fixpoint wait (n : nat) (d : D) : bool * D :=
  match n with
  | O => (false, d)
  | S n =>
      let d' := cmos_dev CMOS_RTC_STA_A d in
      if Z.land (cmos_val CMOS_RTC_STA_A d) RTC_A_UIP =? 0 then (true, d') else wait n d'
  end.

Ltac call_cmos := first [etrans; [apply read_cmos_spec; autorewrite with x86; reflexivity|] | eapply leaves_reaches; [apply read_cmos_spec; autorewrite with x86; reflexivity|]];
  autorewrite with x86.

Definition busy (d : D) : bool := negb (Z.land (cmos_val CMOS_RTC_STA_A d) RTC_A_UIP =? 0).

Lemma poll_spec a b c k x si di bp s cy z pm st dv :
  0 <= k < 2 ^ 16 ->
  reaches outb inb soft time_code
    (Mach (Regs a b (with16 c k) x si di bp) s cy z pm st dv (entry time_code "read_rtc.wait_for_no_upd"))
    (Mach (Regs (with_lo8 a (cmos_val CMOS_RTC_STA_A dv)) b (with16 c (u16 (k - 1))) x si di bp) s
       false (negb (busy dv)) pm st (cmos_dev CMOS_RTC_STA_A dv)
       (if negb (u16 (k - 1) =? 0) && busy dv then entry time_code "read_rtc.wait_for_no_upd"
        else (5 + entry time_code "read_rtc.wait_for_no_upd")%nat)).
Proof.
  intros Hk. destruct s as [sd se sf sg ss]. unfold busy. locate.
  do 3 next. call_cmos. do 2 next. change RTC_A_UIP with 128. change CMOS_RTC_STA_A with 10.
  destruct (u16 (k - 1) =? 0), (Z.land (cmos_val 10 dv) 128 =? 0); done.
Qed.

(** The loop polls [n] times at most, [n] being what is left in [cx]; 0 stands for 2^16. *)
Lemma rtc_wait_spec n a b c x si di bp s cy z pm st dv :
  Z.of_nat n < 2 ^ 16 ->
  exists v k, 0 <= v < 2 ^ 8 /\ 0 <= k < 2 ^ 16 /\
  reaches outb inb soft time_code
    (Mach (Regs a b (with16 c (u16 (Z.of_nat (S n)))) x si di bp) s cy z pm st dv (entry time_code "read_rtc.wait_for_no_upd"))
    (Mach (Regs (with_lo8 a v) b (with16 c k) x si di bp) s false (fst (wait (S n) dv)) pm st (snd (wait (S n) dv))
       (5 + entry time_code "read_rtc.wait_for_no_upd")).
Proof.
  assert (Ek : forall n, Z.of_nat n < 2 ^ 16 -> u16 (u16 (Z.of_nat (S n)) - 1) = Z.of_nat n)
    by (clear; intros n Hn; unfold wrap; rewrite Zminus_mod_idemp_l, Z.mod_small by lia; lia).
  revert a cy z dv. induction n as [|n IH]; intros a cy z dv Hn.
  all: match goal with |- context [u16 ?k] =>
    pose proof (poll_spec a b c (u16 k) x si di bp s cy z pm st dv (wrap_range 16 k ltac:(lia))) as Hp end.
  all: rewrite Ek in Hp by done.
  - exists (cmos_val CMOS_RTC_STA_A dv), 0. split; [apply cmos_byte|]. split; [done|].
    etrans; [exact Hp|]. cbn [wait]. unfold busy. by destruct (Z.land _ _ =? 0).
  - cbn [wait]. unfold busy in Hp. destruct (Z.land _ _ =? 0) eqn:E.
    + exists (cmos_val CMOS_RTC_STA_A dv), (Z.of_nat (S n)). split; [apply cmos_byte|]. split; [lia|].
      etrans; [exact Hp|]. cbn [negb]. by rewrite andb_false_r.
    + destruct (IH (with_lo8 a (cmos_val CMOS_RTC_STA_A dv)) false false (cmos_dev CMOS_RTC_STA_A dv) ltac:(lia))
        as (v & k & Hv & Hk & Hr).
      exists v, k. split; [done|]. split; [done|]. etrans; [exact Hp|]. autorewrite with x86 in Hr.
      rewrite (wrap_small 16 (Z.of_nat (S n))) in Hr by lia.
      destruct (Z.eqb_spec (Z.of_nat (S n)) 0); [lia|]. exact Hr.
Qed.

(** ** Reading the clock *)

(** [cx] starts at 0, so the loop polls 2^16 times at most. *)
Definition polls : nat := Z.to_nat (2 ^ 16).

(** What [read_rtc] makes of [cx] and [dx], and whether it got the time. *)
Definition rtc_read (c x : Z) (d : D) : bool * (Z * Z) * D :=
  let '(ok, d) := wait polls d in
  if negb ok then (false, (c, x), d)
  else
    let dst := Z.land (cmos_val CMOS_RTC_STA_B d) RTC_B_DST in let d := cmos_dev CMOS_RTC_STA_B d in
    let sec := cmos_val CMOS_RTC_SEC d in let d := cmos_dev CMOS_RTC_SEC d in
    let min := cmos_val CMOS_RTC_MIN d in let d := cmos_dev CMOS_RTC_MIN d in
    let hr := cmos_val CMOS_RTC_HR d in let d := cmos_dev CMOS_RTC_HR d in
    (true, (2 ^ 8 * hr + min, 2 ^ 8 * sec + dst), d).

Lemma read_rtc_spec a b c x si di bp s cy z pm r st dv :
  let '(ok, (c', x'), d') := rtc_read (lo16 c) (lo16 x) dv in
  reaches outb inb soft time_code
    (Mach (Regs a b c x si di bp) s cy z pm (Z.of_nat r :: st) dv (entry time_code "read_rtc"))
    (Mach (Regs a b (with16 c c') (with16 x x') si di bp) s (negb ok) false pm st d' r).
Proof.
  destruct s as [sd se sf sg ss]. unfold rtc_read.
  assert (Hpolls : Z.of_nat polls = 2 ^ 16) by (unfold polls; lia).
  destruct (rtc_wait_spec (Nat.pred polls) a b c x si di bp (Segs sd se sf sg ss) false true pm
    (lo16 c :: lo16 a :: Z.of_nat r :: st) dv) as (v & k & Hv & Hk & Hr); [lia|].
  replace (S (Nat.pred polls)) with polls in Hr by lia. rewrite Hpolls in Hr. change (u16 (2 ^ 16)) with 0 in Hr.
  revert Hr. locate. cbn [Nat.add]. intros Hr.
  destruct (wait polls dv) as [ok d]. cbn [fst snd] in Hr.
  clear Hpolls. destruct ok; cbn [negb].
  - match goal with |- reaches _ _ _ _ _ ?m => remember m as last eqn:E end.
    do 4 next. etrans; [exact Hr|]. do 4 next. call_cmos. do 4 next. call_cmos. do 3 next. call_cmos.
    do 3 next. call_cmos. do 4 next. by subst.
  - do 4 next. etrans; [exact Hr|]. do 6 next. done.
Qed.

(** ** Int 0x1a, function 2 *)

(** The clock's diagnostic status says that its time is not to be used. *)
Definition clock_bad (d : D) : bool := negb (Z.land (cmos_val CMOS_DIAG d) DIAG_BAD =? 0).

Lemma is_rtc_ok_spec a b c x si di bp s cy z pm r st dv :
  reaches outb inb soft time_code
    (Mach (Regs a b c x si di bp) s cy z pm (Z.of_nat r :: st) dv (entry time_code "is_rtc_ok"))
    (Mach (Regs a b c x si di bp) s false (negb (clock_bad dv)) pm st (cmos_dev CMOS_DIAG dv) r).
Proof.
  destruct s as [sd se sf sg ss]. unfold clock_bad. locate.
  do 4 next. call_cmos. do 3 next. by rewrite negb_involutive.
Qed.

(** A clock that is not to be used is an error: the carry flag is set, and the registers are kept. *)
Lemma bad_clock_spec m ip c fl :
  hi8 (eax (gpr m)) = 2 -> clock_bad (dev m) = true ->
  exists m', leaves outb inb soft time_code (interrupted time_code "isr16_0x1a" ip c fl m) (Retf ip c) m' /\
    gpr m' = gpr m /\ sgr m' = sgr m /\ stk m' = stk m /\ dev m' = cmos_dev CMOS_DIAG (dev m) /\
    mem m' = mem m /\ cf m' = true.
Proof.
  intros Hn Hb. destruct (dispatch outb inb soft m ip c fl 2 ".fn0x02" Hn eq_refl) as (cy & z & Hd); [done|].
  destruct m as [[a b ecx d si di bp] [sd se sf sg ss] cy0 z0 pm st dv p].
  cbn [gpr sgr mem stk dev eax Z.mul] in *. eexists. split.
  - eapply leaves_reaches; [exact Hd|]. locate. do 2 next.
    eapply leaves_reaches; [apply is_rtc_ok_spec|]. rewrite Hb. repeat next.
  - done.
Qed.

Lemma rtc_read_range c x d :
  0 <= c < 2 ^ 16 -> 0 <= x < 2 ^ 16 ->
  0 <= fst (snd (fst (rtc_read c x d))) < 2 ^ 16 /\ 0 <= snd (snd (fst (rtc_read c x d))) < 2 ^ 16.
Proof.
  intros Hc Hx. unfold rtc_read. destruct (wait polls d) as [[] d']; cbn [fst snd negb]; [|done].
  split; apply word_range; try apply cmos_byte. apply land8_range, cmos_byte.
Qed.

(** One try at function 2: the clock is read twice, and the times are left to compare. *)
Lemma try_spec a b c x si di bp s cy z pm st dv :
  let '(ok1, (c1, x1), d1) := rtc_read (lo16 c) (lo16 x) dv in
  let '(ok2, (c2, x2), d2) := rtc_read (lo16 a) x1 d1 in
  reaches outb inb soft time_code
    (Mach (Regs a b c x si di bp) s cy z pm st dv (entry time_code ".wait0x02"))
    (Mach (Regs (with16 a c1) (with16 b x1) (with16 c c2) (with16 x x2) si di bp) s (negb ok2) false pm st d2
       (5 + entry time_code ".wait0x02")).
Proof.
  destruct s as [sd se sf sg ss].
  pose proof (rtc_read_range (lo16 c) (lo16 x) dv (lo16_range _) (lo16_range _)) as [H1 H2].
  pose proof (fun r z => read_rtc_spec a b c x si di bp (Segs sd se sf sg ss) cy z pm r st dv) as Hr.
  destruct (rtc_read (lo16 c) (lo16 x) dv) as [[ok1 [c1 x1]] d1]. cbn [fst snd] in H1, H2.
  pose proof (fun r cy z => read_rtc_spec (with16 a c1) (with16 b x1) (with16 c (lo16 a)) (with16 x x1) si di bp (Segs sd se sf sg ss) cy z pm r st d1) as Hr2.
  rewrite !lo16_with16 in Hr2 by (done || apply lo16_range).
  destruct (rtc_read (lo16 a) x1 d1) as [[ok2 [c2 x2]] d2].
  revert Hr Hr2. locate. intros Hr Hr2. do 2 next. etrans; [apply Hr|]. do 3 next. etrans; [apply Hr2|].
  autorewrite with x86. done.
Qed.

(** The clock can be read: function 2 gets to its first try. *)
Lemma first_try m ip c fl :
  hi8 (eax (gpr m)) = 2 -> clock_bad (dev m) = false ->
  exists cy z, reaches outb inb soft time_code (interrupted time_code "isr16_0x1a" ip c fl m)
    (Mach (set_reg ESI (with16 (esi (gpr m)) 0) (gpr m)) (sgr m) cy z (mem m)
       (4 :: lo16 (ebx (gpr m)) :: lo16 (eax (gpr m)) :: lo16 (esi (gpr m)) :: ip :: c :: fl :: stk m)
       (cmos_dev CMOS_DIAG (dev m)) (entry time_code ".wait0x02")).
Proof.
  intros Hn Hb. destruct (dispatch outb inb soft m ip c fl 2 ".fn0x02" Hn eq_refl) as (cy & z & Hd); [done|].
  destruct m as [[a b ecx d si di bp] [sd se sf sg ss] cy0 z0 pm st dv p].
  cbn [gpr sgr mem stk dev eax ebx esi Z.mul Pos.mul] in *. eexists _, _. etrans; [exact Hd|]. locate. do 2 next.
  etrans; [apply is_rtc_ok_spec|]. rewrite Hb. do 5 next. done.
Qed.

(** When the two readings agree, function 2 takes two words off the stack where it has put three
    on it: it goes to the address that was in [si:ax] when it was called. *)
Lemma get_rtc_goes_astray_spec m ip c fl :
  hi8 (eax (gpr m)) = 2 -> clock_bad (dev m) = false ->
  let '(ok1, (c1, x1), d1) := rtc_read (lo16 (ecx (gpr m))) (lo16 (edx (gpr m))) (cmos_dev CMOS_DIAG (dev m)) in
  let '(ok2, (c2, x2), d2) := rtc_read (lo16 (eax (gpr m))) x1 d1 in
  c1 = c2 -> x1 = x2 ->
  exists m', leaves outb inb soft time_code (interrupted time_code "isr16_0x1a" ip c fl m)
      (Retf (lo16 (eax (gpr m))) (lo16 (esi (gpr m)))) m' /\
    stk m' = c :: fl :: stk m /\ cf m' = false /\
    lo16 (ecx (gpr m')) = c2 /\ lo16 (edx (gpr m')) = x2 /\ lo16 (eax (gpr m')) = lo16 (ebx (gpr m)).
Proof.
  intros Hn Hb. destruct (first_try m ip c fl Hn Hb) as (cy & z & Hf).
  destruct m as [[a b ecx d si di bp] [sd se sf sg ss] cy0 z0 pm st dv p].
  cbn [gpr sgr mem stk dev eax ebx X86.ecx edx esi] in *.
  set (st' := 4 :: lo16 b :: lo16 a :: lo16 si :: ip :: c :: fl :: st) in *.
  pose proof (try_spec a b ecx d (with16 si 0) di bp (Segs sd se sf sg ss) cy z pm st' (cmos_dev CMOS_DIAG dv)) as Ht.
  pose proof (rtc_read_range (lo16 ecx) (lo16 d) (cmos_dev CMOS_DIAG dv) (lo16_range _) (lo16_range _)) as [H1 H2].
  destruct (rtc_read (lo16 ecx) (lo16 d) (cmos_dev CMOS_DIAG dv)) as [[ok1 [c1 x1]] d1].
  cbn [fst snd] in H1, H2.
  pose proof (rtc_read_range (lo16 a) x1 d1 (lo16_range _) H2) as [H3 H4].
  destruct (rtc_read (lo16 a) x1 d1) as [[ok2 [c2 x2]] d2]. cbn [fst snd] in H3, H4. intros -> ->.
  eexists. split.
  - eapply leaves_reaches; [exact Hf|]. eapply leaves_reaches; [exact Ht|]. unfold st'. locate. cbn [Nat.add].
    next. rewrite Z.eqb_refl. do 2 next. rewrite Z.eqb_refl. repeat next.
  - cbn [drop stk cf gpr X86.ecx edx eax]. split_and!; try done; by autorewrite with x86.
Qed.

(** A clock that says for ever that it is being updated. *)
Definition always_busy (P : D -> Prop) : Prop := forall d, P d -> busy d = true /\ P (cmos_dev CMOS_RTC_STA_A d).

Lemma wait_busy P n d : always_busy P -> P d -> exists d', wait n d = (false, d') /\ P d'.
Proof.
  intros HP. revert d. induction n as [|n IH]; intros d Hd; [by exists d|].
  destruct (HP d Hd) as [Hb Hd']. cbn [wait]. unfold busy in Hb. destruct (_ =? 0); [done|]. by apply IH.
Qed.

Lemma read_busy P c x d : always_busy P -> P d -> exists d', rtc_read c x d = (false, (c, x), d') /\ P d'.
Proof.
  intros HP Hd. destruct (wait_busy P polls d HP Hd) as (d' & E & Hd'). exists d'. split; [|done].
  unfold rtc_read. by rewrite E.
Qed.

Definition trying (P : D -> Prop) m : Prop :=
  pc m = entry time_code ".wait0x02" /\ lo16 (eax (gpr m)) <> lo16 (ecx (gpr m)) /\ P (dev m).

Lemma trying_again P m :
  always_busy P -> trying P m ->
  exists m1 m2, reaches outb inb soft time_code m m1 /\ step outb inb soft time_code m1 = Ok (inl m2) /\ trying P m2.
Proof.
  intros HP. destruct m as [[a b c x si di bp] [sd se sf sg ss] cy z pm st dv p]. intros (Ep & Hne & Hd).
  cbn [pc gpr eax ecx dev] in *. subst p.
  pose proof (try_spec a b c x si di bp (Segs sd se sf sg ss) cy z pm st dv) as Ht.
  destruct (read_busy P (lo16 c) (lo16 x) dv HP Hd) as (d1 & E1 & Hd1). rewrite E1 in Ht.
  destruct (read_busy P (lo16 a) (lo16 x) d1 HP Hd1) as (d2 & E2 & Hd2). rewrite E2 in Ht.
  revert Ht. locate. cbn [Nat.add negb]. intros Ht.
  assert (Hcmp : (lo16 c =? lo16 a) = false) by (apply Z.eqb_neq; done).
  eexists _, _. split_and!.
  - etrans; [exact Ht|]. next. rewrite Hcmp. reflexivity.
  - one_step.
  - split_and!; [vm_compute; reflexivity| |done].
    cbn [gpr eax ecx]. rewrite !lo16_with16 by apply lo16_range. done.
Qed.

(** ... and then function 2 never returns, unless [ax] and [cx] were the same: the jump back
    that compares the hours and minutes does not count the tries. *)
Lemma get_rtc_hangs_spec P m ip c fl fuel :
  always_busy P -> P (cmos_dev CMOS_DIAG (dev m)) ->
  hi8 (eax (gpr m)) = 2 -> clock_bad (dev m) = false -> lo16 (eax (gpr m)) <> lo16 (ecx (gpr m)) ->
  run outb inb soft time_code fuel (interrupted time_code "isr16_0x1a" ip c fl m) = Fail Diverges.
Proof.
  intros HP Hd Hn Hb Hne. destruct (first_try m ip c fl Hn Hb) as (cy & z & Hf).
  eapply (never_leaves_from outb inb soft time_code (trying P)); [|exact Hf|].
  - intros m0 Hm0. by apply trying_again.
  - split_and!; [done| |done]. by destruct m as [[] ? ? ? ? ? ? ?].
Qed.
End rtc.

(** ** What the handlers promise *)

Lemma set_clock_spec hi lo pm :
  pm_ok pm -> 0 <= hi < 2 ^ 16 -> 0 <= lo < 2 ^ 16 ->
  clock_of (set_clock hi lo pm) =
    Clock (if 2 ^ 16 * hi + lo <? ticks_per_day then 2 ^ 16 * hi + lo else ticks (clock_of pm)) (days (clock_of pm)) /\
  pm_ok (set_clock hi lo pm).
Proof.
  intros Hpm Hh Hl. unfold set_clock. destruct (_ <? _); [|done]. split; [|by do 2 apply store_ok].
  unfold clock_of, m32. cbn [ticks days].
  rewrite m16_store16 by done. rewrite (m16_ext (store16 pm (timer + 2) hi)).
  2: { intros i Hi. apply store16_out. unfold in_range. lia. }
  rewrite m16_store16 by done. rewrite !store16_out by (unfold in_range, timer, timer_ovf; lia).
  f_equal. lia.
Qed.

Section promises.
Context {D : Type} (outb : Z -> Z -> D -> D) (inb : Z -> D -> Z * D) (soft : Z -> mach D -> mach D).

Implicit Types m : mach D.

(** The timer interrupt comes back to where it came from with every register, every segment and
    the stack as they were; the clock is one tick on when the user's handler gets control, nothing
    else in memory has changed, and the interrupt controller is told once, after that. *)
Theorem irq0_transparent m ip c fl :
  (forall m, keeps m (soft 0x1c m)) -> pm_ok (mem m) ->
  exists m1 m', leaves outb inb soft time_code (interrupted time_code "irq0" ip c fl m) (Iret ip c fl) m' /\
    gpr m' = gpr m /\ sgr m' = sgr m /\ stk m' = stk m /\
    clock_of (mem m1) = tick (clock_of (mem m)) /\ same_but_clock (mem m) (mem m1) /\ pm_ok (mem m1) /\
    dev m1 = dev m /\ mem m' = mem (soft 0x1c m1) /\ dev m' = outb PIC1_CMD OCW2_EOI (dev (soft 0x1c m1)).
Proof. intros Hs Hpm. by apply irq0_spec. Qed.

(** C22: [n] timer interrupts later the clock shows [n] more ticks modulo a day's, and has counted the
    midnights in between; its ticks stay below a day's.  Each interrupt comes back to where it came
    from with every register, every segment and the stack as they were, and tells the interrupt
    controller once. *)
Theorem timer_keeps_time n m m' :
  (forall m, keeps m (soft 0x1c m)) -> (forall m, clock_of (mem (soft 0x1c m)) = clock_of (mem m)) ->
  pm_ok (mem m) -> clock_ok (clock_of (mem m)) -> timer_interrupts outb inb soft n m m' ->
  clock_of (mem m') = later (Z.of_nat n) (clock_of (mem m)) /\ clock_ok (clock_of (mem m')) /\
  forall ip c fl, exists m1 m2,
    leaves outb inb soft time_code (interrupted time_code "irq0" ip c fl m') (Iret ip c fl) m2 /\
    gpr m2 = gpr m' /\ sgr m2 = sgr m' /\ stk m2 = stk m' /\ dev m1 = dev m' /\ mem m2 = mem (soft 0x1c m1) /\
    dev m2 = outb PIC1_CMD OCW2_EOI (dev (soft 0x1c m1)) /\
    clock_of (mem m2) = later (Z.of_nat n + 1) (clock_of (mem m)) /\ same_but_clock (mem m') (mem m1).
Proof.
  intros Hs Hc Hpm Ho H. destruct (timer_interrupts_clock outb inb soft Hs Hc n m m' Hpm Ho H) as [E Hpm'].
  split; [done|]. split; [rewrite E; apply later_ok|]. intros ip c fl.
  destruct (irq0_spec outb inb soft Hs m' ip c fl Hpm') as (m1 & m2 & ? & ? & ? & ? & Et & ? & ? & ? & Em & ?).
  exists m1, m2. split_and!; try done. rewrite Em, Hc, Et, E. apply tick_later; [done|lia].
Qed.

(** What int 0x1a sets, it gets: the ticks in [cx:dx] if they are less than a day's, and otherwise
    the ticks from before; asking clears the count of midnights, and nothing else. *)
Theorem set_then_get m ip c fl :
  pm_ok (mem m) -> clock_ok (clock_of (mem m)) -> hi8 (eax (gpr m)) = 1 ->
  let v := 2 ^ 16 * lo16 (ecx (gpr m)) + lo16 (edx (gpr m)) in
  exists m1, leaves outb inb soft time_code (interrupted time_code "isr16_0x1a" ip c fl m) (Iret ip c fl) m1 /\
    gpr m1 = gpr m /\ sgr m1 = sgr m /\ stk m1 = stk m /\ clock_ok (clock_of (mem m1)) /\
    forall m2 ip' c' fl', mem m2 = mem m1 -> hi8 (eax (gpr m2)) = 0 ->
      exists m3, leaves outb inb soft time_code (interrupted time_code "isr16_0x1a" ip' c' fl' m2) (Iret ip' c' fl') m3 /\
        2 ^ 16 * lo16 (ecx (gpr m3)) + lo16 (edx (gpr m3)) =
          (if v <? ticks_per_day then v else ticks (clock_of (mem m))) /\
        lo8 (eax (gpr m3)) = days (clock_of (mem m)) /\
        clock_of (mem m3) = Clock (ticks (clock_of (mem m1))) 0 /\ sgr m3 = sgr m2 /\ stk m3 = stk m2.
Proof.
  intros Hpm [Ht Hd] Hn v. destruct (set_time_spec outb inb soft m ip c fl Hn) as (m1 & Hl & Eg & Es & Ek & _ & Em).
  destruct (set_clock_spec (lo16 (ecx (gpr m))) (lo16 (edx (gpr m))) (mem m) Hpm (lo16_range _) (lo16_range _)) as [Ec Hpm1].
  rewrite <- Em in Ec, Hpm1. fold v in Ec.
  assert (Ho : clock_ok (clock_of (mem m1))).
  { rewrite Ec. split; cbn [ticks days]; [|done]. destruct (Z.ltb_spec v ticks_per_day); [|done].
    unfold v in *. pose proof (lo16_range (ecx (gpr m))). pose proof (lo16_range (edx (gpr m))). lia. }
  exists m1. split_and!; try done.
  intros m2 ip' c' fl' E2 Hn2.
  destruct (get_time_spec outb inb soft m2 ip' c' fl' Hn2) as (m3 & Hl3 & Eg3 & Es3 & Ek3 & _ & Em3).
  rewrite E2 in Eg3, Em3. exists m3.
  destruct (store_midnight (mem m1) 0 Hpm1) as (_ & E32 & E0 & _); [lia|].
  assert (Et : m32 (mem m1) timer = ticks (clock_of (mem m1))) by done.
  assert (Ed : mem m1 timer_ovf = days (clock_of (mem m1))) by done.
  pose proof (m16_range (mem m1) Hpm1 timer). pose proof (m16_range (mem m1) Hpm1 (timer + 2)).
  rewrite Eg3. destruct (gpr m2) as [a2 b2 c2 d2 si2 di2 bp2]. cbn [set_reg eax ecx edx X86.eax X86.ecx X86.edx].
  rewrite !lo16_with16, lo8_with_lo8 by (done || apply Hpm1). unfold m32 in Et.
  split_and!; try done.
  - rewrite Ec in Et. cbn [ticks] in Et. rewrite <- Et. lia.
  - by rewrite Ed, Ec.
  - rewrite Em3. unfold clock_of at 1. by rewrite E32, E0.
Qed.

(** What int 0x1a cannot do it reports: a function number it does not know, and a clock that has
    lost its power, its checksum or its time, give a set carry flag, with the registers, the
    segments, the stack and memory as they were. *)
Theorem int1a_reports m ip c fl :
  (forall p d, 0 <= fst (inb p d) < 2 ^ 8) ->
  3 <= hi8 (eax (gpr m)) \/ hi8 (eax (gpr m)) = 2 /\ clock_bad outb inb (dev m) = true ->
  exists m', leaves outb inb soft time_code (interrupted time_code "isr16_0x1a" ip c fl m) (Retf ip c) m' /\
    cf m' = true /\ gpr m' = gpr m /\ sgr m' = sgr m /\ stk m' = stk m /\ mem m' = mem m.
Proof.
  intros Hb [Hn|[Hn Hc]].
  - destruct (no_function_spec outb inb soft m ip c fl Hn) as (m' & ? & ? & ? & ? & ? & ? & ?). by exists m'.
  - destruct (bad_clock_spec outb inb soft Hb m ip c fl Hn Hc) as (m' & ? & ? & ? & ? & ? & ? & ?). by exists m'.
Qed.

(** C23: [read_rtc] returns from every state of the clock, after 2^16 polls at most: with the time the
    clock's registers give, or with the carry flag set and [cx] and [dx] as they were. *)
Theorem read_rtc_returns a b c x si di bp s cy z pm r st dv :
  (forall p d, 0 <= fst (inb p d) < 2 ^ 8) ->
  let '(ok, (c', x'), d') := rtc_read outb inb (lo16 c) (lo16 x) dv in
  reaches outb inb soft time_code
    (Mach (Regs a b c x si di bp) s cy z pm (Z.of_nat r :: st) dv (entry time_code "read_rtc"))
    (Mach (Regs a b (with16 c c') (with16 x x') si di bp) s (negb ok) false pm st d' r).
Proof. intros Hb. by apply read_rtc_spec. Qed.

(** When the clock can be read and gives the same time twice, function 2 of int 0x1a does not
    return: it goes on at the address that was in [si:ax]. *)
Theorem get_rtc_goes_astray m ip c fl :
  (forall p d, 0 <= fst (inb p d) < 2 ^ 8) -> hi8 (eax (gpr m)) = 2 -> clock_bad outb inb (dev m) = false ->
  let '(ok1, (c1, x1), d1) := rtc_read outb inb (lo16 (ecx (gpr m))) (lo16 (edx (gpr m))) (cmos_dev outb inb CMOS_DIAG (dev m)) in
  let '(ok2, (c2, x2), d2) := rtc_read outb inb (lo16 (eax (gpr m))) x1 d1 in
  c1 = c2 -> x1 = x2 ->
  exists m', leaves outb inb soft time_code (interrupted time_code "isr16_0x1a" ip c fl m)
      (Retf (lo16 (eax (gpr m))) (lo16 (esi (gpr m)))) m' /\ stk m' = c :: fl :: stk m.
Proof.
  intros Hb Hn Hc. pose proof (get_rtc_goes_astray_spec outb inb soft Hb m ip c fl Hn Hc) as H.
  destruct (rtc_read _ _ _ _ _) as [[ok1 [c1 x1]] d1], (rtc_read _ _ _ _ _) as [[ok2 [c2 x2]] d2].
  intros E1 E2. destruct (H E1 E2) as (m' & ? & ? & _). by exists m'.
Qed.

(** When the clock says for ever that it is being updated, function 2 never returns to a caller
    whose [ax] and [cx] differ: the jump back on a change of the hour does not count the tries. *)
Theorem get_rtc_hangs P m ip c fl fuel :
  (forall p d, 0 <= fst (inb p d) < 2 ^ 8) -> always_busy outb inb P -> P (cmos_dev outb inb CMOS_DIAG (dev m)) ->
  hi8 (eax (gpr m)) = 2 -> clock_bad outb inb (dev m) = false -> lo16 (eax (gpr m)) <> lo16 (ecx (gpr m)) ->
  run outb inb soft time_code fuel (interrupted time_code "isr16_0x1a" ip c fl m) = Fail Diverges.
Proof. intros Hb HP Hd Hn Hc Hne. by apply (get_rtc_hangs_spec outb inb soft Hb P). Qed.
End promises.

(** ** Concrete machines *)

Definition demo_out (p v : Z) (d : unit) : unit := d.
Definition demo_in (v p : Z) (d : unit) : Z * unit := (v, d).
Definition demo_soft (n : Z) (m : mach unit) : mach unit := m.

(** One tick before midnight. *)
Definition demo_mem : phys := store32 (fun _ => 0) timer (ticks_per_day - 1).
Definition demo_mach (ax cx dx : Z) (pm : phys) : mach unit :=
  Mach (Regs ax 0x1234 cx dx 0x55 0x66 0x77) (Segs 0x40 0x50 0 0 0x60) false false pm [7] tt 0%nat.

Lemma demo_in_byte v : 0 <= v < 2 ^ 8 -> forall p d, 0 <= fst (demo_in v p d) < 2 ^ 8.
Proof. done. Qed.

Lemma time_mem_ok : pm_ok demo_mem.
Proof. by apply store_ok. Qed.

Lemma irq0_transparent_witness :
  exists m', leaves demo_out (demo_in 0) demo_soft time_code
      (interrupted time_code "irq0" 0x100 0x200 0x202 (demo_mach 0xabcd1234 1 2 demo_mem)) (Iret 0x100 0x200 0x202) m' /\
    gpr m' = gpr (demo_mach 0xabcd1234 1 2 demo_mem) /\ clock_of (mem m') = Clock 0 1.
Proof.
  destruct (irq0_transparent demo_out (demo_in 0) demo_soft (demo_mach 0xabcd1234 1 2 demo_mem) 0x100 0x200 0x202
    ltac:(done) time_mem_ok) as (m1 & m' & Hl & Eg & _ & _ & Ec & _ & _ & _ & Em & _).
  exists m'. split; [exact Hl|]. split; [exact Eg|]. rewrite Em. etrans; [exact Ec|]. vm_compute. reflexivity.
Defined.

Lemma timer_keeps_time_witness :
  exists m', timer_interrupts demo_out (demo_in 0) demo_soft 1 (demo_mach 0 1 2 demo_mem) m' /\
    clock_of (mem m') = Clock 0 1.
Proof.
  destruct (irq0_spec demo_out (demo_in 0) demo_soft ltac:(done) (demo_mach 0 1 2 demo_mem) 0x100 0x200 0x202 time_mem_ok)
    as (m1 & m' & Hl & _ & _ & _ & Ec & _ & Hok & _ & Em & _).
    change (mem m' = mem m1) in Em. rewrite <- Em in Hok.
  exists m'. assert (Hn : timer_interrupts demo_out (demo_in 0) demo_soft 1 (demo_mach 0 1 2 demo_mem) m')
    by (eapply one_more; [apply no_interrupt|exact Hl|done|exact Hok]).
  split; [exact Hn|].
  destruct (timer_keeps_time demo_out (demo_in 0) demo_soft 1 (demo_mach 0 1 2 demo_mem) m'
    ltac:(done) ltac:(done) time_mem_ok ltac:(done) Hn) as [E _].
  rewrite E. vm_compute. reflexivity.
Defined.

(** Noon is set, and comes back. *)
Lemma set_then_get_witness :
  exists m1, leaves demo_out (demo_in 0) demo_soft time_code
      (interrupted time_code "isr16_0x1a" 0x100 0x200 0x202 (demo_mach 0x0100 0xc 0x58 demo_mem)) (Iret 0x100 0x200 0x202) m1 /\
    exists m3, leaves demo_out (demo_in 0) demo_soft time_code
      (interrupted time_code "isr16_0x1a" 0x100 0x200 0x202 (set_gpr (Regs 0 0 0 0 0 0 0) m1)) (Iret 0x100 0x200 0x202) m3 /\
    2 ^ 16 * lo16 (ecx (gpr m3)) + lo16 (edx (gpr m3)) = 0xc0058.
Proof.
  destruct (set_then_get demo_out (demo_in 0) demo_soft (demo_mach 0x0100 0xc 0x58 demo_mem) 0x100 0x200 0x202
    time_mem_ok ltac:(done) eq_refl) as (m1 & Hl & _ & _ & _ & _ & Hg).
  exists m1. split; [exact Hl|].
  destruct (Hg (set_gpr (Regs 0 0 0 0 0 0 0) m1) 0x100 0x200 0x202 eq_refl eq_refl) as (m3 & Hl3 & Ev & _).
  exists m3. split; [exact Hl3|]. etrans; [exact Ev|]. reflexivity.
Defined.

Lemma int1a_reports_witness :
  exists m', leaves demo_out (demo_in 0x80) demo_soft time_code
      (interrupted time_code "isr16_0x1a" 0x100 0x200 0x202 (demo_mach 0x0200 1 2 demo_mem)) (Retf 0x100 0x200) m' /\
    cf m' = true /\ gpr m' = gpr (demo_mach 0x0200 1 2 demo_mem).
Proof.
  destruct (int1a_reports demo_out (demo_in 0x80) demo_soft (demo_mach 0x0200 1 2 demo_mem) 0x100 0x200 0x202
    (demo_in_byte 0x80 ltac:(done)) (or_intror (conj eq_refl eq_refl))) as (m' & Hl & Hc & Hg & _).
  exists m'. split; [exact Hl|]. split; [exact Hc|exact Hg].
Defined.

Lemma read_rtc_returns_witness :
  reaches demo_out (demo_in 0x12) demo_soft time_code
    (Mach (Regs 1 2 3 4 5 6 7) (Segs 0 0 0 0 0) false false demo_mem [5] tt (entry time_code "read_rtc"))
    (Mach (Regs 1 2 0x1212 0x1200 5 6 7) (Segs 0 0 0 0 0) false false demo_mem [] tt 5%nat).
Proof.
  pose proof (read_rtc_returns demo_out (demo_in 0x12) demo_soft 1 2 3 4 5 6 7 (Segs 0 0 0 0 0) false false demo_mem
    5%nat [] tt (demo_in_byte 0x12 ltac:(done))) as H.
  assert (E : rtc_read demo_out (demo_in 0x12) (lo16 3) (lo16 4) tt = (true, (0x1212, 0x1200), tt)) by (vm_compute; reflexivity).
  rewrite E in H. exact H.
Defined.

(** With a clock that always gives 0x12 as its reading, function 2 called with ax = 0x0200 and si = 0x55
    goes to 0x55:0x200. *)
Lemma get_rtc_goes_astray_witness :
  exists m', leaves demo_out (demo_in 0x12) demo_soft time_code
      (interrupted time_code "isr16_0x1a" 0x100 0x300 0x202 (demo_mach 0x0200 1 2 demo_mem)) (Retf 0x200 0x55) m'.
Proof.
  pose proof (get_rtc_goes_astray demo_out (demo_in 0x12) demo_soft (demo_mach 0x0200 1 2 demo_mem) 0x100 0x300 0x202
    (demo_in_byte 0x12 ltac:(done)) eq_refl eq_refl) as H.
  assert (E1 : forall c x, rtc_read demo_out (demo_in 0x12) c x tt = (true, (0x1212, 0x1200), tt)) by (intros; vm_compute; reflexivity).
  cbn [demo_mach gpr dev] in H. change (cmos_dev demo_out (demo_in 0x12) CMOS_DIAG tt) with tt in H.
  rewrite !E1 in H. destruct (H eq_refl eq_refl) as (m' & Hl & _). by exists m'.
Defined.

(** ** Types *)

Lemma time_code_ok : code_ok time_code = true.
Proof. vm_compute. reflexivity. Qed.


