(* ===== verification/Vecs.v ===== *)
(** * Interrupt vectors of stage 2: src/stage2/16/vecs16.asm

    [vecs16] is the table of interrupt vectors, as the file's macros make it, and [vecs_code] the
    code the macros and the file put behind it: the stubs of the interrupts that are not implemented,
    their common end, and int 0x11 and int 0x12.  [irq_c_code] is the wrapper of an interrupt whose
    handler is C, that of the keyboard ([Kb]). *)

From S2P Require Import Prelude Util Bmem Bparm Rimg Phys X86.

(** ** The table *)

Inductive vec :=
  | ISR_UNIMPL (n : Z) | ISR_IMPL (n : Z) | ISR_IRQ (n irq : Z) | ISR_IRQ_C (n irq : Z) | ISR_IRET (n : Z).

Definition vecs16 : list vec := [
  ISR_UNIMPL 0x00; ISR_IRET 0x01; ISR_UNIMPL 0x02; ISR_IRET 0x03; ISR_IRET 0x04; ISR_UNIMPL 0x05;
  ISR_UNIMPL 0x06; ISR_UNIMPL 0x07; ISR_IRQ 0x08 0; ISR_IRQ_C 0x09 1; ISR_UNIMPL 0x0a; ISR_UNIMPL 0x0b;
  ISR_UNIMPL 0x0c; ISR_UNIMPL 0x0d; ISR_UNIMPL 0x0e; ISR_UNIMPL 0x0f; ISR_UNIMPL 0x10; ISR_IMPL 0x11;
  ISR_IMPL 0x12; ISR_UNIMPL 0x13; ISR_UNIMPL 0x14; ISR_UNIMPL 0x15; ISR_UNIMPL 0x16; ISR_UNIMPL 0x17;
  ISR_UNIMPL 0x18; ISR_UNIMPL 0x19; ISR_IMPL 0x1a; ISR_IRET 0x1b; ISR_IRET 0x1c ].

Definition vec_no (v : vec) : Z :=
  match v with ISR_UNIMPL n | ISR_IMPL n | ISR_IRQ n _ | ISR_IRQ_C n _ | ISR_IRET n => n end.

(** The hexadecimal digits of a byte, as a part of a name. *)
Definition digits (n : Z) : string :=
  (String.substring (Z.to_nat (n / 16)) 1 "0123456789abcdef" ++ String.substring (Z.to_nat (n mod 16)) 1 "0123456789abcdef")%string.

(** The name of the code a vector leads to. *)
Definition handler (v : vec) : string :=
  (match v with
   | ISR_UNIMPL n => "isr16_0x" ++ digits n ++ "_unimpl"
   | ISR_IMPL n => "isr16_0x" ++ digits n
   | ISR_IRQ _ k | ISR_IRQ_C _ k => "irq" ++ String.substring (Z.to_nat k) 1 "0123456789"
   | ISR_IRET _ => "iret16"
   end)%string.

(** What the macro [ISR_UNIMPL] puts into the code. *)
Definition stub (v : vec) : list instr :=
  match v with ISR_UNIMPL n => [Lbl (handler v); call "isr16_unimpl"; Db n] | _ => [] end.

(** ** The code *)

Definition bda_eqpt : Z := 0x410.
Definition PIC1_DATA : Z := 0x21.
Definition PIC2_DATA : Z := 0xa1.

Definition bios_code : list instr := [
  Lbl "isr16_0x11";
    push DS; xor AX AX; mov DS AX; movzx EAX (Mem Word DS None bda_eqpt); pop DS;
  Lbl "iret16";
    iret;
  Lbl "isr16_0x12";
    push DS; xor AX AX; mov DS AX; mov AX (Mem Word DS None bda_base_kib); pop DS; iret ].

Definition hex_code : list instr := [
  Lbl "u8_to_hex";
    mov AH AL; shr AL 4; and_ AH 0x0f; add AL 48; cmp AL 57; jcc c_be "u8_to_hex.0"; add AL (97 - (57 + 1));
  Lbl "u8_to_hex.0";
    add AH 48; cmp AH 57; jcc c_be "u8_to_hex.1"; add AH (97 - (57 + 1));
  Lbl "u8_to_hex.1";
    ret ].

(** The message, and the addresses of its parts in the data segment. *)
Definition text (s : string) : list Z := (fun c => Z.of_nat (Ascii.nat_of_ascii c)) <$> String.list_ascii_of_string s.

Definition msg_head : list Z := [13; 10] ++ text "stage2 panic: int 0x".
Definition msg_mid : list Z := text " unimplemented (with ax = 0x".
Definition msg_tail : list Z := text ")" ++ [7].

Definition message (n ax : list Z) : list Z := msg_head ++ n ++ msg_mid ++ ax ++ msg_tail.
Definition msg_unimpl : list Z := message (text "00") (text "0000").

Section vecs.
Context (msg msg_num msg_ax msg_ax2 : Z).

Definition unimpl_code : list instr := [
  Lbl "isr16_unimpl";
    pop BX; xchg DX AX; xor AX AX; mov DS AX; dec AX; out PIC1_DATA AL; out PIC2_DATA AL;
    mov AX (Mem Word DS None bda_ebda); mov DS AX; mov ES AX; mov SS AX; mov_sp;
    mov_cs AL EBX; call "u8_to_hex"; mov (Mem Word DS None msg_num) AX;
    mov AL DH; call "u8_to_hex"; mov (Mem Word DS None msg_ax) AX;
    xchg DX AX; call "u8_to_hex"; mov (Mem Word DS None msg_ax2) AX;
    mov AH 0x03; xor BH BH; int 0x10;
    mov AX 0x1301; mov BX 0x0007; mov CX (zlen msg_unimpl); mov BP msg; int 0x10;
    cli; hlt ].

Definition vecs_code : list instr := concat (stub <$> vecs16) ++ bios_code ++ unimpl_code ++ hex_code.
End vecs.

(** The hexadecimal digit of [v], in ASCII. *)
Definition hexd (v : Z) : Z := if v <? 10 then 48 + v else 87 + v.

Definition hex2 (v : Z) : list Z := [hexd (v / 16); hexd (v mod 16)].

(** The outcome [v] of the comparison [e] is a matter of arithmetic. *)
Ltac known e v :=
  let H := fresh in
  assert (H : e = v)
    by (first [apply Z.ltb_lt | apply Z.ltb_ge | apply Z.eqb_eq | apply Z.eqb_neq]; change (2 ^ 8) with 256; lia);
  rewrite H; clear H.

Section hex.
Context {D : Type} (outb : Z -> Z -> D -> D) (inb : Z -> D -> Z * D) (soft : Z -> mach D -> mach D).
Context (msg msg_num msg_ax msg_ax2 : Z).

Abbreviation code := (vecs_code msg msg_num msg_ax msg_ax2).

Lemma u8_to_hex_spec a b c x si di bp s cy z pm r st dv :
  let v := lo8 a in
  reaches outb inb soft code
    (Mach (Regs a b c x si di bp) s cy z pm (Z.of_nat r :: st) dv (entry code "u8_to_hex"))
    (Mach (Regs (bytes16 a (hexd (v mod 16)) (hexd (v / 16))) b c x si di bp) s
       (v mod 16 <? 9) (v mod 16 =? 9) pm st dv r).
Proof.
  destruct s as [sd se sf sg ss]. cbn zeta. locate. rewrite <- (bytes16_id a) at 1.
 pose proof (hi8_range a) as Hh. pose proof (lo8_range a) as Hl. set (v := lo8 a) in *. clearbody v.
  assert (Hd : 0 <= v / 16 < 16) by (change (2 ^ 8) with 256 in Hl; dlia).
  pose proof (Z.mod_pos_bound v 16 eq_refl) as Hm.
  assert (E1 : u8 (Z.shiftr v 4 + 48) = 48 + v / 16).
  { rewrite Z.shiftr_div_pow2 by done. change (2 ^ 4) with 16. rewrite (wrap_small 8) by (change (2 ^ 8) with 256; lia). lia. }
  assert (E2 : u8 (Z.land v 15 + 48) = 48 + v mod 16).
  { change 15 with (Z.ones 4). rewrite Z.land_ones by done. change (2 ^ 4) with 16.
    rewrite (wrap_small 8) by (change (2 ^ 8) with 256; lia). lia. }
  set (h := v / 16) in *. set (l := v mod 16) in *. clearbody h l.
  assert (R : forall k, 0 <= k < 16 -> 0 <= 48 + k < 2 ^ 8 /\ (10 <= k -> u8 (48 + k + 39) = 87 + k)).
  { clear. intros k Hk. change (2 ^ 8) with 256. split; [lia|]. intros. rewrite (wrap_small 8); change (2 ^ 8) with 256; lia. }
  destruct (R h Hd) as [Rh Eh], (R l Hm) as [Rl El].
  assert (Hend : forall k, 0 <= k < 16 -> 0 <= hexd k < 2 ^ 8)
    by (clear; intros k Hk; unfold hexd; change (2 ^ 8) with 256; destruct (_ <? _); lia).
  pose proof (Hend h Hd) as Fh.
  transitivity (Mach (Regs (bytes16 a (Z.land v 15) (hexd h)) b c x si di bp) (Segs sd se sf sg ss)
    (if h <? 10 then 48 + h <? 57 else false) (h =? 9) pm (Z.of_nat r :: st) dv 112%nat).
  - unfold hexd. do 6 next. rewrite !E1. destruct (Z.ltb_spec h 10) as [Hc|Hc].
    + replace (48 + h =? 57) with (h =? 9) by (destruct (Z.eqb_spec h 9), (Z.eqb_spec (48 + h) 57); lia).
      destruct (Z.ltb_spec (48 + h) 57); [by next|]. known (h =? 9) true. by next.
    + known (48 + h =? 57) false. known (48 + h <? 57) false. do 2 next. rewrite !Eh by done.
      known (48 + h + 39 <? 2 ^ 8) true. known (87 + h =? 0) false. by known (h =? 9) false.
  - set (hh := hexd h) in *. clearbody hh. unfold hexd. do 3 next. rewrite !E2.
    destruct (Z.ltb_spec l 10) as [Hc|Hc].
    + replace (48 + l =? 57) with (l =? 9) by (destruct (Z.eqb_spec l 9), (Z.eqb_spec (48 + l) 57); lia).
      replace (48 + l <? 57) with (l <? 9) by (destruct (Z.ltb_spec l 9), (Z.ltb_spec (48 + l) 57); lia).
      destruct (Z.ltb_spec l 9); [by do 3 next|]. known (l =? 9) true. by do 3 next.
    + known (48 + l =? 57) false. known (48 + l <? 57) false. do 2 next. rewrite !El by done.
      known (48 + l + 39 <? 2 ^ 8) true. known (87 + l =? 0) false. known (l <? 9) false. known (l =? 9) false.
      by do 2 next.
Qed.
End hex.

Lemma hexd_byte k : 0 <= k < 16 -> 0 <= hexd k < 2 ^ 8.
Proof. intros Hk. unfold hexd. change (2 ^ 8) with 256. destruct (_ <? _); lia. Qed.

Lemma nibbles v : 0 <= v < 2 ^ 8 -> 0 <= v / 16 < 16 /\ 0 <= v mod 16 < 16.
Proof. intros Hv. change (2 ^ 8) with 256 in Hv. split; [dlia|by apply Z.mod_pos_bound]. Qed.

(** The two digits of [v] as [u8_to_hex] leaves them in [ax]. *)
Definition hex16 (v : Z) : Z := 2 ^ 8 * hexd (v mod 16) + hexd (v / 16).

(** The message with the digits in their places. *)
Lemma message_region pm A n ax :
  zlen n = 2 -> zlen ax = 4 ->
  region pm A (zlen msg_unimpl) = message n ax <->
  region pm A 22 = msg_head /\ region pm (A + 22) 2 = n /\ region pm (A + 24) 28 = msg_mid /\
  region pm (A + 52) 4 = ax /\ region pm (A + 56) 2 = msg_tail.
Proof.
  intros Hn Ha. replace (zlen msg_unimpl) with (22 + (2 + (28 + (4 + 2)))) by (vm_compute; reflexivity).
  rewrite !region_app, <- !Z.add_assoc by done. unfold message.
  change (22 + 2) with 24. change (22 + (2 + 28)) with 52. change (22 + (2 + (28 + 4))) with 56.
  assert (L : forall l k, zlen l = k -> 0 <= k -> forall b, length (region pm b k) = length l).
  { intros l k Hl Hk b. pose proof (region_len pm b k Hk) as E. unfold zlen in *. lia. }
  split; [|by intros (-> & -> & -> & -> & ->)].
  intros E. apply app_inj_1 in E as [-> E]; [|by apply L]. apply app_inj_1 in E as [-> E]; [|by apply L].
  apply app_inj_1 in E as [-> E]; [|by apply L]. apply app_inj_1 in E as [-> E]; [|by apply L]. done.
Qed.

Lemma region_store16 pm A h l :
  0 <= h < 2 ^ 8 -> 0 <= l < 2 ^ 8 -> region (store16 pm A (2 ^ 8 * l + h)) A 2 = [h; l].
Proof.
  intros Hh Hl. unfold store16. pose proof (region_write pm A [] (enc 2 (2 ^ 8 * l + h)) []) as E.
  change (zlen []) with 0 in E. rewrite Z.add_0_r, app_nil_r, zlen_enc in E. etrans; [exact E|]. cbn [enc].
  change (2 ^ 8) with 256 in *. f_equal; [dlia|]. f_equal. dlia.
Qed.

(** What the panic message says of interrupt [n] with [a] in [ax]. *)
Definition panic_message (n a : Z) : list Z := message (hex2 n) (hex2 (hi8 a) ++ hex2 (lo8 a)).

Lemma message_done pm A n a :
  0 <= n < 2 ^ 8 -> region pm A (zlen msg_unimpl) = msg_unimpl ->
  region (store16 (store16 (store16 pm (A + 22) (hex16 n)) (A + 52) (hex16 (hi8 a))) (A + 54) (hex16 (lo8 a)))
    A (zlen msg_unimpl) = panic_message n a.
Proof.
  intros Hn Hm. apply (message_region pm A (text "00") (text "0000") eq_refl eq_refl) in Hm as (H1 & _ & H2 & _ & H3).
  pose proof (nibbles n Hn) as [Hn1 Hn2]. pose proof (nibbles _ (hi8_range a)) as [Hh1 Hh2].
  pose proof (nibbles _ (lo8_range a)) as [Hl1 Hl2]. unfold hex16.
  apply message_region; [done|done|].
  assert (Hskip : forall pm B v k m, 0 <= m -> k + m <= B \/ B + 2 <= k -> region (store16 pm B v) k m = region pm k m)
    by (clear; intros pm B v k m Hm Hd; apply region_ext; intros i Hi; apply store16_out; unfold in_range; lia).
  split_and!.
  - by rewrite !Hskip by lia.
  - rewrite !(Hskip _ (A + 54)), !(Hskip _ (A + 52)) by lia. apply region_store16; by apply hexd_byte.
  - by rewrite !Hskip by lia.
  - change 4 with (2 + 2) at 1. rewrite region_app by done. rewrite (Hskip _ (A + 54)) by lia.
    rewrite region_store16 by (by apply hexd_byte). rewrite <- Z.add_assoc. change (52 + 2) with 54.
    by rewrite region_store16 by (by apply hexd_byte).
  - by rewrite !Hskip by lia.
Qed.
Section unimpl.
Context {D : Type} (outb : Z -> Z -> D -> D) (inb : Z -> D -> Z * D) (soft : Z -> mach D -> mach D).
Context (msg msg_num msg_ax msg_ax2 : Z).
Hypothesis msg_word : 0 <= msg < 2 ^ 16.

Abbreviation code := (vecs_code msg msg_num msg_ax msg_ax2).

(** The first half: the interrupt controllers are told to be quiet, and the message is completed. *)
Lemma unimpl_message a b c x si di bp s cy z pm k n st dv :
  code !! k = Some (Db n) -> Z.of_nat k < 2 ^ 16 -> 0 <= n < 2 ^ 8 -> 0 <= m16 pm bda_ebda < 2 ^ 16 ->
  let e := m16 pm bda_ebda in
  let pm1 := store16 pm (16 * e + msg_num) (hex16 n) in
  let pm2 := store16 pm1 (16 * e + msg_ax) (hex16 (hi8 a)) in
  let pm3 := store16 pm2 (16 * e + msg_ax2) (hex16 (lo8 a)) in
  exists a' b' x' cy' z',
    reaches outb inb soft code
      (Mach (Regs a b c x si di bp) s cy z pm (Z.of_nat k :: st) dv (entry code "isr16_unimpl"))
      (Mach (Regs a' b' c x' si di bp) (Segs e e (fs s) (gs s) e) cy' z' pm3 []
         (outb PIC2_DATA 255 (outb PIC1_DATA 255 dv)) (24 + entry code "isr16_unimpl")) /\
    hi8 a' = 3 /\ hi8 b' = 0.
Proof.
  intros Hk Hk2 Hn He. destruct s as [sd se sf sg ss]. cbn zeta. locate. cbn [fs gs Nat.add].
  change bda_ebda with 1038 in *. set (e := m16 pm 1038) in *.
  pose proof (nibbles n Hn) as [Hn1 Hn2]. pose proof (hexd_byte _ Hn1). pose proof (hexd_byte _ Hn2).
  pose proof (nibbles _ (hi8_range a)) as [Hh1 Hh2]. pose proof (hexd_byte _ Hh1). pose proof (hexd_byte _ Hh2).
  pose proof (nibbles _ (lo8_range a)) as [Hl1 Hl2]. pose proof (hexd_byte _ Hl1). pose proof (hexd_byte _ Hl2).
  set (pm3 := store16 (store16 _ _ _) _ _). 
  eexists _, _, _, _, _. split.
  - do 13 next. fold e.
    eapply reaches_step.
    { unfold step. cbn [pc]. match goal with |- context [?c !! 85%nat] => let v := eval vm_compute in (c !! 85%nat) in change (c !! 85%nat) with v end.
      cbv iota beta. exec_cbn. autorewrite with x86. rewrite lo16_with16 by lia. rewrite Nat2Z.id, Hk. exec_cbn. reflexivity. }
    clear Hk. next. etrans; [apply u8_to_hex_spec|]. autorewrite with x86.
    do 3 next. etrans; [apply u8_to_hex_spec|]. autorewrite with x86.
    do 3 next. etrans; [apply u8_to_hex_spec|]. autorewrite with x86. do 3 next. reflexivity.
  - split; [by apply hi8_bytes16|by apply hi8_with_hi8].
Qed.

(** The second half: the message goes to the screen, and the processor stops. *)
Lemma unimpl_print a b c x si di bp s cy z pm dv :
  let m2 cy z := Mach (Regs (with16 a 0x1301) (with16 b 7) (with16 c (zlen msg_unimpl)) x si di (with16 bp msg)) s cy z pm [] dv
    (30 + entry code "isr16_unimpl")%nat in
  (forall m, stk (soft 0x10 m) = stk m /\ pc (soft 0x10 m) = pc m) ->
  leaves outb inb soft code
    (Mach (Regs a b c x si di bp) s cy z pm [] dv (25 + entry code "isr16_unimpl"))
    Halted (set_pc (32 + entry code "isr16_unimpl") (soft 0x10 (m2 cy z))).
Proof.
  intros m2 Hs. destruct s as [sd se sf sg ss]. unfold m2 in *. clear m2. locate. cbn [Nat.add]. do 5 next.
  match goal with |- leaves _ _ _ _ (soft 16 ?m) _ _ => pose proof (Hs m) as [E1 E2] end.
  cbn [stk pc] in E1, E2. replace (zlen msg_unimpl) with 58 by (vm_compute; reflexivity).
  match goal with |- leaves _ _ _ _ ?m _ _ => destruct m as [g sg' cf' zf' pm' st' dv' p'] end.
  cbn [pc] in E2. subst p'. next. next.
Qed.

End unimpl.

(** ** The handlers *)

(** The code with the message at [msg] in the data segment. *)
Definition vecs16_code (msg : Z) : list instr := vecs_code msg (msg + 22) (msg + 52) (msg + 54).

(** The addresses are those of the labels in the message. *)
Lemma msg_labels : zlen msg_head = 22 /\ 22 + 2 + zlen msg_mid = 52 /\ 52 + 2 = 54.
Proof. split_and!; vm_compute; reflexivity. Qed.

Lemma unimpl_stub msg n :
  ISR_UNIMPL n ∈ vecs16 ->
  let k := entry (vecs16_code msg) (handler (ISR_UNIMPL n)) in
  (k < 70)%nat /\ 0 <= n < 2 ^ 8 /\ vecs16_code msg !! k = Some (Lbl (handler (ISR_UNIMPL n))) /\
  vecs16_code msg !! S k = Some (call "isr16_unimpl") /\ vecs16_code msg !! S (S k) = Some (Db n).
Proof.
  intros Hv. apply list_elem_of_In in Hv. cbn [vecs16 In] in Hv.
  repeat destruct Hv as [Hv|Hv]; try done; injection Hv as <-; cbv zeta.
  all: match goal with |- context [entry ?c ?l] => let v := eval vm_compute in (entry c l) in change (entry c l) with v end.
  all: split_and!; [lia|lia|lia|reflexivity..].
Qed.

Section handlers.
Context {D : Type} (outb : Z -> Z -> D -> D) (inb : Z -> D -> Z * D) (soft : Z -> mach D -> mach D) (msg : Z).

Implicit Types m : mach D.

Abbreviation code := (vecs16_code msg).

(** C25: An interrupt that is not implemented stops the machine: the interrupt controllers are told to be
    quiet, the cursor is asked for, and a message that shows the number of the interrupt and the
    value [ax] had, in hexadecimal, goes to the screen where the cursor is. *)
Theorem unimpl_panics n m :
  ISR_UNIMPL n ∈ vecs16 -> 0 <= msg -> msg + zlen msg_unimpl <= 2 ^ 16 -> pm_ok (mem m) ->
  let e := m16 (mem m) bda_ebda in
  (forall m, sgr (soft 0x10 m) = sgr m /\ stk (soft 0x10 m) = stk m /\ pc (soft 0x10 m) = pc m /\
     forall x, in_range (16 * e + msg) (zlen msg_unimpl) x -> mem (soft 0x10 m) x = mem m x) ->
  region (mem m) (16 * e + msg) (zlen msg_unimpl) = msg_unimpl ->
  exists m1 m2 m',
    leaves outb inb soft code (set_pc (entry code (handler (ISR_UNIMPL n))) m) Halted m' /\
    dev m1 = outb PIC2_DATA 255 (outb PIC1_DATA 255 (dev m)) /\ hi8 (eax (gpr m1)) = 3 /\ hi8 (ebx (gpr m1)) = 0 /\
    dev m2 = dev (soft 0x10 m1) /\ edx (gpr m2) = edx (gpr (soft 0x10 m1)) /\
    lo16 (eax (gpr m2)) = 0x1301 /\ lo16 (ebx (gpr m2)) = 7 /\
    region (mem m2) (16 * es (sgr m2) + lo16 (ebp (gpr m2))) (lo16 (ecx (gpr m2))) = panic_message n (eax (gpr m)) /\
    dev m' = dev (soft 0x10 m2) /\ mem m' = mem (soft 0x10 m2).
Proof.
  intros Hv Hm0 Hm1 Hpm e Hs Hmsg. destruct m as [[a b c x si di bp] s cy z pm st dv p].
  cbn [mem gpr dev X86.eax] in *. destruct (unimpl_stub msg n Hv) as (Hk & Hn & H1 & H2 & H3).
  set (k := entry code (handler (ISR_UNIMPL n))) in *. pose proof (m16_range pm Hpm bda_ebda) as He. fold e in He.
  assert (Hl : 0 <= msg < 2 ^ 16) by (change (zlen msg_unimpl) with 58 in Hm1; lia).
  destruct (unimpl_message outb inb soft msg (msg + 22) (msg + 52) (msg + 54) a b c x si di bp s cy z pm (S (S k)) n st dv
    H3 ltac:(lia) Hn He) as (a' & b' & x' & cy' & z' & Hr & Ha & Hb).
  fold e in Hr. rewrite !(Z.add_assoc (16 * e)) in Hr.
  pose proof (message_done pm (16 * e + msg) n a Hn Hmsg) as Hd.
  fold code in Hr.
  set (pm3 := store16 _ _ _) in *. set (m1 := Mach (Regs a' b' c x' si di bp) (Segs e e (fs s) (gs s) e) cy' z' pm3 []
    (outb PIC2_DATA 255 (outb PIC1_DATA 255 dv)) (25 + entry code "isr16_unimpl")%nat).
  destruct (Hs m1) as (E1 & E2 & E3 & E4). destruct (soft 0x10 m1) as [[a2 b2 c2 x2 si2 di2 bp2] s2 cy2 z2 pm2 st2 dv2 p2] eqn:Es.
  cbn [sgr stk pc mem m1] in E1, E2, E3, E4. subst s2 st2 p2.
  pose proof (unimpl_print outb inb soft msg (msg + 22) (msg + 52) (msg + 54) a2 b2 c2 x2 si2 di2 bp2
    (Segs e e (fs s) (gs s) e) cy2 z2 pm2 dv2 (fun m => conj (proj1 (proj2 (Hs m))) (proj1 (proj2 (proj2 (Hs m)))))) as Hp.
  cbv zeta beta in Hp. match type of Hp with leaves _ _ _ _ _ _ (set_pc ?q (soft _ ?m)) =>
    exists m1, m, (set_pc q (soft 0x10 m)) end. split.
  - eapply leaves_step; [unfold step; cbn [set_pc pc]; rewrite H1; cbn [exec]; reflexivity|].
    eapply leaves_step; [unfold step; cbn [set_pc pc]; rewrite H2; cbn [exec]; look_up; reflexivity|].
    eapply leaves_reaches; [exact Hr|]. eapply leaves_step; [|exact Hp].
    unfold step. cbn [pc]. assert (E : code !! (24 + entry code "isr16_unimpl")%nat = Some (int 0x10)) by (vm_compute; reflexivity).
    rewrite E. exact (f_equal (fun x => Ok (inl x)) Es).
  - rewrite Es. cbn [dev gpr sgr mem es X86.eax X86.ebx X86.ecx edx ebp set_pc m1].
    split_and!; try done; try (by apply lo16_with16).
    rewrite !lo16_with16 by done. rewrite <- Hd. apply region_ext. intros i Hi. apply E4. unfold in_range. lia.
Qed.

(** Int 0x11 and int 0x12 return, with every segment and the stack as they were, what the BIOS data
    area holds: the equipment word, in all of [eax], and the size of base memory, in [ax]; the
    interrupts that nobody has taken return at once. *)
Theorem bios_data_read m ip c fl :
  (exists m', leaves outb inb soft code (interrupted code "isr16_0x11" ip c fl m) (Iret ip c fl) m' /\
     gpr m' = set_reg EAX (m16 (mem m) bda_eqpt) (gpr m) /\ sgr m' = sgr m /\ stk m' = stk m /\ mem m' = mem m /\
     dev m' = dev m) /\
  (exists m', leaves outb inb soft code (interrupted code "isr16_0x12" ip c fl m) (Iret ip c fl) m' /\
     gpr m' = set_reg EAX (with16 (eax (gpr m)) (m16 (mem m) bda_base_kib)) (gpr m) /\ sgr m' = sgr m /\
     stk m' = stk m /\ mem m' = mem m /\ dev m' = dev m) /\
  (forall n, ISR_IRET n ∈ vecs16 ->
    exists m', leaves outb inb soft code (interrupted code (handler (ISR_IRET n)) ip c fl m) (Iret ip c fl) m' /\
      gpr m' = gpr m /\ sgr m' = sgr m /\ stk m' = stk m /\ mem m' = mem m /\ dev m' = dev m).
Proof.
  destruct m as [[a b ecx d si di bp] [sd se sf sg ss] cy z pm st dv p]. split_and!.
  - eexists. split; [rewrite interrupted_mach; locate; do 6 next; repeat next|]. done.
  - eexists. split; [rewrite interrupted_mach; locate; repeat next|]. done.
  - intros n _. eexists. split; [rewrite interrupted_mach; change (handler (ISR_IRET n)) with "iret16"; locate; repeat next|].
    done.
Qed.
End handlers.

(** The table has one entry for each interrupt from 0 on, in order, and every entry whose code is in
    this file leads to code that is there. *)
Theorem vectors_in_order msg i v :
  vecs16 !! i = Some v ->
  vec_no v = Z.of_nat i /\
  match v with
  | ISR_IRQ _ _ | ISR_IRQ_C _ _ => True
  | _ => v = ISR_IMPL 0x1a \/ exists n, label_pos (vecs16_code msg) (handler v) 0 = Some n
  end.
Proof.
  intros E. assert (Hl : (i < 29)%nat) by (apply lookup_lt_Some in E; exact E).
  do 29 (destruct i as [|i]; [injection E as <-; split; [reflexivity|]; try done;
    first [left; reflexivity | right; eexists; vm_compute; reflexivity]|]). lia.
Qed.

(** ** A concrete machine *)

(** The data segment is at 0x9f00, and the message at 0x20 in it. *)
Definition demo_mem : phys := write_bytes (store16 (fun _ => 0) bda_ebda 0x9f00) (16 * 0x9f00 + 0x20) msg_unimpl.

Definition demo_mach : mach unit :=
  Mach (Regs 0xabcd4a07 1 2 3 4 5 6) (Segs 0 0 0 0 0) false false demo_mem [] tt 0%nat.

Lemma vecs_mem_ok : pm_ok demo_mem.
Proof.
  apply write_bytes_ok; [by apply store_ok|].
  assert (H : forallb (fun b => (0 <=? b) && (b <? 256)) msg_unimpl = true) by (vm_compute; reflexivity).
  apply Forall_forall. intros b Hb. rewrite forallb_forall in H. apply list_elem_of_In, H in Hb.
  apply andb_prop in Hb as [?%Z.leb_le ?%Z.ltb_lt]. done.
Qed.

(** Int 0x15 with ax = 0x4a07 is not implemented. *)
Lemma unimpl_panics_witness :
  exists m2 m' : mach unit,
    leaves (fun _ _ d => d) (fun _ d => (0, d)) (fun _ m => m) (vecs16_code 0x20)
      (set_pc (entry (vecs16_code 0x20) (handler (ISR_UNIMPL 0x15))) demo_mach) Halted m' /\
    region (mem m2) (16 * es (sgr m2) + lo16 (ebp (gpr m2))) (lo16 (ecx (gpr m2))) =
      [13; 10] ++ text "stage2 panic: int 0x15 unimplemented (with ax = 0x4a07)" ++ [7].
Proof.
  assert (Hv : ISR_UNIMPL 0x15 ∈ vecs16) by (apply list_elem_of_In; cbn [vecs16 In]; tauto).
  destruct (unimpl_panics (fun _ _ d => d) (fun _ d => (0, d)) (fun _ m => m) 0x20 0x15 demo_mach Hv
    ltac:(done) ltac:(done) vecs_mem_ok (fun m => conj eq_refl (conj eq_refl (conj eq_refl (fun x _ => eq_refl))))
    ltac:(vm_compute; reflexivity)) as (m1 & m2 & m' & Hl & _ & _ & _ & _ & _ & _ & _ & Hr & _).
  exists m2, m'. split; [exact Hl|]. etrans; [exact Hr|]. vm_compute. reflexivity.
Defined.

Lemma vectors_in_order_witness :
  vec_no (ISR_UNIMPL 0x10) = 16 /\ exists n, label_pos (vecs16_code 0) (handler (ISR_UNIMPL 0x10)) 0 = Some n.
Proof.
  destruct (vectors_in_order 0 16 (ISR_UNIMPL 0x10) eq_refl) as [E [Hn|Hn]]; [discriminate Hn|].
  split; [exact E|exact Hn].
Defined.

(** ** Interrupts whose handler is C *)

(** The C function that handles interrupt request [k]. *)
Definition irq_impl (k : Z) : Z := 256 + k.

(** What the macro [ISR_IRQ_C] puts into the code; the interrupted program's stack begins at [base]. *)
Definition irq_c_code (base n k : Z) : list instr := [
  Lbl (handler (ISR_IRQ_C n k));
    push DS; push ES; push FS; push GS; push EAX; push ECX; push EDX; mov_esp EAX base; align_esp base; push EAX;
    xor AX AX; mov GS AX; mov FS (Mem Word GS None bda_ebda); mov AX SS; mov DS AX; mov ES AX;
    push 0; ccall (irq_impl k); pop_esp base; pop EDX; pop ECX; pop EAX; pop GS; pop FS; pop ES; pop DS; iret ].

Section irq_c.
Context {D : Type} (outb : Z -> Z -> D -> D) (inb : Z -> D -> Z * D) (soft : Z -> mach D -> mach D) (base n k : Z).

Implicit Types m : mach D.

(** The calling convention of C: what a function keeps. *)
Definition c_keeps m m' : Prop :=
  ebx (gpr m') = ebx (gpr m) /\ esi (gpr m') = esi (gpr m) /\ edi (gpr m') = edi (gpr m) /\ ebp (gpr m') = ebp (gpr m) /\
  sgr m' = sgr m /\ stk m' = stk m /\ pc m' = pc m.

(** The stack is found again below what has been pushed. *)
Lemma drop_sp p l :
  0 <= sp_of base l < 2 ^ 32 -> drop (length (p ++ l) - Z.to_nat ((base - u32 (sp_of base l)) / 2)) (p ++ l) = l.
Proof.
  intros H. rewrite (wrap_small 32) by done. unfold sp_of in *.
  replace (base - (base - 2 * Z.of_nat (length l))) with (Z.of_nat (length l) * 2) by lia.
  rewrite Z.div_mul, Nat2Z.id by lia. rewrite length_app, Nat.add_sub. apply drop_app_length.
Qed.

(** C27: The C handler of the interrupt is called once, with [gs] at zero, [fs] at the data of stage 2, [ds] and [es] at
    the stack, which is aligned; and the interrupt comes back to where it came from with every register,
    every segment and the stack as they were. *)
Theorem irq_c_transparent m ip c fl :
  (forall m, c_keeps m (soft (irq_impl k) m)) ->
  0 <= ss (sgr m) < 2 ^ 16 -> base < 2 ^ 32 -> base mod 2 = 0 -> 64 <= sp_of base (stk m) ->
  let code := irq_c_code base n k in
  exists m1 m', leaves outb inb soft code (interrupted code (handler (ISR_IRQ_C n k)) ip c fl m) (Iret ip c fl) m' /\
    sgr m1 = Segs (ss (sgr m)) (ss (sgr m)) (m16 (mem m) bda_ebda) 0 (ss (sgr m)) /\ sp_of base (stk m1) mod 4 = 0 /\
    mem m1 = mem m /\ dev m1 = dev m /\
    mem m' = mem (soft (irq_impl k) m1) /\ dev m' = dev (soft (irq_impl k) m1) /\
    gpr m' = gpr m /\ sgr m' = sgr m /\ stk m' = stk m.
Proof.
  intros Hs Hss Hb He Hsp code. destruct m as [[a b ecx d si di bp] [sd se sf sg ss] cy z pm st dv p].
  rewrite interrupted_mach. cbn [gpr sgr mem stk dev X86.ss] in *.
  unfold irq_c_code in code. set (l := handler (ISR_IRQ_C n k)) in *. clearbody l.
  set (f := irq_impl k) in *. clearbody f.
  assert (Ee : entry code l = 0%nat) by (unfold entry, code; cbn [label_pos]; by rewrite String.eqb_refl).
  rewrite Ee. clear Ee. subst code.
  set (l0 := d mod 2 ^ 16 :: d / 2 ^ 16 :: ecx mod 2 ^ 16 :: ecx / 2 ^ 16 :: a mod 2 ^ 16 :: a / 2 ^ 16 :: sg :: sf :: se :: sd :: ip :: c :: fl :: st).
  assert (Hl0 : 0 <= sp_of base l0 < 2 ^ 32) by (unfold l0, sp_of in *; cbn [length]; lia).
  assert (Hpad : exists p, (sp_of base l0 mod 4 =? 0) = bool_decide (p = []) /\ (p = [] \/ p = [0])) by (destruct (_ =? _); [exists []|exists [0]]; auto).
  destruct Hpad as (pad & Epad & Hpad).
  set (l1 := pad ++ l0).
  set (m1 := Mach (Regs (with16 (u32 (sp_of base l0)) ss) b ecx d si di bp) (Segs ss ss (m16 pm bda_ebda) 0 ss) false true pm
    (u32 (sp_of base l0) mod 2 ^ 16 :: u32 (sp_of base l0) / 2 ^ 16 :: l1) dv 19%nat).
  destruct (Hs m1) as (K1 & K2 & K3 & K4 & K5 & K6 & K7).
  destruct (soft f m1) as [[a2 b2 c2 d2 si2 di2 bp2] sg2 cy2 z2 pm2 st2 dv2 p2] eqn:Es.
  cbn [gpr sgr stk pc X86.ebx X86.esi X86.edi X86.ebp m1] in K1, K2, K3, K4, K5, K6, K7. subst.
  exists m1. eexists. split.
  - do 9 next. fold l0. eapply leaves_step.
    { assert (E10 : forall (X : mach D + exit * mach D), X = inl (Mach (Regs (u32 (sp_of base l0)) b ecx d si di bp)
        (Segs sd se sf sg ss) cy z pm l1 dv 10%nat) -> @Ok _ X = Ok (inl (Mach (Regs (u32 (sp_of base l0)) b ecx d si di bp)
        (Segs sd se sf sg ss) cy z pm l1 dv 10%nat))) by (intros ? ->; done).
      unfold step. cbn [pc]. match goal with |- context [?c !! ?n] => let v := eval vm_compute in (c !! n) in change (c !! n) with v end.
      cbv iota beta. exec_cbn. apply E10. rewrite Epad. unfold l1. by destruct Hpad as [->| ->]. }
    do 8 next. eapply leaves_step.
    { unfold step. cbn [pc]. match goal with |- context [?c !! ?n] => let v := eval vm_compute in (c !! n) in change (c !! n) with v end.
      cbv iota beta. exec_cbn. exact (f_equal (fun x => Ok (inl x)) Es). }
    next. unfold l1. rewrite drop_sp by done. unfold l0. repeat next.
  - rewrite Es. cbn [sgr gpr stk mem dev m1]. split_and!; try done.
    unfold l1, sp_of in *. cbn [length]. rewrite length_app. destruct Hpad as [->| ->].
    + rewrite bool_decide_true in Epad by done. apply Z.eqb_eq in Epad. cbn [length]. clear - Epad. dlia.
    + rewrite bool_decide_false in Epad by done. apply Z.eqb_neq in Epad. cbn [length]. clear - Epad He. dlia.
Qed.
End irq_c.

(** The keyboard's interrupt, with a handler that moves the head of the buffer. *)
Lemma irq_c_transparent_witness :
  exists m', leaves (fun _ _ d => d) (fun _ d => (0, d)) (fun _ m => set_mem (store16 (mem m) 0x41a 0x20) m) (irq_c_code 0x8000 9 1)
      (interrupted (irq_c_code 0x8000 9 1) "irq1" 0x100 0x200 0x202 demo_mach) (Iret 0x100 0x200 0x202) m' /\
    gpr m' = gpr demo_mach /\ m16 (mem m') 0x41a = 0x20.
Proof.
  destruct (irq_c_transparent (fun _ _ d => d) (fun _ d => (0, d)) (fun _ m => set_mem (store16 (mem m) 0x41a 0x20) m) 0x8000 9 1
    demo_mach 0x100 0x200 0x202) as (m1 & m' & Hl & _ & _ & _ & _ & Em & _ & Eg & _);
    [intros m; by split_and!|by split|done|done|done|].
  exists m'. split; [exact Hl|]. split; [exact Eg|]. rewrite Em. apply m16_store16. done.
Defined.
