(* ===== verification/Hello.v ===== *)
(** * [hello16] (src/stage2/16/do-rm16-call.asm)

    The last real-mode code that stage 2 calls of its own: it asks the display's option ROM to set
    the screen mode, for the cursor, and to write a message, and then enables interrupts and waits
    for good.  [hello_code] is its lines, for the semantics of [X86].  The theorem follows it through
    its three calls and into its loop, with the timer interrupt of [Time] and other interrupts
    coming at any time. *)

From S2P Require Import Prelude Util Bmem Bparm Rimg Phys X86 Time Vecs.

(** The message; the version is what the program was built with. *)
Definition hello_msg (version : list Z) : list Z :=
  text ".:. biefircate " ++ version ++ text " .:. " ++ text "hello world from int 0x10" ++ [13; 10].

(** [len] is the length of the message, and [msg] its address in the data segment; [jmp $] is a jump
    to the label that is put before it. *)
Definition hello_code (msg len : Z) : list instr := [
  Lbl "hello16";
    mov AX 0x0003; int 0x10; mov AH 0x03; xor BH BH; int 0x10;
    mov AX 0x1301; mov BX 0x0007; mov CX len; mov BP msg; int 0x10; sti;
  Lbl "hello16.$";
    jmp "hello16.$"; retf 0 ].

Section hello.
Context {D : Type} (outb : Z -> Z -> D -> D) (inb : Z -> D -> Z * D) (soft : Z -> mach D -> mach D).
Context (msg len : Z).

Implicit Types m : mach D.

Abbreviation code := (hello_code msg len).

(** ** Up to the loop *)

(** The option ROM puts back what the code relies on between its calls. *)
Definition video_returns m : Prop :=
  sgr (soft 0x10 m) = sgr m /\ stk (soft 0x10 m) = stk m /\ pc (soft 0x10 m) = pc m.

Lemma hello_print m :
  (forall m, video_returns m) -> 0 <= msg < 2 ^ 16 -> 0 <= len < 2 ^ 16 -> pc m = entry code "hello16" ->
  exists m1 m2 m3 m0,
    reaches outb inb soft code m m0 /\ pc m0 = entry code "hello16.$" /\
    (mem m1 = mem m /\ dev m1 = dev m /\ lo16 (eax (gpr m1)) = 3 /\ sgr m1 = sgr m) /\
    (mem m2 = mem (soft 0x10 m1) /\ dev m2 = dev (soft 0x10 m1) /\ hi8 (eax (gpr m2)) = 3 /\ hi8 (ebx (gpr m2)) = 0 /\ sgr m2 = sgr m) /\
    (mem m3 = mem (soft 0x10 m2) /\ dev m3 = dev (soft 0x10 m2) /\ edx (gpr m3) = edx (gpr (soft 0x10 m2)) /\
     lo16 (eax (gpr m3)) = 0x1301 /\ lo16 (ebx (gpr m3)) = 7 /\ lo16 (ecx (gpr m3)) = len /\
     lo16 (ebp (gpr m3)) = msg /\ sgr m3 = sgr m) /\
    (mem m0 = mem (soft 0x10 m3) /\ dev m0 = dev (soft 0x10 m3) /\ sgr m0 = sgr m /\ stk m0 = stk m).
Proof.
  intros Hv Hm Hl Hpc. destruct m as [[a b c x si di bp] s cy z pm st dv p]. cbn [pc] in Hpc. subst p.
  set (m1 := Mach (Regs (with16 a 3) b c x si di bp) s cy z pm st dv 3%nat).
  destruct (Hv m1) as (S1 & T1 & P1).
  destruct (soft 0x10 m1) as [[a1 b1 c1 x1 si1 di1 bp1] s1 cy1 z1 pm1 st1 dv1 p1] eqn:E1.
  cbn [sgr stk pc m1] in S1, T1, P1. subst s1 st1 p1.
  set (m2 := Mach (Regs (with_hi8 a1 3) (with_hi8 b1 0) c1 x1 si1 di1 bp1) s false true pm1 st dv1 6%nat).
  destruct (Hv m2) as (S2 & T2 & P2).
  destruct (soft 0x10 m2) as [[a2 b2 c2 x2 si2 di2 bp2] s2 cy2 z2 pm2 st2 dv2 p2] eqn:E2.
  cbn [sgr stk pc m2] in S2, T2, P2. subst s2 st2 p2.
  set (m3 := Mach (Regs (with16 a2 0x1301) (with16 b2 7) (with16 c2 len) x2 si2 di2 (with16 bp2 msg)) s cy2 z2 pm2 st dv2 11%nat).
  destruct (Hv m3) as (S3 & T3 & P3).
  destruct (soft 0x10 m3) as [g3 s3 cy3 z3 pm3 st3 dv3 p3] eqn:E3.
  cbn [sgr stk pc m3] in S3, T3, P3. subst s3 st3 p3.
  exists m1, m2, m3, (Mach g3 s cy3 z3 pm3 st dv3 (entry code "hello16.$")).
  rewrite E1, E2. split; [|cbn [gpr sgr mem stk dev pc eax ebx ecx edx ebp es m1 m2 m3]; rewrite E3; split_and!; try done; try by apply lo16_with16].
  - locate. do 2 next. eapply reaches_step; [exact (f_equal (fun q => Ok (inl q)) E1)|].
    do 2 next. eapply reaches_step; [exact (f_equal (fun q => Ok (inl q)) E2)|].
    do 4 next. eapply reaches_step; [exact (f_equal (fun q => Ok (inl q)) E3)|]. by next.
  - by apply hi8_with_hi8.
  - by apply hi8_with_hi8.
Qed.

(** ** The loop *)

Lemma in_loop_for_good fuel m m0 :
  reaches outb inb soft code m m0 -> pc m0 = entry code "hello16.$" -> run outb inb soft code fuel m = Fail Diverges.
Proof.
  intros Hr Hp. apply (never_leaves_from outb inb soft code (fun m => pc m = entry code "hello16.$") fuel m m0); [|done|done].
  clear. intros [g s cy z pm st dv p] Hp. cbn [pc] in Hp. subst p. locate. eexists _, _.
  split; [by next|]. split; [one_step|done].
Qed.

(** ** Interrupts in the loop *)

(** The processor goes on after an interrupt that came in state [m] and whose handler ended in
    state [m']: the flags and the place in the code are on the stack that the handler left. *)
Definition resume m m' : mach D := Mach (gpr m') (sgr m') (cf m) (zf m) (mem m') (stk m') (dev m') (pc m).

(** Interrupts other than the timer's, such as the keyboard's. *)
Context (other : mach D -> mach D -> Prop).

(** What happens from [m] on, with [n] timer interrupts in it: instructions and interrupts, in any
    order. *)
Inductive waits : nat -> mach D -> mach D -> Prop :=
  | w_now m : waits 0 m m
  | w_step n m m1 m2 : waits n m m1 -> step outb inb soft code m1 = Ok (inl m2) -> waits n m m2
  | w_timer n m m1 m2 c fl :
      waits n m m1 ->
      leaves outb inb soft time_code (interrupted time_code "irq0" (Z.of_nat (pc m1)) c fl m1)
        (Iret (Z.of_nat (pc m1)) c fl) m2 ->
      waits (S n) m (resume m1 m2)
  | w_other n m m1 m2 : waits n m m1 -> other m1 m2 -> waits n m (resume m1 m2).

(** What the code relies on of what interrupts lead to: the display's option ROM puts back what is
    not its own and leaves the message alone, and so do the handlers; only the timer moves the clock. *)
Record services : Prop := {
  sv_video : forall m, video_returns m;
  sv_video_clock : forall m, clock_of (mem (soft 0x10 m)) = clock_of (mem m);
  sv_video_mem : forall m, pm_ok (mem m) -> pm_ok (mem (soft 0x10 m)) /\
    forall x, in_range (16 * es (sgr m) + msg) len x -> mem (soft 0x10 m) x = mem m x;
  sv_tick : forall m, keeps m (soft 0x1c m);
  sv_tick_clock : forall m, clock_of (mem (soft 0x1c m)) = clock_of (mem m);
  sv_tick_bytes : forall m, pm_ok (mem m) -> pm_ok (mem (soft 0x1c m));
  sv_other : forall m m', other m m' -> keeps m m';
  sv_other_clock : forall m m', other m m' -> clock_of (mem m') = clock_of (mem m);
  sv_other_bytes : forall m m', other m m' -> pm_ok (mem m) -> pm_ok (mem m');
}.

Hypothesis Hsv : services.

(** In the loop, with the registers and the stack of [m]. *)
Definition in_loop m m' : Prop :=
  (pc m' = entry code "hello16.$" \/ pc m' = S (entry code "hello16.$")) /\
  gpr m' = gpr m /\ sgr m' = sgr m /\ stk m' = stk m.

Lemma loop_step m :
  pc m = entry code "hello16.$" \/ pc m = S (entry code "hello16.$") ->
  exists n, step outb inb soft code m = Ok (inl (set_pc n m)) /\
    (n = entry code "hello16.$" \/ n = S (entry code "hello16.$")).
Proof.
  destruct m as [g s cy z pm st dv p]. cbn [pc]. locate. intros [-> | ->]; eexists; (split; [one_step|by auto]).
Qed.

Lemma waits_loop n m m' :
  pm_ok (mem m) -> clock_ok (clock_of (mem m)) -> pc m = entry code "hello16.$" -> waits n m m' ->
  in_loop m m' /\ pm_ok (mem m') /\ clock_of (mem m') = later (Z.of_nat n) (clock_of (mem m)).
Proof.
  intros Hpm Hc Hpc H. induction H as [m|n m m1 m2 _ IH E|n m m1 m2 c fl _ IH Hl|n m m1 m2 _ IH Ho].
  - split; [by repeat split; auto|]. by rewrite later_0.
  - destruct (IH Hpm Hc Hpc) as ((P & G & S & T) & B & C). destruct (loop_step m1 P) as (k & E' & Pk).
    rewrite E' in E. injection E as <-. done.
  - destruct (IH Hpm Hc Hpc) as ((P & G & S & T) & B & C).
    destruct (irq0_spec outb inb soft (sv_tick Hsv) m1 (Z.of_nat (pc m1)) c fl B) as (mt & m' & Hl' & G' & S' & T' & Et & _ & Bt & _ & Em & _).
    destruct (leaves_det _ _ _ _ _ _ _ _ _ Hl Hl') as [_ ->]. unfold in_loop. cbn [resume pc gpr sgr stk mem].
    rewrite G', S', T', Em. split; [done|]. split; [by apply (sv_tick_bytes Hsv)|].
    rewrite (sv_tick_clock Hsv), Et, C, tick_later by (done || lia). f_equal. lia.
  - destruct (IH Hpm Hc Hpc) as ((P & G & S & T) & B & C). destruct (sv_other Hsv _ _ Ho) as (G' & S' & T' & _).
    unfold in_loop. cbn [resume pc gpr sgr stk mem]. rewrite G', S', T'. split; [done|].
    split; [by apply (sv_other_bytes Hsv m1)|]. by rewrite (sv_other_clock Hsv _ _ Ho).
Qed.

(** The code from [m] on: it never leaves; its three calls are made with these registers, the last
    one with the message; and after any number of instructions and interrupts it is in its loop. *)
Definition stays (version : list Z) m : Prop :=
  (forall fuel, run outb inb soft code fuel m = Fail Diverges) /\
  exists m1 m2 m3 m0, reaches outb inb soft code m m0 /\
    dev m1 = dev m /\ lo16 (eax (gpr m1)) = 3 /\
    dev m2 = dev (soft 0x10 m1) /\ hi8 (eax (gpr m2)) = 3 /\ hi8 (ebx (gpr m2)) = 0 /\
    dev m3 = dev (soft 0x10 m2) /\ edx (gpr m3) = edx (gpr (soft 0x10 m2)) /\
    lo16 (eax (gpr m3)) = 0x1301 /\ lo16 (ebx (gpr m3)) = 7 /\
    region (mem m3) (16 * es (sgr m3) + lo16 (ebp (gpr m3))) (lo16 (ecx (gpr m3))) = hello_msg version /\
    dev m0 = dev (soft 0x10 m3) /\ sgr m0 = sgr m /\ stk m0 = stk m /\
    forall n m', waits n m0 m' ->
      in_loop m0 m' /\ clock_of (mem m') = later (Z.of_nat n) (clock_of (mem m)) /\
      exists m'', step outb inb soft code m' = Ok (inl m'').

Lemma hello16_stays_spec m version :
  0 <= msg < 2 ^ 16 -> len = zlen (hello_msg version) -> len < 2 ^ 16 ->
  pc m = entry code "hello16" -> pm_ok (mem m) -> clock_ok (clock_of (mem m)) ->
  region (mem m) (16 * es (sgr m) + msg) len = hello_msg version -> stays version m.
Proof.
  intros Hm0 El Hl Hpc Hpm Hc Hmsg.
  destruct (hello_print m (sv_video Hsv) Hm0 ltac:(unfold zlen in El; lia) Hpc)
    as (m1 & m2 & m3 & m0 & Hr & P0 & (M1 & D1 & A1 & G1) & (M2 & D2 & A2 & B2 & G2) & (M3 & D3 & X3 & A3 & B3 & C3 & N3 & G3) & (M0 & D0 & G0 & T0)).
  pose proof (sv_video_mem Hsv) as F. pose proof (sv_video_clock Hsv) as C.
  pose proof (F m1) as F1. pose proof (F m2) as F2. pose proof (F m3) as F3. rewrite M1, G1 in F1. rewrite M2 in F2. rewrite M3 in F3.
  destruct (F1 Hpm) as [Q1 R1]. destruct (F2 Q1) as [Q2 R2]. destruct (F3 Q2) as [Q3 _].
  assert (Ec : clock_of (mem m0) = clock_of (mem m)) by by rewrite M0, C, M3, C, M2, C, M1.
  split; [intros fuel; by apply (in_loop_for_good fuel m m0)|]. exists m1, m2, m3, m0. split_and!; try done.
  - rewrite N3, C3, G3, M3, <- Hmsg. apply region_ext. intros i Hi. rewrite R2, R1; [done|unfold in_range; lia|].
    rewrite G2. unfold in_range. lia.
  - intros n m' Hw. rewrite <- Ec.
    destruct (waits_loop n m0 m') as (Hin & _ & Eclk); [by rewrite M0|by rewrite Ec|done|done|].
    split; [done|]. split; [done|]. destruct (loop_step m' (proj1 Hin)) as (k & E & _). by eexists.
Qed.

(** C26: [hello16] never comes back.  It asks for the screen mode 3 and for the cursor, and has its
    message written where the cursor is; then it stays in its loop for good, whatever interrupts
    come, with the registers and the stack it has there: after any number of instructions and
    interrupts there is a next instruction, and it does not leave the code.  Meanwhile the clock goes
    on, by a tick for each timer interrupt. *)
Theorem hello16_stays m version :
  0 <= msg < 2 ^ 16 -> len = zlen (hello_msg version) -> len < 2 ^ 16 ->
  pc m = entry code "hello16" -> pm_ok (mem m) -> clock_ok (clock_of (mem m)) ->
  region (mem m) (16 * es (sgr m) + msg) len = hello_msg version -> stays version m.
Proof. apply hello16_stays_spec. Qed.
End hello.

(** ** A concrete machine *)

Definition demo_version : list Z := text "0.1".

(** The data segment is at 0x9f00, and the message at 0x40 in it. *)
Definition hello_mem : phys := write_bytes (fun _ => 0) (16 * 0x9f00 + 0x40) (hello_msg demo_version).

Definition hello_mach : mach unit :=
  Mach (Regs 1 2 3 4 5 6 7) (Segs 0x9f00 0x9f00 0 0 0x9f00) false false hello_mem [0x70; 0x9000] tt 0%nat.

Lemma hello_mem_ok : pm_ok hello_mem.
Proof.
  apply write_bytes_ok; [done|].
  assert (H : forallb (fun b => (0 <=? b) && (b <? 256)) (hello_msg demo_version) = true) by (vm_compute; reflexivity).
  apply Forall_forall. intros b Hb. rewrite forallb_forall in H. apply list_elem_of_In, H in Hb.
  apply andb_prop in Hb as [?%Z.leb_le ?%Z.ltb_lt]. done.
Qed.

(** An option ROM and a tick handler that do nothing. *)
Lemma hello16_stays_witness :
  (forall fuel, run (fun _ _ d => d) (fun _ d => (0, d)) (fun _ m => m) (hello_code 0x40 50) fuel hello_mach = Fail Diverges) /\
  exists m3 : mach unit,
    region (mem m3) (16 * es (sgr m3) + lo16 (ebp (gpr m3))) (lo16 (ecx (gpr m3))) =
      text ".:. biefircate 0.1 .:. hello world from int 0x10" ++ [13; 10].
Proof.
  assert (Hlen : 50 = zlen (hello_msg demo_version)) by (vm_compute; reflexivity).
  assert (Hm : region (mem hello_mach) (16 * es (sgr hello_mach) + 0x40) 50 = hello_msg demo_version)
    by (vm_compute; reflexivity).
  assert (Hc : clock_ok (clock_of (mem hello_mach))) by (split; vm_compute; split; congruence).
  assert (Hsv : services (fun _ m => m) 0x40 50 (fun _ _ : mach unit => False)) by by split.
  destruct (hello16_stays (fun _ _ d => d) (fun _ d => (0, d)) (fun _ m => m) 0x40 50 (fun _ _ => False) Hsv
    hello_mach demo_version ltac:(done) Hlen ltac:(done) eq_refl hello_mem_ok Hc Hm)
    as (Hrun & m1 & m2 & m3 & m0 & _ & _ & _ & _ & _ & _ & _ & _ & _ & _ & Hr & _).
  split; [exact Hrun|]. exists m3. etrans; [exact Hr|]. vm_compute. reflexivity.
Defined.
