(* ===== verification/Fv.v ===== *)
(** * Option ROMs in firmware volumes (src/stage1/fv.c)

    [fv_init] looks through the raw sections of all files of all firmware volumes for option
    ROMs, copies one image of each to pool memory and enters it into a hash table under the
    device ids it serves; [fv_find_rimg] looks a device up.  A firmware volume is the list of
    answers its protocol gives until the first error: the files, with their types and the
    contents of their raw sections.  [AllocatePool] is a parameter: what call number [k] returns
    while the blocks [live] hold copies of images.

    The specification of the table is the list of its entries, latest first ([ht_repr]). *)

From S2P Require Import Prelude Util Rimg.

Definition MAX_OROM_SZ : Z := 0xf0000.
Definition HASH_BUCKETS : Z := 1381.

Definition EFI_FV_FILETYPE_FIRMWARE_VOLUME_IMAGE : Z := 0x0b.
Definition EFI_FV_FILETYPE_FFS_PAD : Z := 0xf0.

Record ht_node_t := { n_pci_id : Z; n_class_if : Z; n_rimg_copy : Z; n_rimg_sz : Z }.

#[export] Instance ht_node_eq_dec : EqDecision ht_node_t.
Proof. solve_decision. Defined.

(** The buckets, each the nodes from its head; the copies in pool memory; the number of calls of
    [AllocatePool] so far. *)
Record fv_state := { ht : list (list ht_node_t); pool : gmap Z (list Z); pool_calls : nat }.

Definition fv_state0 : fv_state := {| ht := replicate (Z.to_nat HASH_BUCKETS) []; pool := ∅; pool_calls := 0 |}.

Definition no_mem_entry : string := "no mem. to cache option ROM image!".
Definition no_mem_img : string := "no mem. to cache ROM img.!".
Definition no_mem_key : string := "not enough mem. for FV key".

Definition fv_hash_bucket (pci_id class_if : Z) : Z :=
  u32 (Z.lor (Z.shiftl pci_id 32) class_if mod HASH_BUCKETS).

(** A file: its type and its raw sections.  A volume: its files. *)
Record fv_file := { f_type : Z; f_sections : list (list Z) }.
Definition fv_volume : Type := list fv_file.

(** [memcpy] from [n] bytes at [o]. *)
Definition copy_of (m : list Z) (o n : Z) : result (list Z) :=
  if (o <? 0) || (zlen m <? o + n) then Fail OutOfBounds
  else Ok (take (Z.to_nat n) (drop (Z.to_nat o) m)).

Section fv.
Variable AllocatePool : nat -> gset Z -> Z.

Definition alloc_pool (st : fv_state) : Z * fv_state :=
  (AllocatePool (pool_calls st) (dom (pool st)),
   {| ht := ht st; pool := pool st; pool_calls := S (pool_calls st) |}).

Definition fv_add_hash_entry (st : fv_state) (pci_id class_if rimg_copy sz : Z) : result fv_state :=
  let bucket := fv_hash_bucket pci_id class_if in
  let '(node, st) := alloc_pool st in
  if node =? 0 then Fail (Error no_mem_entry)
  else
    next ← aget (ht st) bucket;
    ht ← aset (ht st) bucket
      ({| n_pci_id := pci_id; n_class_if := class_if; n_rimg_copy := rimg_copy; n_rimg_sz := sz |} :: next);
    Ok {| ht := ht; pool := pool st; pool_calls := pool_calls st |}.

(** [while ((dev = *dev_ids++) != 0)] *)
Fixpoint add_dev_ids (fuel : nat) (st : fv_state) (m : list Z) (dev_ids vendor pci_id_0 class_if rimg_copy sz : Z)
    : result fv_state :=
  match fuel with
  | O => Fail Diverges
  | S fuel =>
      dev ← rd16 m dev_ids;
      let dev_ids := dev_ids + 2 in
      if dev =? 0 then Ok st
      else
        let pci_id := pci_make_id vendor dev in
        st ← (if negb (pci_id =? pci_id_0) then fv_add_hash_entry st pci_id class_if rimg_copy sz else Ok st);
        add_dev_ids fuel st m dev_ids vendor pci_id_0 class_if rimg_copy sz
  end.

Definition fv_cache_rimg (st : fv_state) (m : list Z) (rimg sz pcir : Z) : result fv_state :=
  c2 ← rd8 m (pcir + pcir_class_if + 2);
  c1 ← rd8 m (pcir + pcir_class_if + 1);
  c0 ← rd8 m (pcir + pcir_class_if);
  let class_if := Z.lor (Z.lor (Z.shiftl c2 24) (Z.shiftl c1 16)) (Z.shiftl c0 8) in
  pci_id_0 ← rd32 m (pcir + pcir_pci_id);
  let vendor := pci_id_vendor pci_id_0 in
  let rimg_end := rimg + sz in
  let '(rimg_copy, st) := alloc_pool st in
  if rimg_copy =? 0 then Fail (Error no_mem_img)
  else
    bytes ← copy_of m rimg sz;
    let st := {| ht := ht st; pool := <[rimg_copy := bytes]> (pool st); pool_calls := pool_calls st |} in
    dev_ids ← rimg_pcir_find_dev_id_list m pcir rimg_end;
    st ← fv_add_hash_entry st pci_id_0 class_if rimg_copy sz;
    match dev_ids with
    | Some dev_ids => add_dev_ids (S (length m)) st m dev_ids vendor pci_id_0 class_if rimg_copy sz
    | None => Ok st
    end.

(** The loop of [fv_gather_rimgs_for_one_sxn]; [found] is [found_rimg], [found_sz] and
    [found_pcir]. *)
Fixpoint gather_loop (fuel : nat) (st : fv_state) (m : list Z) (rom_left rom_left_sz : Z)
    (found : option (Z * Z * Z)) : result fv_state :=
  match fuel with
  | O => Fail Diverges
  | S fuel =>
      r ← rimg_find_pcir m rom_left rom_left_sz;
      match r with
      | None => Ok st
      | Some pcir =>
          hkib ← rd16 m (pcir + pcir_rimg_sz_hkib);
          let this_sz := u32 (hkib * HKIBYTE) in
          ty ← rd8 m (pcir + pcir_type);
          found ← (if ty =? PCIR_TYP_PCAT then
                     match found with
                     | None => Ok (Some (rom_left, this_sz, pcir))
                     | Some (found_rimg, found_sz, found_pcir) =>
                         found_rev ← rd8 m (found_pcir + pcir_pcir_rev);
                         this_rev ← rd8 m (pcir + pcir_pcir_rev);
                         if (found_rev <? 3) && (this_rev >=? 3)
                         then Ok (Some (rom_left, this_sz, pcir))
                         else Ok (Some (found_rimg, found_sz, found_pcir))
                     end
                   else Ok found);
          flags ← rd8 m (pcir + pcir_flags);
          '(st, found) ← (if negb (Z.land flags PCIR_FLAGS_LAST_IMAGE =? 0) then
                            match found with
                            | Some (found_rimg, found_sz, found_pcir) =>
                                st ← fv_cache_rimg st m found_rimg found_sz found_pcir; Ok (st, None)
                            | None => Ok (st, None)
                            end
                          else Ok (st, found));
          gather_loop fuel st m (rom_left + this_sz) (u64 (rom_left_sz - this_sz)) found
      end
  end.

Definition fv_gather_rimgs_for_one_sxn (st : fv_state) (rom : list Z) (rom_sz : Z) : result fv_state :=
  gather_loop (S (length rom)) st rom 0 rom_sz None.

(** [ReadSection] fills the buffer [sxn] with the section, cut off at the buffer's size, and
    returns the section's own size. *)
Definition read_section (sxn sec : list Z) : list Z :=
  take (Z.to_nat MAX_OROM_SZ) sec ++ drop (length (take (Z.to_nat MAX_OROM_SZ) sec)) sxn.

Fixpoint sections_loop (st : fv_state) (sxn : list Z) (secs : list (list Z)) : result fv_state :=
  match secs with
  | [] => Ok st
  | sec :: secs =>
      let sxn := read_section sxn sec in
      let sxn_sz := if zlen sec >? MAX_OROM_SZ then MAX_OROM_SZ else zlen sec in
      st ← fv_gather_rimgs_for_one_sxn st sxn sxn_sz;
      sections_loop st sxn secs
  end.

(** [sxn0] is what the buffer holds when it is allocated. *)
Definition fv_gather_rimgs_for_one_file (st : fv_state) (sxn0 : list Z) (f : fv_file) : result fv_state :=
  let '(_, st) := alloc_pool st in sections_loop st sxn0 (f_sections f).

Fixpoint files_loop (st : fv_state) (sxn0 : list Z) (files : list fv_file) : result fv_state :=
  match files with
  | [] => Ok st
  | f :: files =>
      if (f_type f =? EFI_FV_FILETYPE_FFS_PAD) || (f_type f =? EFI_FV_FILETYPE_FIRMWARE_VOLUME_IMAGE)
      then files_loop st sxn0 files
      else st ← fv_gather_rimgs_for_one_file st sxn0 f; files_loop st sxn0 files
  end.

Definition fv_gather_rimgs_for_one_fv (st : fv_state) (sxn0 : list Z) (v : fv_volume) : result fv_state :=
  let '(key, st) := alloc_pool st in
  if key =? 0 then Fail (Error no_mem_key) else files_loop st sxn0 v.

(** The handles found, each with its volume unless [HandleProtocol] failed for it. *)
Fixpoint volumes_loop (st : fv_state) (sxn0 : list Z) (vs : list (option fv_volume)) : result fv_state :=
  match vs with
  | [] => Ok st
  | None :: vs => volumes_loop st sxn0 vs
  | Some v :: vs => st ← fv_gather_rimgs_for_one_fv st sxn0 v; volumes_loop st sxn0 vs
  end.

Definition fv_init (st : fv_state) (sxn0 : list Z) (vs : list (option fv_volume)) : result fv_state :=
  match vs with
  | [] => Ok st
  | _ => volumes_loop {| ht := replicate (Z.to_nat HASH_BUCKETS) []; pool := pool st; pool_calls := pool_calls st |}
           sxn0 vs
  end.
End fv.

Fixpoint find_node (node : list ht_node_t) (pci_id class_if : Z) : option (Z * Z) :=
  match node with
  | [] => None
  | n :: node =>
      if (n_pci_id n =? pci_id) && (n_class_if n =? class_if) then Some (n_rimg_copy n, n_rimg_sz n)
      else find_node node pci_id class_if
  end.

(** [Some (rimg_copy, sz)] for [true] with the two results. *)
Definition fv_find_rimg (st : fv_state) (pci_id class_if : Z) : result (option (Z * Z)) :=
  node ← aget (ht st) (fv_hash_bucket pci_id class_if);
  Ok (find_node node pci_id class_if).

(** ** The table as the list of its entries *)

Definition same_key (pci_id class_if : Z) (n : ht_node_t) : bool :=
  (n_pci_id n =? pci_id) && (n_class_if n =? class_if).

Definition in_bucket (b : Z) (n : ht_node_t) : bool := fv_hash_bucket (n_pci_id n) (n_class_if n) =? b.

(** The table holds the entries of [log], latest first, each in its bucket. *)
Record ht_repr (st : fv_state) (log : list ht_node_t) : Prop := {
  ht_len : Z.of_nat (length (ht st)) = HASH_BUCKETS;
  ht_bucket : forall b, 0 <= b < HASH_BUCKETS ->
    ht st !! Z.to_nat b = Some (List.filter (in_bucket b) log);
}.

Lemma fv_hash_bucket_range pci_id class_if : 0 <= fv_hash_bucket pci_id class_if < HASH_BUCKETS.
Proof.
  unfold fv_hash_bucket. change HASH_BUCKETS with 1381. set (x := Z.lor _ _).
  pose proof (Z.mod_pos_bound x 1381 ltac:(lia)). rewrite wrap_small; lia.
Qed.

Lemma ht_repr0 st : ht st = replicate (Z.to_nat HASH_BUCKETS) [] -> ht_repr st [].
Proof.
  intros E. split; rewrite E; [by rewrite length_replicate|]. intros b Hb. cbn. apply lookup_replicate_2. lia.
Qed.

(** The first entry under a key. *)
Definition log_find (log : list ht_node_t) (pci_id class_if : Z) : option (Z * Z) :=
  (fun n => (n_rimg_copy n, n_rimg_sz n)) <$> List.find (same_key pci_id class_if) log.

Lemma find_node_filter log pci_id class_if :
  find_node (List.filter (in_bucket (fv_hash_bucket pci_id class_if)) log) pci_id class_if =
  log_find log pci_id class_if.
Proof.
  unfold log_find. induction log as [|n log IH]; [done|]. cbn [List.filter List.find].
  unfold same_key at 1. destruct (Z.eqb_spec (n_pci_id n) pci_id) as [<-|Hp];
    [destruct (Z.eqb_spec (n_class_if n) class_if) as [<-|Hc]|]; cbn [andb].
  - unfold in_bucket. rewrite Z.eqb_refl. cbn [find_node]. by rewrite !Z.eqb_refl.
  - destruct (in_bucket _ n); [|done]. cbn [find_node]. destruct (Z.eqb_spec (n_class_if n) class_if); [done|].
    by rewrite andb_false_r.
  - destruct (in_bucket _ n); [|done]. cbn [find_node]. by destruct (Z.eqb_spec (n_pci_id n) pci_id).
Qed.

Lemma fv_find_rimg_spec st log pci_id class_if :
  ht_repr st log -> fv_find_rimg st pci_id class_if = Ok (log_find log pci_id class_if).
Proof.
  intros [Hl Hb]. unfold fv_find_rimg. pose proof (fv_hash_bucket_range pci_id class_if) as Hr.
  destruct (aget_total (ht st) (fv_hash_bucket pci_id class_if) ltac:(lia)) as (x & -> & Hx). cbn.
  rewrite Hb in Hx by done. injection Hx as <-. by rewrite find_node_filter.
Qed.

Section tables.
Variable AllocatePool : nat -> gset Z -> Z.

Lemma add_entry_spec st log pci_id class_if rimg_copy sz :
  ht_repr st log ->
  match fv_add_hash_entry AllocatePool st pci_id class_if rimg_copy sz with
  | Ok st' =>
      ht_repr st' ({| n_pci_id := pci_id; n_class_if := class_if; n_rimg_copy := rimg_copy; n_rimg_sz := sz |} :: log) /\
      pool st' = pool st
  | Fail f => f = Error no_mem_entry /\ AllocatePool (pool_calls st) (dom (pool st)) = 0
  end.
Proof.
  intros [Hl Hb]. unfold fv_add_hash_entry, alloc_pool. cbn iota beta zeta.
  destruct (Z.eqb_spec (AllocatePool (pool_calls st) (dom (pool st))) 0) as [E|E]; [done|]. cbn [ht].
  pose proof (fv_hash_bucket_range pci_id class_if) as Hr.
  destruct (aget_total (ht st) (fv_hash_bucket pci_id class_if) ltac:(lia)) as (x & -> & Hx). cbn [mbind result_bind].
  rewrite aset_Ok by lia. cbn [mbind result_bind]. split; [|done]. split; cbn [ht]; [by rewrite length_insert|].
  intros b Hbr. cbn [List.filter]. unfold in_bucket at 1. cbn [n_pci_id n_class_if].
  rewrite Hb in Hx by done. injection Hx as <-.
  destruct (Z.eqb_spec (fv_hash_bucket pci_id class_if) b) as [<-|Hne].
  - apply list_lookup_insert_eq. lia.
  - rewrite list_lookup_insert_ne by lia. by apply Hb.
Qed.

(** The calls that can fail are those of [AllocatePool]. *)
Definition out_of_pool (f : failure) : Prop :=
  (f = Error no_mem_entry \/ f = Error no_mem_img \/ f = Error no_mem_key) /\
  exists k live, AllocatePool k live = 0.

Definition entry (class_if rimg_copy sz pci_id : Z) : ht_node_t :=
  {| n_pci_id := pci_id; n_class_if := class_if; n_rimg_copy := rimg_copy; n_rimg_sz := sz |}.

(** The further ids a device list gives. *)
Definition more_ids (pci_id_0 : Z) (l : list Z) : list Z :=
  List.filter (fun id => negb (id =? pci_id_0)) (pci_make_id (pci_id_vendor pci_id_0) <$> l).

Lemma add_dev_ids_spec m e id0 class_if copy sz l fuel : forall p st log,
  0 <= p -> e <= zlen m -> dev_ids m e p l -> (length l < fuel)%nat -> ht_repr st log ->
  match add_dev_ids AllocatePool fuel st m p (pci_id_vendor id0) id0 class_if copy sz with
  | Ok st' => ht_repr st' (rev (entry class_if copy sz <$> more_ids id0 l) ++ log) /\ pool st' = pool st
  | Fail f => out_of_pool f
  end.
Proof.
  revert fuel. induction l as [|d l IH]; intros [|fuel] p st log Hp He Hd Hf Hr; cbn [length] in Hf; try lia;
    inversion Hd as [q Hq Hz|q k Hq Hnz Hk]; subst; cbn [add_dev_ids];
    rewrite rd16_ok by lia; cbn [mbind result_bind].
  { rewrite Hz. cbn. done. }
  destruct (Z.eqb_spec (le16 m p) 0); [done|].
  unfold more_ids. cbn [fmap list_fmap List.filter].
  destruct (Z.eqb_spec (pci_make_id (pci_id_vendor id0) (le16 m p)) id0) as [->|Hne]; cbn [negb mbind result_bind].
  { apply IH; (lia || done). }
  pose proof (add_entry_spec st log (pci_make_id (pci_id_vendor id0) (le16 m p)) class_if copy sz Hr) as Hadd.
  destruct (fv_add_hash_entry _ _ _ _ _ _) as [st1|f]; cbn [mbind result_bind]; [|destruct Hadd as [-> Ha]; split; [tauto|eauto]].
  destruct Hadd as [Hr1 Hp1]. specialize (IH fuel (p + 2) st1 _ ltac:(lia) He Hk ltac:(lia) Hr1).
  destruct (add_dev_ids _ _ _ _ _ _ _ _ _ _) as [st'|f]; [|done]. destruct IH as [IH1 IH2].
  split; [|congruence]. cbn [fmap list_fmap rev]. by rewrite <- app_assoc.
Qed.

(** The ids under which an image is entered: its own, then those of its list. *)
Definition image_ids (m : list Z) (rimg pcir sz : Z) (ids : list Z) : Prop :=
  exists l, ids = le32 m (pcir + 4) :: more_ids (le32 m (pcir + 4)) l /\
    ((exists p, has_dev_ids m pcir (rimg + sz) p l) \/
     l = [] /\ forall p k, ~ has_dev_ids m pcir (rimg + sz) p k).

Lemma fv_cache_rimg_spec st log m rimg rom_sz pcir sz :
  bytes_ok m -> 0 <= rimg -> rimg + rom_sz <= zlen m -> rom_image m rimg rom_sz pcir sz -> ht_repr st log ->
  match fv_cache_rimg AllocatePool st m rimg sz pcir with
  | Ok st' => exists copy ids, image_ids m rimg pcir sz ids /\
      copy = AllocatePool (pool_calls st) (dom (pool st)) /\ copy <> 0 /\
      pool st' = <[copy := bytes_at m rimg sz]> (pool st) /\
      ht_repr st' (rev (entry (class_at m pcir) copy sz <$> ids) ++ log)
  | Fail f => out_of_pool f
  end.
Proof.
  intros Hm H0 Hlen Hi Hr. destruct (rom_image_bounds _ _ _ _ _ Hm Hi) as (B1 & B2 & B3 & B4 & B5).
  unfold fv_cache_rimg, pcir_class_if, pcir_pci_id.
  rewrite !rd8_ok, rd32_ok by lia. cbn [mbind result_bind]. replace (pcir + 13 + 2) with (pcir + 15) by lia.
  replace (pcir + 13 + 1) with (pcir + 14) by lia. rewrite class_shifts by by apply le8_range.
  fold (class_at m pcir). fold (le32 m (pcir + 4)). unfold alloc_pool. cbn iota beta zeta.
  set (copy := AllocatePool _ _). destruct (Z.eqb_spec copy 0) as [E|E].
  { split; [tauto|]. by exists (pool_calls st), (dom (pool st)). }
  unfold copy_of. destruct (Z.ltb_spec rimg 0), (Z.ltb_spec (zlen m) (rimg + sz)); try lia. cbn [orb mbind result_bind].
  destruct (find_dev_id_list_spec m pcir (rimg + sz) Hm ltac:(lia) ltac:(lia) ltac:(lia)) as (r & -> & Hrs).
  cbn [mbind result_bind ht pool pool_calls]. set (st1 := {| ht := ht st; pool := _; pool_calls := _ |}).
  assert (Hr1 : ht_repr st1 log) by (destruct Hr; by split).
  pose proof (add_entry_spec st1 log (le32 m (pcir + 4)) (class_at m pcir) copy sz Hr1) as Hadd.
  destruct (fv_add_hash_entry _ _ _ _ _ _) as [st2|f]; cbn [mbind result_bind];
    [|destruct Hadd as [-> Ha]; split; [tauto|eauto]].
  destruct Hadd as [Hr2 Hp2]. destruct r as [p|].
  - destruct (proj1 (Hrs p) eq_refl) as [l Hl]. pose proof Hl as (_ & _ & Hp & Hd).
    pose proof (le16_range m (pcir + 8) Hm). pose proof (dev_ids_length _ _ _ _ Hd).
    pose proof (add_dev_ids_spec m (rimg + sz) (le32 m (pcir + 4)) (class_at m pcir) copy sz l (S (length m)) p st2 _
      ltac:(lia) ltac:(lia) Hd ltac:(unfold zlen in *; lia) Hr2) as Hl2.
    destruct (add_dev_ids _ _ _ _ _ _ _ _ _ _) as [st'|f]; [|done]. destruct Hl2 as [Hr3 Hp3].
    exists copy, (le32 m (pcir + 4) :: more_ids (le32 m (pcir + 4)) l). split_and!; try done.
    + exists l. split; [done|]. left. by exists p.
    + by rewrite Hp3, Hp2.
    + cbn [fmap list_fmap rev]. by rewrite <- app_assoc.
  - exists copy, [le32 m (pcir + 4)]. split_and!; try done.
    exists []. split; [done|]. right. split; [done|]. intros p k Hk. by assert (None = Some p) by (apply Hrs; eauto).
Qed.
End tables.

(** ** Which images of a ROM are cached *)

Record img := { i_rimg : Z; i_sz : Z; i_pcir : Z }.

Definition is_pcat (m : list Z) (i : img) : bool := le8 m (i_pcir i + 20) =? 0.
Definition is_rev3 (m : list Z) (i : img) : bool := 3 <=? le8 m (i_pcir i + 12).
Definition is_last (m : list Z) (i : img) : bool := Z.testbit (le8 m (i_pcir i + 21)) 7.

(** Of the images of one ROM the PC-compatible one of revision 3 or later is preferred, and
    otherwise the earliest PC-compatible one. *)
Definition choose (m : list Z) (g : list img) : option img :=
  match List.find (fun i => is_pcat m i && is_rev3 m i) g with
  | Some i => Some i
  | None => List.find (is_pcat m) g
  end.

(** The images chosen from a sequence in which a flag marks the last image of each ROM; [g] are
    the images already seen of the first ROM. *)
Fixpoint picks (m : list Z) (g l : list img) : list img :=
  match l with
  | [] => []
  | i :: l =>
      if is_last m i then option_list (choose m (g ++ [i])) ++ picks m [] l
      else picks m (g ++ [i]) l
  end.

(** The images that follow one another from [rimg] on. *)
Inductive rom_images (m : list Z) : Z -> Z -> list img -> Prop :=
  | rom_images_end rimg rom_sz :
      (forall pcir sz, ~ rom_image m rimg rom_sz pcir sz) -> rom_images m rimg rom_sz []
  | rom_images_more rimg rom_sz pcir sz l :
      rom_image m rimg rom_sz pcir sz -> rom_images m (rimg + sz) (rom_sz - sz) l ->
      rom_images m rimg rom_sz ({| i_rimg := rimg; i_sz := sz; i_pcir := pcir |} :: l).

Lemma find_snoc {A} (P : A -> bool) l x :
  List.find P (l ++ [x]) = match List.find P l with Some y => Some y | None => if P x then Some x else None end.
Proof. induction l as [|y l IH]; cbn; [done|]. by destruct (P y). Qed.

Lemma choose_snoc m g i :
  choose m (g ++ [i]) =
    if is_pcat m i then
      match choose m g with
      | None => Some i
      | Some f => if negb (is_rev3 m f) && is_rev3 m i then Some i else Some f
      end
    else choose m g.
Proof.
  unfold choose. rewrite !find_snoc. cbn beta.
  destruct (List.find (fun i => is_pcat m i && is_rev3 m i) g) as [f|] eqn:E.
  - apply find_some in E as [_ [_ ->]%andb_true_iff]. by destruct (is_pcat m i).
  - destruct (is_pcat m i); cbn [andb].
    + destruct (List.find (is_pcat m) g) as [f|] eqn:Ef; [|by destruct (is_rev3 m i)].
      apply find_some in Ef as [Hin Hp]. pose proof (find_none _ _ E f Hin) as Hn. cbn beta in Hn.
      rewrite Hp in Hn. cbn in Hn. rewrite Hn. by destruct (is_rev3 m i).
    + by destruct (List.find (is_pcat m) g).
Qed.

Lemma testbit7_land b : 0 <= b < 256 -> negb (Z.land b PCIR_FLAGS_LAST_IMAGE =? 0) = Z.testbit b 7.
Proof.
  intros Hb. change PCIR_FLAGS_LAST_IMAGE with (2 ^ 7). destruct (Z.testbit b 7) eqn:E.
  - apply negb_true_iff, Z.eqb_neq. intros H. assert (Hz : Z.testbit (Z.land b (2 ^ 7)) 7 = false) by (by rewrite H).
    rewrite Z.land_spec, E, Z.pow2_bits_true in Hz by lia. done.
  - apply negb_false_iff, Z.eqb_eq, Z.bits_inj'. intros j Hj.
    rewrite Z.land_spec, Z.pow2_bits_eqb, Z.bits_0 by lia. destruct (Z.eqb_spec 7 j) as [<-|]; [by rewrite E|].
    by rewrite andb_false_r.
Qed.

Definition img_in (m : list Z) (i : img) : Prop := 0 <= i_pcir i /\ i_pcir i + 22 <= zlen m.
Definition triple (i : img) : Z * Z * Z := (i_rimg i, i_sz i, i_pcir i).

Lemma choose_in m g i : choose m g = Some i -> In i g /\ is_pcat m i = true.
Proof.
  unfold choose. destruct (List.find _ g) as [f|] eqn:E.
  - intros [= ->]. apply find_some in E as [? [? _]%andb_true_iff]. done.
  - apply find_some.
Qed.

Section gather.
Variable AllocatePool : nat -> gset Z -> Z.

Fixpoint cache_all (st : fv_state) (m : list Z) (l : list img) : result fv_state :=
  match l with
  | [] => Ok st
  | i :: l => st ← fv_cache_rimg AllocatePool st m (i_rimg i) (i_sz i) (i_pcir i); cache_all st m l
  end.

Lemma gather_loop_spec m fuel : forall rimg rom_sz,
  bytes_ok m -> 0 <= rimg -> 0 <= rom_sz < 2 ^ 64 -> rimg + rom_sz <= zlen m -> rom_sz < 512 * Z.of_nat fuel ->
  exists l, rom_images m rimg rom_sz l /\ forall st g, Forall (img_in m) g ->
    gather_loop AllocatePool fuel st m rimg rom_sz (triple <$> choose m g) = cache_all st m (picks m g l).
Proof.
  induction fuel as [|fuel IH]; intros rimg rom_sz Hm H0 Hrs Hlen Hf; [lia|]. cbn [gather_loop].
  destruct (rimg_find_pcir_spec m rimg rom_sz Hm H0 Hrs Hlen) as (r & -> & Hr). cbn [mbind result_bind].
  destruct r as [pcir|].
  2: { exists []. split; [|done]. constructor. intros p sz Hi. by assert (None = Some p) by (apply Hr; eauto). }
  destruct (proj1 (Hr pcir) eq_refl) as [sz Hi]. destruct (rom_image_bounds _ _ _ _ _ Hm Hi) as (B1 & B2 & B3 & B4 & B5).
  destruct (IH (rimg + sz) (rom_sz - sz) Hm) as (l & Hl & Hall); [lia..|].
  set (i := {| i_rimg := rimg; i_sz := sz; i_pcir := pcir |}).
  exists (i :: l). split; [by constructor|]. intros st g Hg.
  unfold pcir_rimg_sz_hkib, pcir_type, pcir_flags, pcir_pcir_rev. rewrite rd16_ok, !(rd8_ok m (pcir + _)) by lia.
  cbn [mbind result_bind].
  assert (Esz : u32 (le16 m (pcir + 16) * HKIBYTE) = sz).
  { change HKIBYTE with 512. destruct Hi as [_ _ _ [-> _] _ _]. rewrite wrap_small; lia. }
  rewrite Esz. rewrite (wrap_small 64 (rom_sz - sz)) by lia.
  set (upd := (if _ =? PCIR_TYP_PCAT then _ else _) : result (option (Z * Z * Z))).
  assert (Eupd : upd = Ok (triple <$> choose m (g ++ [i]))).
  { unfold upd. rewrite choose_snoc. change (le8 m (pcir + 20) =? PCIR_TYP_PCAT) with (is_pcat m i).
    destruct (is_pcat m i); [|done]. destruct (choose m g) as [f|] eqn:Ef; [|done]. cbn [fmap option_fmap option_map triple].
    apply choose_in in Ef as [Hin _]. rewrite Forall_forall in Hg. destruct (Hg f) as [? ?]; [by apply list_elem_of_In|].
    unfold triple. rewrite rd8_ok by lia. cbn [mbind result_bind]. rewrite Z.geb_leb.
    change (3 <=? le8 m (pcir + 12)) with (is_rev3 m i). unfold is_rev3 at 2. rewrite <- Z.ltb_antisym.
    by destruct (_ && _). }
  rewrite Eupd. cbn [mbind result_bind]. rewrite testbit7_land by by apply le8_range.
  change (Z.testbit (le8 m (pcir + 21)) 7) with (is_last m i). cbn [picks].
  destruct (is_last m i); cbn [mbind result_bind].
  - destruct (choose m (g ++ [i])) as [f|]; cbn [fmap option_fmap option_map triple mbind result_bind option_list app cache_all].
    + change (option_list (Some f) ++ picks m [] l) with (f :: picks m [] l). cbn [cache_all].
      unfold triple. cbn iota beta. destruct (fv_cache_rimg _ _ _ _ _ _) as [st1|]; cbn [mbind result_bind]; [|done].
      exact (Hall st1 [] ltac:(done)).
    + exact (Hall st [] ltac:(done)).
  - apply Hall. apply Forall_app. split; [done|]. constructor; [|done]. unfold img_in. cbn. lia.
Qed.

(** ** What the table promises about its entries *)

(** An entry leads to a copy of a well-formed PC-compatible image of its size, of its class, and
    with its id among the image's ids. *)
Definition stored (st : fv_state) (n : ht_node_t) : Prop :=
  exists bytes pcir ids, pool st !! n_rimg_copy n = Some bytes /\ (zlen bytes = n_rimg_sz n /\ n_rimg_sz n <= MAX_OROM_SZ) /\ bytes_ok bytes /\
    rom_image bytes 0 (n_rimg_sz n) pcir (n_rimg_sz n) /\ le8 bytes (pcir + 20) = PCIR_TYP_PCAT /\
    n_class_if n = class_at bytes pcir /\
    image_ids bytes 0 pcir (n_rimg_sz n) ids /\ In (n_pci_id n) ids.

Record sound (st : fv_state) (log : list ht_node_t) : Prop := {
  snd_repr : ht_repr st log;
  snd_stored : Forall (stored st) log;
}.

(** Only the table and the copies matter. *)
Lemma sound_calls st st' log : ht st' = ht st -> pool st' = pool st -> sound st log -> sound st' log.
Proof.
  intros E1 E2 [[H1 H2] H3]. split; [split; by rewrite E1|].
  eapply Forall_impl; [exact H3|]. unfold stored. by rewrite E2.
Qed.

Lemma image_ids_bytes_at m rimg rom_sz pcir sz ids :
  bytes_ok m -> 0 <= rimg -> rimg + rom_sz <= zlen m -> rom_image m rimg rom_sz pcir sz ->
  image_ids m rimg pcir sz ids -> image_ids (bytes_at m rimg sz) 0 (pcir - rimg) sz ids.
Proof.
  intros Hm H0 Hlen Hi (l & -> & Hl). destruct (rom_image_bounds _ _ _ _ _ Hm Hi) as (B1 & B2 & B3 & B4 & B5).
  assert (E : le32 (bytes_at m rimg sz) (pcir - rimg + 4) = le32 m (pcir + 4)).
  { unfold le32. rewrite !le16_bytes_at by lia. f_equal; [|f_equal]; f_equal; lia. }
  exists l. rewrite E, Z.add_0_l. split; [done|].
  pose proof (fun p k => has_dev_ids_bytes_at m rimg rom_sz pcir sz p k Hm H0 Hlen Hi) as Hd.
  destruct Hl as [[p Hp]|[-> Hno]]; [left; exists (p - rimg); by apply Hd|right; split; [done|]].
  intros p k Hk. apply (Hno (p + rimg) k). apply Hd. by replace (p + rimg - rimg) with p by lia.
Qed.

(** A block that is handed out is none of those that hold copies. *)
Hypothesis AllocatePool_fresh : forall k live, AllocatePool k live ∉ live.

(** The entries of [log] stay, new ones come before them, all sound; or the pool is exhausted. *)
Definition grows (log : list ht_node_t) (r : result fv_state) : Prop :=
  match r with
  | Ok st' => exists log', sound st' (log' ++ log)
  | Fail f => out_of_pool AllocatePool f
  end.

Lemma grows_refl st log : sound st log -> grows log (Ok st).
Proof. by exists []. Qed.

Lemma grows_bind log r k :
  grows log r -> (forall st1 log1, sound st1 log1 -> grows log1 (k st1)) -> grows log (r ≫= k).
Proof.
  intros Hr Hk. destruct r as [st1|f]; cbn [mbind result_bind]; [|done]. destruct Hr as [log1 Hs].
  specialize (Hk st1 _ Hs). unfold grows in *. destruct (k st1) as [st'|f]; [|done].
  destruct Hk as [log2 Hs2]. exists (log2 ++ log1). by rewrite <- app_assoc.
Qed.

Lemma fv_cache_rimg_sound st log m rimg rom_sz pcir sz :
  bytes_ok m -> 0 <= rimg -> rimg + rom_sz <= zlen m -> rom_image m rimg rom_sz pcir sz ->
  sz <= MAX_OROM_SZ -> le8 m (pcir + 20) = PCIR_TYP_PCAT -> sound st log ->
  grows log (fv_cache_rimg AllocatePool st m rimg sz pcir).
Proof.
  intros Hm H0 Hlen Hi Hmax Hty [Hr Hs]. destruct (rom_image_bounds _ _ _ _ _ Hm Hi) as (B1 & B2 & B3 & B4 & B5).
  pose proof (fv_cache_rimg_spec AllocatePool st log m rimg rom_sz pcir sz Hm H0 Hlen Hi Hr) as Hc.
  unfold grows. destruct (fv_cache_rimg _ _ _ _ _ _) as [st'|f]; [|done].
  destruct Hc as (copy & ids & Hids & Ecopy & Hnz & Hpool & Hr'). eexists. split; [exact Hr'|].
  apply Forall_app. split.
  - apply Forall_forall. intros n Hn. apply list_elem_of_In, in_rev, in_map_iff in Hn as (id & <- & Hid).
    exists (bytes_at m rimg sz), (pcir - rimg), ids. cbn [entry n_rimg_copy n_rimg_sz n_class_if n_pci_id].
    split_and!; try done.
    + rewrite Hpool. apply lookup_insert_eq.
    + apply bytes_at_len; lia.
    + by apply bytes_at_ok.
    + by apply (rom_image_bytes_at m rimg rom_sz).
    + rewrite le8_bytes_at by lia. rewrite <- Hty. f_equal. lia.
    + unfold class_at. rewrite !le8_bytes_at by lia. replace (rimg + (pcir - rimg + 15)) with (pcir + 15) by lia.
      replace (rimg + (pcir - rimg + 14)) with (pcir + 14) by lia.
      by replace (rimg + (pcir - rimg + 13)) with (pcir + 13) by lia.
    + by apply (image_ids_bytes_at m rimg rom_sz).
  - eapply Forall_impl; [exact Hs|]. intros n (bytes & p & k & Hl & Hrest). exists bytes, p, k. split; [|done].
    rewrite Hpool, lookup_insert_ne; [done|]. intros Heq. apply (AllocatePool_fresh (pool_calls st) (dom (pool st))).
    rewrite <- Ecopy, Heq. apply elem_of_dom. by eexists.
Qed.

(** An image of the object, in what is left of its ROM. *)
Definition good_img (m : list Z) (i : img) : Prop :=
  exists rom_sz, 0 <= i_rimg i /\ i_rimg i + rom_sz <= zlen m /\ i_sz i <= MAX_OROM_SZ /\
    rom_image m (i_rimg i) rom_sz (i_pcir i) (i_sz i).

Lemma rom_images_good m rimg rom_sz l :
  bytes_ok m -> 0 <= rimg -> rimg + rom_sz <= zlen m -> rom_sz <= MAX_OROM_SZ ->
  rom_images m rimg rom_sz l -> Forall (good_img m) l.
Proof.
  intros Hm H0 Hlen Hmax H. revert H0 Hlen Hmax.
  induction H as [|rimg rom_sz pcir sz l Hi H IH]; intros H0 Hlen Hmax; [done|].
  destruct (rom_image_bounds _ _ _ _ _ Hm Hi) as (B1 & B2 & _). constructor; [|apply IH; lia].
  exists rom_sz. cbn. split_and!; (done || lia).
Qed.

Lemma picks_good m l : forall g,
  Forall (good_img m) (g ++ l) -> Forall (fun i => good_img m i /\ is_pcat m i = true) (picks m g l).
Proof.
  induction l as [|i l IH]; intros g Hg; cbn [picks]; [done|].
  assert (Hg' : Forall (good_img m) ((g ++ [i]) ++ l)) by by rewrite <- app_assoc.
  destruct (is_last m i); [|by apply IH]. apply Forall_app in Hg' as [H1 H2].
  apply Forall_app. split; [|by apply IH].
  destruct (choose m (g ++ [i])) as [f|] eqn:Ef; cbn; [|constructor]. constructor; [|constructor].
  apply choose_in in Ef as [Hin Hp]. rewrite Forall_forall in H1. split; [|done]. apply H1. by apply list_elem_of_In.
Qed.

Lemma cache_all_sound m l : forall st log,
  bytes_ok m -> Forall (fun i => good_img m i /\ is_pcat m i = true) l -> sound st log ->
  grows log (cache_all st m l).
Proof.
  induction l as [|i l IH]; intros st log Hm Hl Hs; cbn [cache_all]; [by apply grows_refl|].
  apply Forall_cons in Hl as [[(rs & H0 & Hlen & Hmax & Hi) Hp] Hl]. apply Z.eqb_eq in Hp.
  apply grows_bind; [by apply (fv_cache_rimg_sound st log m _ rs)|]. intros st1 log1 Hs1. by apply IH.
Qed.

Lemma one_sxn_sound st log m rom_sz :
  bytes_ok m -> 0 <= rom_sz <= MAX_OROM_SZ -> rom_sz <= zlen m -> sound st log ->
  grows log (fv_gather_rimgs_for_one_sxn AllocatePool st m rom_sz).
Proof.
  intros Hm Hrs Hlen Hs. unfold fv_gather_rimgs_for_one_sxn.
  destruct (gather_loop_spec m (S (length m)) 0 rom_sz Hm) as (l & Hl & E);
    [lia|change MAX_OROM_SZ with 0xf0000 in Hrs; lia|lia|unfold zlen in *; lia|].
  pose proof (E st [] ltac:(constructor)) as E'. change (triple <$> choose m []) with (@None (Z * Z * Z)) in E'.
  rewrite E'. apply cache_all_sound; [done| |done]. apply picks_good.
  eapply rom_images_good; [done| | | |exact Hl]; lia.
Qed.

Lemma read_section_len sxn sec : MAX_OROM_SZ <= zlen sxn -> MAX_OROM_SZ <= zlen (read_section sxn sec).
Proof.
  unfold zlen, read_section. intros H. rewrite length_app, length_drop. lia.
Qed.

Lemma read_section_ok sxn sec : bytes_ok sxn -> bytes_ok sec -> bytes_ok (read_section sxn sec).
Proof. intros H1 H2. apply Forall_app. split; [by apply Forall_take|by apply Forall_drop]. Qed.

Lemma sections_sound secs : forall st log sxn,
  bytes_ok sxn -> MAX_OROM_SZ <= zlen sxn -> Forall bytes_ok secs -> sound st log ->
  grows log (sections_loop AllocatePool st sxn secs).
Proof.
  induction secs as [|sec secs IH]; intros st log sxn Hb Hl Hsecs Hs; cbn [sections_loop]; [by apply grows_refl|].
  apply Forall_cons in Hsecs as [Hsec Hsecs].
  pose proof (read_section_len sxn sec Hl) as Hl'. pose proof (read_section_ok sxn sec Hb Hsec) as Hb'.
  change MAX_OROM_SZ with 0xf0000 in *. set (n := if _ >? _ then _ else _).
  assert (Hn : 0 <= n <= 0xf0000) by (unfold n; destruct (Z.gtb_spec (zlen sec) 0xf0000); unfold zlen in *; lia).
  apply grows_bind; [apply one_sxn_sound; (done || change MAX_OROM_SZ with 0xf0000; lia)|]. intros st1 log1 Hs1. by apply IH.
Qed.

Definition volume_ok (v : fv_volume) : Prop := Forall (fun f => Forall bytes_ok (f_sections f)) v.

Lemma files_sound sxn files : forall st log,
  bytes_ok sxn -> MAX_OROM_SZ <= zlen sxn -> volume_ok files -> sound st log ->
  grows log (files_loop AllocatePool st sxn files).
Proof.
  induction files as [|f files IH]; intros st log Hb Hl Hv Hs; cbn [files_loop]; [by apply grows_refl|].
  apply Forall_cons in Hv as [Hf Hv]. destruct (_ || _); [by apply IH|].
  apply grows_bind; [|intros st1 log1 Hs1; by apply IH].
  apply sections_sound; [done..|]. by apply (sound_calls st).
Qed.

Lemma volumes_sound sxn vs : forall st log,
  bytes_ok sxn -> MAX_OROM_SZ <= zlen sxn -> (forall v, Some v ∈ vs -> volume_ok v) -> sound st log ->
  grows log (volumes_loop AllocatePool st sxn vs).
Proof.
  induction vs as [|[v|] vs IH]; intros st log Hb Hl Hv Hs; cbn [volumes_loop]; [by apply grows_refl| |].
  2: { apply IH; try done. intros v Hin. apply Hv. by right. }
  apply grows_bind; [|intros st1 log1 Hs1; apply IH; try done; intros w Hin; apply Hv; by right].
  unfold fv_gather_rimgs_for_one_fv, alloc_pool. cbn iota beta zeta.
  destruct (Z.eqb_spec (AllocatePool (pool_calls st) (dom (pool st))) 0) as [E|E]; [split; [tauto|eauto]|].
  apply files_sound; [done|done|apply Hv; by left|]. by apply (sound_calls st).
Qed.
End gather.

(** ** Properties *)

Lemma find_app {A} (P : A -> bool) l1 l2 :
  List.find P (l1 ++ l2) = match List.find P l1 with Some x => Some x | None => List.find P l2 end.
Proof. induction l1 as [|x l1 IH]; cbn; [done|]. by destruct (P x). Qed.

(** Looking up a key among the entries of one image. *)
Lemma log_find_entries class_if copy sz ids log id c :
  log_find (rev (entry class_if copy sz <$> ids) ++ log) id c =
    if (c =? class_if) && bool_decide (id ∈ ids) then Some (copy, sz) else log_find log id c.
Proof.
  unfold log_find. rewrite find_app.
  destruct (List.find (same_key id c) (rev (entry class_if copy sz <$> ids))) as [n|] eqn:E.
  - apply find_some in E as [Hin Hk]. apply in_rev, in_map_iff in Hin as (x & <- & Hx).
    unfold same_key in Hk. cbn in Hk. apply andb_true_iff in Hk as [->%Z.eqb_eq ->%Z.eqb_eq].
    rewrite Z.eqb_refl, bool_decide_eq_true_2 by by apply list_elem_of_In. done.
  - destruct (Z.eqb_spec c class_if) as [->|]; [|done]. destruct (decide (id ∈ ids)) as [Hin|Hin].
    + apply list_elem_of_In in Hin. pose proof (find_none _ _ E (entry class_if copy sz id)) as Hn.
      unfold same_key in Hn. cbn in Hn. rewrite !Z.eqb_refl in Hn. cbn in Hn.
      discriminate Hn. apply in_rev. rewrite rev_involutive. by apply (in_map (entry class_if copy sz)).
    + by rewrite bool_decide_eq_false_2.
Qed.

(** An image that [fv_cache_rimg] has cached is found under each of its ids - its own and
    those of its device list - with its class, as an identical copy of its size; every other
    lookup gives what it gave before. *)
Theorem fv_cache_then_find (AllocatePool : nat -> gset Z -> Z) st log m rimg rom_sz pcir sz :
  (forall k live, AllocatePool k live <> 0) -> bytes_ok m -> 0 <= rimg -> rimg + rom_sz <= zlen m ->
  rom_image m rimg rom_sz pcir sz -> ht_repr st log ->
  exists st' copy ids, fv_cache_rimg AllocatePool st m rimg sz pcir = Ok st' /\ image_ids m rimg pcir sz ids /\
    pool st' !! copy = Some (bytes_at m rimg sz) /\
    (forall id, id ∈ ids -> fv_find_rimg st' id (class_at m pcir) = Ok (Some (copy, sz))) /\
    (forall id c, c <> class_at m pcir \/ id ∉ ids -> fv_find_rimg st' id c = fv_find_rimg st id c).
Proof.
  intros Hnz Hm H0 Hlen Hi Hr.
  pose proof (fv_cache_rimg_spec AllocatePool st log m rimg rom_sz pcir sz Hm H0 Hlen Hi Hr) as Hc.
  destruct (fv_cache_rimg _ _ _ _ _ _) as [st'|f].
  2: { destruct Hc as [_ (k & live & Hz)]. by destruct (Hnz k live). }
  destruct Hc as (copy & ids & Hids & _ & _ & Hpool & Hr'). exists st', copy, ids. split_and!; try done.
  - rewrite Hpool. apply lookup_insert_eq.
  - intros id Hin. rewrite (fv_find_rimg_spec _ _ _ _ Hr'), log_find_entries, Z.eqb_refl.
    by rewrite bool_decide_eq_true_2.
  - intros id c Hne. rewrite (fv_find_rimg_spec _ _ _ _ Hr'), (fv_find_rimg_spec _ _ _ _ Hr), log_find_entries.
    destruct (Z.eqb_spec c (class_at m pcir)); cbn [andb]; [|done].
    rewrite bool_decide_eq_false_2; [done|]. by destruct Hne.
Qed.

(** of each option ROM in a section - a run of images up to one flagged as the last - exactly
    one image is cached: the first PC-compatible one of revision 3 or later, or else the first
    PC-compatible one, or none.  The walk ends at the first place where no image starts, and
    never leaves the section. *)
Theorem fv_gather_picks (AllocatePool : nat -> gset Z -> Z) st rom rom_sz :
  bytes_ok rom -> 0 <= rom_sz < 2 ^ 64 -> rom_sz <= zlen rom ->
  exists l, rom_images rom 0 rom_sz l /\
    fv_gather_rimgs_for_one_sxn AllocatePool st rom rom_sz = cache_all AllocatePool st rom (picks rom [] l).
Proof.
  intros Hm Hrs Hlen.
  destruct (gather_loop_spec AllocatePool rom (S (length rom)) 0 rom_sz Hm)
    as (l & Hl & E); [lia|done|lia|unfold zlen in *; lia|].
  exists l. split; [done|]. exact (E st [] ltac:(constructor)).
Qed.

Lemma fv_init_spec (AllocatePool : nat -> gset Z -> Z) sxn0 vs :
  (forall k live, AllocatePool k live ∉ live) -> bytes_ok sxn0 -> MAX_OROM_SZ <= zlen sxn0 ->
  (forall v, Some v ∈ vs -> volume_ok v) ->
  match fv_init AllocatePool fv_state0 sxn0 vs with
  | Ok st => forall id c, exists r, fv_find_rimg st id c = Ok r /\
      forall copy sz, r = Some (copy, sz) -> stored st (entry c copy sz id)
  | Fail f => out_of_pool AllocatePool f
  end.
Proof.
  intros Hfresh Hb Hl Hv. assert (Hs0 : sound fv_state0 []) by (split; [by apply ht_repr0|constructor]).
  assert (Hg : grows AllocatePool [] (fv_init AllocatePool fv_state0 sxn0 vs)).
  { destruct vs as [|v vs]; [by apply grows_refl|]. unfold fv_init.
    apply volumes_sound; [done..|]. by apply (sound_calls fv_state0). }
  unfold grows in Hg. destruct (fv_init _ _ _ _) as [st|f]; [|done]. destruct Hg as [log [Hr Hst]].
  intros id c. exists (log_find (log ++ []) id c). split; [by apply fv_find_rimg_spec|].
  intros copy sz Hf. unfold log_find in Hf. destruct (List.find _ _) as [n|] eqn:E; cbn in Hf; [|done].
  injection Hf as <- <-. apply find_some in E as [Hin Hk]. unfold same_key in Hk.
  apply andb_true_iff in Hk as [<-%Z.eqb_eq <-%Z.eqb_eq]. rewrite Forall_forall in Hst.
  specialize (Hst n ltac:(by apply list_elem_of_In)). by destruct n.
Qed.


(** ** Witnesses *)

Definition demo_pool (k : nat) (live : gset Z) : Z := 1 + set_fold Z.max 0 live.

Lemma demo_pool_fresh k live : (demo_pool k live ∉ live) /\ demo_pool k live <> 0.
Proof.
  unfold demo_pool.
  pose proof (set_fold_ind_L (fun f (X : gset Z) => 0 <= f /\ forall x, x ∈ X -> x <= f) Z.max 0) as H.
  destruct (H ltac:(set_solver) ltac:(intros x X r Hx [Hr IH]; split; [lia|]; intros y Hy; apply elem_of_union in Hy as [Hy%elem_of_singleton|Hy]; [lia|specialize (IH y Hy); lia]) live) as [H0 Hall].
  split; [|lia]. intros Hin. specialize (Hall _ Hin). lia.
Qed.

Lemma demo_rimg_image : exists sz, rom_image demo_rimg 0 512 0x1c sz.
Proof.
  pose proof demo_rimg_len. destruct (rimg_find_pcir_spec demo_rimg 0 512 demo_rimg_bytes) as (r & E & Hr); [lia..|].
  apply Hr. assert (E' : rimg_find_pcir demo_rimg 0 512 = Ok (Some 0x1c)) by (vm_compute; reflexivity).
  rewrite E' in E. by injection E.
Qed.

Lemma fv_cache_then_find_witness :
  exists st' copy sz, fv_cache_rimg demo_pool fv_state0 demo_rimg 0 sz 0x1c = Ok st' /\
    fv_find_rimg st' 0x11118086 (class_at demo_rimg 0x1c) = Ok (Some (copy, sz)).
Proof.
  destruct demo_rimg_image as [sz Hi]. pose proof demo_rimg_len.
  destruct (fv_cache_then_find demo_pool fv_state0 [] demo_rimg 0 512 0x1c sz) as (st' & copy & ids & E & Hids & _ & Hf & _).
  - intros k live. apply demo_pool_fresh.
  - exact demo_rimg_bytes.
  - lia.
  - lia.
  - exact Hi.
  - by apply ht_repr0.
  - exists st', copy, sz. split; [exact E|]. apply Hf. destruct Hids as (l & -> & _). by left.
Defined.

Lemma fv_gather_picks_witness :
  bytes_ok demo_rimg /\ exists l, rom_images demo_rimg 0 512 l /\
    fv_gather_rimgs_for_one_sxn demo_pool fv_state0 demo_rimg 512 =
      cache_all demo_pool fv_state0 demo_rimg (picks demo_rimg [] l).
Proof.
  split; [exact demo_rimg_bytes|]. pose proof demo_rimg_len.
  apply (fv_gather_picks demo_pool fv_state0 demo_rimg 512 demo_rimg_bytes); lia.
Defined.

(** A volume with a pad file and a driver whose only section is the image. *)
Definition demo_volume : fv_volume :=
  [{| f_type := EFI_FV_FILETYPE_FFS_PAD; f_sections := [] |}; {| f_type := 7; f_sections := [demo_rimg] |}].

Definition demo_sxn : list Z := replicate (Z.to_nat MAX_OROM_SZ) 0.

Lemma demo_sxn_ok : bytes_ok demo_sxn /\ MAX_OROM_SZ <= zlen demo_sxn.
Proof.
  unfold demo_sxn. split; [|unfold zlen; rewrite length_replicate; lia].
  apply Forall_replicate. unfold byte_ok. lia.
Qed.

Lemma demo_volumes_ok v : Some v ∈ [None; Some demo_volume] -> volume_ok v.
Proof.
  intros [?|[= ->]%list_elem_of_singleton]%elem_of_cons; [done|].
  apply Forall_cons. split; [constructor|]. apply Forall_cons. split; [|constructor].
  apply Forall_cons. split; [exact demo_rimg_bytes|constructor].
Qed.

