(* ===== verification/Pci.v ===== *)
(** * PCI devices and their option ROMs (second half of src/stage1/pci.c)

    [process_pci] adds a boot parameter for each PCI device, enables legacy VGA on the first
    display controller that allows it, and brings the device's option ROM to base memory -
    from the device itself, from the firmware volumes ([Fv]) or, for one VirtualBox device, from
    where the firmware left it.  A device is the record of the answers that its
    EFI_PCI_IO_PROTOCOL gives; physical memory is a function from addresses to bytes; the data
    [bd] points to is passed by value until it is stored in its node. *)

From S2P Require Import Prelude Util Bmem Bparm Rimg Phys Fv.

(** UEFI: attributes of a PCI controller. *)
Definition EFI_PCI_ATTRIBUTE_VGA_MEMORY : Z := 0x0008.
Definition EFI_PCI_ATTRIBUTE_VGA_IO : Z := 0x0010.
Definition EFI_PCI_ATTRIBUTE_VGA_IO_16 : Z := 0x20000.

(** What the protocol answers; [None] and [false] are EFI errors. *)
Record pci_io := {
  GetLocation : option (Z * Z * Z * Z);
  Attributes_Get : option Z;
  Attributes_Supported : option Z;
  Attributes_Enable : Z -> bool;
  Pci_Read : Z -> Z -> option (list Z);
  RomImage : Z;
  RomSize : Z;
}.

Definition no_locn : string := "cannot get PCI ctrlr. locn.".
Definition no_attrs : string := "cannot get PCI ctrlr. attrs.".
Definition no_conf : string := "cannot read PCI conf. sp.".
Definition bogus_bar : string := "bogus 64-bit PCI BAR".
Definition bar_16 : string := "unhandled 16-bit PCI BAR".
Definition no_devices : string := "no PCI devices found".
Definition no_pci_io : string := "cannot get EFI_PCI_IO_PROTOCOL".
Definition no_vga : string := "no usable VGA/XGA controller?".
Definition no_vga_rom : string := "VGA/XGA device lacks option ROM?".

(** [if (EFI_ERROR(status)) error_with_status(msg, status);] *)
Definition or_error {A} (msg : string) (o : option A) : result A :=
  match o with Some a => Ok a | None => Fail (Error msg) end.

(** ** [enable_legacy_vga] *)

Definition is_display (class_if : Z) : bool :=
  let c := Z.land class_if 0xffff0000 in (c =? 0x03000000) || (c =? 0x03010000).

(** The result and what is stored in [*p_enables]. *)
Definition enable_legacy_vga (io : pci_io) (class_if attrs supports : Z) : bool * Z :=
  if negb (is_display class_if) then (false, 0)
  else
    let s := Z.land supports (Z.lor (Z.lor EFI_PCI_ATTRIBUTE_VGA_MEMORY EFI_PCI_ATTRIBUTE_VGA_IO)
               EFI_PCI_ATTRIBUTE_VGA_IO_16) in
    let enables :=
      if s =? Z.lor EFI_PCI_ATTRIBUTE_VGA_MEMORY EFI_PCI_ATTRIBUTE_VGA_IO
      then Some (Z.lor EFI_PCI_ATTRIBUTE_VGA_MEMORY EFI_PCI_ATTRIBUTE_VGA_IO)
      else if (s =? Z.lor EFI_PCI_ATTRIBUTE_VGA_MEMORY EFI_PCI_ATTRIBUTE_VGA_IO_16) ||
              (s =? Z.lor (Z.lor EFI_PCI_ATTRIBUTE_VGA_MEMORY EFI_PCI_ATTRIBUTE_VGA_IO_16)
                      EFI_PCI_ATTRIBUTE_VGA_IO)
      then Some (Z.lor EFI_PCI_ATTRIBUTE_VGA_MEMORY EFI_PCI_ATTRIBUTE_VGA_IO_16)
      else None in
    match enables with
    | None => (false, 0)
    | Some enables =>
        if Z.lor attrs enables =? attrs then (true, 0)
        else if Attributes_Enable io enables then (true, enables) else (false, 0)
    end.

Definition ptr_to_rm_seg (p : Z) : Z := addr_to_rm_seg p.

(** ** [get_rimg] and its callers *)

Definition set_rimg (bd : bdat_pci_dev_t) (seg rt_seg sz : Z) : bdat_pci_dev_t :=
  {| pci_locn := pci_locn bd; pci_id := pci_id bd; class_if := class_if bd;
     rimg_seg := seg; rimg_rt_seg := rt_seg; rimg_sz := sz |}.

(** The allocator of base memory, and physical memory. *)
Record rom_st := { bm : bmem; pm : phys }.

(** [m] are the bytes of the object that [rimg] points to; [pcir] is an offset into it. *)
Definition get_rimg (bd : bdat_pci_dev_t) (m : list Z) (rimg sz : Z) (pcir : option Z) (st : rom_st)
    : result (bdat_pci_dev_t * rom_st) :=
  let copy_down :=
    '(rimg_copy, b) ← bmem_alloc (bm st) sz (2 * KIBYTE);
    let p := memcpy (pm st) rimg_copy rimg sz in
    let seg := ptr_to_rm_seg rimg_copy in
    Ok (set_rimg bd seg seg sz, {| bm := b; pm := p |}) in
  match pcir with
  | None => let seg := ptr_to_rm_seg rimg in Ok (set_rimg bd seg seg sz, st)
  | Some pcir =>
      rv ← rd8 m (pcir + pcir_pcir_rev);
      if rv >=? 3 then
        max_rt ← rd16 m (pcir + pcir_max_rt_sz_hkib);
        let rt_sz := u32 (max_rt * HKIBYTE) in
        if negb (rt_sz =? sz) then
          '(seg, st) ←
            (if (rimg <=? u64 (BMEM_MAX_ADDR - sz)) && (rimg mod HKIBYTE =? 0)
             then Ok (ptr_to_rm_seg rimg, st)
             else
               '(rimg_copy, b) ← bmem_alloc_boottime (bm st) sz HKIBYTE;
               Ok (ptr_to_rm_seg rimg_copy, {| bm := b; pm := memcpy (pm st) rimg_copy rimg sz |}));
          '(rimg_rt, b) ← bmem_alloc (bm st) rt_sz HKIBYTE;
          Ok (set_rimg bd seg (ptr_to_rm_seg rimg_rt) sz, {| bm := b; pm := pm st |})
        else copy_down
      else copy_down
  end.

Definition get_rimg_from_pci_io (bd : bdat_pci_dev_t) (io : pci_io) (st : rom_st)
    : result (bdat_pci_dev_t * rom_st) :=
  let rimg := RomImage io in
  let rsz := RomSize io in
  let bd := set_rimg bd 0 0 0 in
  if (rsz =? 0) || (rimg =? 0) then Ok (bd, st)
  else
    let m := region (pm st) rimg rsz in
    r ← rimg_find_pcir m 0 rsz;
    match r with
    | None => Ok (bd, st)
    | Some pcir =>
        ty ← rd8 m (pcir + pcir_type);
        if negb (ty =? PCIR_TYP_PCAT) then Ok (bd, st)
        else
          hkib ← rd16 m (pcir + pcir_rimg_sz_hkib);
          get_rimg bd m rimg (u32 (hkib * HKIBYTE)) (Some pcir) st
    end.

Definition get_rimg_from_fvs (fvs : fv_state) (bd : bdat_pci_dev_t) (st : rom_st)
    : result (bdat_pci_dev_t * rom_st) :=
  let bd := set_rimg bd 0 0 0 in
  r ← fv_find_rimg fvs (pci_id bd) (class_if bd);
  match r with
  | None => Ok (bd, st)
  | Some (rimg, sz) =>
      let m := region (pm st) rimg sz in
      pcir ← rimg_find_pcir m 0 sz;
      match pcir with
      | Some pcir => get_rimg bd m rimg sz (Some pcir) st
      | None => Ok (bd, st)
      end
  end.

(** The option ROM of the VirtualBox display adapter, in the memory from 0xc0000 to 1 MiB. *)
Definition get_rimg_special_case (bd : bdat_pci_dev_t) (st : rom_st) : result (bdat_pci_dev_t * rom_st) :=
  if pci_id bd =? pci_make_id PCI_VENDOR_ID_VBOX PCI_DEVICE_ID_VBOX_VESA then
    let rimg := 0xc0000 in
    let m := region (pm st) rimg (BMEM_MAX_ADDR - rimg) in
    rimg_sz ← rimg_find m 0;
    if rimg_sz =? 0 then Ok (bd, st)
    else
      pcir ← rimg_find_pcir m 0 rimg_sz;
      get_rimg bd m rimg (u32 rimg_sz) pcir st
  else Ok (bd, st).

(** ** Base address registers *)

(** What is printed for each. *)
Inductive bar :=
  | Bar32 (addr : Z) (prefetch : bool)
  | Bar64 (addr : Z) (prefetch : bool)
  | BarIo (addr : Z).

(** The [while (++idx < 6)] loop. *)
Fixpoint bar_loop (fuel : nat) (pci_conf : list Z) (idx : Z) : result (list bar) :=
  match fuel with
  | O => Fail Diverges
  | S fuel =>
      let idx := u32 (idx + 1) in
      if idx <? 6 then
        b ← aget pci_conf idx;
        if b =? 0 then bar_loop fuel pci_conf idx
        else
          let pf := negb (Z.land b 0x8 =? 0) in
          let k := Z.land b 0x7 in
          if k =? 0 then
            l ← bar_loop fuel pci_conf idx; Ok (Bar32 (Z.land b 0xfffffff0) pf :: l)
          else if k =? 4 then
            if idx =? 9 then Fail (Error bogus_bar)
            else
              let idx := u32 (idx + 1) in
              hi ← aget pci_conf idx;
              let addr := Z.lor (u64 (Z.shiftl hi 32)) (Z.land b 0xfffffff0) in
              l ← bar_loop fuel pci_conf idx; Ok (Bar64 addr pf :: l)
          else if (k =? 1) || (k =? 3) || (k =? 5) || (k =? 7) then
            l ← bar_loop fuel pci_conf idx; Ok (BarIo (Z.land b 0xfffffffc) :: l)
          else Fail (Error bar_16)
      else Ok []
  end.

(** ** [process_one_pci_io] and [process_pci] *)

(** The list of boot parameters, with its allocator, and physical memory. *)
Record pci_st := { bps : bparms bmem; mem : phys }.

Definition rom_of (st : pci_st) : rom_st := {| bm := bp_alloc (bps st); pm := mem st |}.

Definition with_rom (st : pci_st) (r : rom_st) : pci_st :=
  {| bps := {| bp_alloc := bm r; bp_heap := bp_heap (bps st); bp_head := bp_head (bps st); bp_tail := bp_tail (bps st) |};
     mem := pm r |}.

(** Where the option ROM of a device comes from. *)
Definition find_rom (fvs : fv_state) (io : pci_io) (bd : bdat_pci_dev_t) (st : rom_st)
    : result (bdat_pci_dev_t * rom_st) :=
  '(bd, st) ← get_rimg_from_pci_io bd io st;
  if rimg_seg bd =? 0 then
    '(bd, st) ← get_rimg_from_fvs fvs bd st;
    if rimg_seg bd =? 0 then get_rimg_special_case bd st else Ok (bd, st)
  else Ok (bd, st).

(** The result is [vga], as the address of a node's data or [NULL], and what the registers are
    printed as. *)
Definition process_one_pci_io (fvs : fv_state) (io : pci_io) (try_enable_vga : bool) (st : pci_st)
    : result (Z * pci_st * list bar) :=
  '(seg, bus, dev, fn) ← or_error no_locn (GetLocation io);
  attrs ← or_error no_attrs (Attributes_Get io);
  supports ← or_error no_attrs (Attributes_Supported io);
  pci_conf ← or_error no_conf (Pci_Read io 0 4);
  id ← aget pci_conf 0;
  c2 ← aget pci_conf 2;
  let cls := Z.land c2 0xffffff00 in
  c3 ← aget pci_conf 3;
  if negb (Z.land (Z.shiftr c3 8) 0xff =? 0) then Ok (NULL, st, [])
  else
    '(p, b) ← bparm_add (bps st) BP_PCID sizeof_bdat_pci_dev_t;
    let st := {| bps := b; mem := mem st |} in
    let bd := {| pci_locn := u32 (Z.lor (Z.lor (Z.lor (u64 (Z.shiftl seg 16)) (u64 (Z.shiftl bus 8)))
                              (u64 (Z.shiftl dev 3))) fn);
                 pci_id := id; class_if := cls; rimg_seg := 0; rimg_rt_seg := 0; rimg_sz := 0 |} in
    let vga := if try_enable_vga && (enable_legacy_vga io cls attrs supports).1 then p else NULL in
    '(bd, r) ← find_rom fvs io bd (rom_of st);
    b ← bparm_store (bps (with_rom st r)) p (BdatPci bd);
    let st := {| bps := b; mem := pm r |} in
    pci_conf ← or_error no_conf (Pci_Read io (4 * 4) 6);
    bars ← bar_loop 7 pci_conf (u32 (0 - 1));
    Ok (vga, st, bars).

(** The loop over the handles; [None] is a handle whose protocol cannot be had. *)
Fixpoint pci_loop (fvs : fv_state) (ios : list (option pci_io)) (vga : Z) (st : pci_st) : result (Z * pci_st) :=
  match ios with
  | [] => Ok (vga, st)
  | io :: ios =>
      io ← or_error no_pci_io io;
      if vga =? NULL then
        '(v, st, _) ← process_one_pci_io fvs io true st; pci_loop fvs ios v st
      else
        '(_, st, _) ← process_one_pci_io fvs io false st; pci_loop fvs ios vga st
  end.

(** [vga->rimg_seg] *)
Definition node_rimg_seg (st : bparms bmem) (p : Z) : result Z :=
  n ← checked (bp_heap st !! (p - sizeof_bparm_t));
  match u n with BdatPci d => Ok (rimg_seg d) | _ => Ok 0 end.

Definition process_pci (fvs : fv_state) (ios : list (option pci_io)) (st : pci_st) : result pci_st :=
  match ios with
  | [] => Fail (Error no_devices)
  | _ =>
      '(vga, st) ← pci_loop fvs ios NULL st;
      if vga =? NULL then Fail (Error no_vga)
      else
        seg ← node_rimg_seg (bps st) vga;
        if seg =? 0 then Fail (Error no_vga_rom) else Ok st
  end.

(** ** What the registers mean *)

(** A 64-bit register takes two places; the upper half is not looked at for flags. *)
Fixpoint bars (l : list Z) : result (list bar) :=
  match l with
  | [] => Ok []
  | b :: l =>
      if b =? 0 then bars l
      else
        let pf := negb (Z.land b 0x8 =? 0) in
        let k := Z.land b 0x7 in
        if k =? 0 then r ← bars l; Ok (Bar32 (Z.land b 0xfffffff0) pf :: r)
        else if k =? 4 then
          match l with
          | [] => Fail OutOfBounds
          | hi :: l => r ← bars l; Ok (Bar64 (Z.lor (u64 (Z.shiftl hi 32)) (Z.land b 0xfffffff0)) pf :: r)
          end
        else if (k =? 1) || (k =? 3) || (k =? 5) || (k =? 7) then
          r ← bars l; Ok (BarIo (Z.land b 0xfffffffc) :: r)
        else Fail (Error bar_16)
  end.

Lemma bar_loop_bars conf (fuel n : nat) : forall idx,
  length conf = 6%nat -> (n < fuel)%nat -> (n <= 6)%nat -> u32 (idx + 1) = 6 - Z.of_nat n ->
  bar_loop fuel conf idx = bars (drop (6 - n) conf).
Proof.
  revert n. induction fuel as [|fuel IH]; intros n idx Hlen Hn Hn6 Hidx; [lia|]. cbn [bar_loop]. rewrite Hidx.
  destruct n as [|n]; [by rewrite drop_ge by lia|].
  destruct (Z.ltb_spec (6 - Z.of_nat (S n)) 6); [|lia].
  destruct (aget_total conf (6 - Z.of_nat (S n)) ltac:(lia)) as (b & -> & Hb). cbn [mbind result_bind].
  replace (Z.to_nat (6 - Z.of_nat (S n))) with (6 - S n)%nat in Hb by lia. rewrite (drop_S _ _ _ Hb).
  replace (S (6 - S n)) with (6 - n)%nat by lia. cbn [bars].
  assert (Hnext : bar_loop fuel conf (6 - Z.of_nat (S n)) = bars (drop (6 - n) conf)).
  { apply IH; [done|lia|lia|]. rewrite wrap_small; lia. }
  destruct (b =? 0); [exact Hnext|]. destruct (Z.land b 0x7 =? 0); [by rewrite Hnext|].
  destruct (Z.land b 0x7 =? 4); [|by rewrite Hnext].
  destruct (Z.eqb_spec (6 - Z.of_nat (S n)) 9); [lia|].
  replace (u32 (6 - Z.of_nat (S n) + 1)) with (6 - Z.of_nat n) by (rewrite wrap_small; lia).
  destruct n as [|n].
  { unfold aget. change (Z.to_nat (6 - Z.of_nat 0)) with 6%nat.
    by rewrite (lookup_ge_None_2 conf 6), drop_ge by lia. }
  destruct (aget_total conf (6 - Z.of_nat (S n)) ltac:(lia)) as (hi & -> & Hhi). cbn [mbind result_bind].
  replace (Z.to_nat (6 - Z.of_nat (S n))) with (6 - S n)%nat in Hhi by lia. rewrite (drop_S _ _ _ Hhi).
  replace (S (6 - S n)) with (6 - n)%nat by lia.
  rewrite (IH n); [done|done|lia|lia|]. rewrite wrap_small; lia.
Qed.

(** C32: the loop over the base address registers decodes them as the PCI specification does, one
    or two places at a time, and always ends - but a 64-bit register in the last place makes it
    read the seventh entry of a six-entry array: the check meant to stop it compares the index
    with 9 and can never be true. *)
Theorem bar_loop_decodes conf :
  length conf = 6%nat ->
  bar_loop 7 conf (u32 (0 - 1)) = bars conf /\
  bar_loop 7 conf (u32 (0 - 1)) <> Fail (Error bogus_bar) /\
  bar_loop 7 [0; 0; 0; 0; 0; 4] (u32 (0 - 1)) = Fail OutOfBounds.
Proof.
  intros Hlen. assert (E : bar_loop 7 conf (u32 (0 - 1)) = bars conf).
  { by rewrite (bar_loop_bars conf 7 6); [rewrite drop_0|done|lia|lia|reflexivity]. }
  split_and!; [exact E| |reflexivity]. rewrite E. clear.
  assert (H : forall n l, (length l <= n)%nat -> bars l <> Fail (Error bogus_bar)).
  { induction n as [|n IH]; intros [|b l] Hl; cbn [bars length] in *; try (done || lia).
    pose proof (IH l ltac:(lia)) as Hb. destruct (b =? 0); [done|]. destruct (_ =? 0).
    { destruct (bars l); cbn [mbind result_bind]; congruence. }
    destruct (_ =? 4).
    { destruct l as [|hi l]; [done|]. pose proof (IH l ltac:(cbn in Hl; lia)) as Hb'.
      destruct (bars l); cbn [mbind result_bind]; congruence. }
    destruct (_ || _); [|by intros [=]]. destruct (bars l); cbn [mbind result_bind]; congruence. }
  by apply (H (length conf)).
Qed.

Lemma bar_loop_decodes_witness :
  bar_loop 7 [0xfebc0008; 0; 0xe001; 0xc; 0x1; 0] (u32 (0 - 1)) =
    Ok [Bar32 0xfebc0000 true; BarIo 0xe000; Bar64 0x100000000 true].
Proof.
  destruct (bar_loop_decodes [0xfebc0008; 0; 0xe001; 0xc; 0x1; 0] ltac:(reflexivity)) as [E _].
  rewrite E. vm_compute. reflexivity.
Defined.

(** ** What stays the same while base memory is handed out *)

(** The boot-time part grows upwards, the run-time part downwards. *)
Definition marks_move (b b' : bmem) : Prop :=
  boottime_bmem_bot b <= boottime_bmem_bot b' /\ runtime_bmem_top b' <= runtime_bmem_top b.

Record later (st st' : rom_st) : Prop := {
  later_inv : bmem_inv (bm st) -> bmem_inv (bm st');
  later_free : forall x, bmem_free (bm st') x -> bmem_free (bm st) x;
  later_mem : forall x, ~ bmem_free (bm st) x -> pm st' x = pm st x;
  later_ok : pm_ok (pm st) -> pm_ok (pm st');
  later_marks : marks_move (bm st) (bm st');
}.

#[export] Instance later_refl : Reflexive later.
Proof. intros st. split; try done; lia. Qed.

#[export] Instance later_trans : Transitive later.
Proof. intros a b c [A1 A2 A3 A4 [A5 A6]] [B1 B2 B3 B4 [B5 B6]]. split; auto; [intros x Hx; rewrite B3, A3; auto|split; lia]. Qed.

(** Bytes that no allocation can take. *)
Definition held (st : rom_st) (a n : Z) : Prop := forall x, in_range a n x -> ~ bmem_free (bm st) x.

Lemma held_later st st' a n : later st st' -> held st a n -> held st' a n /\ region (pm st') a n = region (pm st) a n.
Proof.
  intros [_ Hf Hm _ _] H. split; [intros x Hx Hfr; by apply (H x Hx), Hf|].
  apply region_ext. intros i Hi. apply Hm, H. unfold in_range. lia.
Qed.

(** What both allocators promise about a block. *)
Definition block_taken (b b' : bmem) (a size : Z) : Prop :=
  bmem_inv b' /\ EFI_PAGE_SIZE <= a /\ a + size <= BMEM_MAX_ADDR /\
  (forall x, in_range a size x -> bmem_free b x /\ ~ bmem_free b' x) /\
  (forall x, bmem_free b' x -> bmem_free b x) /\ marks_move b b'.

Lemma taken_later st b' a size : block_taken (bm st) b' a size -> later st {| bm := b'; pm := pm st |}.
Proof. intros (H1 & _ & _ & _ & H5 & H6). by split. Qed.

(** An image is copied to a block taken for it. *)
Lemma copy_later st b' a src n :
  block_taken (bm st) b' a n ->
  let st' := {| bm := b'; pm := memcpy (pm st) a src n |} in
  later st st' /\ held st' a n /\ region (pm st') a n = region (pm st) src n.
Proof.
  intros (H1 & H2 & H3 & H4 & H5 & H6) st'. split_and!; [split; cbn; try done| |apply memcpy_region].
  - intros x Hx. unfold memcpy. destruct (Z.leb_spec a x), (Z.ltb_spec x (a + n)); cbn; try done.
    destruct Hx. apply H4. unfold in_range. lia.
  - apply memcpy_ok.
  - intros x Hx. by apply H4.
Qed.

Lemma bmem_alloc_taken b size align :
  bmem_inv b -> 0 <= size -> valid_align align ->
  match bmem_alloc b size align with
  | Ok (a, b') => block_taken b b' a size /\ (align | a)
  | Fail f => f <> Diverges
  end.
Proof.
  intros Hi Hs Ha. pose proof (bmem_alloc_spec b size align Hi Hs Ha) as H.
  destruct (bmem_alloc b size align) as [[a b']|f]; [|by destruct H as [-> _]].
  destruct H as (? & ? & ? & ? & ? & ? & Et & Eb). unfold block_taken, marks_move. rewrite Et, Eb.
  split_and!; (done || lia).
Qed.

Lemma bmem_alloc_boottime_taken b size align :
  bmem_inv b -> 0 <= size -> valid_align align ->
  match bmem_alloc_boottime b size align with
  | Ok (a, b') => block_taken b b' a size /\ (align | a)
  | Fail f => f <> Diverges
  end.
Proof.
  intros Hi Hs Ha. pose proof (bmem_alloc_boottime_spec b size align Hi Hs Ha) as H.
  pose proof (inv_top _ Hi).
  destruct (bmem_alloc_boottime b size align) as [[a b']|f]; [|by destruct H as [-> _]].
  destruct H as (? & ? & ? & ? & ? & ? & Et & Eb). unfold block_taken, marks_move. rewrite Et, Eb.
  split_and!; (done || lia).
Qed.

(** ** Option ROMs in place *)

(** Stage 2 may call the image: signature, and a sum of zero. *)
Definition callable (m : list Z) (sz : Z) : Prop :=
  512 <= sz /\ zlen m = sz /\ le8 m 0 = 0x55 /\ le8 m 1 = 0xaa /\ sum_at m 0 sz mod 256 = 0.

(** A device without an option ROM, or with one in base memory where nothing will overwrite it. *)
Definition rom_ok (st : rom_st) (d : bdat_pci_dev_t) : Prop :=
  rimg_seg d = 0 \/
  (0 < rimg_seg d /\ 16 * rimg_seg d + rimg_sz d <= BMEM_MAX_ADDR /\
   callable (region (pm st) (16 * rimg_seg d) (rimg_sz d)) (rimg_sz d) /\
   held st (16 * rimg_seg d) (rimg_sz d)).

Lemma rom_ok_later st st' d : later st st' -> rom_ok st d -> rom_ok st' d.
Proof.
  intros Hl [H|(H1 & H2 & H3 & H4)]; [by left|]. right.
  destruct (held_later st st' _ _ Hl H4) as [H5 H6]. by rewrite H6.
Qed.

Lemma seg_addr a : 0 <= a < BMEM_MAX_ADDR -> (16 | a) -> 16 * ptr_to_rm_seg a = a.
Proof. apply rm_seg_addr. Qed.

Lemma divide_16 a k : (16 * k | a) -> (16 | a).
Proof. intros [q ->]. exists (q * k). lia. Qed.

Lemma rom_ok_at st bd a rt sz :
  0 < a -> (16 | a) -> callable (region (pm st) a sz) sz -> a + sz <= BMEM_MAX_ADDR -> held st a sz ->
  let d := set_rimg bd (ptr_to_rm_seg a) rt sz in rom_ok st d /\ rimg_seg d <> 0.
Proof.
  intros Ha Hd Hc Hm Hh. pose proof Hc as [Hsz _]. change BMEM_MAX_ADDR with 0x100000 in *.
  pose proof (seg_addr a) as Hseg. change BMEM_MAX_ADDR with 0x100000 in Hseg. specialize (Hseg ltac:(lia) Hd).
  cbn [set_rimg rimg_seg rimg_sz]. split; [|lia]. right. cbn [set_rimg rimg_seg rimg_sz]. rewrite Hseg.
  change BMEM_MAX_ADDR with 0x100000. split_and!; (done || lia).
Qed.

Definition not_div {A} (r : result A) : Prop := r <> Fail Diverges.

Lemma aget_not_div {A} (l : list A) i f : aget l i = Fail f -> f <> Diverges.
Proof. unfold aget. destruct (_ <? _); [by intros [= <-]|]. destruct (l !! _); cbn; [done|by intros [= <-]]. Qed.

Lemma rd16_not_div m o f : rd16 m o = Fail f -> f <> Diverges.
Proof.
  unfold rd16, rd8. intros H. destruct (aget m o) eqn:E1; cbn [mbind result_bind] in H.
  - destruct (aget m (o + 1)) eqn:E2; cbn [mbind result_bind] in H; [done|].
    injection H as <-. by eapply aget_not_div.
  - injection H as <-. by eapply aget_not_div.
Qed.

(** What bringing an image to base memory does; [bd] is the data before. *)
Definition brought (bd : bdat_pci_dev_t) (st : rom_st) (r : result (bdat_pci_dev_t * rom_st)) (must : bool) : Prop :=
  match r with
  | Ok (d, st') => later st st' /\ rom_ok st' d /\ (must = true -> rimg_seg d <> 0) /\
      exists seg rt sz, d = set_rimg bd seg rt sz
  | Fail f => f <> Diverges
  end.

(** An image that lies in memory nothing will overwrite. *)
Record source (st : rom_st) (rimg sz : Z) : Prop := {
  src_pos : 0 < rimg;
  src_call : callable (region (pm st) rimg sz) sz;
  src_held : held st rimg sz;
}.

Lemma copy_down_brought bd st rimg sz :
  bmem_inv (bm st) -> source st rimg sz ->
  brought bd st ('(rimg_copy, b) ← bmem_alloc (bm st) sz (2 * KIBYTE);
    Ok (set_rimg bd (ptr_to_rm_seg rimg_copy) (ptr_to_rm_seg rimg_copy) sz,
        {| bm := b; pm := memcpy (pm st) rimg_copy rimg sz |})) true.
Proof.
  intros Hi [H1 H2 H3]. pose proof H2 as [Hsz _].
  pose proof (bmem_alloc_taken (bm st) sz (2 * KIBYTE) Hi ltac:(lia) ltac:(split; [by exists 11|by vm_compute])) as Ha.
  destruct (bmem_alloc _ _ _) as [[a b']|f]; cbn [mbind result_bind brought]; [|done].
  destruct Ha as [Ht Hal]. destruct (copy_later st b' a rimg sz Ht) as (L1 & L2 & L3).
  pose proof Ht as (_ & T1 & T2 & _). unfold EFI_PAGE_SIZE in T1.
  destruct (rom_ok_at {| bm := b'; pm := memcpy (pm st) a rimg sz |} bd a (ptr_to_rm_seg a) sz) as [R1 R2];
    [lia|by apply (divide_16 a 128)|by rewrite L3|done|done|].
  split_and!; [done|done|done|by do 3 eexists].
Qed.

(** A block for run time: nothing else changes. *)
Lemma runtime_brought bd st st1 seg sz rt_sz :
  bmem_inv (bm st1) -> 0 <= rt_sz -> later st st1 ->
  rom_ok st1 (set_rimg bd seg 0 sz) -> seg <> 0 ->
  brought bd st ('(rimg_rt, b) ← bmem_alloc (bm st1) rt_sz HKIBYTE;
    Ok (set_rimg bd seg (ptr_to_rm_seg rimg_rt) sz, {| bm := b; pm := pm st1 |})) true.
Proof.
  intros Hi Hrt Hl Hok Hnz.
  pose proof (bmem_alloc_taken (bm st1) rt_sz HKIBYTE Hi Hrt ltac:(split; [by exists 9|by vm_compute])) as Ha.
  destruct (bmem_alloc _ _ _) as [[a b']|f]; cbn [mbind result_bind brought]; [|done].
  destruct Ha as [Ht _]. pose proof (taken_later st1 b' a rt_sz Ht) as Hl2.
  pose proof (rom_ok_later _ _ _ Hl2 Hok) as Hok2.
  split_and!; [by etrans|exact Hok2|done|by do 3 eexists].
Qed.

Lemma get_rimg_brought bd m rimg sz pcir st :
  bmem_inv (bm st) -> source st rimg sz -> sz <= BMEM_MAX_ADDR ->
  (pcir = None -> (16 | rimg) /\ rimg + sz <= BMEM_MAX_ADDR) ->
  brought bd st (get_rimg bd m rimg sz pcir st) true.
Proof.
  intros Hi Hsrc Hmax Hnone. pose proof Hsrc as [H1 H2 H3]. pose proof H2 as [Hsz _]. unfold get_rimg.
  destruct pcir as [pcir|].
  2: { destruct (Hnone eq_refl) as [Hd Hm]. cbn [brought].
       destruct (rom_ok_at st bd rimg (ptr_to_rm_seg rimg) sz) as [R1 R2]; try done.
       split_and!; [done|done|done|by do 3 eexists]. }
  unfold rd8. destruct (aget m _) as [rv|f] eqn:Erv; cbn [mbind result_bind]; [|by eapply aget_not_div].
  destruct (rv >=? 3); [|by apply copy_down_brought].
  destruct (rd16 m _) as [mx|f] eqn:Emx; cbn [mbind result_bind]; [|by eapply rd16_not_div].
  destruct (u32 (mx * HKIBYTE) =? sz); cbn [negb]; [by apply copy_down_brought|].
  pose proof (wrap_range 32 (mx * HKIBYTE) ltac:(lia)) as Hrt.
  change BMEM_MAX_ADDR with 0x100000 in *. rewrite (wrap_small 64 (0x100000 - sz)) by lia.
  destruct ((rimg <=? 0x100000 - sz) && (rimg mod HKIBYTE =? 0)) eqn:Eplace; cbn [mbind result_bind].
  - apply andb_true_iff in Eplace as [E1%Z.leb_le E2%Z.eqb_eq]. change HKIBYTE with 512 in E2.
    destruct (rom_ok_at st bd rimg 0 sz) as [R1 R2]; try done.
    + apply Z.mod_divide in E2; [|lia]. by apply (divide_16 rimg 32).
    + change BMEM_MAX_ADDR with 0x100000. lia.
    + by apply runtime_brought; [|lia| | |].
  - pose proof (bmem_alloc_boottime_taken (bm st) sz HKIBYTE Hi ltac:(lia) ltac:(split; [by exists 9|by vm_compute])) as Ha.
    destruct (bmem_alloc_boottime _ _ _) as [[a b']|f]; cbn [mbind result_bind]; [|done].
    destruct Ha as [Ht Hal]. destruct (copy_later st b' a rimg sz Ht) as (L1 & L2 & L3).
    pose proof Ht as (_ & T1 & T2 & _). unfold EFI_PAGE_SIZE in T1.
    destruct (rom_ok_at {| bm := b'; pm := memcpy (pm st) a rimg sz |} bd a 0 sz) as [R1 R2];
      [lia|by apply (divide_16 a 32)|by rewrite L3|done|done|].
    apply (runtime_brought bd st {| bm := b'; pm := memcpy (pm st) a rimg sz |});
      [by apply L1|lia|done|done|done].
Qed.

(** ** The three places an image comes from *)

Lemma sum_region pm a n sz : 0 <= sz <= n -> sum_at (region pm a n) 0 sz = sum_at (region pm a sz) 0 sz.
Proof. intros H. unfold sum_at. cbn. rewrite !drop_0, !region_take by lia. done. Qed.

Lemma callable_region pm a n sz :
  512 <= sz <= n -> le8 (region pm a n) 0 = 0x55 -> le8 (region pm a n) 1 = 0xaa ->
  sum_at (region pm a n) 0 sz mod 256 = 0 -> callable (region pm a sz) sz.
Proof.
  intros Hsz H0 H1 Hs. rewrite le8_region in H0, H1 by lia. rewrite sum_region in Hs by lia.
  split_and!; [lia|apply region_len; lia|by rewrite le8_region by lia|by rewrite le8_region by lia|done].
Qed.

Lemma rom_image_callable pm a n pcir sz :
  pm_ok pm -> rom_image (region pm a n) 0 n pcir sz -> 512 <= sz <= n /\ callable (region pm a sz) sz.
Proof.
  intros Hm Hi. destruct (rom_image_bounds _ _ _ _ _ (region_ok _ _ _ Hm) Hi) as (B1 & B2 & _).
  destruct Hi as [[H1 H2] _ _ _ _ H6]. split; [lia|]. by apply (callable_region pm a n).
Qed.

Lemma held_sub st a n k : held st a n -> k <= n -> held st a k.
Proof. intros H Hk x Hx. apply H. unfold in_range in *. lia. Qed.

Lemma brought_none bd st : brought bd st (Ok (set_rimg bd 0 0 0, st)) false.
Proof. split_and!; [done|by left|done|by do 3 eexists]. Qed.

Lemma brought_weaken bd st r b : brought bd st r b -> brought bd st r false.
Proof. unfold brought. destruct r as [[d st']|f]; [|done]. intros (? & ? & _ & ?). by split_and!. Qed.

Lemma brought_bd bd bd' st r b :
  (forall x y z, set_rimg bd' x y z = set_rimg bd x y z) -> brought bd' st r b -> brought bd st r b.
Proof.
  intros E. unfold brought. destruct r as [[d st']|f]; [|done]. intros (? & ? & ? & s & t & z & ->).
  split_and!; try done. exists s, t, z. apply E.
Qed.

(** The ROM of a device, if it has one, is kept by the firmware. *)
Definition io_held (st : rom_st) (io : pci_io) : Prop :=
  RomImage io = 0 \/ RomSize io = 0 \/
  (0 < RomImage io /\ 0 < RomSize io <= BMEM_MAX_ADDR /\ held st (RomImage io) (RomSize io)).

Lemma from_pci_io_brought bd io st :
  bmem_inv (bm st) -> pm_ok (pm st) -> io_held st io ->
  brought bd st (get_rimg_from_pci_io bd io st) false.
Proof.
  intros Hi Hp Hio. unfold get_rimg_from_pci_io.
  destruct (Z.eqb_spec (RomSize io) 0), (Z.eqb_spec (RomImage io) 0); cbn [orb]; try apply brought_none.
  destruct Hio as [?|[?|(H1 & H2 & H3)]]; try done. change BMEM_MAX_ADDR with 0x100000 in *.
  pose proof (region_ok (pm st) (RomImage io) (RomSize io) Hp) as Hb.
  pose proof (region_len (pm st) (RomImage io) (RomSize io) ltac:(lia)) as Hlen.
  destruct (rimg_find_pcir_spec _ 0 (RomSize io) Hb) as (r & -> & Hr); [lia..|]. cbn [mbind result_bind].
  destruct r as [pcir|]; [|apply brought_none]. destruct (proj1 (Hr pcir) eq_refl) as [sz Himg].
  destruct (rom_image_bounds _ _ _ _ _ Hb Himg) as (B1 & B2 & B3 & B4 & B5).
  unfold pcir_type, pcir_rimg_sz_hkib. rewrite rd8_ok, rd16_ok by lia. cbn [mbind result_bind].
  destruct (_ =? PCIR_TYP_PCAT); cbn [negb]; [|apply brought_none].
  pose proof (img_size _ _ _ _ _ Himg) as [Esz _]. change HKIBYTE with 512.
  rewrite (Z.mul_comm _ 512), <- Esz, wrap_small by lia.
  destruct (rom_image_callable _ _ _ _ _ Hp Himg) as [Hsz Hc].
  apply (brought_weaken _ _ _ true), (brought_bd _ (set_rimg bd 0 0 0)); [done|].
  apply get_rimg_brought; [done| |change BMEM_MAX_ADDR with 0x100000; lia|done].
  split; [done|done|]. by apply (held_sub _ _ (RomSize io)).
Qed.

(** The copies that [fv_find_rimg] leads to are in pool memory, outside base memory that is free. *)
Definition fvs_held (fvs : fv_state) (st : rom_st) : Prop :=
  forall id c, exists r, fv_find_rimg fvs id c = Ok r /\ forall a sz, r = Some (a, sz) ->
    0 < a /\ sz <= MAX_OROM_SZ /\ held st a sz /\ exists pcir, rom_image (region (pm st) a sz) 0 sz pcir sz.

Lemma from_fvs_brought fvs bd st :
  bmem_inv (bm st) -> pm_ok (pm st) -> fvs_held fvs st ->
  brought bd st (get_rimg_from_fvs fvs bd st) false.
Proof.
  intros Hi Hp Hf. unfold get_rimg_from_fvs. cbn [set_rimg pci_id class_if].
  destruct (Hf (pci_id bd) (class_if bd)) as (r & -> & Hr). cbn [mbind result_bind].
  destruct r as [[a sz]|]; [|apply brought_none]. destruct (Hr a sz eq_refl) as (H1 & H2 & H3 & pcir & Himg).
  change MAX_OROM_SZ with 0xf0000 in *. destruct (rom_image_callable _ _ _ _ _ Hp Himg) as [Hsz Hc].
  pose proof (region_ok (pm st) a sz Hp) as Hb. pose proof (region_len (pm st) a sz ltac:(lia)) as Hlen.
  destruct (rimg_find_pcir_spec _ 0 sz Hb) as (r & -> & Hrp); [lia..|]. cbn [mbind result_bind].
  rewrite (proj2 (Hrp pcir) (ex_intro _ sz Himg)).
  apply (brought_weaken _ _ _ true), (brought_bd _ (set_rimg bd 0 0 0)); [done|].
  apply get_rimg_brought; [done|by split|change BMEM_MAX_ADDR with 0x100000; lia|done].
Qed.

(** The table that [fv_init] leaves is such a table, when its copies are in memory and outside
    base memory that is free. *)
Lemma fvs_held_stored fvs st :
  (forall id c, exists r, fv_find_rimg fvs id c = Ok r /\
     forall copy sz, r = Some (copy, sz) -> stored fvs (entry c copy sz id)) ->
  (forall a bytes, pool fvs !! a = Some bytes ->
     0 < a /\ region (pm st) a (zlen bytes) = bytes /\ held st a (zlen bytes)) ->
  fvs_held fvs st.
Proof.
  intros Hs Hp id c. destruct (Hs id c) as (r & E & Hr). exists r. split; [done|]. intros a sz Ea.
  destruct (Hr a sz Ea) as (bytes & pcir & ids & Hl & [Hz Hmax] & _ & Hi & _). cbn [entry n_rimg_copy n_rimg_sz] in *.
  destruct (Hp a bytes Hl) as (P1 & P2 & P3). rewrite Hz in P2, P3. split_and!; try done. exists pcir. by rewrite P2.
Qed.

(** The memory from 0xc0000 to 1 MiB is never handed out. *)
Definition bios_held (st : rom_st) : Prop := held st 0xc0000 0x40000.

Lemma special_case_brought bd st :
  bmem_inv (bm st) -> pm_ok (pm st) -> bios_held st -> rimg_seg bd = 0 ->
  brought bd st (get_rimg_special_case bd st) false.
Proof.
  intros Hi Hp Hb Hseg. unfold get_rimg_special_case.
  assert (Hnone : brought bd st (Ok (bd, st)) false).
  { split_and!; [done|by left|done|]. exists (rimg_seg bd), (rimg_rt_seg bd), (rimg_sz bd). by destruct bd. }
  destruct (_ =? _); [|exact Hnone]. change (BMEM_MAX_ADDR - 0xc0000) with 0x40000.
  set (m := region (pm st) 0xc0000 0x40000).
  pose proof (region_ok (pm st) 0xc0000 0x40000 Hp) as Hm. fold m in Hm.
  pose proof (region_len (pm st) 0xc0000 0x40000 ltac:(lia)) as Hlen. fold m in Hlen.
  unfold rimg_find, hdr_sig, hdr_rimg_sz_hkib_legacy. change (0 + 0) with 0. change (0 + 2) with 2. change HKIBYTE with 512.
  rewrite rd16_ok, rd8_ok by lia. cbn [mbind result_bind].
  pose proof (le16_bytes m 0 0x55 0xaa Hm) as Hsig. pose proof (le8_range m 2 Hm) as Hk.
  destruct (Z.eqb_spec (le16 m 0) 0xaa55) as [E1|]; cbn [negb mbind result_bind]; [|exact Hnone].
  rewrite Z.gtb_ltb. destruct (Z.eqb_spec (le8 m 2) 0), (Z.ltb_spec 0x7f (le8 m 2)); cbn [orb mbind result_bind];
    try exact Hnone.
  set (sz := le8 m 2 * 512) in *. assert (Hsz : 512 <= sz <= 65024) by lia.
  pose proof (cksum_at m 0 sz ltac:(lia) ltac:(lia) ltac:(lia)) as Hck. cbn [Z.to_nat] in *. rewrite Hck. cbn [mbind result_bind].
  pose proof (neg_mod_zero (sum_at m 0 sz)) as Hz.
  destruct (Z.eqb_spec (u8 (- sum_at m 0 sz)) 0) as [E2|]; cbn [negb mbind result_bind]; [|exact Hnone].
  destruct (Z.eqb_spec sz 0); [lia|].
  destruct (rimg_find_pcir_spec m 0 sz Hm) as (r & -> & _); [lia..|]. cbn [mbind result_bind].
  rewrite wrap_small by lia. apply (brought_weaken _ _ _ true).
  destruct (proj1 (Hsig ltac:(lia) ltac:(lia)) E1) as [S0 S1].
  apply get_rimg_brought; [done| |change BMEM_MAX_ADDR with 0x100000; lia|intros _; split; [by exists 0xc000|]].
  - split; [lia| |by apply (held_sub _ _ 0x40000); [|lia]].
    apply (callable_region _ _ 0x40000); [lia|done|done|by apply Hz].
  - change BMEM_MAX_ADDR with 0x100000. lia.
Qed.

(** ** One device *)

Record sources (fvs : fv_state) (ios : list (option pci_io)) (st : rom_st) : Prop := {
  srcs_inv : bmem_inv (bm st);
  srcs_pm : pm_ok (pm st);
  srcs_ios : forall io, Some io ∈ ios -> io_held st io;
  srcs_fvs : fvs_held fvs st;
  srcs_bios : bios_held st;
}.

Lemma sources_later fvs ios st st' : later st st' -> sources fvs ios st -> sources fvs ios st'.
Proof.
  intros Hl [H1 H2 H3 H4 H5]. split.
  - by apply Hl.
  - by apply Hl.
  - intros io Hio. destruct (H3 io Hio) as [?|[?|(P1 & P2 & P3)]]; [by left|by right; left|].
    right; right. split_and!; try done; try lia. by apply (held_later st).
  - intros id c. destruct (H4 id c) as (r & E & Hr). exists r. split; [done|]. intros a sz Ea.
    destruct (Hr a sz Ea) as (P1 & P2 & P3 & pcir & P4). destruct (held_later st st' _ _ Hl P3) as [P5 P6].
    split_and!; try done. exists pcir. by rewrite P6.
  - by apply (held_later st).
Qed.

Lemma sources_sub fvs ios ios' st :
  (forall io, Some io ∈ ios' -> Some io ∈ ios) -> sources fvs ios st -> sources fvs ios' st.
Proof. intros H [? ? ? ? ?]. split; auto. Qed.

Lemma brought_trans bd st r k :
  brought bd st r false ->
  (forall d st', r = Ok (d, st') -> later st st' -> rom_ok st' d -> brought d st' (k d st') false) ->
  brought bd st ('(d, st') ← r; k d st') false.
Proof.
  intros Hr Hk. destruct r as [[d st1]|f]; cbn [mbind result_bind]; [|done].
  destruct Hr as (H1 & H2 & _ & s & t & z & Ed). specialize (Hk d st1 eq_refl H1 H2).
  unfold brought in *. destruct (k d st1) as [[d' st']|f]; [|done]. destruct Hk as (K1 & K2 & _ & s' & t' & z' & ->).
  split_and!; [by etrans|done|done|]. exists s', t', z'. by rewrite Ed.
Qed.

Lemma find_rom_brought fvs io bd st :
  sources fvs [Some io] st -> brought bd st (find_rom fvs io bd st) false.
Proof.
  intros Hs. unfold find_rom. pose proof Hs as [H1 H2 H3 H4 H5].
  assert (Hkeep : forall d st', rom_ok st' d -> brought d st' (Ok (d, st')) false).
  { intros d st' Hd. split_and!; [done|done|done|]. exists (rimg_seg d), (rimg_rt_seg d), (rimg_sz d). by destruct d. }
  apply brought_trans; [apply from_pci_io_brought; [done|done|apply H3; by left]|].
  intros d st1 _ L1 R1. destruct (Z.eqb_spec (rimg_seg d) 0); [|by apply Hkeep].
  destruct (sources_later _ _ _ _ L1 Hs) as [K1 K2 _ K4 K5].
  apply brought_trans; [by apply from_fvs_brought|].
  intros d2 st2 _ L2 R2. destruct (Z.eqb_spec (rimg_seg d2) 0); [|by apply Hkeep].
  destruct (sources_later _ _ _ _ L2 (sources_later _ _ _ _ L1 Hs)) as [M1 M2 _ _ M5].
  by apply special_case_brought.
Qed.

Lemma bars_fail : forall n l f, (length l <= n)%nat -> bars l = Fail f -> f = OutOfBounds \/ f = Error bar_16.
Proof.
  induction n as [|n IH]; intros [|b l] f Hl; cbn [bars length] in *; try (done || lia).
  assert (Hb : forall (k : bar) l', (length l' <= n)%nat -> (r ← bars l'; Ok (k :: r)) = Fail f ->
    f = OutOfBounds \/ f = Error bar_16).
  { intros k l' Hl' H. destruct (bars l') as [r|e] eqn:E; cbn [mbind result_bind] in H; [done|].
    injection H as <-. by apply (IH l'). }
  destruct (b =? 0); [apply IH; lia|]. destruct (_ =? 0); [apply Hb; lia|]. destruct (_ =? 4).
  { destruct l as [|hi l]; [intros [= <-]; by left|]. apply Hb. cbn in Hl. lia. }
  destruct (_ || _); [apply Hb; lia|]. intros [= <-]. by right.
Qed.

(** Six words are read when six are asked for. *)
Definition reads_six (io : pci_io) : Prop := forall l, Pci_Read io (4 * 4) 6 = Some l -> length l = 6%nat.

(** A general device: its id and class, as the first words of its configuration space give them. *)
Definition dev_of (o : option pci_io) : option (Z * Z) :=
  io ← o; conf ← Pci_Read io 0 4;
  id ← conf !! 0%nat; c2 ← conf !! 2%nat; c3 ← conf !! 3%nat;
  if Z.land (Z.shiftr c3 8) 0xff =? 0 then Some (id, Z.land c2 0xffffff00) else None.

Definition pci_view (p : Z * bdat_pci_dev_t) : bp_view :=
  {| v_addr := p.1; v_type := BP_PCID; v_size := sizeof_bdat_pci_dev_t; v_data := BdatPci p.2 |}.

Lemma repr_alloc (b : bparms bmem) l a :
  bparms_repr b l -> bmem_inv a -> (forall x, bmem_free a x -> bmem_free (bp_alloc b) x) ->
  bparms_repr {| bp_alloc := a; bp_heap := bp_heap b; bp_head := bp_head b; bp_tail := bp_tail b |} l.
Proof.
  intros [H1 H2 H3 H4 H5 H6] Ha Hf. split; cbn; try done.
  intros v x Hv Hx Hfr. by apply (H5 v x Hv Hx), Hf.
Qed.

Lemma add_node_later (b b' : bparms bmem) l p ty sz m :
  bparms_repr b l -> 0 <= sz -> bparm_add b ty sz = Ok (p, b') ->
  later {| bm := bp_alloc b; pm := m |} {| bm := bp_alloc b'; pm := m |} /\
  EFI_PAGE_SIZE <= p - sizeof_bparm_t /\ p + sz <= boottime_bmem_bot (bp_alloc b').
Proof.
  intros Hr Hsz E. pose proof (bparm_add_repr b l ty sz Hr Hsz) as H. rewrite E in H.
  destruct H as (_ & a & Ha & Ea).
  change (bmem_alloc_boottime (bp_alloc b) (sizeof_bparm_t + sz) 8 = Ok (p - sizeof_bparm_t, a)) in Ha.
  pose proof (bmem_alloc_boottime_taken (bp_alloc b) (sizeof_bparm_t + sz) 8 (repr_inv _ _ Hr)
    ltac:(unfold sizeof_bparm_t; lia) ltac:(split; [by exists 3|lia])) as Ht.
  pose proof (bmem_alloc_boottime_spec (bp_alloc b) (sizeof_bparm_t + sz) 8 (repr_inv _ _ Hr)
    ltac:(unfold sizeof_bparm_t; lia) ltac:(split; [by exists 3|lia])) as Hb.
  rewrite Ha in Ht, Hb. destruct Ht as [Ht _], Hb as (_ & _ & Hlo & _ & _ & _ & _ & Hbot). rewrite Ea.
  split; [|split; lia]. exact (taken_later {| bm := bp_alloc b; pm := m |} a _ _ Ht).
Qed.

Lemma enable_is_display io cls attrs supports :
  (enable_legacy_vga io cls attrs supports).1 = true -> is_display cls = true.
Proof. unfold enable_legacy_vga. by destruct (is_display cls). Qed.

Lemma or_error_fail {A} msg (o : option A) f : or_error msg o = Fail f -> f <> Diverges.
Proof. destruct o; cbn; [done|by intros [= <-]]. Qed.

(** A node at [p] below the boot-time mark. *)
Definition node_low (b : bmem) (p : Z) : Prop :=
  EFI_PAGE_SIZE <= p /\ p + sizeof_bparm_t + sizeof_bdat_pci_dev_t <= boottime_bmem_bot b.

Lemma node_low_later st st' p : later st st' -> node_low (bm st) p -> node_low (bm st') p.
Proof. intros [_ _ _ _ [H _]] [? ?]. split; lia. Qed.

(** What one device adds to the list [l]. *)
Definition one_added (io : pci_io) (try : bool) (st st' : pci_st) (l : list bp_view) (vga : Z) : Prop :=
  (dev_of (Some io) = None /\ vga = NULL /\ bparms_repr (bps st') l) \/
  exists p d, dev_of (Some io) = Some (pci_id d, class_if d) /\
    bparms_repr (bps st') (l ++ [pci_view (p, d)]) /\ rom_ok (rom_of st') d /\ node_low (bp_alloc (bps st')) p /\
    (vga = NULL \/ vga = p + sizeof_bparm_t /\ try = true /\ is_display (class_if d) = true).

(** After the configuration space is read: the node is added, filled in and the registers read. *)
Lemma general_device fvs io try st l attrs supports locn id cls :
  bparms_repr (bps st) l -> sources fvs [Some io] (rom_of st) -> reads_six io ->
  dev_of (Some io) = Some (id, cls) ->
  match ('(p, b) ← bparm_add (bps st) BP_PCID sizeof_bdat_pci_dev_t;
    let st := {| bps := b; mem := mem st |} in
    let bd := {| pci_locn := locn; pci_id := id; class_if := cls; rimg_seg := 0; rimg_rt_seg := 0; rimg_sz := 0 |} in
    let vga := if try && (enable_legacy_vga io cls attrs supports).1 then p else NULL in
    '(bd, r) ← find_rom fvs io bd (rom_of st);
    b ← bparm_store (bps (with_rom st r)) p (BdatPci bd);
    let st := {| bps := b; mem := pm r |} in
    pci_conf ← or_error no_conf (Pci_Read io (4 * 4) 6);
    bars ← bar_loop 7 pci_conf (u32 (0 - 1));
    Ok (vga, st, bars)) with
  | Ok (vga, st', _) => later (rom_of st) (rom_of st') /\ one_added io try st st' l vga
  | Fail f => f <> Diverges
  end.
Proof.
  intros Hr Hs Hsix Hdev. set (sz := sizeof_bdat_pci_dev_t).
  pose proof (bparm_add_repr (bps st) l BP_PCID sz Hr ltac:(done)) as Hadd.
  destruct (bparm_add (bps st) BP_PCID sz) as [[p b]|f] eqn:Eadd; cbn [mbind result_bind].
  2: { pose proof (bmem_alloc_boottime_taken (bp_alloc (bps st)) (sizeof_bparm_t + sz) 8 (repr_inv _ _ Hr) ltac:(done)
         ltac:(split; [by exists 3|lia])) as Ht.
       change (bmem_alloc_boottime (bp_alloc (bps st)) (sizeof_bparm_t + sz) 8 = Fail f) in Hadd. by rewrite Hadd in Ht. }
  pose proof (add_node_later (bps st) b l p BP_PCID sz (mem st) Hr ltac:(done) Eadd) as (L1 & N1 & N2). fold (rom_of st) in L1.
  destruct Hadd as [Hr1 _]. cbn zeta. set (st1 := {| bps := b; mem := mem st |}).
  set (bd := {| pci_locn := locn; pci_id := id; class_if := cls; rimg_seg := 0; rimg_rt_seg := 0; rimg_sz := 0 |}).
  pose proof (find_rom_brought fvs io bd (rom_of st1) (sources_later _ _ _ _ L1 Hs)) as Hf.
  destruct (find_rom _ _ _ _) as [[d r]|f]; cbn [mbind result_bind]; [|done].
  destruct Hf as (L2 & R2 & _ & s & t & z & Ed).
  assert (Hr2 : bparms_repr (bps (with_rom st1 r)) (l ++ [{| v_addr := p - sizeof_bparm_t; v_type := BP_PCID;
    v_size := sz; v_data := BdatZero sz |}])).
  { apply (repr_alloc b); [done|apply L2, Hr1|apply L2]. }
  destruct (bparm_store_repr _ _ _ (BdatPci d) Hr2) as (b3 & E3 & A3 & Hr3). cbn [v_addr v_type v_size] in E3, Hr3.
  replace (p - sizeof_bparm_t + sizeof_bparm_t) with p in E3 by lia. rewrite E3. cbn [mbind result_bind].
  destruct (or_error _ _) as [conf|f] eqn:Ec; cbn [mbind result_bind]; [|by eapply or_error_fail].
  assert (Hlen : length conf = 6%nat).
  { apply Hsix. unfold or_error in Ec. destruct (Pci_Read _ _ _); [by injection Ec as ->|done]. }
  rewrite (bar_loop_bars conf 7 6), drop_0 by (done || lia).
  destruct (bars conf) as [rs|f] eqn:Eb; cbn [mbind result_bind].
  2: { by destruct (bars_fail _ conf f (le_n _) Eb) as [-> | ->]. }
  assert (Er : rom_of {| bps := b3; mem := pm r |} = r) by (unfold rom_of; cbn; rewrite A3; by destruct r).
  rewrite Er. split; [by etrans|]. right. exists (p - sizeof_bparm_t), d. rewrite Er. split_and!.
  - by rewrite Hdev, Ed.
  - exact Hr3.
  - done.
  - cbn [bps]. rewrite A3. apply (node_low_later (rom_of st1)); [done|]. split; [done|]. cbn [rom_of bm bps st1].
    unfold sz in N2. lia.
  - destruct try; cbn [andb]; [|by left]. destruct ((enable_legacy_vga io cls attrs supports).1) eqn:Ee; [|by left].
    right. split_and!; [lia|done|]. rewrite Ed. by eapply enable_is_display.
Qed.

Lemma process_one_spec fvs io try st l :
  bparms_repr (bps st) l -> sources fvs [Some io] (rom_of st) -> reads_six io ->
  match process_one_pci_io fvs io try st with
  | Ok (vga, st', _) => later (rom_of st) (rom_of st') /\ one_added io try st st' l vga
  | Fail f => f <> Diverges
  end.
Proof.
  intros Hr Hs Hsix. unfold process_one_pci_io.
  destruct (or_error _ (GetLocation io)) as [[[[seg bus] dv] fn]|f] eqn:E1; cbn [mbind result_bind]; [|by eapply or_error_fail].
  destruct (or_error _ (Attributes_Get io)) as [attrs|f] eqn:E2; cbn [mbind result_bind]; [|by eapply or_error_fail].
  destruct (or_error _ (Attributes_Supported io)) as [sup|f] eqn:E3; cbn [mbind result_bind]; [|by eapply or_error_fail].
  destruct (or_error _ (Pci_Read io 0 4)) as [conf|f] eqn:E4; cbn [mbind result_bind]; [|by eapply or_error_fail].
  destruct (aget conf 0) as [id|f] eqn:E5; cbn [mbind result_bind]; [|by eapply aget_not_div].
  destruct (aget conf 2) as [c2|f] eqn:E6; cbn [mbind result_bind]; [|by eapply aget_not_div].
  destruct (aget conf 3) as [c3|f] eqn:E7; cbn [mbind result_bind]; [|by eapply aget_not_div].
  apply aget_Ok in E5 as [_ E5], E6 as [_ E6], E7 as [_ E7].
  assert (Ec : Pci_Read io 0 4 = Some conf) by (unfold or_error in E4; destruct (Pci_Read io 0 4); congruence).
  assert (Hdev : dev_of (Some io) =
    if Z.land (Z.shiftr c3 8) 0xff =? 0 then Some (id, Z.land c2 0xffffff00) else None).
  { unfold dev_of. cbn [mbind option_bind]. rewrite Ec. cbn [mbind option_bind].
    change (Z.to_nat 0) with 0%nat in E5. change (Z.to_nat 2) with 2%nat in E6. change (Z.to_nat 3) with 3%nat in E7.
    by rewrite E5; cbn [mbind option_bind]; rewrite E6; cbn [mbind option_bind]; rewrite E7. }
  destruct (Z.land (Z.shiftr c3 8) 0xff =? 0); cbn [negb].
  - by apply general_device.
  - split; [done|]. left. by split_and!.
Qed.

(** ** All devices *)

Definition dev_ids_of (d : Z * bdat_pci_dev_t) : Z * Z := (pci_id d.2, class_if d.2).

(** What a pass over [ios] adds: a node for each general device, in order, with its option ROM. *)
Record all_added (ios : list (option pci_io)) (st st' : pci_st) (l : list bp_view) (vga vga' : Z)
    (ds : list (Z * bdat_pci_dev_t)) : Prop := {
  all_later : later (rom_of st) (rom_of st');
  all_repr : bparms_repr (bps st') (l ++ (pci_view <$> ds));
  all_ids : dev_ids_of <$> ds = omap dev_of ios;
  all_roms : Forall (fun d => rom_ok (rom_of st') d.2) ds;
  all_low : Forall (fun d => node_low (bp_alloc (bps st')) d.1) ds;
  all_vga : vga' = vga \/ exists d, d ∈ ds /\ vga' = d.1 + sizeof_bparm_t /\ is_display (class_if d.2) = true;
}.

Lemma pci_loop_step fvs io ios st st1 l vga try v :
  (forall st l vga, bparms_repr (bps st) l -> sources fvs ios (rom_of st) ->
     match pci_loop fvs ios vga st with
     | Ok (vga', st') => exists ds, all_added ios st st' l vga vga' ds
     | Fail f => f <> Diverges
     end) ->
  sources fvs (Some io :: ios) (rom_of st) ->
  later (rom_of st) (rom_of st1) -> one_added io try st st1 l v ->
  forall w, w = v /\ vga = NULL \/ w = vga /\ v = NULL ->
  match pci_loop fvs ios w st1 with
  | Ok (vga', st') => exists ds, all_added (Some io :: ios) st st' l vga vga' ds
  | Fail f => f <> Diverges
  end.
Proof.
  intros IH Hs L1 H1 w Hw.
  assert (Hs1 : sources fvs ios (rom_of st1)).
  { apply (sources_later _ _ (rom_of st)); [done|]. eapply sources_sub; [|exact Hs]. intros i Hi. by right. }
  destruct H1 as [(Hdev & -> & Hr)|(p & d & Hdev & Hr & Hok & Hlow & Hv)].
  - specialize (IH st1 l w Hr Hs1). destruct (pci_loop _ _ _ _) as [[vga' st']|f]; [|done].
    destruct IH as [ds [A1 A2 A3 A4 A6 A5]]. exists ds. split; try done.
    + by etrans.
    + rewrite A3. change (omap dev_of (Some io :: ios)) with
        (match dev_of (Some io) with Some y => y :: omap dev_of ios | None => omap dev_of ios end). by rewrite Hdev.
    + destruct A5 as [-> |A5]; [|by right]. left. by destruct Hw as [[-> ->]|[-> _]].
  - specialize (IH st1 _ w Hr Hs1). destruct (pci_loop _ _ _ _) as [[vga' st']|f]; [|done].
    destruct IH as [ds [A1 A2 A3 A4 A6 A5]]. exists ((p, d) :: ds). split.
    + by etrans.
    + by rewrite <- app_assoc in A2.
    + change (omap dev_of (Some io :: ios)) with
        (match dev_of (Some io) with Some y => y :: omap dev_of ios | None => omap dev_of ios end).
      rewrite Hdev, <- A3. done.
    + constructor; [|done]. by apply (rom_ok_later (rom_of st1)).
    + constructor; [|done]. exact (node_low_later (rom_of st1) (rom_of st') p A1 Hlow).
    + destruct A5 as [-> |(d' & Hin & E & Hd)]; [|right; exists d'; split_and!; [by right|done|done]].
      destruct Hw as [[-> ->]|[-> _]]; [|by left]. destruct Hv as [-> |(-> & _ & Hd)]; [by left|].
      right. exists (p, d). split_and!; [by left|done|done].
Qed.

Lemma pci_loop_spec fvs ios : forall st l vga,
  (forall io, Some io ∈ ios -> reads_six io) ->
  bparms_repr (bps st) l -> sources fvs ios (rom_of st) ->
  match pci_loop fvs ios vga st with
  | Ok (vga', st') => exists ds, all_added ios st st' l vga vga' ds
  | Fail f => f <> Diverges
  end.
Proof.
  induction ios as [|[io|] ios IH]; intros st l vga Hsix Hr Hs; cbn [pci_loop or_error mbind result_bind]; [| |done].
  { exists []. split; cbn; [done|by rewrite app_nil_r|done|done|done|by left]. }
  assert (Hsix' : forall i, Some i ∈ ios -> reads_six i) by (intros i Hi; apply Hsix; by right).
  assert (Hs1 : sources fvs [Some io] (rom_of st)).
  { eapply sources_sub; [|exact Hs]. intros i [->|?%not_elem_of_nil]%elem_of_cons; [by left|done]. }
  destruct (Z.eqb_spec vga NULL) as [->|Hv].
  - pose proof (process_one_spec fvs io true st l Hr Hs1 (Hsix io ltac:(by left))) as H1.
    destruct (process_one_pci_io _ _ _ _) as [[[v st1] rs]|f]; cbn [mbind result_bind]; [|done].
    destruct H1 as [L1 H1].
    apply (pci_loop_step fvs io ios st st1 l NULL true v); try done; [intros; by apply IH|by left].
  - pose proof (process_one_spec fvs io false st l Hr Hs1 (Hsix io ltac:(by left))) as H1.
    destruct (process_one_pci_io _ _ _ _) as [[[v st1] rs]|f]; cbn [mbind result_bind]; [|done].
    destruct H1 as [L1 H1].
    assert (Hvn : v = NULL).
    { destruct H1 as [(_ & ? & _)|(p & d & _ & _ & _ & _ & [?|(_ & ? & _)])]; done. }
    apply (pci_loop_step fvs io ios st st1 l vga false v); try done; [intros; by apply IH|by right].
Qed.

(** ** Properties of the whole *)

Lemma lseg_node heap p l q v : lseg heap p l q -> v ∈ l -> exists nx, node_at heap v nx.
Proof.
  revert p. induction l as [|w l IH]; intros p H Hv; [by apply not_elem_of_nil in Hv|].
  destruct H as (_ & _ & nx & Hn & Hs). apply elem_of_cons in Hv as [->|Hv]; [by exists nx|by apply (IH nx)].
Qed.

Lemma process_pci_spec fvs ios st l :
  bparms_repr (bps st) l -> sources fvs ios (rom_of st) -> (forall io, Some io ∈ ios -> reads_six io) ->
  match process_pci fvs ios st with
  | Ok st' => exists ds vga, all_added ios st st' l NULL vga ds /\
      exists d, d ∈ ds /\ is_display (class_if d.2) = true /\ rimg_seg d.2 <> 0
  | Fail f => f <> Diverges
  end.
Proof.
  intros Hr Hs Hsix. unfold process_pci. destruct ios as [|o ios]; [done|].
  pose proof (pci_loop_spec fvs (o :: ios) st l NULL Hsix Hr Hs) as H.
  destruct (pci_loop _ _ _ _) as [[vga st']|f]; cbn [mbind result_bind]; [|done].
  destruct H as [ds A]. pose proof A as [A1 A2 A3 A4 _ A5]. destruct (Z.eqb_spec vga NULL); [done|].
  destruct A5 as [->|(d & Hin & -> & Hd)]; [done|].
  destruct (lseg_node _ _ _ _ (pci_view d) (repr_seg _ _ A2)) as [nx Hn].
  { apply elem_of_app. right. by apply list_elem_of_fmap_2. }
  unfold node_rimg_seg. replace (d.1 + sizeof_bparm_t - sizeof_bparm_t) with d.1 by lia.
  unfold node_at in Hn. cbn [pci_view v_addr] in Hn. rewrite Hn. cbn [checked mbind result_bind u pci_view v_data].
  destruct (Z.eqb_spec (rimg_seg d.2) 0); [done|].
  exists ds, (d.1 + sizeof_bparm_t). split; [exact A|by exists d].
Qed.


(** ** A concrete device *)

Definition demo_mem : phys := fun x =>
  if (0x200000 <=? x) && (x <? 0x200200) then le8 demo_rimg (x - 0x200000) else 0.

(** A display controller with the image in its own ROM. *)
Definition demo_io : pci_io := {|
  GetLocation := Some (0, 0, 2, 0);
  Attributes_Get := Some 0;
  Attributes_Supported := Some (Z.lor EFI_PCI_ATTRIBUTE_VGA_MEMORY EFI_PCI_ATTRIBUTE_VGA_IO);
  Attributes_Enable := fun _ => true;
  Pci_Read := fun off n => if off =? 0 then Some [0x11118086; 0; 0x03000000; 0] else Some [0xc0000008; 0; 0xe001; 0; 0; 0];
  RomImage := 0x200000;
  RomSize := 512;
|}.

Definition demo_low_bmem : bmem :=
  {| blk := [ {| start := 0x1000; end_ := 0x60000; orig_end := 0x60000 |};
              {| start := 0x70000; end_ := 0xa0000; orig_end := 0xa0000 |} ];
     boottime_bmem_bot := 0x1000; runtime_bmem_top := 0xa0000; bmem_uefi_attr := 0xf |}.

Lemma demo_low_inv : bmem_inv demo_low_bmem.
Proof.
  split; [| |vm_compute; split; discriminate|vm_compute; split; discriminate].
  - intros [|[|i]] b; cbn; intros [= <-]; unfold blk_ok; unfold_consts; cbn; lia.
  - intros [|[|i]] [|[|j]] b c Hij; cbn; intros [= <-] [= <-]; cbn; lia.
Qed.

Lemma demo_low_free x : bmem_free demo_low_bmem x -> x < 0xa0000.
Proof. intros ([|[|i]] & b & Hb & Hx); cbn in Hb; simplify_eq; cbn in Hx; lia. Qed.

Definition demo_pci : pci_st := {| bps := bparms0 demo_low_bmem; mem := demo_mem |}.

Lemma demo_sources : sources fv_state0 [Some demo_io] (rom_of demo_pci).
Proof.
  split.
  - exact demo_low_inv.
  - intros x. unfold demo_pci, rom_of, demo_mem. cbn [pm mem].
    destruct (_ && _); [apply le8_range, demo_rimg_bytes|lia].
  - intros io [[= ->]|?%not_elem_of_nil]%elem_of_cons; [|done]. right; right. cbn [demo_io RomImage RomSize].
    split_and!; [lia|lia|done|]. intros x Hx Hf%demo_low_free. unfold in_range in Hx. lia.
  - intros id c. exists None. split; [|done]. by rewrite (fv_find_rimg_spec fv_state0 [] id c (ht_repr0 fv_state0 eq_refl)).
  - intros x Hx Hf%demo_low_free. unfold in_range in Hx. lia.
Qed.

Lemma demo_reads_six io : Some io ∈ [Some demo_io] -> reads_six io.
Proof.
  intros [[= ->]|?%not_elem_of_nil]%elem_of_cons; [|done].
  intros l E. vm_compute in E. by injection E as <-.
Qed.


(** ** Two limits of [get_rimg] *)

Definition demo_bd : bdat_pci_dev_t :=
  {| pci_locn := 0; pci_id := 0; class_if := 0; rimg_seg := 0; rimg_rt_seg := 0; rimg_sz := 0 |}.

(** An image whose data structure has the minimum size and ends where the image ends. *)
Definition tail_rimg : list Z := poke_bytes
  [(0, 0x55); (1, 0xaa); (0x18, 0xea); (0x19, 0x01);
   (0x1ea, 80); (0x1eb, 67); (0x1ec, 73); (0x1ed, 82); (0x1f4, 0x16); (0x1f6, 3); (0x1fa, 1); (0x30, 0xce)]
  (replicate 512 0).

(** Such an image passes [rimg_find_pcir], but [get_rimg] reads the run-time size, which lies
    behind it. *)
Lemma get_rimg_reads_past_image :
  rimg_find_pcir tail_rimg 0 512 = Ok (Some 0x1ea) /\
  get_rimg demo_bd tail_rimg 0x200000 512 (Some 0x1ea) (rom_of demo_pci) = Fail OutOfBounds.
Proof. vm_compute. split; reflexivity. Qed.

(** An image of more than 1 MiB makes [BMEM_MAX_ADDR - sz] wrap around, so that it is taken to lie
    in base memory already: the segment is the address cut to 16 bits. *)
Lemma get_rimg_large_in_place :
  match get_rimg demo_bd (poke_bytes [(12, 3)] (replicate 64 0)) 0x40000000 0x100200 (Some 0) (rom_of demo_pci) with
  | Ok (bd, _) => rimg_seg bd = 0 /\ rimg_sz bd = 0x100200
  | Fail _ => False
  end.
Proof. vm_compute. split; reflexivity. Qed.
