(* ===== verification/Elf.v ===== *)
(** * Loading stage 2 (src/elf.h, [load_stage2] and its helpers of src/stage1/main.c)

    [load_stage2] reads a 32-bit ELF program from the boot medium and places its segments at their
    physical addresses.  The file and the page allocator are parameters; what they answer is
    stated by [prog_ok] and [pages_ok].  The state is physical memory, the pages that have been
    allocated and the calls of [FreePages] that the error paths make.  The theorem says that a
    program that is accepted is in memory byte for byte, and that nothing else was written. *)

From S2P Require Import Prelude Util Bmem Rimg Phys Pci.

(** ** elf.h *)

Definition EI_MAG0 : Z := 0.
Definition EI_MAG1 : Z := 1.
Definition EI_MAG2 : Z := 2.
Definition EI_MAG3 : Z := 3.
Definition EI_VERSION : Z := 6.
Definition ELFMAG0 : Z := 0x7f.
Definition ELFMAG1 : Z := 0x45.
Definition ELFMAG2 : Z := 0x4c.
Definition ELFMAG3 : Z := 0x46.
Definition EV_CURRENT : Z := 1.
Definition EM_386 : Z := 3.
Definition PT_LOAD : Z := 1.

(** [Elf32_Ehdr] by the offsets of its fields, and its size. *)
Definition e_machine : Z := 18.
Definition e_version : Z := 20.
Definition e_entry : Z := 24.
Definition e_phoff : Z := 28.
Definition e_ehsize : Z := 40.
Definition e_phentsize : Z := 42.
Definition e_phnum : Z := 44.
Definition sizeof_Elf32_Ehdr : Z := 52.

Record Elf32_Phdr := {
  p_type : Z; p_offset : Z; p_vaddr : Z; p_paddr : Z; p_filesz : Z; p_memsz : Z; p_flags : Z; p_align : Z;
}.
Definition sizeof_Elf32_Phdr : Z := 32.

(** The entry at offset [o] of the table as read. *)
Definition phdr_at (b : list Z) (o : Z) : Elf32_Phdr :=
  {| p_type := le32 b o; p_offset := le32 b (o + 4); p_vaddr := le32 b (o + 8); p_paddr := le32 b (o + 12);
     p_filesz := le32 b (o + 16); p_memsz := le32 b (o + 20); p_flags := le32 b (o + 24); p_align := le32 b (o + 28) |}.

Definition MAX_PHDRS : Z := 16.

Definition cannot_read : string := "cannot read stage 2".
Definition short_read : string := "short read from stage 2".
Definition cannot_seek : string := "cannot seek into stage 2".
Definition bad_stage2 : string := "bad stage2".
Definition no_seg_mem : string := "cannot get mem. for ELF seg.".
Definition cannot_open : string := "cannot open stage 2".

(** ** State *)

(** Physical memory, the page ranges allocated so far, and the ranges given to [FreePages]. *)
Record ld_st := { ld_mem : phys; ld_pages : list (Z * Z); ld_frees : list (Z * Z) }.

Section load.
(** [prog->Read] at a position, of a size; [prog->SetPosition]; [AllocatePages] at an address, with
    the pages allocated so far. *)
Variable prog_read : Z -> Z -> option (list Z).
Variable prog_seek : Z -> bool.
Variable alloc_pages : list (Z * Z) -> Z -> Z -> bool.

(** The bytes and the new position. *)
Definition read_stage2 (pos size : Z) : result (list Z * Z) :=
  if size =? 0 then Ok ([], pos)
  else
    match prog_read pos size with
    | None => Fail (Error cannot_read)
    | Some l => if negb (zlen l =? size) then Fail (Error short_read) else Ok (l, pos + size)
    end.

Definition seek_stage2 (pos : Z) : result Z :=
  if prog_seek pos then Ok pos else Fail (Error cannot_seek).

(** Note the first entry's [p_memsz], as in the code. *)
Definition free_stage2_mem (phdrs : list Elf32_Phdr) (ph_cnt : nat) : list (Z * Z) :=
  let memsz0 := match phdrs with ph :: _ => p_memsz ph | [] => 0 end in
  (fun ph => (p_paddr ph, (memsz0 + EFI_PAGE_SIZE - 1) / EFI_PAGE_SIZE)) <$> take ph_cnt phdrs.

Definition with_frees (st : ld_st) (l : list (Z * Z)) : ld_st :=
  {| ld_mem := ld_mem st; ld_pages := ld_pages st; ld_frees := ld_frees st ++ l |}.

(** One segment: its pages are allocated, its bytes read, the rest cleared. *)
Definition load_seg (phdrs : list Elf32_Phdr) (ph_idx : nat) (phdr : Elf32_Phdr) (st : ld_st)
    : ld_st * result unit :=
  let off := p_offset phdr in
  let paddr := p_paddr phdr in
  let slack := paddr mod EFI_PAGE_SIZE in
  let filesz := p_filesz phdr in
  let memsz := p_memsz phdr in
  if filesz >? memsz then (with_frees st (free_stage2_mem phdrs ph_idx), Fail (Error bad_stage2))
  else
    let '(off, paddr, filesz, memsz) :=
      if slack =? 0 then (off, paddr, filesz, memsz)
      else (u32 (off - slack), paddr - slack, if filesz =? 0 then filesz else u32 (filesz + slack),
            u32 (memsz + slack)) in
    let pages := (memsz + EFI_PAGE_SIZE - 1) / EFI_PAGE_SIZE in
    if negb (alloc_pages (ld_pages st) paddr pages)
    then (with_frees st (free_stage2_mem phdrs ph_idx), Fail (Error no_seg_mem))
    else
      let st := {| ld_mem := ld_mem st; ld_pages := (paddr, pages) :: ld_pages st; ld_frees := ld_frees st |} in
      match (if filesz =? 0 then Ok (ld_mem st)
             else pos ← seek_stage2 off; '(l, _) ← read_stage2 pos filesz; Ok (write_bytes (ld_mem st) paddr l)) with
      | Fail f => (st, Fail f)
      | Ok pm =>
          ({| ld_mem := memset pm (paddr + filesz) (u32 (memsz - filesz)); ld_pages := ld_pages st;
              ld_frees := ld_frees st |}, Ok ())
      end.

Fixpoint load_segs (phdrs todo : list Elf32_Phdr) (ph_idx : nat) (st : ld_st) : ld_st * result unit :=
  match todo with
  | [] => (st, Ok ())
  | phdr :: todo =>
      if negb (p_type phdr =? PT_LOAD) then load_segs phdrs todo (S ph_idx) st
      else
        match load_seg phdrs ph_idx phdr st with
        | (st, Fail f) => (st, Fail f)
        | (st, Ok _) => load_segs phdrs todo (S ph_idx) st
        end
  end.

(** The checks of the header; the table and the entry point. *)
Definition read_phdrs : result (list Elf32_Phdr * Z) :=
  '(ehdr, _) ← read_stage2 0 sizeof_Elf32_Ehdr;
  if negb ((le8 ehdr EI_MAG0 =? ELFMAG0) && (le8 ehdr EI_MAG1 =? ELFMAG1) &&
           (le8 ehdr EI_MAG2 =? ELFMAG2) && (le8 ehdr EI_MAG3 =? ELFMAG3)) then Fail (Error bad_stage2)
  else if negb ((le8 ehdr EI_VERSION =? EV_CURRENT) && (le32 ehdr e_version =? EV_CURRENT)) then Fail (Error bad_stage2)
  else if (le16 ehdr e_ehsize <? sizeof_Elf32_Ehdr) || negb (le16 ehdr e_phentsize =? sizeof_Elf32_Phdr)
  then Fail (Error bad_stage2)
  else
    let ph_cnt := le16 ehdr e_phnum in
    if ph_cnt >? MAX_PHDRS then Fail (Error bad_stage2)
    else if negb (le16 ehdr e_machine =? EM_386) then Fail (Error bad_stage2)
    else
      pos ← seek_stage2 (le32 ehdr e_phoff);
      '(b, _) ← read_stage2 pos (ph_cnt * sizeof_Elf32_Phdr);
      Ok ((fun i => phdr_at b (Z.of_nat i * sizeof_Elf32_Phdr)) <$> seq 0 (Z.to_nat ph_cnt), le32 ehdr e_entry).

(** [load_stage2], from the point where the file is open. *)
Definition load_prog (st : ld_st) : ld_st * result Z :=
  match read_phdrs with
  | Fail f => (st, Fail f)
  | Ok (phdrs, entry) =>
      match load_segs phdrs phdrs 0 st with
      | (st, Fail f) => (st, Fail f)
      | (st, Ok _) => (st, Ok entry)
      end
  end.
End load.

(** ** The boot medium *)

(** What the protocols of the medium answer: [HandleProtocol] and [OpenVolume], then by the name of
    a file [Open], [LibFileInfo], [Read] and [SetPosition]. *)
Record medium := {
  has_fs : bool;
  open_volume : bool;
  vol_open : string -> bool;
  lib_file_info : string -> bool;
  medium_read : string -> Z -> Z -> option (list Z);
  medium_seek : string -> Z -> bool;
}.

Definition STAGE2 : string := "EFI\biefirc\stage2.sys".
Definition STAGE2_ALT : string := "biefist2.sys".
Definition STAGE2_ALT_ALT : string := "kernel.sys".

(** [dump_stage2_info], less what it prints. *)
Definition dump_stage2_info (M : medium) (name : string) : result unit :=
  if lib_file_info M name then Ok () else Fail (Error "cannot get info on stage 2").

(** The first part of [load_stage2]: the name of the file that is opened. *)
Definition open_stage2 (M : medium) : result string :=
  if negb (has_fs M) then Fail (Error "cannot get EFI_SIMPLE_FILE_SYSTEM_PROTOCOL")
  else if negb (open_volume M) then Fail (Error "cannot get EFI_FILE_PROTOCOL")
  else
    name ← (if vol_open M STAGE2 then Ok STAGE2
            else if vol_open M STAGE2_ALT then Ok STAGE2_ALT
            else if vol_open M STAGE2_ALT_ALT then Ok STAGE2_ALT_ALT
            else Fail (Error cannot_open));
    _ ← dump_stage2_info M name;
    Ok name.

Definition load_stage2 (M : medium) (alloc_pages : list (Z * Z) -> Z -> Z -> bool) (st : ld_st)
    : ld_st * result Z :=
  match open_stage2 M with
  | Fail f => (st, Fail f)
  | Ok name => load_prog (medium_read M name) (medium_seek M name) alloc_pages st
  end.

(** ** What the medium and the page allocator promise *)

(** A read returns the bytes of the file from the position on, fewer at its end. *)
Definition prog_ok (prog_read : Z -> Z -> option (list Z)) (file : list Z) : Prop :=
  bytes_ok file /\ zlen file + EFI_PAGE_SIZE <= 2 ^ 32 /\
  forall pos n l, 0 <= pos -> 0 <= n -> prog_read pos n = Some l -> l = bytes_at file pos n.

(** Pages that are handed out are free: disjoint from those handed out before. *)
Definition pages_ok (alloc_pages : list (Z * Z) -> Z -> Z -> bool) : Prop :=
  forall ps a n, alloc_pages ps a n = true -> forall p, p ∈ ps ->
    disjoint_ranges a (EFI_PAGE_SIZE * n) p.1 (EFI_PAGE_SIZE * p.2).

(** The segment is in memory: its bytes of the file, then zeros. *)
Definition seg_at (file : list Z) (pm : phys) (ph : Elf32_Phdr) : Prop :=
  forall i, 0 <= i < p_memsz ph ->
    pm (p_paddr ph + i) = if i <? p_filesz ph then le8 file (p_offset ph + i) else 0.

(** Its pages, as it counts in the last page of the address space. *)
Definition seg_slack (ph : Elf32_Phdr) : Z := p_paddr ph mod EFI_PAGE_SIZE.
Definition no_wrap (ph : Elf32_Phdr) : Prop := p_memsz ph + seg_slack ph < 2 ^ 32.
Definition seg_pages (ph : Elf32_Phdr) : Z * Z :=
  (p_paddr ph - seg_slack ph, (p_memsz ph + seg_slack ph + EFI_PAGE_SIZE - 1) / EFI_PAGE_SIZE).

Definition page_bytes (p : Z * Z) (x : Z) : Prop := in_range p.1 (EFI_PAGE_SIZE * p.2) x.

Record phdr_ok (ph : Elf32_Phdr) : Prop := {
  phdr_offset : 0 <= p_offset ph < 2 ^ 32;
  phdr_paddr : 0 <= p_paddr ph < 2 ^ 32;
  phdr_filesz : 0 <= p_filesz ph < 2 ^ 32;
  phdr_memsz : 0 <= p_memsz ph < 2 ^ 32;
}.

Lemma le32_range m o : bytes_ok m -> 0 <= le32 m o < 2 ^ 32.
Proof. intros H. unfold le32. pose proof (le16_range m o H). pose proof (le16_range m (o + 2) H). lia. Qed.

Lemma phdr_at_ok b o : bytes_ok b -> phdr_ok (phdr_at b o).
Proof. intros H. split; cbn; by apply le32_range. Qed.

Section correct.
Context (prog_read : Z -> Z -> option (list Z)) (prog_seek : Z -> bool).
Context (alloc_pages : list (Z * Z) -> Z -> Z -> bool) (file : list Z).
Context (Hprog : prog_ok prog_read file).

Definition is_error (f : failure) : Prop := exists msg, f = Error msg.

Lemma read_stage2_spec pos size :
  0 <= pos -> 0 <= size ->
  match read_stage2 prog_read pos size with
  | Ok (l, p) => l = bytes_at file pos size /\ (size = 0 \/ pos + size <= zlen file) /\ zlen l = size
  | Fail f => is_error f
  end.
Proof.
  intros Hp Hs. unfold read_stage2. destruct (Z.eqb_spec size 0) as [->|].
  { split_and!; [done|by left|done]. }
  destruct (prog_read pos size) as [l|] eqn:E; [|by eexists].
  destruct Hprog as (_ & _ & Hr). rewrite (Hr pos size l Hp Hs E).
  destruct (Z.eqb_spec (zlen (bytes_at file pos size)) size) as [El|]; cbn [negb]; [|by eexists].
  split_and!; [done|right|done]. unfold zlen, bytes_at in *. rewrite length_take, length_drop in El. lia.
Qed.

(** The slack is accounted for in all cases in the same way. *)
Lemma slack_cases ph :
  phdr_ok ph -> no_wrap ph -> p_filesz ph <= p_memsz ph ->
  (if seg_slack ph =? 0 then (p_offset ph, p_paddr ph, p_filesz ph, p_memsz ph)
   else (u32 (p_offset ph - seg_slack ph), p_paddr ph - seg_slack ph,
         if p_filesz ph =? 0 then p_filesz ph else u32 (p_filesz ph + seg_slack ph),
         u32 (p_memsz ph + seg_slack ph))) =
  (u32 (p_offset ph - seg_slack ph), p_paddr ph - seg_slack ph,
   if p_filesz ph =? 0 then 0 else p_filesz ph + seg_slack ph, p_memsz ph + seg_slack ph).
Proof.
  intros [H1 H2 H3 H4] Hw Hle. unfold no_wrap in Hw.
  pose proof (Z.mod_pos_bound (p_paddr ph) EFI_PAGE_SIZE ltac:(done)) as Hs. fold (seg_slack ph) in Hs.
  rewrite (wrap_small 32 (p_memsz ph + seg_slack ph)) by lia. rewrite (wrap_small 32 (p_filesz ph + seg_slack ph)) by lia.
  destruct (Z.eqb_spec (seg_slack ph) 0) as [E|].
  - rewrite E, !Z.sub_0_r, !Z.add_0_r, wrap_small by lia. by destruct (Z.eqb_spec (p_filesz ph) 0) as [->|].
  - by destruct (Z.eqb_spec (p_filesz ph) 0) as [->|].
Qed.

#[local] Instance page_bytes_dec p x : Decision (page_bytes p x).
Proof. unfold page_bytes, in_range. apply _. Defined.

(** The bytes of a segment whose pages are allocated. *)
Lemma place_seg st ph :
  phdr_ok ph -> no_wrap ph -> p_filesz ph <= p_memsz ph ->
  let filesz := if p_filesz ph =? 0 then 0 else p_filesz ph + seg_slack ph in
  let placed := if filesz =? 0 then Ok (ld_mem st)
    else pos ← seek_stage2 prog_seek (u32 (p_offset ph - seg_slack ph));
         '(l, _) ← read_stage2 prog_read pos filesz; Ok (write_bytes (ld_mem st) (seg_pages ph).1 l) in
  (exists f, placed = Fail f /\ is_error f) \/
  exists pm, placed = Ok pm /\
    let pm' := memset pm ((seg_pages ph).1 + filesz) (u32 (p_memsz ph + seg_slack ph - filesz)) in
    seg_at file pm' ph /\ forall x, ~ page_bytes (seg_pages ph) x -> pm' x = ld_mem st x.
Proof.
  intros Hok Hw Hle filesz placed. pose proof Hok as [H1 H2 H3 H4]. unfold no_wrap in Hw.
  pose proof (Z.mod_pos_bound (p_paddr ph) EFI_PAGE_SIZE ltac:(done)) as Hs. fold (seg_slack ph) in Hs.
  unfold page_bytes, in_range, seg_pages, seg_at in *. cbn [fst snd] in *. change EFI_PAGE_SIZE with 4096 in *.
  set (s := seg_slack ph) in *.
  assert (Hpages : p_memsz ph + s <= 4096 * ((p_memsz ph + s + 4096 - 1) / 4096)) by dlia.
  assert (Hfs : 0 <= filesz <= p_memsz ph + s) by (unfold filesz; destruct (p_filesz ph =? 0); lia).
  rewrite (wrap_small 32 (p_memsz ph + s - filesz)) by lia.
  destruct (Z.eqb_spec filesz 0) as [E|E]; unfold placed.
  - right. eexists. split; [done|]. assert (Ef : p_filesz ph = 0).
    { unfold filesz in E. destruct (Z.eqb_spec (p_filesz ph) 0); lia. }
    split; [|intros x Hx; apply memset_out; lia]. intros i Hi. rewrite memset_in by lia.
    destruct (Z.ltb_spec i (p_filesz ph)); [lia|done].
  - assert (Ef : filesz = p_filesz ph + s) by (unfold filesz in *; destruct (Z.eqb_spec (p_filesz ph) 0); lia).
    pose proof (wrap_range 32 (p_offset ph - s) ltac:(lia)) as Hoff.
    unfold seek_stage2. destruct (prog_seek _); cbn [mbind result_bind]; [|left; eexists; split; [done|by eexists]].
    pose proof (read_stage2_spec (u32 (p_offset ph - s)) filesz ltac:(lia) ltac:(lia)) as Hr.
    destruct (read_stage2 _ _ _) as [[l p]|f]; cbn [mbind result_bind]; [|left; by exists f].
    destruct Hr as (-> & [?|Hend] & Hlen); [done|]. right. eexists. split; [done|].
    destruct Hprog as (Hb & Hsz & _). change EFI_PAGE_SIZE with 4096 in Hsz.
    assert (Eoff : u32 (p_offset ph - s) = p_offset ph - s).
    { destruct (decide (0 <= p_offset ph - s)); [by apply wrap_small; lia|].
      assert (u32 (p_offset ph - s) = p_offset ph - s + 2 ^ 32); [|lia].
      unfold wrap. rewrite <- (Z_mod_plus_full _ 1), Z.mul_1_l. apply Z.mod_small. lia. }
    split.
    + intros i Hi. destruct (Z.ltb_spec i (p_filesz ph)); [|by rewrite memset_in by lia].
      rewrite memset_out, write_bytes_in by lia. rewrite le8_bytes_at by lia. f_equal. lia.
    + intros x Hx. rewrite memset_out, write_bytes_out by lia. done.
Qed.

(** One segment. *)
Lemma load_seg_spec phdrs ph_idx ph st :
  phdr_ok ph -> no_wrap ph ->
  match load_seg prog_read prog_seek alloc_pages phdrs ph_idx ph st with
  | (st', r) =>
      (ld_pages st' = ld_pages st \/
       ld_pages st' = seg_pages ph :: ld_pages st /\
       alloc_pages (ld_pages st) (seg_pages ph).1 (seg_pages ph).2 = true) /\
      (forall x, ld_mem st' x <> ld_mem st x ->
         page_bytes (seg_pages ph) x /\ ld_pages st' = seg_pages ph :: ld_pages st) /\
      match r with
      | Ok _ => ld_pages st' = seg_pages ph :: ld_pages st /\ seg_at file (ld_mem st') ph
      | Fail f => is_error f
      end
  end.
Proof.
  intros Hok Hw. unfold load_seg. rewrite Z.gtb_ltb.
  destruct (Z.ltb_spec (p_memsz ph) (p_filesz ph)) as [|Hle].
  { split_and!; [by left|done|by eexists]. }
  fold (seg_slack ph). rewrite (slack_cases ph Hok Hw Hle). cbn iota beta zeta.
  change (p_paddr ph - seg_slack ph) with (seg_pages ph).1.
  change ((p_memsz ph + seg_slack ph + EFI_PAGE_SIZE - 1) / EFI_PAGE_SIZE) with (seg_pages ph).2.
  destruct (alloc_pages (ld_pages st) _ _) eqn:Eal; cbn [negb].
  2: { split_and!; [by left|done|by eexists]. }
  cbn [ld_mem ld_pages ld_frees]. change ((seg_pages ph).1, (seg_pages ph).2) with (seg_pages ph).
  destruct (place_seg st ph Hok Hw Hle) as [Hfail|(pm & Epm & Hin & Hout)].
  - destruct Hfail as (f & -> & Hf). split_and!; [by right|cbn; done|done].
  - rewrite Epm. cbn [ld_mem ld_pages]. split_and!; [by right| |done|done].
    intros x Hx. split; [|done]. destruct (decide (page_bytes (seg_pages ph) x)) as [|Hn]; [done|].
    by destruct Hx; apply Hout.
Qed.

Lemma seg_in_pages ph i :
  phdr_ok ph -> 0 <= i < p_memsz ph -> page_bytes (seg_pages ph) (p_paddr ph + i).
Proof.
  intros [H1 H2 H3 H4] Hi. unfold page_bytes, in_range, seg_pages. cbn [fst snd].
  pose proof (Z.mod_pos_bound (p_paddr ph) EFI_PAGE_SIZE ltac:(done)) as Hs. fold (seg_slack ph) in Hs.
  clear - Hs H4 Hi. change EFI_PAGE_SIZE with 4096 in *. split; [lia|]. dlia.
Qed.

Hypothesis Hpages : pages_ok alloc_pages.

Definition loads (ph : Elf32_Phdr) : Prop := p_type ph = PT_LOAD.

(** The pages of [new] were granted, and are none of those of [old]. *)
Definition granted (new old : list (Z * Z)) : Prop :=
  Forall (fun p => exists ps, alloc_pages ps p.1 p.2 = true) new /\
  forall p q x, p ∈ new -> q ∈ old -> page_bytes p x -> ~ page_bytes q x.

Lemma granted_nil old : granted [] old.
Proof. split; [done|]. by intros p q x ?%not_elem_of_nil. Qed.

Lemma load_segs_spec phdrs todo : forall idx st,
  Forall phdr_ok todo -> Forall (fun ph => loads ph -> no_wrap ph) todo ->
  match load_segs prog_read prog_seek alloc_pages phdrs todo idx st with
  | (st', r) => exists new, ld_pages st' = new ++ ld_pages st /\
      (forall x, ld_mem st' x <> ld_mem st x -> exists p, p ∈ new /\ page_bytes p x) /\
      granted new (ld_pages st) /\
      match r with
      | Ok _ => Forall (fun ph => loads ph -> seg_pages ph ∈ new /\ seg_at file (ld_mem st') ph) todo
      | Fail f => is_error f
      end
  end.
Proof.
  induction todo as [|ph todo IH]; intros idx st Hok Hw; cbn [load_segs].
  { exists []. split_and!; [done|done|apply granted_nil|done]. }
  apply Forall_cons in Hok as [Hok1 Hok]. apply Forall_cons in Hw as [Hw1 Hw].
  destruct (Z.eqb_spec (p_type ph) PT_LOAD) as [Ht|Ht]; cbn [negb].
  2: { specialize (IH (S idx) st Hok Hw). destruct (load_segs _ _ _ _ _ _ _) as [st' r].
       destruct IH as (new & I1 & I2 & I3 & I4). exists new. split_and!; try done.
       destruct r; [|done]. constructor; [by intros ?|done]. }
  pose proof (load_seg_spec phdrs idx ph st Hok1 (Hw1 Ht)) as H1.
  destruct (load_seg _ _ _ _ _ _ _) as [st1 r1]. destruct H1 as (P1 & M1 & R1).
  assert (Hfresh : ld_pages st1 = seg_pages ph :: ld_pages st ->
    forall q x, q ∈ ld_pages st -> page_bytes (seg_pages ph) x -> ~ page_bytes q x).
  { intros E q x Hq Hx Hqx. destruct P1 as [P1|[_ P1]]; [by rewrite P1 in E; apply (f_equal length) in E; cbn in E; lia|].
    pose proof (Hpages _ _ _ P1 q Hq) as Hd. unfold disjoint_ranges, page_bytes, in_range in *. lia. }
  destruct r1 as [u1|f].
  2: { destruct P1 as [P1|[P1 Pa]].
       - exists []. split_and!; [by rewrite P1| |apply granted_nil|done].
         intros x Hx. destruct (M1 x Hx) as [_ E]. rewrite P1 in E. apply (f_equal length) in E. cbn in E. lia.
       - exists [seg_pages ph]. split_and!; [by rewrite P1| | |done].
         + intros x Hx. exists (seg_pages ph). split; [by left|by apply M1].
         + split; [repeat constructor; by eexists|]. intros p q x ->%list_elem_of_singleton Hq. by apply Hfresh. }
  destruct R1 as [E1 S1]. assert (Pa : alloc_pages (ld_pages st) (seg_pages ph).1 (seg_pages ph).2 = true).
  { destruct P1 as [P1|[_ P1]]; [|done]. rewrite P1 in E1. apply (f_equal length) in E1. cbn in E1. lia. } specialize (IH (S idx) st1 Hok Hw).
  destruct (load_segs _ _ _ _ _ _ _) as [st' r]. destruct IH as (new & I1 & I2 & I3 & I4).
  exists (new ++ [seg_pages ph]). split_and!.
  - by rewrite I1, E1, <- app_assoc.
  - intros x Hx. destruct (decide (ld_mem st' x = ld_mem st1 x)) as [E|E].
    + exists (seg_pages ph). split; [apply elem_of_app; right; by left|]. apply M1. congruence.
    + destruct (I2 x E) as (p & Hp & Hpx). exists p. split; [apply elem_of_app; by left|done].
  - destruct I3 as [I3 I5]. split; [apply Forall_app_2; [done|repeat constructor; by eexists]|].
    intros p q x [Hp| ->%list_elem_of_singleton]%elem_of_app Hq; [|by apply Hfresh].
    apply I5; [done|]. rewrite E1. by right.
  - destruct r as [u2|]; [|done]. constructor.
    2: { eapply Forall_impl; [exact I4|]. intros p Hp Hl. destruct (Hp Hl). split; [apply elem_of_app; by left|done]. }
    intros _. split; [apply elem_of_app; right; by left|]. intros i Hi.
    destruct (decide (ld_mem st' (p_paddr ph + i) = ld_mem st1 (p_paddr ph + i))) as [->|E]; [by apply S1|].
    destruct (I2 _ E) as (p & Hp & Hpx). exfalso. apply (proj2 I3 p (seg_pages ph) (p_paddr ph + i)); [done| |done|].
    + rewrite E1. by left.
    + by apply seg_in_pages.
Qed.

(** ** The header *)

Record elf_header (phdrs : list Elf32_Phdr) (entry : Z) : Prop := {
  elf_magic : le8 file 0 = 0x7f /\ le8 file 1 = 0x45 /\ le8 file 2 = 0x4c /\ le8 file 3 = 0x46;
  elf_version : le8 file 6 = 1 /\ le32 file 20 = 1;
  elf_sizes : 52 <= le16 file 40 /\ le16 file 42 = 32 /\ le16 file 44 <= 16;
  elf_machine : le16 file 18 = 3;
  elf_entry : entry = le32 file 24;
  elf_phdrs : phdrs = (fun i => phdr_at file (le32 file 28 + 32 * Z.of_nat i)) <$> seq 0 (Z.to_nat (le16 file 44));
}.

Lemma le32_bytes_at o n x : 0 <= o -> 0 <= n -> o + n <= zlen file -> 0 <= x -> x + 4 <= n ->
  le32 (bytes_at file o n) x = le32 file (o + x).
Proof. intros. unfold le32. rewrite !le16_bytes_at by lia. by rewrite Z.add_assoc. Qed.

Lemma phdr_bytes_at o n x : 0 <= o -> 0 <= n -> o + n <= zlen file -> 0 <= x -> x + 32 <= n ->
  phdr_at (bytes_at file o n) x = phdr_at file (o + x).
Proof. intros. unfold phdr_at. rewrite !le32_bytes_at by lia. by rewrite !Z.add_assoc. Qed.

Lemma read_phdrs_spec :
  match read_phdrs prog_read prog_seek with
  | Ok (phdrs, entry) => elf_header phdrs entry
  | Fail f => is_error f
  end.
Proof.
  pose proof Hprog as (Hb & Hsz & _). change EFI_PAGE_SIZE with 4096 in Hsz.
  unfold read_phdrs, sizeof_Elf32_Ehdr. pose proof (read_stage2_spec 0 52 ltac:(lia) ltac:(lia)) as Hr.
  destruct (read_stage2 _ _ _) as [[ehdr p]|f]; cbn [mbind result_bind]; [|done].
  destruct Hr as (-> & [?|Hend] & _); [done|].
  unfold EI_MAG0, EI_MAG1, EI_MAG2, EI_MAG3, EI_VERSION, e_version, e_ehsize, e_phentsize, e_phnum, e_machine, e_phoff,
    e_entry, ELFMAG0, ELFMAG1, ELFMAG2, ELFMAG3, EV_CURRENT, EM_386, MAX_PHDRS, sizeof_Elf32_Phdr.
  rewrite !(le8_bytes_at file 0 52), !(le16_bytes_at file 0 52), !le32_bytes_at by lia. rewrite !Z.add_0_l.
  destruct ((le8 file 0 =? 0x7f) && (le8 file 1 =? 0x45) && (le8 file 2 =? 0x4c) && (le8 file 3 =? 0x46)) eqn:E1;
    cbn [negb]; [|by eexists].
  destruct ((le8 file 6 =? 1) && (le32 file 20 =? 1)) eqn:E2; cbn [negb]; [|by eexists].
  destruct ((le16 file 40 <? 52) || negb (le16 file 42 =? 32)) eqn:E3; [by eexists|].
  rewrite Z.gtb_ltb. destruct (Z.ltb_spec 16 (le16 file 44)) as [|E4]; [by eexists|].
  destruct (Z.eqb_spec (le16 file 18) 3) as [E5|]; cbn [negb]; [|by eexists].
  unfold seek_stage2. destruct (prog_seek _); cbn [mbind result_bind]; [|by eexists].
  pose proof (le32_range file 28 Hb) as Hoff. pose proof (le16_range file 44 Hb) as Hn.
  pose proof (read_stage2_spec (le32 file 28) (le16 file 44 * 32) ltac:(lia) ltac:(lia)) as Hr.
  destruct (read_stage2 _ _ _) as [[b p']|f]; cbn [mbind result_bind]; [|done].
  destruct Hr as (-> & Hend2 & _). split; try lia. apply list_fmap_ext. intros i k [-> Hk]%lookup_seq.
  rewrite phdr_bytes_at by lia. f_equal. lia.
Qed.

End correct.

(** What [load_prog] does with an open file. *)
Lemma load_prog_spec prog_read prog_seek alloc_pages file st :
  prog_ok prog_read file -> pages_ok alloc_pages ->
  (forall phdrs entry ph, elf_header file phdrs entry -> ph ∈ phdrs -> loads ph -> no_wrap ph) ->
  match load_prog prog_read prog_seek alloc_pages st with
  | (st', r) => exists new, ld_pages st' = new ++ ld_pages st /\
      (forall x, ld_mem st' x <> ld_mem st x -> exists p, p ∈ new /\ page_bytes p x) /\
      granted alloc_pages new (ld_pages st) /\
      match r with
      | Ok entry => exists phdrs, elf_header file phdrs entry /\
          forall ph, ph ∈ phdrs -> loads ph -> seg_pages ph ∈ new /\ seg_at file (ld_mem st') ph
      | Fail f => is_error f
      end
  end.
Proof.
  intros Hprog Hpages Hw. unfold load_prog.
  pose proof (read_phdrs_spec prog_read prog_seek file Hprog) as Hh.
  destruct (read_phdrs _ _) as [[phdrs entry]|f]; [|by exists []; split_and!; [..|apply granted_nil|]].
  assert (Hok : Forall phdr_ok phdrs).
  { rewrite (elf_phdrs _ _ _ Hh). apply Forall_fmap, Forall_true. intros i. apply phdr_at_ok, Hprog. }
  assert (Hnw : Forall (fun ph => loads ph -> no_wrap ph) phdrs).
  { apply Forall_forall. intros ph Hin Hl. exact (Hw phdrs entry ph Hh Hin Hl). }
  pose proof (load_segs_spec prog_read prog_seek alloc_pages file Hprog Hpages phdrs phdrs 0 st Hok Hnw) as H.
  destruct (load_segs _ _ _ _ _ _ _) as [st' [u|f]]; destruct H as (new & H1 & H2 & H3 & H4); exists new; split_and!; try done.
  exists phdrs. split; [done|]. rewrite Forall_forall in H4. exact H4.
Qed.

Lemma load_seg_bytes prog_read prog_seek alloc_pages file phdrs ph_idx ph st :
  prog_ok prog_read file -> phdr_ok ph -> pm_ok (ld_mem st) ->
  pm_ok (ld_mem (load_seg prog_read prog_seek alloc_pages phdrs ph_idx ph st).1).
Proof.
  intros Hprog [H1 H2 H3 H4] Hpm. unfold load_seg. destruct (_ >? _); [done|].
  assert (Hread : forall off filesz paddr pm, 0 <= off -> 0 <= filesz ->
    (if filesz =? 0 then Ok (ld_mem st)
     else pos ← seek_stage2 prog_seek off; '(l, _) ← read_stage2 prog_read pos filesz; Ok (write_bytes (ld_mem st) paddr l))
    = Ok pm -> pm_ok pm).
  { intros off filesz paddr pm Ho Hf. destruct (filesz =? 0); [by intros [= <-]|].
    unfold seek_stage2. destruct (prog_seek off); cbn [mbind result_bind]; [|done].
    pose proof (read_stage2_spec prog_read file Hprog off filesz Ho Hf) as Hr.
    destruct (read_stage2 _ _ _) as [[l p]|]; cbn [mbind result_bind]; [|done].
    destruct Hr as (-> & _). intros [= <-]. apply write_bytes_ok, bytes_at_ok, Hprog. done. }
  pose proof (wrap_range 32 (p_offset ph - p_paddr ph mod EFI_PAGE_SIZE) ltac:(lia)).
  pose proof (wrap_range 32 (p_filesz ph + p_paddr ph mod EFI_PAGE_SIZE) ltac:(lia)).
  cbv zeta. destruct (p_paddr ph mod EFI_PAGE_SIZE =? 0); cbn iota beta; (destruct (alloc_pages _ _ _); cbn [negb ld_mem fst with_frees]; [|done]).
  all: match goal with |- context [match ?r with Ok _ => _ | Fail _ => _ end] => destruct r as [pm'|] eqn:E end;
    cbn [fst ld_mem]; [|done].
  all: apply memset_ok; eapply Hread; [..|exact E]; try lia; destruct (p_filesz ph =? 0); lia.
Qed.

Lemma load_segs_bytes prog_read prog_seek alloc_pages file phdrs todo : forall ph_idx st,
  prog_ok prog_read file -> Forall phdr_ok todo -> pm_ok (ld_mem st) ->
  pm_ok (ld_mem (load_segs prog_read prog_seek alloc_pages phdrs todo ph_idx st).1).
Proof.
  induction todo as [|ph todo IH]; intros idx st Hprog Hok Hpm; cbn [load_segs]; [done|].
  apply Forall_cons in Hok as [Hok1 Hok]. destruct (negb _); [by apply IH|].
  pose proof (load_seg_bytes prog_read prog_seek alloc_pages file phdrs idx ph st Hprog Hok1 Hpm) as H1.
  destruct (load_seg _ _ _ _ _ _ _) as [st1 [u|f]]; [by apply IH|exact H1].
Qed.

Lemma load_stage2_bytes (M : medium) alloc_pages (file : string -> list Z) st :
  (forall name, prog_ok (medium_read M name) (file name)) -> pm_ok (ld_mem st) ->
  pm_ok (ld_mem (load_stage2 M alloc_pages st).1).
Proof.
  intros Hprog Hpm. unfold load_stage2. destruct (open_stage2 M) as [name|]; [|done]. unfold load_prog.
  pose proof (read_phdrs_spec _ (medium_seek M name) _ (Hprog name)) as Hh.
  destruct (read_phdrs _ _) as [[phdrs entry]|f]; [|done].
  assert (Hok : Forall phdr_ok phdrs).
  { rewrite (elf_phdrs _ _ _ Hh). apply Forall_fmap, Forall_true. intros i. apply phdr_at_ok, Hprog. }
  pose proof (load_segs_bytes _ (medium_seek M name) alloc_pages _ phdrs phdrs 0 st (Hprog name) Hok Hpm) as H.
  by destruct (load_segs _ _ _ _ _ _ _) as [st1 [u|f]].
Qed.

(** The file that is taken is the first of the three names that can be opened. *)
Definition first_that_opens (M : medium) (name : string) : Prop :=
  exists before after, [STAGE2; STAGE2_ALT; STAGE2_ALT_ALT] = before ++ name :: after /\
    vol_open M name = true /\ Forall (fun n => vol_open M n = false) before.

Lemma open_stage2_spec M :
  match open_stage2 M with Ok name => first_that_opens M name | Fail f => is_error f end.
Proof.
  unfold open_stage2, dump_stage2_info.
  destruct (has_fs M); cbn [negb]; [|by eexists]. destruct (open_volume M); cbn [negb]; [|by eexists].
  destruct (vol_open M STAGE2) eqn:E1; [|destruct (vol_open M STAGE2_ALT) eqn:E2;
    [|destruct (vol_open M STAGE2_ALT_ALT) eqn:E3]]; cbn [mbind result_bind]; [..|by eexists].
  all: destruct (lib_file_info M _); cbn [mbind result_bind]; [|by eexists].
  - exists [], [STAGE2_ALT; STAGE2_ALT_ALT]. by split_and!.
  - exists [STAGE2], [STAGE2_ALT_ALT]. by split_and!; [..|repeat constructor].
  - exists [STAGE2; STAGE2_ALT], []. by split_and!; [..|repeat constructor].
Qed.

Lemma load_stage2_spec M alloc_pages (file : string -> list Z) st :
  (forall name, prog_ok (medium_read M name) (file name)) -> pages_ok alloc_pages ->
  (forall name phdrs entry ph, elf_header (file name) phdrs entry -> ph ∈ phdrs -> loads ph -> no_wrap ph) ->
  match load_stage2 M alloc_pages st with
  | (st', r) => exists new, ld_pages st' = new ++ ld_pages st /\
      (forall x, ld_mem st' x <> ld_mem st x -> exists p, p ∈ new /\ page_bytes p x) /\
      granted alloc_pages new (ld_pages st) /\
      match r with
      | Ok entry => exists name phdrs, first_that_opens M name /\ elf_header (file name) phdrs entry /\
          forall ph, ph ∈ phdrs -> loads ph -> seg_pages ph ∈ new /\ seg_at (file name) (ld_mem st') ph
      | Fail f => is_error f
      end
  end.
Proof.
  intros Hprog Hpages Hw. unfold load_stage2. pose proof (open_stage2_spec M) as Ho.
  destruct (open_stage2 M) as [name|f]; [|by exists []; split_and!; [..|apply granted_nil|]].
  pose proof (load_prog_spec _ (medium_seek M name) alloc_pages _ st (Hprog name) Hpages (Hw name)) as H.
  destruct (load_prog _ _ _ _) as [st' [entry|f]]; destruct H as (new & H1 & H2 & H3 & H4); exists new; split_and!; try done.
  destruct H4 as (phdrs & H4 & H5). by exists name, phdrs.
Qed.


(** ** A concrete program *)

(** A file of 100 bytes with one segment: 16 bytes from offset 84, 32 in memory, at 0x100010. *)
Definition demo_elf : list Z := poke_bytes
  [(0, 0x7f); (1, 0x45); (2, 0x4c); (3, 0x46); (6, 1); (18, 3); (20, 1); (24, 0x10); (26, 0x10);
   (28, 52); (40, 52); (42, 32); (44, 1);
   (52, 1); (56, 84); (60, 0x10); (62, 0x10); (64, 0x10); (66, 0x10); (68, 16); (72, 32);
   (84, 0xf4); (85, 0xeb); (86, 0xfd)] (replicate 100 0).

Definition demo_read (pos n : Z) : option (list Z) := Some (bytes_at demo_elf pos n).

Definition demo_pages (ps : list (Z * Z)) (a n : Z) : bool :=
  forallb (fun p => (a + EFI_PAGE_SIZE * n <=? p.1) || (p.1 + EFI_PAGE_SIZE * p.2 <=? a)) ps.

Definition demo_ld : ld_st := {| ld_mem := fun _ => 0xcc; ld_pages := []; ld_frees := [] |}.

Lemma demo_prog_ok : prog_ok demo_read demo_elf.
Proof.
  split_and!; [|vm_compute; discriminate|by intros pos n l _ _ [= <-]].
  apply Forall_forall. intros x Hx. unfold byte_ok.
  assert (H : forallb (fun b => (0 <=? b) && (b <? 256)) demo_elf = true) by (vm_compute; reflexivity).
  rewrite forallb_forall in H. specialize (H x). rewrite <- list_elem_of_In in H. specialize (H Hx). lia.
Qed.

Lemma demo_pages_ok : pages_ok demo_pages.
Proof.
  intros ps a n H p Hp. unfold demo_pages in H. rewrite forallb_forall in H.
  specialize (H p ltac:(by apply list_elem_of_In)). unfold disjoint_ranges. lia.
Qed.

Lemma demo_no_wrap phdrs entry ph : elf_header demo_elf phdrs entry -> ph ∈ phdrs -> loads ph -> no_wrap ph.
Proof.
  intros Hh. rewrite (elf_phdrs _ _ _ Hh). replace (Z.to_nat (le16 demo_elf 44)) with 1%nat by (vm_compute; reflexivity).
  intros [-> |?%not_elem_of_nil]%elem_of_cons _; [|done]. vm_compute. reflexivity.
Qed.

(** The first name is not there. *)
Definition demo_medium : medium :=
  {| has_fs := true; open_volume := true; vol_open := fun name => bool_decide (name = STAGE2_ALT);
     lib_file_info := fun _ => true; medium_read := fun _ => demo_read; medium_seek := fun _ _ => true |}.


(** [free_stage2_mem] takes the size of every segment from the first entry of the table: here the
    second segment has five pages, of which one is freed. *)
Lemma free_stage2_mem_first_size :
  let ph a n := {| p_type := PT_LOAD; p_offset := 0; p_vaddr := a; p_paddr := a; p_filesz := 0; p_memsz := n;
                   p_flags := 0; p_align := 0 |} in
  free_stage2_mem [ph 0x100000 0x1000; ph 0x200000 0x5000; ph 0x300000 1] 2 = [(0x100000, 1); (0x200000, 1)].
Proof. reflexivity. Qed.
