(* ===== verification/Handover.v ===== *)
(** * Handing over to stage 2 ([prepare_to_hand_over] and the waits of src/stage1/main.c)

    The last steps of stage 1: the memory above 1 MiB is described by boot parameters, base memory
    is closed by [bmem_fini], the two marks that it returns are put into the "BMEM" parameter,
    and stage 1 waits about three seconds before it leaves the boot services.  The clock is a
    parameter, by the number of the call of [GetTime].  The theorem describes the list that
    [run_stage2] passes on. *)

From S2P Require Import Prelude Bmem BmemInit Bparm BmemFini.

(** ** Extended memory *)

Definition ext_e820_type (t : efi_memory_type) : Z :=
  match t with
  | EfiLoaderCode | EfiLoaderData | EfiBootServicesCode | EfiBootServicesData
  | EfiConventionalMemory => E820_RAM
  | EfiACPIReclaimMemory => E820_ACPI
  | EfiACPIMemoryNVS => E820_NVS
  | EfiPersistentMemory => E820_PMEM
  | _ => E820_RESERVED
  end.

(** The [FOR_EACH_MEM_DESC] loop. *)
Fixpoint add_ext_mem_bparms (st : bparms bmem) (descs : list mem_desc) : result (bparms bmem) :=
  match descs with
  | [] => Ok st
  | desc :: descs =>
      let start := PhysicalStart desc in
      let end_ := u64 (start + u64 (NumberOfPages desc * EFI_PAGE_SIZE)) in
      if (end_ <=? BMEM_MAX_ADDR) && negb (end_ =? 0) then add_ext_mem_bparms st descs
      else
        let start := if start <? BMEM_MAX_ADDR then BMEM_MAX_ADDR else start in
        '(_, st) ← bparm_add_mem_range st start (u64 (end_ - start)) (ext_e820_type (Type_ desc)) 1 (Attribute desc);
        add_ext_mem_bparms st descs
  end.

(** ** Waiting *)

Record efi_time := { Minute : Z; Second : Z; Nanosecond : Z }.

Definition no_time : string := "cannot get time".
Definition cannot_exit : string := "cannot exit UEFI".

Section waits.
(** What call number [k] of [GetTime] returns, if it succeeds. *)
Variable GetTime : nat -> option efi_time.

Definition get_time (k : nat) : result (efi_time * nat) :=
  match GetTime k with None => Fail (Error no_time) | Some t => Ok (t, S k) end.

Fixpoint change_loop (fuel : nat) (then_ : efi_time) (k : nat) : result nat :=
  match fuel with
  | O => Fail Diverges
  | S fuel =>
      '(now, k) ← get_time k;
      if (Second now =? Second then_) && (Nanosecond now =? Nanosecond then_) then change_loop fuel then_ k else Ok k
  end.

Definition wait_for_time_change (fuel k : nat) : result nat :=
  '(then_, k) ← get_time k; change_loop fuel then_ k.

Fixpoint second_loop (fuel : nat) (then_ : efi_time) (then_ns : Z) (k : nat) : result nat :=
  match fuel with
  | O => Fail Diverges
  | S fuel =>
      '(now, k) ← get_time k;
      let now_ns := u64 (1000000000 * Second now + Nanosecond now) in
      let now_ns := if negb (Minute now =? Minute then_) then u64 (now_ns + 60000000000) else now_ns in
      if now_ns <? u64 (then_ns + 1000000000) then second_loop fuel then_ then_ns k else Ok k
  end.

Definition wait_for_one_second (fuel k : nat) : result nat :=
  '(then_, k) ← get_time k;
  second_loop fuel then_ (u64 (1000000000 * Second then_ + Nanosecond then_)) k.
End waits.

(** ** [prepare_to_hand_over] *)

Section hand_over.
Context {fw : Type} `{BootServices fw}.
Variable GetTime : nat -> option efi_time.
Variable ExitBootServices : bool.

(** The result is [base_kib]; [fuel] bounds each wait. *)
Definition prepare_to_hand_over (fuel k : nat) (w : fw) (st : bparms bmem) : result (Z * bparms bmem) :=
  descs ← get_mem_map w;
  st ← add_ext_mem_bparms st descs;
  '(bd, st) ← bparm_add st BP_BMEM sizeof_bdat_bmem_t;
  '(boottime_bmem_bot, runtime_bmem_top, st) ← bmem_fini st descs;
  st ← bparm_store st bd (BdatBmem {| boottime_bmem_bot_seg := addr_to_rm_seg boottime_bmem_bot;
                                      runtime_bmem_top_seg := addr_to_rm_seg runtime_bmem_top |});
  k ← wait_for_time_change GetTime fuel k;
  k ← wait_for_one_second GetTime fuel k;
  k ← wait_for_one_second GetTime fuel k;
  k ← wait_for_one_second GetTime fuel k;
  if negb ExitBootServices then Fail (Error cannot_exit)
  else Ok (runtime_bmem_top / KIBYTE, st).
End hand_over.

(** ** What is reported of extended memory *)

(** A descriptor clipped to the memory at and above 1 MiB; one that ends at 2^64 is kept. *)
Definition ext_range (d : mem_desc) : list bdat_mem_range_t :=
  let start := PhysicalStart d in
  let end_ := start + NumberOfPages d * EFI_PAGE_SIZE in
  bmem_range (Z.max start BMEM_MAX_ADDR) (Z.max 0 (end_ - Z.max start BMEM_MAX_ADDR))
    (ext_e820_type (Type_ d)) (Attribute d).

(** A descriptor of the firmware: pages inside the 64-bit address space. *)
Definition ext_desc_ok (d : mem_desc) : Prop :=
  0 <= PhysicalStart d /\ 0 < NumberOfPages d /\ PhysicalStart d + NumberOfPages d * EFI_PAGE_SIZE <= 2 ^ 64.

(** The descriptors of a memory map describe different memory. *)
Definition desc_apart (d e : mem_desc) : Prop :=
  disjoint_ranges (PhysicalStart d) (NumberOfPages d * EFI_PAGE_SIZE)
    (PhysicalStart e) (NumberOfPages e * EFI_PAGE_SIZE).

Lemma add_ext_stage1 descs st l st' :
  Forall ext_desc_ok descs -> stage1_repr st l -> add_ext_mem_bparms st descs = Ok st' ->
  exists vs, stage1_repr st' (l ++ vs) /\
    runtime_bmem_top (bp_alloc st') = runtime_bmem_top (bp_alloc st) /\
    Forall2 is_mrng vs (mjoin (ext_range <$> descs)).
Proof.
  intros Hd. revert st l. induction Hd as [|d descs (D1 & D2 & D3) _ IH]; intros st l Hr E; cbn [add_ext_mem_bparms] in E.
  { inv_result. exists []. rewrite app_nil_r. by split_and!; [|done|constructor]. }
  rewrite fmap_cons. cbn [mjoin list_join]. unfold ext_range at 1, bmem_range. cbv zeta in E.
  change EFI_PAGE_SIZE with 4096 in *. change BMEM_MAX_ADDR with 0x100000 in *.
  assert (Ewrap : u64 (PhysicalStart d + u64 (NumberOfPages d * 4096)) = u64 (PhysicalStart d + NumberOfPages d * 4096))
    by (unfold wrap; by rewrite Zplus_mod_idemp_r).
  rewrite Ewrap in E. clear Ewrap.
  set (end_ := PhysicalStart d + NumberOfPages d * 4096) in *.
  assert (He : PhysicalStart d < end_ <= 2 ^ 64) by (unfold end_; lia). clearbody end_.
  assert (Hend : u64 end_ = if end_ =? 2 ^ 64 then 0 else end_).
  { destruct (Z.eqb_spec end_ (2 ^ 64)) as [->|]; [done|]. apply wrap_small. lia. }
  rewrite Hend in E.
  assert (Hskip : ((if end_ =? 2 ^ 64 then 0 else end_) <=? 0x100000) && negb ((if end_ =? 2 ^ 64 then 0 else end_) =? 0)
    = (end_ <=? 0x100000)) by (destruct (Z.eqb_spec end_ (2 ^ 64)); cbn; lia).
  rewrite Hskip in E. destruct (Z.leb_spec end_ 0x100000) as [Hlow|Hhigh].
  { replace (Z.max 0 (end_ - Z.max (PhysicalStart d) 0x100000)) with 0 by lia. by apply (IH st). }
  replace (if PhysicalStart d <? 0x100000 then 0x100000 else PhysicalStart d) with (Z.max (PhysicalStart d) 0x100000) in E
    by (destruct (Z.ltb_spec (PhysicalStart d) 0x100000); lia).
  set (start := Z.max (PhysicalStart d) 0x100000) in *.
  assert (Hs : 0x100000 <= start < end_) by (unfold start; lia).
  assert (Hlen : u64 ((if end_ =? 2 ^ 64 then 0 else end_) - start) = end_ - start).
  { destruct (Z.eqb_spec end_ (2 ^ 64)); [|by apply wrap_small; lia].
    unfold wrap. rewrite <- (Z_mod_plus_full _ 1), Z.mul_1_l. rewrite Z.mod_small; lia. }
  rewrite Hlen in E. rewrite Z.max_r by lia. inv_result.
  destruct (add_mem_range_stage1 _ _ _ _ _ _ _ _ _ Hr Hm) as (vs1 & Hr1 & Ht1 & Hv1).
  destruct (IH _ _ Hr1 E) as (vs2 & Hr2 & Ht2 & Hv2).
  exists (vs1 ++ vs2). rewrite app_assoc. split_and!; [done|congruence|]. by apply Forall2_app.
Qed.

(** New data in a node in the middle of the list. *)
Lemma lseg_store heap p l1 v l2 d :
  lseg heap p (l1 ++ v :: l2) NULL -> (forall w, w ∈ l1 ++ l2 -> v_addr w <> v_addr v) ->
  exists n, heap !! v_addr v = Some n /\
    lseg (<[v_addr v := {| next := next n; type := type n; size := size n; u := d |}]> heap) p
      (l1 ++ {| v_addr := v_addr v; v_type := v_type v; v_size := v_size v; v_data := d |} :: l2) NULL.
Proof.
  intros Hl Hne. apply lseg_app in Hl as (m & Hl1 & -> & Hnn & nx & Hn & Hl2).
  eexists. split; [exact Hn|]. apply lseg_app. exists (v_addr v). split.
  - apply lseg_insert; [|done]. intros w Hw. apply Hne, elem_of_app. by left.
  - cbn. split_and!; [done|done|]. exists nx. split; [unfold node_at; by rewrite lookup_insert_eq|].
    apply lseg_insert; [|done]. intros w Hw. apply Hne, elem_of_app. by right.
Qed.

Lemma repr_middle_ne {A} `{AllocatorLaws A} (st : bparms A) l1 v l2 :
  bparms_repr st (l1 ++ v :: l2) -> forall w, w ∈ l1 ++ l2 -> v_addr w <> v_addr v.
Proof.
  intros Hr w Hw. assert (Hv : (l1 ++ v :: l2) !! length l1 = Some v) by by apply list_lookup_middle.
  apply elem_of_app in Hw as [[i Hi]%list_elem_of_lookup|[i Hi]%list_elem_of_lookup].
  - assert (i < length l1)%nat by by eapply lookup_lt_Some.
    apply (repr_addr_ne st _ i (length l1) w v Hr); [lia|by apply lookup_app_l_Some|done].
  - apply (repr_addr_ne st _ (length l1 + S i) (length l1) w v Hr); [lia| |done].
    by rewrite lookup_app_r, Nat.add_comm, Nat.add_sub by lia.
Qed.

(** [bparm_add] keeps the parameters in the part of base memory that stage 2 gives back. *)
Lemma add_stage1 st l ty sz p st' :
  stage1_repr st l -> 0 <= sz -> bparm_add st ty sz = Ok (p, st') ->
  stage1_repr st' (l ++ [{| v_addr := p - sizeof_bparm_t; v_type := ty; v_size := sz; v_data := BdatZero sz |}]) /\
  runtime_bmem_top (bp_alloc st') = runtime_bmem_top (bp_alloc st).
Proof.
  intros [Hr Hb] Hsz E. pose proof (bparm_add_repr st l ty sz Hr Hsz) as Hadd. rewrite E in Hadd.
  destruct Hadd as (Hr' & a & Ha & Ea).
  change (bmem_alloc_boottime (bp_alloc st) (sizeof_bparm_t + sz) 8 = Ok (p - sizeof_bparm_t, a)) in Ha.
  pose proof (bmem_alloc_boottime_spec (bp_alloc st) (sizeof_bparm_t + sz) 8 (repr_inv _ _ Hr)
    ltac:(unfold sizeof_bparm_t; lia) (valid_align_page 8 ltac:(by exists 3) ltac:(lia))) as Hspec.
  rewrite Ha in Hspec. destruct Hspec as (_ & _ & Hlo & _ & _ & _ & Ht & Hbot). rewrite Ea. split; [|done].
  split; [done|]. rewrite Ea, Hbot. intros v [Hv| ->%list_elem_of_singleton]%elem_of_app.
  - destruct (Hb v Hv). lia.
  - cbn [v_addr v_size]. lia.
Qed.

(** ** Properties *)

(** Base memory: the ranges of the firmware that stay its own, then ranges one after the other. *)
Definition base_reported (descs : list mem_desc) (vs : list bp_view) : Prop :=
  exists base, Forall2 is_mrng vs (mjoin (uefi_range <$> descs) ++ base) /\ in_order 0 base.

Lemma hand_over_spec {fw} `{BootServices fw} GetTime ex fuel k (w : fw) st l base_kib st' :
  stage1_repr st l -> Forall ext_desc_ok (LibMemoryMap w) -> runtime_bmem_top (bp_alloc st) < BMEM_MAX_ADDR ->
  prepare_to_hand_over GetTime ex fuel k w st = Ok (base_kib, st') ->
  exists ext v vs d, lseg (bp_heap st') (bparm_get st') (l ++ ext ++ v :: vs) NULL /\
    Forall2 is_mrng ext (mjoin (ext_range <$> LibMemoryMap w)) /\ base_reported (LibMemoryMap w) vs /\
    v_type v = BP_BMEM /\ v_data v = BdatBmem d /\
    16 * boottime_bmem_bot_seg d + 128 * KIBYTE <= 16 * runtime_bmem_top_seg d /\
    16 * runtime_bmem_top_seg d = KIBYTE * base_kib /\ 192 <= base_kib /\
    16 * runtime_bmem_top_seg d <= runtime_bmem_top (bp_alloc st) /\
    forall x, x ∈ l ++ ext ++ v :: vs ->
      EFI_PAGE_SIZE <= v_addr x /\ v_addr x + sizeof_bparm_t + v_size x <= 16 * boottime_bmem_bot_seg d.
Proof.
  intros Hr Hd Htop E. unfold prepare_to_hand_over in E.
  apply bind_Ok in E as (descs & E0 & E). apply bind_Ok in E as (st1 & E1 & E).
  apply bind_Ok in E as ([bd st2] & E2 & E). apply bind_Ok in E as ([[bot top] st3] & E3 & E).
  apply bind_Ok in E as (st4 & E4 & E). apply bind_Ok in E as (k1 & _ & E). apply bind_Ok in E as (k2 & _ & E).
  apply bind_Ok in E as (k3 & _ & E). apply bind_Ok in E as (k4 & _ & E).
  destruct ex; cbn [negb] in E; [|done]. injection E as <- <-.
  assert (descs = LibMemoryMap w) as -> by (unfold get_mem_map in E0; destruct (LibMemoryMap w); congruence).
  destruct (add_ext_stage1 _ _ _ _ Hd Hr E1) as (ext & Hr1 & Ht1 & Hext).
  destruct (add_stage1 st1 _ BP_BMEM sizeof_bdat_bmem_t bd st2 Hr1 ltac:(done) E2) as [Hr2 Ht2].
  destruct (bmem_fini_facts _ _ _ _ _ _ Hr2 E3)
    as (vs1 & vs2 & vs3 & attr & Hseg & (st5 & Hr5 & Eheap) & Hv1 & Hv2 & Hv3 & Hbot & Hk & Hmin & Hle & Hgap & Hbelow).
  set (v := {| v_addr := bd - sizeof_bparm_t; v_type := BP_BMEM; v_size := sizeof_bdat_bmem_t;
               v_data := BdatZero sizeof_bdat_bmem_t |}) in *.
  set (vs := vs1 ++ vs2 ++ vs3) in *. replace (((l ++ ext) ++ [v]) ++ vs) with ((l ++ ext) ++ v :: vs) in *
    by (by rewrite <- !app_assoc).
  destruct (lseg_store _ _ _ _ _ (BdatBmem {| boottime_bmem_bot_seg := addr_to_rm_seg bot;
    runtime_bmem_top_seg := addr_to_rm_seg top |}) Hseg (repr_middle_ne _ _ _ _ Hr5)) as (n & Hn & Hseg').
  unfold bparm_store in E4. cbn [v v_addr] in Hn. rewrite Hn in E4. cbn [checked mbind result_bind] in E4. injection E4 as <-.
  cbn [bp_heap bparm_get bp_head].
  pose proof (Hbelow v ltac:(apply elem_of_app; right; by left)) as Hv0. cbn [v v_addr v_size] in Hv0.
  assert (Hpos : 0 <= bot).
  { unfold sizeof_bparm_t, sizeof_bdat_bmem_t in Hv0. change EFI_PAGE_SIZE with 4096 in Hv0. lia. }
  rewrite Ht2, Ht1 in Hle. pose proof (rm_seg_addr bot ltac:(zsolve) Hbot) as Sb.
  pose proof (rm_seg_addr top ltac:(zsolve) ltac:(destruct Hk as [r ->]; exists (r * 64); unfold_consts; lia)) as St.
  unfold_consts. destruct Hk as [r Er].
  assert (Ek : top / 1024 = r) by (rewrite Er; by apply Z.div_mul). rewrite Ek.
  eexists ext, _, vs, _. rewrite <- app_assoc in Hseg'. split; [exact Hseg'|]. cbn [v_type v_data].
  split_and!; try done; cbn [boottime_bmem_bot_seg runtime_bmem_top_seg]; try lia.
  { destruct Hv3 as (ds & Hv3 & Ho). eexists. split; [by repeat apply Forall2_app|].
    apply in_order_base; [unfold_consts; lia|done]. }
  intros x Hx.
  assert (Hx' : exists y, y ∈ (l ++ ext) ++ v :: vs /\ v_addr y = v_addr x /\ v_size y = v_size x).
  { rewrite app_assoc in Hx. apply elem_of_app in Hx as [Hx|[->|Hx]%elem_of_cons].
    - exists x. split_and!; [apply elem_of_app; by left|done|done].
    - exists v. split_and!; [apply elem_of_app; right; by left|done|done].
    - exists x. split_and!; [apply elem_of_app; right; by right|done|done]. }
  destruct Hx' as (y & Hy & <- & <-). specialize (Hbelow y Hy). lia.
Qed.


(** ** The clock *)

Definition ns : Z := 1000000000.

(** [t k] is the time of call number [k] in nanoseconds; the clock shows its minute of the hour,
    second and nanosecond, and does not run backwards. *)
Definition clock_at (x : Z) : efi_time :=
  {| Minute := (x / (60 * ns)) mod 60; Second := (x / ns) mod 60; Nanosecond := x mod ns |}.

Record clock (GetTime : nat -> option efi_time) (t : nat -> Z) : Prop := {
  clock_shows : forall k, GetTime k = Some (clock_at (t k));
  clock_mono : forall j k, (j <= k)%nat -> t j <= t k;
}.

(** Nanoseconds since the last full minute. *)
Definition in_minute (x : Z) : Z := x mod (60 * ns).

Lemma clock_ns x : u64 (1000000000 * Second (clock_at x) + Nanosecond (clock_at x)) = in_minute x.
Proof.
  unfold clock_at, in_minute, ns. cbn [Second Nanosecond].
  assert (E : 1000000000 * ((x / 1000000000) mod 60) + x mod 1000000000 = x mod (60 * 1000000000)).
  { pose proof (Z.rem_mul_r x 1000000000 60 ltac:(lia) ltac:(lia)) as H. rewrite (Z.mul_comm 60). lia. }
  rewrite E. apply wrap_small. pose proof (Z.mod_pos_bound x (60 * 1000000000) ltac:(lia)). lia.
Qed.

(** The test of the loop, on the times themselves. *)
Definition waits_on (x y : Z) : bool :=
  (if negb (Minute (clock_at y) =? Minute (clock_at x)) then in_minute y + 60 * ns else in_minute y) <? in_minute x + ns.

Lemma in_minute_range x : 0 <= in_minute x < 60 * ns.
Proof. apply Z.mod_pos_bound. unfold ns. lia. Qed.

(** A loop that stops has waited for a second; one that sees a time between one second and a
    minute later stops. *)
Lemma waits_on_stop x y : x <= y -> waits_on x y = false -> x + ns <= y.
Proof.
  unfold waits_on, in_minute, clock_at, ns. cbn [Minute]. intros Hle H.
  change (60 * 1000000000) with 60000000000 in *.
  pose proof (Z.div_mod x 60000000000 ltac:(lia)). pose proof (Z.div_mod y 60000000000 ltac:(lia)).
  pose proof (Z.mod_pos_bound x 60000000000 ltac:(lia)). pose proof (Z.mod_pos_bound y 60000000000 ltac:(lia)).
  pose proof (Z.div_le_mono x y 60000000000 ltac:(lia) Hle).
  destruct (Z.eqb_spec ((y / 60000000000) mod 60) ((x / 60000000000) mod 60)) as [E|E]; cbn [negb] in H.
  - lia.
  - assert (x / 60000000000 <> y / 60000000000) by congruence. lia.
Qed.

Lemma waits_on_window x y : x + ns <= y < x + 60 * ns -> waits_on x y = false.
Proof.
  unfold waits_on, in_minute, clock_at, ns. cbn [Minute]. intros Hle.
  change (60 * 1000000000) with 60000000000 in *.
  pose proof (Z.div_mod x 60000000000 ltac:(lia)). pose proof (Z.div_mod y 60000000000 ltac:(lia)).
  pose proof (Z.mod_pos_bound x 60000000000 ltac:(lia)). pose proof (Z.mod_pos_bound y 60000000000 ltac:(lia)).
  apply Z.ltb_ge.
  assert (Hm : y / 60000000000 = x / 60000000000 \/ y / 60000000000 = x / 60000000000 + 1) by lia.
  destruct Hm as [Hm|Hm]; rewrite Hm in *.
  - rewrite Z.eqb_refl. cbn [negb]. lia.
  - destruct (Z.eqb_spec ((x / 60000000000 + 1) mod 60) ((x / 60000000000) mod 60)) as [E|E]; cbn [negb]; [|lia].
    exfalso. revert E. generalize (x / 60000000000). intros q E. dlia.
Qed.

Section waiting.
Context (GetTime : nat -> option efi_time) (t : nat -> Z) (Hclock : clock GetTime t).

Lemma second_loop_spec fuel : forall k k0,
  (k0 < k)%nat ->
  match second_loop GetTime fuel (clock_at (t k0)) (in_minute (t k0)) k with
  | Ok k' => (k < k')%nat /\ t k0 + ns <= t (pred k')
  | Fail f => f = Diverges /\ forall j, (k <= j < k + fuel)%nat -> ~ (t k0 + ns <= t j < t k0 + 60 * ns)
  end.
Proof.
  induction fuel as [|fuel IH]; intros k k0 Hk; cbn [second_loop]; [split; [done|intros; lia]|].
  unfold get_time. rewrite (clock_shows _ _ Hclock). cbn [mbind result_bind]. rewrite clock_ns.
  pose proof (in_minute_range (t k)) as Hy. pose proof (in_minute_range (t k0)) as Hx. unfold ns in Hx, Hy.
  rewrite (wrap_small 64 (in_minute (t k) + 60000000000)), (wrap_small 64 (in_minute (t k0) + 1000000000)) by lia.
  change ((if negb (Minute (clock_at (t k)) =? Minute (clock_at (t k0))) then in_minute (t k) + 60000000000
    else in_minute (t k)) <? in_minute (t k0) + 1000000000) with (waits_on (t k0) (t k)).
  destruct (waits_on (t k0) (t k)) eqn:E.
  - specialize (IH (S k) k0 ltac:(lia)). destruct (second_loop _ _ _ _ _) as [k'|f]; [split; [lia|apply IH]|].
    destruct IH as [-> Hno]. split; [done|]. intros j Hj Hw. destruct (decide (j = k)) as [->|].
    + by rewrite (waits_on_window _ _ Hw) in E.
    + apply (Hno j); [lia|done].
  - split; [lia|]. cbn [pred]. apply waits_on_stop; [|done]. apply (clock_mono _ _ Hclock). lia.
Qed.
End waiting.

(** [wait_for_one_second] returns only after at least a second has passed, over the turn of
    a minute and of an hour too; and it returns, as soon as the clock is read at a time between
    one second and one minute after the first reading. *)
Theorem wait_for_one_second_waits GetTime t fuel k :
  clock GetTime t ->
  match wait_for_one_second GetTime fuel k with
  | Ok k' => (S k < k')%nat /\ t k + ns <= t (pred k')
  | Fail f => f = Diverges /\ forall j, (k < j <= k + fuel)%nat -> ~ (t k + ns <= t j < t k + 60 * ns)
  end.
Proof.
  intros Hc. unfold wait_for_one_second, get_time at 1. rewrite (clock_shows _ _ Hc). cbn [mbind result_bind].
  rewrite clock_ns. pose proof (second_loop_spec GetTime t Hc fuel (S k) k ltac:(lia)) as H.
  destruct (second_loop _ _ _ _ _) as [k'|f]; [exact H|]. destruct H as [-> H]. split; [done|].
  intros j Hj. apply H. lia.
Qed.

(** ** It ends *)

(** The clock is read often enough: after every reading there is one that shows a change, and one
    that is between a second and a minute later. *)
Definition ticking (GetTime : nat -> option efi_time) (t : nat -> Z) (fuel : nat) : Prop :=
  clock GetTime t /\ forall k,
    (exists j, (k < j <= k + fuel)%nat /\ ~ (Second (clock_at (t j)) = Second (clock_at (t k)) /\
       Nanosecond (clock_at (t j)) = Nanosecond (clock_at (t k)))) /\
    (exists j, (k < j <= k + fuel)%nat /\ t k + ns <= t j < t k + 60 * ns).

Lemma change_loop_ends GetTime t fuel : clock GetTime t -> forall k then_,
  (exists j, (k <= j < k + fuel)%nat /\ ~ (Second (clock_at (t j)) = Second then_ /\
     Nanosecond (clock_at (t j)) = Nanosecond then_)) ->
  ends (change_loop GetTime fuel then_ k).
Proof.
  intros Hc. induction fuel as [|fuel IH]; intros k then_ (j & Hj & Hne); [lia|]. cbn [change_loop].
  unfold get_time. rewrite (clock_shows _ _ Hc). cbn [mbind result_bind].
  destruct (_ && _) eqn:E; [|done]. apply andb_true_iff in E as [E1%Z.eqb_eq E2%Z.eqb_eq].
  apply IH. exists j. split; [|done]. destruct (decide (j = k)) as [->|]; [by destruct Hne|lia].
Qed.

Lemma wait_for_time_change_ends GetTime t fuel k : ticking GetTime t fuel -> ends (wait_for_time_change GetTime fuel k).
Proof.
  intros [Hc Ht]. unfold wait_for_time_change, get_time at 1. rewrite (clock_shows _ _ Hc). cbn [mbind result_bind].
  apply (change_loop_ends _ t); [done|]. destruct (Ht k) as [(j & Hj & Hne) _]. exists j. split; [lia|done].
Qed.

Lemma wait_for_one_second_ends GetTime t fuel k : ticking GetTime t fuel -> ends (wait_for_one_second GetTime fuel k).
Proof.
  intros [Hc Ht]. unfold wait_for_one_second, get_time at 1. rewrite (clock_shows _ _ Hc). cbn [mbind result_bind].
  rewrite clock_ns. pose proof (second_loop_spec GetTime t Hc fuel (S k) k ltac:(lia)) as H.
  destruct (second_loop _ _ _ _ _) as [k'|f]; [done|]. destruct H as [-> H].
  destruct (Ht k) as [_ (j & Hj & Hw)]. by destruct (H j ltac:(lia)).
Qed.

Lemma add_ext_ends descs : forall st, ends (add_ext_mem_bparms st descs).
Proof.
  induction descs as [|d descs IH]; intros st; cbn [add_ext_mem_bparms]; [done|]. cbv zeta.
  case_match; [apply IH|]. apply ends_bind; [auto with ends|]. intros [q st1] _. apply IH.
Qed.

Lemma prepare_ends {fw} `{BootServices fw} GetTime t ex fuel k (w : fw) st :
  ticking GetTime t fuel -> ends (prepare_to_hand_over GetTime ex fuel k w st).
Proof.
  intros Ht. unfold prepare_to_hand_over. apply ends_bind; [unfold get_mem_map; by case_match|]. intros descs _.
  apply ends_bind; [apply add_ext_ends|]. intros st1 _. apply ends_bind; [auto with ends|]. intros [bd st2] _.
  apply ends_bind; [apply bmem_fini_ends|]. intros [[bot top] st3] _. apply ends_bind; [auto with ends|]. intros st4 _.
  apply ends_bind; [by eapply wait_for_time_change_ends|]. intros k1 _.
  do 3 (apply ends_bind; [by eapply wait_for_one_second_ends|]; intros ? _). by case_match.
Qed.

(** ** Witnesses *)

(** Firmware that is described by its memory map alone. *)
#[local] Instance map_services : BootServices (list mem_desc) :=
  {| AllocatePages := fun _ _ _ => None; LibMemoryMap := fun w => w |}.

Definition demo_map : list mem_desc :=
  [ {| Type_ := EfiConventionalMemory; PhysicalStart := 0x1000; NumberOfPages := 0x9f; Attribute := 0xf |};
    {| Type_ := EfiConventionalMemory; PhysicalStart := 0x80000; NumberOfPages := 0x180; Attribute := 0xf |};
    {| Type_ := EfiACPIMemoryNVS; PhysicalStart := 0x200000; NumberOfPages := 0x10; Attribute := 0xf |} ].

(** A clock that ticks every 0.4 s and starts half a second before the full hour. *)
Definition demo_ticks (k : nat) : Z := 3599500000000 + 400000000 * Z.of_nat k.
Definition demo_time (k : nat) : option efi_time := Some (clock_at (demo_ticks k)).

Lemma demo_clock : clock demo_time demo_ticks.
Proof. split; [done|]. intros j k Hjk. unfold demo_ticks. lia. Qed.

Lemma wait_for_one_second_waits_witness :
  wait_for_one_second demo_time 10 0 = Ok 4%nat /\ demo_ticks 0 + ns <= demo_ticks 3.
Proof.
  assert (E : wait_for_one_second demo_time 10 0 = Ok 4%nat) by (vm_compute; reflexivity).
  split; [exact E|]. pose proof (wait_for_one_second_waits demo_time demo_ticks 10 0 demo_clock) as H.
  rewrite E in H. exact (proj2 H).
Defined.

Lemma demo_map_ok : Forall ext_desc_ok demo_map.
Proof. repeat constructor; cbn; vm_compute; done. Qed.

