(* ===== verification/Acpi.v ===== *)
(** * Checking the ACPI tables (src/acpi.h, src/stage1/acpi.c)

    [acpi_init] checks the RSDP and the XSDT that the firmware provides, looks at the FADT and the
    MADT, and adds the "RSDP" boot parameter.  Tables are read from physical memory.  The layout
    of the structures that src/acpi.h takes from a library of ACPI definitions is a parameter
    ([acpi_layout]); [acpi_spec_layout] has the values of the ACPI specification. *)

From S2P Require Import Prelude Util Bmem Bparm Rimg Phys Pci.

(** ** Layout *)

Record acpi_layout := {
  xsdp_revision : Z;       (** offsets in [acpi_xsdp_t] *)
  xsdp_length : Z;
  xsdp_xsdt : Z;
  sizeof_xsdp : Z;
  header_length : Z;       (** offset in [acpi_header_t] *)
  sizeof_header : Z;
  fadt_iapc_boot_flags : Z;
  sizeof_table_union : Z;  (** [acpi_table_union_t] *)
}.

Definition acpi_spec_layout : acpi_layout :=
  {| xsdp_revision := 15; xsdp_length := 20; xsdp_xsdt := 24; sizeof_xsdp := 36;
     header_length := 4; sizeof_header := 36; fadt_iapc_boot_flags := 109;
     sizeof_table_union := 276 |}.

Definition FADT_IAPC_NORTC : Z := Z.shiftl 1 5.
Definition MADT_PCAT_COMPAT : Z := Z.shiftl 1 0.

Definition expect_rsdp_sig : list Z := [82; 83; 68; 32; 80; 84; 82; 32].
Definition expect_xsdt_sig : list Z := [88; 83; 68; 84].
Definition fadt_sig : list Z := [70; 65; 67; 80].
Definition madt_sig : list Z := [65; 80; 73; 67].

(** ** Operations *)

Section acpi.
Context (L : acpi_layout) (pm : phys).

Definition acpi_process_fadt (fadt : Z) : result unit :=
  if m32 pm (fadt + header_length L) <? fadt_iapc_boot_flags L + 2 then Fail (Error "FADT too small")
  else if negb (Z.land (m16 pm (fadt + fadt_iapc_boot_flags L)) FADT_IAPC_NORTC =? 0)
  then Fail (Error "FADT: no CMOS RTC") else Ok ().

(** [flags] follows the header and the address of the local APIC. *)
Definition acpi_process_madt (madt : Z) : result unit :=
  if Z.land (m32 pm (madt + (sizeof_header L + 4))) MADT_PCAT_COMPAT =? 0 then Fail (Error "MADT: no 8259") else Ok ().

(** The loop over the XSDT, for the entries from number [i] on, [n] of them. *)
Fixpoint tables_loop (xsdt : Z) (i : Z) (n : nat) : result unit :=
  match n with
  | O => Ok ()
  | S n =>
      let tab := m64 pm (xsdt + sizeof_header L + 8 * i) in
      f ← memcmp (region pm tab 4) fadt_sig 4;
      _ ← (if f =? 0 then acpi_process_fadt tab
           else m ← memcmp (region pm tab 4) madt_sig 4; if m =? 0 then acpi_process_madt tab else Ok ());
      tables_loop xsdt (i + 1) n
  end.

(** The checks; the result is the value that [sz] has at the end. *)
Definition acpi_check (rsdp : Z) : result Z :=
  c ← memcmp (region pm rsdp 8) expect_rsdp_sig 8;
  if negb (c =? 0) then Fail (Error "RSDP has bad sig.")
  else if pm (rsdp + xsdp_revision L) <? 2 then Fail (Error "RSDP revision too old")
  else
    let sz := m32 pm (rsdp + xsdp_length L) in
    if sz <? sizeof_xsdp L then Fail (Error "RSDP too small")
    else
      s1 ← compute_cksum (region pm rsdp (xsdp_length L)) (Z.to_nat (xsdp_length L));
      s2 ← (if negb (s1 =? 0) then Ok 1 else compute_cksum (region pm rsdp sz) (Z.to_nat sz));
      if negb (s2 =? 0) then Fail (Error "RSDP has bad checksums")
      else
        let xsdt := m64 pm (rsdp + xsdp_xsdt L) in
        c ← memcmp (region pm xsdt 4) expect_xsdt_sig 4;
        if negb (c =? 0) then Fail (Error "XSDT has bad sig.")
        else
          let sz := m32 pm (xsdt + header_length L) in
          if sz <? sizeof_header L + 8 then Fail (Error "XSDT too small")
          else
            s ← compute_cksum (region pm xsdt sz) (Z.to_nat sz);
            if negb (s =? 0) then Fail (Error "XSDT has bad checksum")
            else
              _ ← tables_loop xsdt 0 (Z.to_nat ((sz - sizeof_header L) / 8));
              Ok sz.

Definition acpi_init (rsdp : Z) (st : bparms bmem) : result (bparms bmem) :=
  sz ← acpi_check rsdp;
  '(bd, st) ← bparm_add st BP_RSDP sizeof_bdat_rsdp_t;
  bparm_store st bd (BdatRsdp {| rsdp_phy_addr := rsdp; rsdp_sz := sz |}).
End acpi.

(** ** Good tables *)

Lemma memcmp_zero (p1 p2 : list Z) (n : nat) :
  (n <= length p1)%nat -> (n <= length p2)%nat ->
  exists r, memcmp p1 p2 n = Ok r /\ (r =? 0) = bool_decide (take n p1 = take n p2).
Proof.
  revert p1 p2. induction n as [|n IH]; intros p1 p2 H1 H2; [by exists 0|].
  destruct p1 as [|a p1], p2 as [|b p2]; cbn in *; try lia.
  destruct (Z.ltb_spec a b); [|rewrite Z.gtb_ltb; destruct (Z.ltb_spec b a)].
  1,2: eexists; split; [done|]; symmetry; apply bool_decide_eq_false_2; intros [= ? _]; lia.
  assert (a = b) as -> by lia. destruct (IH p1 p2) as (r & -> & Hr); [lia..|]. exists r. split; [done|].
  rewrite Hr. apply bool_decide_ext. split; [by intros ->|by intros [= ->]].
Qed.

Lemma region_sig pm a sig :
  exists r, memcmp (region pm a (zlen sig)) sig (length sig) = Ok r /\
    (r =? 0) = bool_decide (region pm a (zlen sig) = sig).
Proof.
  assert (Hl : length (region pm a (zlen sig)) = length sig).
  { unfold region, zlen. rewrite length_fmap, length_seq. lia. }
  destruct (memcmp_zero (region pm a (zlen sig)) sig (length sig)) as (r & E & Hr); [lia|done|].
  exists r. split; [done|]. rewrite Hr, take_ge, take_ge by lia. done.
Qed.

Definition sums_to_zero (pm : phys) (a n : Z) : Prop := byte_sum (region pm a n) mod 256 = 0.

Lemma region_cksum pm a n :
  exists c, compute_cksum (region pm a n) (Z.to_nat n) = Ok c /\ ((c =? 0) = true <-> sums_to_zero pm a n).
Proof.
  assert (Hl : length (region pm a n) = Z.to_nat n) by (unfold region; by rewrite length_fmap, length_seq).
  rewrite compute_cksum_ok by lia. eexists. split; [done|]. rewrite Z.eqb_eq, neg_mod_zero, take_ge by lia. done.
Qed.

Section good.
Context (L : acpi_layout) (pm : phys).

Definition fadt_good (t : Z) : Prop :=
  fadt_iapc_boot_flags L + 2 <= m32 pm (t + header_length L) /\
  Z.land (m16 pm (t + fadt_iapc_boot_flags L)) FADT_IAPC_NORTC = 0.

Definition madt_good (t : Z) : Prop := Z.land (m32 pm (t + (sizeof_header L + 4))) MADT_PCAT_COMPAT <> 0.

Definition table_good (t : Z) : Prop :=
  (region pm t 4 = fadt_sig -> fadt_good t) /\ (region pm t 4 = madt_sig -> madt_good t).

(** The tables of a machine that the program can run on. *)
Record acpi_good (rsdp xsdt sz : Z) : Prop := {
  good_rsdp_sig : region pm rsdp 8 = expect_rsdp_sig;
  good_revision : 2 <= pm (rsdp + xsdp_revision L);
  good_rsdp_size : sizeof_xsdp L <= m32 pm (rsdp + xsdp_length L);
  good_rsdp_sums : sums_to_zero pm rsdp (xsdp_length L) /\ sums_to_zero pm rsdp (m32 pm (rsdp + xsdp_length L));
  good_xsdt : xsdt = m64 pm (rsdp + xsdp_xsdt L);
  good_xsdt_sig : region pm xsdt 4 = expect_xsdt_sig;
  good_xsdt_size : sz = m32 pm (xsdt + header_length L) /\ sizeof_header L + 8 <= sz;
  good_xsdt_sum : sums_to_zero pm xsdt sz;
  good_tables : forall i, 0 <= i < (sz - sizeof_header L) / 8 ->
    table_good (m64 pm (xsdt + sizeof_header L + 8 * i));
}.

Lemma tables_loop_spec xsdt n : forall i,
  match tables_loop L pm xsdt i n with
  | Ok _ => forall j, i <= j < i + Z.of_nat n -> table_good (m64 pm (xsdt + sizeof_header L + 8 * j))
  | Fail f => (exists msg, f = Error msg) /\
      exists j, i <= j < i + Z.of_nat n /\ ~ table_good (m64 pm (xsdt + sizeof_header L + 8 * j))
  end.
Proof.
  induction n as [|n IH]; intros i; cbn [tables_loop]; [intros; lia|].
  set (t := m64 pm (xsdt + sizeof_header L + 8 * i)).
  destruct (region_sig pm t fadt_sig) as (f & Ef & Hf), (region_sig pm t madt_sig) as (g & Eg & Hg).
  change (zlen fadt_sig) with 4 in *. change (zlen madt_sig) with 4 in *.
  change (length fadt_sig) with 4%nat in *. change (length madt_sig) with 4%nat in *.
  rewrite Ef. cbn [mbind result_bind]. rewrite Hf.
  set (step := (if bool_decide _ then _ else _) : result unit).
  assert (Hstep : match step with Ok _ => table_good t | Fail e => (exists msg, e = Error msg) /\ ~ table_good t end).
  { unfold step. destruct (bool_decide_reflect (region pm t 4 = fadt_sig)) as [H1|H1].
    - unfold acpi_process_fadt. destruct (Z.ltb_spec (m32 pm (t + header_length L)) (fadt_iapc_boot_flags L + 2)) as [Hl|Hl].
      { split; [by eexists|]. intros [Hg1 _]. destruct (Hg1 H1). lia. }
      destruct (Z.eqb_spec (Z.land (m16 pm (t + fadt_iapc_boot_flags L)) FADT_IAPC_NORTC) 0) as [Hb|Hb]; cbn [negb].
      + split; [intros _; by split|]. rewrite H1. intros [=].
      + split; [by eexists|]. intros [Hg1 _]. by destruct (Hg1 H1).
    - rewrite Eg. cbn [mbind result_bind]. rewrite Hg.
      destruct (bool_decide_reflect (region pm t 4 = madt_sig)) as [H2|H2]; [|by split].
      unfold acpi_process_madt. destruct (Z.eqb_spec (Z.land (m32 pm (t + (sizeof_header L + 4))) MADT_PCAT_COMPAT) 0) as [Hb|Hb].
      + split; [by eexists|]. intros [_ Hg2]. by destruct (Hg2 H2).
      + split; [done|]. intros _. exact Hb. }
  destruct step as [u1|e]; cbn [mbind result_bind].
  - specialize (IH (i + 1)). destruct (tables_loop L pm xsdt (i + 1) n) as [u2|e].
    + intros j Hj. destruct (decide (j = i)) as [->|]; [done|]. apply IH. lia.
    + destruct IH as [He (j & Hj & Hn)]. split; [done|]. exists j. split; [lia|done].
  - destruct Hstep as [He Hn]. split; [done|]. exists i. split; [lia|done].
Qed.

Lemma acpi_check_spec rsdp :
  match acpi_check L pm rsdp with
  | Ok sz => acpi_good rsdp (m64 pm (rsdp + xsdp_xsdt L)) sz
  | Fail f => (exists msg, f = Error msg) /\ forall xsdt sz, ~ acpi_good rsdp xsdt sz
  end.
Proof.
  unfold acpi_check. set (x := m64 pm (rsdp + xsdp_xsdt L)). set (len := m32 pm (rsdp + xsdp_length L)).
  assert (Hx : forall y s, acpi_good rsdp y s -> y = x /\ s = m32 pm (x + header_length L)).
  { intros y s [_ _ _ _ -> _ [-> _] _ _]. done. }
  destruct (region_sig pm rsdp expect_rsdp_sig) as (c & Ec & Hc). change (zlen expect_rsdp_sig) with 8 in *.
  change (length expect_rsdp_sig) with 8%nat in *. rewrite Ec. cbn [mbind result_bind]. rewrite Hc.
  case_bool_decide as H1; cbn [negb]; [|split; [by eexists|by intros y s []]].
  destruct (Z.ltb_spec (pm (rsdp + xsdp_revision L)) 2) as [Hrev|Hrev]; [split; [by eexists|intros y s []; lia]|].
  destruct (Z.ltb_spec len (sizeof_xsdp L)) as [Hlen|Hlen]; [split; [by eexists|intros y s []; unfold len in *; lia]|].
  destruct (region_cksum pm rsdp (xsdp_length L)) as (c1 & -> & H2). cbn [mbind result_bind].
  destruct (region_cksum pm rsdp len) as (c2 & E2 & H3).
  destruct (c1 =? 0); cbn [negb mbind result_bind].
  2: { split; [by eexists|]. intros y s [_ _ _ [Hs _] _ _ _ _ _]. by apply H2 in Hs. }
  rewrite E2. cbn [mbind result_bind].
  destruct (c2 =? 0); cbn [negb]; [|split; [by eexists|]; intros y s [_ _ _ [_ Hs] _ _ _ _ _]; by apply H3 in Hs].
  destruct (region_sig pm x expect_xsdt_sig) as (d & Ed & Hd). change (zlen expect_xsdt_sig) with 4 in *.
  change (length expect_xsdt_sig) with 4%nat in *. rewrite Ed. cbn [mbind result_bind]. rewrite Hd.
  case_bool_decide as H4; cbn [negb].
  2: { split; [by eexists|]. intros y s Hgood. destruct (Hx y s Hgood) as [-> _]. by destruct Hgood. }
  set (sz := m32 pm (x + header_length L)) in *.
  destruct (Z.ltb_spec sz (sizeof_header L + 8)) as [Hsz|Hsz].
  { split; [by eexists|]. intros y s Hgood. destruct (Hx y s Hgood) as [-> ->]. destruct Hgood. lia. }
  destruct (region_cksum pm x sz) as (c3 & -> & H5). cbn [mbind result_bind].
  destruct (c3 =? 0); cbn [negb].
  2: { split; [by eexists|]. intros y s Hgood. destruct (Hx y s Hgood) as [-> ->]. by apply good_xsdt_sum, H5 in Hgood. }
  pose proof (tables_loop_spec x (Z.to_nat ((sz - sizeof_header L) / 8)) 0) as Ht.
  assert (Hn : Z.of_nat (Z.to_nat ((sz - sizeof_header L) / 8)) = (sz - sizeof_header L) / 8)
    by (apply Z2Nat.id, Z.div_pos; lia).
  destruct (tables_loop _ _ _ _ _) as [u1|f]; cbn [mbind result_bind].
  - split; try done; try tauto. intros i Hi. apply Ht. lia.
  - destruct Ht as [He (j & Hj & Hbad)]. split; [done|]. intros y s Hgood. destruct (Hx y s Hgood) as [-> ->].
    apply Hbad. apply (good_tables _ _ _ Hgood). lia.
Qed.
End good.

(** C35: [acpi_init] accepts exactly the machines whose tables are good: it fails with one of its
    errors when they are not, and otherwise adds the "RSDP" parameter behind the parameters there
    are - with the address of the RSDP and, as its size, the length of the XSDT, which is what
    the variable [sz] holds by then. *)
Theorem acpi_init_accepts (L : acpi_layout) pm rsdp st l :
  bparms_repr st l ->
  match acpi_init L pm rsdp st with
  | Ok st' => exists a sz, acpi_good L pm rsdp (m64 pm (rsdp + xsdp_xsdt L)) sz /\
      bparms_repr st' (l ++ [{| v_addr := a; v_type := BP_RSDP; v_size := sizeof_bdat_rsdp_t;
        v_data := BdatRsdp {| rsdp_phy_addr := rsdp; rsdp_sz := sz |} |}]) /\
      sz = m32 pm (m64 pm (rsdp + xsdp_xsdt L) + header_length L)
  | Fail f => ((exists msg, f = Error msg) /\ forall xsdt sz, ~ acpi_good L pm rsdp xsdt sz) \/
      bmem_alloc_boottime (bp_alloc st) (sizeof_bparm_t + sizeof_bdat_rsdp_t) 8 = Fail f
  end.
Proof.
  intros Hr. unfold acpi_init. pose proof (acpi_check_spec L pm rsdp) as Hc.
  destruct (acpi_check L pm rsdp) as [sz|f]; cbn [mbind result_bind]; [|by left].
  pose proof (bparm_add_repr st l BP_RSDP sizeof_bdat_rsdp_t Hr ltac:(done)) as Hadd.
  destruct (bparm_add st BP_RSDP sizeof_bdat_rsdp_t) as [[p st1]|f]; cbn [mbind result_bind]; [|by right].
  destruct Hadd as [Hr1 _].
  destruct (bparm_store_repr st1 l _ (BdatRsdp {| rsdp_phy_addr := rsdp; rsdp_sz := sz |}) Hr1) as (st2 & E & _ & Hr2).
  cbn [v_addr] in E. replace (p - sizeof_bparm_t + sizeof_bparm_t) with p in E by lia. rewrite E.
  exists (p - sizeof_bparm_t), sz. split_and!; [done|exact Hr2|by apply Hc].
Qed.

(** ** A concrete machine: an RSDP at 0x1000, an XSDT with a MADT and a FADT *)

Definition put (a : Z) (bs : list Z) (pm : phys) : phys :=
  fun x => if (a <=? x) && (x <? a + zlen bs) then nth (Z.to_nat (x - a)) bs 0 else pm x.

Definition demo_tables : phys :=
  put 0x1000 (expect_rsdp_sig ++ [223; 0; 0; 0; 0; 0; 0; 2; 0; 0; 0; 0; 36; 0; 0; 0; 0; 0x20; 0; 0; 0; 0; 0; 0; 188])
  (put 0x2000 (expect_xsdt_sig ++ [52; 0; 0; 0; 1; 24])
  (put 0x2024 [0; 0x30] (put 0x202c [0; 0x40]
  (put 0x3000 madt_sig (put 0x3028 [1]
  (put 0x4000 (fadt_sig ++ [116]) (fun _ => 0))))))).

(** A machine with its tables in extended memory. *)

(** The tables: RSDP, XSDT, an MADT with a processor, an I/O APIC and an override, a FADT. *)
Definition demo2_rsdp : list Z :=
  [82; 83; 68; 32; 80; 84; 82; 32; 223; 0; 0; 0; 0; 0; 0; 2; 0; 0; 0; 0; 36; 0; 0; 0; 0; 16; 225; 127; 0; 0; 0; 0;
   108; 0; 0; 0].
Definition demo2_xsdt : list Z :=
  [88; 83; 68; 84; 52; 0; 0; 0; 1; 120; 0; 0; 0; 0; 0; 0; 0; 0; 0; 0; 0; 0; 0; 0; 0; 0; 0; 0; 0; 0; 0; 0; 0; 0; 0; 0;
   0; 32; 225; 127; 0; 0; 0; 0; 0; 48; 225; 127; 0; 0; 0; 0].
Definition demo2_madt : list Z :=
  madt_sig ++ [74; 0; 0; 0] ++ replicate 28 0 ++ [0; 0; 224; 254; 1; 0; 0; 0] ++ [0; 8; 0; 0; 1; 0; 0; 0] ++
  [1; 12; 2; 0; 0; 0; 192; 254; 0; 0; 0; 0] ++ [2; 10; 0; 0; 2; 0; 0; 0; 0; 0].
Definition demo2_tables : phys :=
  put 0x7fe10000 demo2_rsdp (put 0x7fe11000 demo2_xsdt (put 0x7fe12000 demo2_madt
  (put 0x7fe13000 (fadt_sig ++ [116; 0; 0; 0]) (fun _ => 0)))).

Lemma put_bytes a l pm : Forall (fun b => 0 <= b < 256) l -> (forall x, 0 <= pm x < 256) -> forall x, 0 <= put a l pm x < 256.
Proof.
  intros Hl Hpm x. unfold put. destruct (_ && _); [|done]. destruct (nth_in_or_default (Z.to_nat (x - a)) l 0) as [H| ->]; [|lia].
  rewrite Forall_forall in Hl. apply Hl. by apply list_elem_of_In.
Qed.

Lemma demo2_bytes x : 0 <= demo2_tables x < 256.
Proof.
  revert x. unfold demo2_tables. repeat (apply put_bytes;
    [apply Forall_forall; intros b Hb; apply list_elem_of_In in Hb; cbn in Hb; intuition lia|]). intros x. lia.
Qed.

Lemma acpi_init_accepts_witness :
  exists st' sz, acpi_init acpi_spec_layout demo_tables 0x1000 (bparms0 demo_bmem) = Ok st' /\
    acpi_good acpi_spec_layout demo_tables 0x1000 0x2000 sz /\ sz = 52.
Proof.
  pose proof (acpi_init_accepts acpi_spec_layout demo_tables 0x1000 (bparms0 demo_bmem) []
    (bparms0_repr demo_bmem demo_bmem_inv)) as H.
  assert (Hok : match acpi_init acpi_spec_layout demo_tables 0x1000 (bparms0 demo_bmem) with
    | Ok _ => true | Fail _ => false end = true) by (vm_compute; reflexivity).
  destruct (acpi_init _ _ _ _) as [st'|f]; [|discriminate Hok].
  destruct H as (a & sz & Hg & _ & Hsz). exists st', sz. split; [reflexivity|]. split.
  - replace 0x2000 with (m64 demo_tables (0x1000 + xsdp_xsdt acpi_spec_layout)) by (vm_compute; reflexivity). exact Hg.
  - rewrite Hsz. vm_compute. reflexivity.
Defined.

(** A machine whose FADT reports no real-time clock is refused. *)
Example acpi_no_rtc :
  acpi_check acpi_spec_layout (put 0x406d [FADT_IAPC_NORTC] demo_tables) 0x1000 = Fail (Error "FADT: no CMOS RTC").
Proof. vm_compute. reflexivity. Qed.
