(* ===== verification/Irq.v ===== *)
(** * Interrupt controllers (src/stage2/irq.c)

    [irq_init] finds the ACPI tables through the "RSDP" boot parameter, maps each of them while it
    is looked at, masks every input of every I/O APIC that an MADT names, and then brings up the
    two 8259s and the timer.  Virtual memory is the interface [AddrSpace]; physical memory holds
    the tables; the I/O APICs are a device behind memory-mapped registers ([IoApics]), whose laws
    are those of the I/O APIC's documentation; port writes are recorded in order.  The theorems:
    what is masked and that nothing else is, that every mapping is taken back, that the program
    ends, and the state the port writes leave the 8259s in. *)

From S2P Require Import Prelude Util Bmem Bparm Paging AddrSpace Rimg Phys Pci Acpi.

(** ** Constants *)

Definition PIC1_CMD : Z := 0x0020.
Definition PIC1_DATA : Z := 0x0021.
Definition PIC2_CMD : Z := 0x00a0.
Definition PIC2_DATA : Z := 0x00a1.
Definition ICW1_IC4 : Z := 0x01.
Definition ICW1_INIT : Z := 0x10.
Definition IRQ0 : Z := 0x08.
Definition IRQ8 : Z := 0x70.
Definition ICW4_X86 : Z := 0x01.
Definition OCW2_EOI : Z := 0x20.
Definition PIT_DATA0 : Z := 0x40.
Definition PIT_CMD : Z := 0x43.
Definition PITC_SEL0 : Z := 0x00.
Definition PITC_LOHI : Z := 0x30.
Definition PITC_MODE3 : Z := 0x06.

Definition IOREGSEL : Z := 0.
Definition IOREGWIN : Z := 0x10.
Definition sizeof_ioapic_t : Z := 0x20.
Definition IOREDTBLLO (idx : Z) : Z := 0x10 + 2 * idx.
Definition IOAPIC_RTLO_MASKED : Z := 0x00010000.

Definition MADT_IC_IOAPIC : Z := 1.
(** Offsets in [acpi_madt_ic_header_t] and [acpi_madt_ic_ioapic_t]. *)
Definition ic_type : Z := 0.
Definition ic_length : Z := 1.
Definition ioapic_phy_addr : Z := 4.
(** The offset of [acpi_madt_t::ics]. *)
Definition madt_ics (L : acpi_layout) : Z := sizeof_header L + 8.

(** ** The I/O APICs *)

(** Reads and writes of 32 bits at a physical address; [io_base] says where the I/O APICs are,
    [regsel] what the select register holds, and [redir] is the low half of an entry of the
    redirection table. *)
Class IoApics (D : Type) := {
  mmio_read : D -> Z -> Z;
  mmio_write : D -> Z -> Z -> D;
  io_base : Z -> Prop;
  regsel : D -> Z -> Z;
  redir : D -> Z -> Z -> Z;
}.

(** From the data sheet: the window is the selected register; of an entry some bits may be
    read-only, the mask bit is not. *)
Class IoApicLaws (D : Type) `{IoApics D} := {
  io_select : forall d p v, io_base p -> regsel (mmio_write d (p + IOREGSEL) v) p = v;
  io_select_redir : forall d p v q i, io_base p -> io_base q -> redir (mmio_write d (p + IOREGSEL) v) q i = redir d q i;
  io_window : forall d p i, io_base p -> 0 <= i < 24 -> regsel d p = IOREDTBLLO i ->
    mmio_read d (p + IOREGWIN) = redir d p i;
  io_write_bit : forall d p i v b, io_base p -> 0 <= i < 24 -> regsel d p = IOREDTBLLO i -> 0 <= b ->
    Z.testbit (redir (mmio_write d (p + IOREGWIN) v) p i) b = Z.testbit v b \/
    (b <> 16 /\ Z.testbit (redir (mmio_write d (p + IOREGWIN) v) p i) b = Z.testbit (redir d p i) b);
  io_write_other : forall d p i v q j, io_base p -> io_base q -> 0 <= i < 24 -> regsel d p = IOREDTBLLO i ->
    p <> q \/ i <> j -> redir (mmio_write d (p + IOREGWIN) v) q j = redir d q j;
}.

(** ** Port writes *)

Inductive port_ev := PortOut (p v : Z) | IoWait.

(** The write to port 0x80 only takes time. *)
Definition outp (p v : Z) : list port_ev := [PortOut p (u8 v)].
Definition outp_w (p v : Z) : list port_ev := outp p v ++ [IoWait].

Section irq.
Context {V : Type} `{HV : AddrSpace V} {D : Type} `{HD : IoApics D}.
Context (L : acpi_layout) (pm : phys).

(** ** Memory accesses at virtual addresses *)

Definition vread8 (v : V) (a : Z) : result Z :=
  match as_look v (u32 a) with Some (p, _) => Ok (pm p) | None => Fail PageFault end.

Definition vread16 (v : V) (a : Z) : result Z :=
  b0 ← vread8 v a; b1 ← vread8 v (a + 1); Ok (b0 + 256 * b1).
Definition vread32 (v : V) (a : Z) : result Z :=
  w0 ← vread16 v a; w1 ← vread16 v (a + 2); Ok (w0 + 2 ^ 16 * w1).
Definition vread64 (v : V) (a : Z) : result Z :=
  w0 ← vread32 v a; w1 ← vread32 v (a + 4); Ok (w0 + 2 ^ 32 * w1).

(** The bytes that [memcmp] looks at. *)
Fixpoint vbytes (v : V) (a : Z) (n : nat) : result (list Z) :=
  match n with O => Ok [] | S n => b ← vread8 v a; l ← vbytes v (a + 1) n; Ok (b :: l) end.

Definition vdev_read (v : V) (d : D) (a : Z) : result Z :=
  match as_look v (u32 a) with Some (p, _) => Ok (mmio_read d p) | None => Fail PageFault end.
Definition vdev_write (v : V) (d : D) (a x : Z) : result D :=
  match as_look v (u32 a) with Some (p, _) => Ok (mmio_write d p x) | None => Fail PageFault end.

(** ** Operations *)

Definition acpi_map_tab (v : V) (tab64 : Z) : result (Z * V) :=
  '(tab, v) ← as_map v tab64 (sizeof_table_union L) 0;
  sz ← vread32 v (tab + header_length L);
  if sz >? sizeof_table_union L then
    v ← as_unmap v tab (sizeof_table_union L);
    as_map v tab64 sz 0
  else Ok (tab, v).

Definition acpi_unmap_tab (v : V) (tab : Z) : result V :=
  sz ← vread32 v (tab + header_length L);
  as_unmap v tab (if sz <? sizeof_table_union L then sizeof_table_union L else sz).

(** The loop over [io_intr], [n] iterations to go. *)
Fixpoint mask_loop (v : V) (d : D) (ioapic io_intr : Z) (n : nat) : result D :=
  match n with
  | O => Ok d
  | S n =>
      d ← vdev_write v d (ioapic + IOREGSEL) (IOREDTBLLO io_intr);
      w ← vdev_read v d (ioapic + IOREGWIN);
      d ← vdev_write v d (ioapic + IOREGWIN) (Z.lor w IOAPIC_RTLO_MASKED);
      mask_loop v d ioapic (io_intr + 1) n
  end.

(** One I/O APIC, mapped for the time its inputs are masked. *)
Definition mask_ioapic (v : V) (d : D) (ioapic_phy : Z) : result (V * D) :=
  '(ioapic, v) ← as_map v ioapic_phy sizeof_ioapic_t PTE_CD;
  d ← mask_loop v d ioapic 0 24;
  v ← as_unmap v ioapic sizeof_ioapic_t;
  Ok (v, d).

(** [while (ic != madt_end)] *)
Fixpoint madt_loop (fuel : nat) (v : V) (d : D) (ic madt_end : Z) : result (V * D) :=
  match fuel with
  | O => Fail Diverges
  | S fuel =>
      if ic =? madt_end then Ok (v, d)
      else
        ty ← vread8 v (ic + ic_type);
        '(v, d) ← (if ty =? MADT_IC_IOAPIC then
            ioapic_phy ← vread32 v (ic + ioapic_phy_addr);
            mask_ioapic v d ioapic_phy
          else Ok (v, d));
        len ← vread8 v (ic + ic_length);
        madt_loop fuel v d (u32 (ic + len)) madt_end
  end.

Definition acpi_process_madt (fuel : nat) (v : V) (d : D) (madt : Z) : result (V * D) :=
  len ← vread32 v (madt + header_length L);
  madt_loop fuel v d (u32 (madt + madt_ics L)) (u32 (madt + len)).

(** The body of the loop over the tables. *)
Definition xsdt_step (fuel : nat) (v : V) (d : D) (tab64 : Z) : result (V * D) :=
  '(tab, v) ← acpi_map_tab v tab64;
  sig ← vbytes v tab 4;
  c ← memcmp sig madt_sig 4;
  '(v, d) ← (if c =? 0 then acpi_process_madt fuel v d tab else Ok (v, d));
  v ← acpi_unmap_tab v tab;
  Ok (v, d).

(** The loop over the tables from number [i] on, [n] of them. *)
Fixpoint xsdt_loop (fuel : nat) (v : V) (d : D) (xsdt i : Z) (n : nat) : result (V * D) :=
  match n with
  | O => Ok (v, d)
  | S n =>
      tab64 ← vread64 v (xsdt + sizeof_header L + 8 * i);
      '(v, d) ← xsdt_step fuel v d tab64;
      xsdt_loop fuel v d xsdt (i + 1) n
  end.

Definition acpi_process_xsdt (fuel : nat) (v : V) (d : D) (xsdt : Z) : result (V * D) :=
  xsdt_sz ← vread32 v (xsdt + header_length L);
  xsdt_loop fuel v d xsdt 0 (Z.to_nat (u32 (xsdt_sz - sizeof_header L) / 8)).

Definition acpi_process_rsdp (fuel : nat) (v : V) (d : D) (rsdp : Z) : result (V * D) :=
  sig ← vbytes v rsdp 8;
  c ← memcmp sig expect_rsdp_sig 8;
  if negb (c =? 0) then Fail Hlt
  else
    a ← vread64 v (rsdp + xsdp_xsdt L);
    '(xsdt, v) ← acpi_map_tab v a;
    '(v, d) ← acpi_process_xsdt fuel v d xsdt;
    v ← acpi_unmap_tab v xsdt;
    Ok (v, d).

(** [while (bp->type != BP_RSDP) bp = bp->next;] *)
Fixpoint find_rsdp (fuel : nat) (heap : gmap Z bparm_t) (bp : Z) : result bparm_t :=
  match fuel with
  | O => Fail Diverges
  | S fuel =>
      n ← checked (heap !! bp);
      if type n =? BP_RSDP then Ok n else find_rsdp fuel heap (next n)
  end.

Definition rsdp_data (n : bparm_t) : result bdat_rsdp_t :=
  match u n with BdatRsdp d => Ok d | _ => Fail OutOfBounds end.

(** The port writes that bring up the 8259s and the timer. *)
Definition pic_pit_init : list port_ev :=
  outp_w PIC1_CMD (Z.lor ICW1_INIT ICW1_IC4) ++ outp_w PIC2_CMD (Z.lor ICW1_INIT ICW1_IC4) ++
  outp_w PIC1_DATA IRQ0 ++ outp_w PIC2_DATA IRQ8 ++
  outp_w PIC1_DATA (Z.shiftl 1 2) ++ outp_w PIC2_DATA (Z.shiftl 1 1) ++
  outp_w PIC1_DATA ICW4_X86 ++ outp_w PIC2_DATA ICW4_X86 ++
  outp_w PIC1_DATA (Z.lnot (Z.lor (Z.shiftl 1 0) (Z.shiftl 1 1))) ++ outp_w PIC2_DATA (Z.lnot 0) ++
  outp_w PIC1_CMD OCW2_EOI ++ outp_w PIC2_CMD OCW2_EOI ++
  outp_w PIT_CMD (Z.lor (Z.lor PITC_SEL0 PITC_LOHI) PITC_MODE3) ++
  outp_w PIT_DATA0 0x00 ++ outp_w PIT_DATA0 0x00.

(** The address space, the I/O APICs and the port writes at the end; [fuel] bounds the list of boot
    parameters and each MADT. *)
Definition irq_init (fuel : nat) (heap : gmap Z bparm_t) (bparms : Z) (v : V) (d : D)
    : result (V * D * list port_ev) :=
  bp ← find_rsdp fuel heap bparms;
  bd_rsdp ← rsdp_data bp;
  let sz := rsdp_sz bd_rsdp in
  '(rsdp, v) ← as_map v (rsdp_phy_addr bd_rsdp) sz 0;
  '(v, d) ← acpi_process_rsdp fuel v d rsdp;
  v ← as_unmap v rsdp sz;
  Ok (v, d, pic_pit_init).
End irq.

(** ** Reading mapped memory *)

Record layout_ok (L : acpi_layout) : Prop := {
  lo_length : 0 <= header_length L /\ header_length L + 4 <= sizeof_header L;
  lo_header : 4 <= sizeof_header L /\ sizeof_header L + 8 <= sizeof_table_union L;
  lo_union : sizeof_table_union L < 2 ^ 32;
  lo_xsdt : 0 <= xsdp_xsdt L <= sizeof_header L;
  lo_offsets : 0 <= xsdp_revision L /\ 0 <= xsdp_length L /\ 0 <= fadt_iapc_boot_flags L;
}.

Section reading.
Context {V : Type} `{HV : AddrSpace V} `{HVL : !AddrSpaceLaws V}.
Context (L : acpi_layout) (HL : layout_ok L) (pm : phys) (Hpm : forall x, 0 <= pm x < 256).
Context (base : Z -> option (Z * Z)).

(** The physical address behind [x] in the block [m]. *)
Definition behind (m : mapping) (x : Z) : Z := m_pa m + (x - m_va m).
Definition within (m : mapping) (x n : Z) : Prop := m_va m <= x /\ x + n <= m_va m + m_sz m.

Lemma look_live ms v m x :
  as_live base ms v -> m ∈ ms -> within m x 1 -> as_look v (u32 x) = Some (behind m x, 6 + m_flags m).
Proof.
  intros Hl Hm [H1 H2]. destruct (as_va_range _ _ _ _ Hl Hm). rewrite wrap_small by lia.
  replace x with (m_va m + (x - m_va m)) at 1 by lia. by rewrite (as_look_live _ _ _ _ _ Hl Hm) by lia.
Qed.

Lemma vread8_live ms v m x : as_live base ms v -> m ∈ ms -> within m x 1 -> vread8 pm v x = Ok (pm (behind m x)).
Proof. intros Hl Hm Hx. unfold vread8. by rewrite (look_live ms v m x Hl Hm Hx). Qed.

Lemma vread16_live ms v m x : as_live base ms v -> m ∈ ms -> within m x 2 -> vread16 pm v x = Ok (m16 pm (behind m x)).
Proof.
  intros Hl Hm [H1 H2]. unfold vread16.
  rewrite (vread8_live ms v m x Hl Hm), (vread8_live ms v m (x + 1) Hl Hm) by (split; lia).
  cbn [mbind result_bind]. unfold m16, behind. do 4 f_equal. lia.
Qed.

Lemma vread32_live ms v m x : as_live base ms v -> m ∈ ms -> within m x 4 -> vread32 pm v x = Ok (m32 pm (behind m x)).
Proof.
  intros Hl Hm [H1 H2]. unfold vread32.
  rewrite (vread16_live ms v m x Hl Hm), (vread16_live ms v m (x + 2) Hl Hm) by (split; lia).
  cbn [mbind result_bind]. unfold m32. do 4 f_equal. unfold behind. lia.
Qed.

Lemma vread64_live ms v m x : as_live base ms v -> m ∈ ms -> within m x 8 -> vread64 pm v x = Ok (m64 pm (behind m x)).
Proof.
  intros Hl Hm [H1 H2]. unfold vread64.
  rewrite (vread32_live ms v m x Hl Hm), (vread32_live ms v m (x + 4) Hl Hm) by (split; lia).
  cbn [mbind result_bind]. unfold m64. do 4 f_equal. unfold behind. lia.
Qed.

Lemma vbytes_live ms v m n : forall x,
  as_live base ms v -> m ∈ ms -> within m x (Z.of_nat n) ->
  vbytes pm v x n = Ok (region pm (behind m x) (Z.of_nat n)).
Proof.
  unfold region. rewrite Nat2Z.id. induction n as [|n IH]; intros x Hl Hm [H1 H2]; cbn [vbytes]; [done|].
  rewrite (vread8_live ms v m x Hl Hm) by (split; lia). rewrite (IH (x + 1) Hl Hm) by (split; lia).
  cbn [mbind result_bind]. rewrite <- cons_seq, fmap_cons, <- fmap_S_seq, <- list_fmap_compose. do 2 f_equal.
  - f_equal. lia.
  - apply list_fmap_ext. intros i k _. cbn. f_equal. unfold behind. lia.
Qed.

(** ** Tables *)

Definition tab_len (t : Z) : Z := m32 pm (t + header_length L).
Definition tab_size (t : Z) : Z := Z.max (tab_len t) (sizeof_table_union L).
Definition table_ok (t : Z) : Prop := 0 <= t /\ t + tab_size t + 4096 <= 2 ^ 52.
Definition tab_map (tab t : Z) : mapping := {| m_va := tab; m_pa := t; m_sz := tab_size t; m_flags := 0 |}.

(** A table, once mapped, is read as it is in memory. *)
Lemma tab_len_live ms v m t :
  as_live base ms v -> m ∈ ms -> m_pa m = t -> sizeof_table_union L <= m_sz m ->
  vread32 pm v (m_va m + header_length L) = Ok (tab_len t).
Proof.
  intros Hl Hm <- Hsz. destruct HL as [[H1 H2] [H3 H4] _ _].
  rewrite (vread32_live ms v m _ Hl Hm) by (split; lia). unfold tab_len, behind. do 2 f_equal. lia.
Qed.

Lemma acpi_map_tab_post ms v t :
  as_live base ms v -> table_ok t ->
  post (acpi_map_tab L pm v t) (fun '(tab, v') => as_live base (tab_map tab t :: ms) v') exhausted.
Proof.
  intros Hl [Ht0 Ht]. unfold acpi_map_tab. destruct HL as [_ [H3 H4] H5 _].
  assert (Hf : flags_ok 0) by by left. unfold tab_size in Ht. pose proof (m32_range pm Hpm (t + header_length L)) as Hlen.
  fold (tab_len t) in Hlen.
  apply (post_bind _ _ (fun '(tab, v') =>
    as_live base ({| m_va := tab; m_pa := t; m_sz := sizeof_table_union L; m_flags := 0 |} :: ms) v')).
  { apply (as_map_live base ms); [done|split_and!; (done || lia)]. }
  intros [tab v1] Hl1.
  set (m := {| m_va := tab; m_pa := t; m_sz := sizeof_table_union L; m_flags := 0 |}) in *.
  change (tab + header_length L) with (m_va m + header_length L).
  rewrite (tab_len_live _ v1 m t Hl1) by (done || by left). cbn [mbind result_bind].
  unfold tab_map, tab_size. rewrite Z.gtb_ltb. destruct (Z.ltb_spec (sizeof_table_union L) (tab_len t)).
  - apply (post_bind _ _ (as_live base ms)); [exact (as_unmap_live base [] _ ms v1 Hl1)|]. intros v2 Hl2.
    rewrite Z.max_l by lia. apply (as_map_live base ms); [done|split_and!; (done || lia)].
  - cbn [post]. by rewrite Z.max_r by lia.
Qed.

Lemma acpi_unmap_tab_post ms v tab t :
  as_live base (tab_map tab t :: ms) v -> post (acpi_unmap_tab L pm v tab) (as_live base ms) exhausted.
Proof.
  intros Hl. unfold acpi_unmap_tab. change (tab + header_length L) with (m_va (tab_map tab t) + header_length L).
  rewrite (tab_len_live _ v (tab_map tab t) t Hl) by (done || (by left) || (cbn; unfold tab_size; lia)).
  cbn [mbind result_bind]. pose proof (as_unmap_live base [] (tab_map tab t) ms v Hl) as H.
  replace (if tab_len t <? sizeof_table_union L then sizeof_table_union L else tab_len t) with (tab_size t); [exact H|].
  unfold tab_size. destruct (Z.ltb_spec (tab_len t) (sizeof_table_union L)); lia.
Qed.
End reading.

(** ** What an MADT lists *)

Section lists.
Context (L : acpi_layout) (pm : phys).

(** The I/O APIC addresses of the structures from [a] to [e], if they fit together. *)
Fixpoint parse_ics (n : nat) (a e : Z) : option (list Z) :=
  if a =? e then Some []
  else
    match n with
    | O => None
    | S n =>
        let len := pm (a + ic_length) in
        if (len <? 2) || (e <? a + len) then None
        else if pm (a + ic_type) =? MADT_IC_IOAPIC then
          if len <? 8 then None else cons (m32 pm (a + ioapic_phy_addr)) <$> parse_ics n (a + len) e
        else parse_ics n (a + len) e
    end.

Definition madt_apics (t : Z) : option (list Z) :=
  parse_ics (Z.to_nat (tab_len L pm t)) (t + madt_ics L) (t + tab_len L pm t).

(** The I/O APICs that the table at [t] names, and those of [n] entries of the XSDT. *)
Definition apics_at (t : Z) : list Z :=
  if bool_decide (region pm t 4 = madt_sig) then default [] (madt_apics t) else [].

Definition xsdt_entry (xsdt i : Z) : Z := m64 pm (xsdt + sizeof_header L + 8 * i).

Fixpoint xsdt_apics (xsdt i : Z) (n : nat) : list Z :=
  match n with O => [] | S n => apics_at (xsdt_entry xsdt i) ++ xsdt_apics xsdt (i + 1) n end.

(** A table that can be mapped, and that is well formed if it is an MADT. *)
Definition tab_wf (fuel : nat) (t : Z) : Prop :=
  table_ok L pm t /\
  (region pm t 4 = madt_sig -> is_Some (madt_apics t) /\ (Z.to_nat (tab_len L pm t) < fuel)%nat).

Lemma parse_ics_le n : forall a e l, parse_ics n a e = Some l -> a <= e.
Proof.
  induction n as [|n IH]; intros a e l; cbn [parse_ics]; (destruct (Z.eqb_spec a e) as [->|]; [lia|]); [done|].
  destruct (Z.ltb_spec (pm (a + ic_length)) 2), (Z.ltb_spec e (a + pm (a + ic_length))); cbn [orb]; try done. lia.
Qed.
End lists.

(** ** Masking *)

Section masking.
Context {V : Type} `{HV : AddrSpace V} `{HVL : !AddrSpaceLaws V}.
Context {D : Type} `{HD : IoApics D} `{HDL : !IoApicLaws D}.
Context (base : Z -> option (Z * Z)).

(** From [d] to [d'] the inputs of the I/O APICs in [l] have been masked, and nothing else has changed. *)
Definition masked (l : list Z) (d d' : D) : Prop :=
  forall q j, io_base q -> 0 <= j < 24 ->
    redir d' q j = if bool_decide (q ∈ l) then Z.lor (redir d q j) IOAPIC_RTLO_MASKED else redir d q j.

Lemma masked_nil d : masked [] d d.
Proof. intros q j _ _. by rewrite bool_decide_eq_false_2 by apply not_elem_of_nil. Qed.

Lemma masked_app l1 l2 d d1 d2 : masked l1 d d1 -> masked l2 d1 d2 -> masked (l1 ++ l2) d d2.
Proof.
  intros H1 H2 q j Hq Hj. rewrite (H2 q j Hq Hj), (H1 q j Hq Hj).
  destruct (bool_decide_reflect (q ∈ l1)), (bool_decide_reflect (q ∈ l2)), (bool_decide_reflect (q ∈ l1 ++ l2)) as [Ha|Ha];
    rewrite elem_of_app in Ha; try tauto.
  by rewrite <- Z.lor_assoc, Z.lor_diag.
Qed.

(** A write of an entry with the mask bit set and the other bits as they were. *)
Lemma write_masked d p i :
  io_base p -> 0 <= i < 24 -> regsel d p = IOREDTBLLO i ->
  redir (mmio_write d (p + IOREGWIN) (Z.lor (redir d p i) IOAPIC_RTLO_MASKED)) p i =
    Z.lor (redir d p i) IOAPIC_RTLO_MASKED.
Proof.
  intros Hp Hi Hs. apply Z.bits_inj_iff'. intros b Hb.
  destruct (io_write_bit d p i (Z.lor (redir d p i) IOAPIC_RTLO_MASKED) b Hp Hi Hs Hb) as [E|[Hne E]]; rewrite E; [done|].
  rewrite Z.lor_spec. change IOAPIC_RTLO_MASKED with (2 ^ 16).
  rewrite (Z.pow2_bits_false 16 b) by lia. by rewrite orb_false_r.
Qed.

Lemma mask_loop_spec ms v m p n : forall d i,
  as_live base ms v -> m ∈ ms -> m_pa m = p -> m_sz m = sizeof_ioapic_t -> io_base p ->
  0 <= i -> i + Z.of_nat n = 24 ->
  exists d', mask_loop v d (m_va m) i n = Ok d' /\
    forall q j, io_base q -> 0 <= j < 24 ->
      redir d' q j = if bool_decide (q = p /\ i <= j) then Z.lor (redir d q j) IOAPIC_RTLO_MASKED else redir d q j.
Proof.
  intros d i Hl Hm Ep Esz Hp. revert d i. induction n as [|n IH]; intros d i Hi Hn; cbn [mask_loop].
  { exists d. split; [done|]. intros q j _ Hj. rewrite bool_decide_eq_false_2; [done|]. intros [_ ?]. lia. }
  assert (Hlook : forall o, o = IOREGSEL \/ o = IOREGWIN -> as_look v (u32 (m_va m + o)) = Some (p + o, 6 + m_flags m)).
  { intros o Ho. rewrite (look_live base ms v m _ Hl Hm).
    - unfold behind. do 2 f_equal. lia.
    - unfold within, sizeof_ioapic_t, IOREGSEL, IOREGWIN in *. lia. }
  unfold vdev_write, vdev_read. rewrite !Hlook by auto. cbn [mbind result_bind].
  set (d1 := mmio_write d (p + IOREGSEL) (IOREDTBLLO i)).
  assert (Hs : regsel d1 p = IOREDTBLLO i) by by apply io_select.
  assert (E1 : forall q j, io_base q -> redir d1 q j = redir d q j) by (intros; by apply io_select_redir).
  rewrite (io_window d1 p i Hp ltac:(lia) Hs).
  set (d2 := mmio_write d1 (p + IOREGWIN) _).
  destruct (IH d2 (i + 1) ltac:(lia) ltac:(lia)) as (d' & -> & Hd'). exists d'. split; [done|].
  intros q j Hq Hj. rewrite (Hd' q j Hq Hj).
  destruct (decide (q = p /\ j = i)) as [[-> ->]|Hne].
  - rewrite bool_decide_eq_false_2 by (intros [_ ?]; lia). rewrite bool_decide_eq_true_2 by (split; [done|lia]).
    unfold d2. rewrite write_masked by (done || lia). by rewrite E1.
  - unfold d2. rewrite (io_write_other d1 p i _ q j Hp Hq ltac:(lia) Hs)
      by (destruct (decide (q = p)); [right; intros ->; tauto|left; congruence]).
    rewrite E1 by done. rewrite (bool_decide_ext (q = p /\ i + 1 <= j) (q = p /\ i <= j)); [done|]. split; intros [-> ?]; (split; [done|lia]).
Qed.

(** One I/O APIC, mapped for the time it is masked. *)
Lemma mask_ioapic_post ms v d p :
  as_live base ms v -> 0 <= p < 2 ^ 32 -> io_base p ->
  post (mask_ioapic v d p) (fun '(v', d') => as_live base ms v' /\ masked [p] d d') exhausted.
Proof.
  intros Hl Hr Hp. unfold mask_ioapic. eapply post_bind.
  { apply (as_map_live base ms); [done|]. unfold map_args, sizeof_ioapic_t, flags_ok, PTE_CD. split_and!; [lia|lia|lia|auto]. }
  intros [ioapic v1] Hl1. set (m := {| m_va := ioapic; m_pa := p; m_sz := sizeof_ioapic_t; m_flags := PTE_CD |}) in *.
  destruct (mask_loop_spec (m :: ms) v1 m p 24 d 0 Hl1 ltac:(by left) eq_refl eq_refl Hp ltac:(lia) ltac:(lia))
    as (d' & E & Hd'). change ioapic with (m_va m). rewrite E. cbn [mbind result_bind].
  eapply post_bind; [exact (as_unmap_live base [] m ms v1 Hl1)|]. intros v2 Hl2. cbn [post]. split; [exact Hl2|].
  intros q j Hq Hj. rewrite (Hd' q j Hq Hj). rewrite (bool_decide_ext (q = p /\ 0 <= j) (q ∈ [p])); [done|].
  rewrite list_elem_of_singleton. split; [tauto|]. intros ->. split; [done|lia].
Qed.
End masking.

(** ** The walk over the tables *)

Section walk.
Context {V : Type} `{HV : AddrSpace V} `{HVL : !AddrSpaceLaws V}.
Context {D : Type} `{HD : IoApics D} `{HDL : !IoApicLaws D}.
Context (L : acpi_layout) (HL : layout_ok L) (pm : phys) (Hpm : forall x, 0 <= pm x < 256).
Context (base : Z -> option (Z * Z)).

(** What each step of the walk ends in. *)
Definition walked (ms : list mapping) (l : list Z) (d : D) (r : V * D) : Prop :=
  as_live base ms r.1 /\ masked l d r.2.

Lemma wrap32_inj x y : 0 < x <= 2 ^ 32 -> 0 < y <= 2 ^ 32 -> u32 x = u32 y -> x = y.
Proof.
  intros Hx Hy E. unfold wrap in E. rewrite !(Z.mod_eq _ (2 ^ 32)) in E by lia.
  assert (x / 2 ^ 32 = 0 \/ x = 2 ^ 32) by (destruct (decide (x = 2 ^ 32)); [auto|left; apply Z.div_small; lia]).
  assert (y / 2 ^ 32 = 0 \/ y = 2 ^ 32) by (destruct (decide (y = 2 ^ 32)); [auto|left; apply Z.div_small; lia]).
  destruct H as [H| ->], H0 as [H0| ->]; rewrite ?H, ?H0, ?Z.div_same in E; lia.
Qed.

(** The structures of an MADT that is mapped by [m], from the physical address [a] to [e]. *)
Lemma madt_loop_post ms m n : forall fuel v d a e l,
  parse_ics pm n a e = Some l -> (n < fuel)%nat -> as_live base ms v -> m ∈ ms ->
  m_pa m < a -> e <= m_pa m + m_sz m -> Forall io_base l ->
  post (madt_loop pm fuel v d (u32 (m_va m + (a - m_pa m))) (u32 (m_va m + (e - m_pa m)))) (walked ms l d) exhausted.
Proof.
  induction n as [|n IH]; intros fuel v d a e l Hp Hf Hl Hm Ha He Hio; pose proof (parse_ics_le _ _ _ _ _ Hp) as Hae;
    cbn [parse_ics] in Hp; (destruct fuel as [|fuel]; [lia|]); cbn [madt_loop];
    (destruct (Z.eqb_spec a e) as [->|Hne];
      [injection Hp as <-; rewrite Z.eqb_refl; split; [done|apply masked_nil]|]); [done|].
  destruct (as_va_range _ _ _ _ Hl Hm) as [Hva Hend].
  destruct (Z.eqb_spec (u32 (m_va m + (a - m_pa m))) (u32 (m_va m + (e - m_pa m)))) as [E|_].
  { apply wrap32_inj in E; lia. }
  set (len := pm (a + ic_length)) in *.
  destruct (Z.ltb_spec len 2) as [|Hl2], (Z.ltb_spec e (a + len)) as [|Hle]; cbn [orb] in Hp; try done.
  rewrite (wrap_small 32 (m_va m + (a - m_pa m))) by lia. set (ic := m_va m + (a - m_pa m)) in *.
  unfold ic_type in *. rewrite (vread8_live pm base ms v m _ Hl Hm) by (split; lia). cbn [mbind result_bind].
  assert (Eb : forall o, behind m (ic + o) = a + o) by (intros; unfold behind, ic; lia). rewrite Eb.
  set (l0 := if pm (a + 0) =? MADT_IC_IOAPIC then [m32 pm (a + ioapic_phy_addr)] else []).
  assert (Hsplit : exists l', l = l0 ++ l' /\ parse_ics pm n (a + len) e = Some l' /\
    (pm (a + 0) = MADT_IC_IOAPIC -> 8 <= len)).
  { unfold l0. destruct (Z.eqb_spec (pm (a + 0)) MADT_IC_IOAPIC); [|by exists l].
    destruct (Z.ltb_spec len 8); [done|]. apply fmap_Some in Hp as (l' & Hp & ->). by exists l'. }
  destruct Hsplit as (l' & -> & Hp' & H8). apply Forall_app in Hio as [Hio0 Hio'].
  apply (post_bind _ _ (walked ms l0 d)).
  { unfold l0 in *. destruct (Z.eqb_spec (pm (a + 0)) MADT_IC_IOAPIC) as [Et|]; [|split; [done|apply masked_nil]].
    specialize (H8 Et). unfold ioapic_phy_addr in *.
    rewrite (vread32_live pm base ms v m _ Hl Hm) by (split; lia). rewrite Eb. cbn [mbind result_bind].
    eapply post_mono; [apply mask_ioapic_post; [done|by apply m32_range|by inversion Hio0]|intros [v1 d1] Hw; exact Hw|done]. }
  intros [v1 d1] [Hl1 Hd1]. cbn [fst snd] in *. unfold ic_length in *.
  rewrite (vread8_live pm base ms v1 m _ Hl1 Hm) by (split; lia). rewrite Eb. cbn [mbind result_bind]. fold len.
  replace (ic + len) with (m_va m + (a + len - m_pa m)) by (unfold ic; lia).
  eapply post_mono; [apply (IH fuel v1 d1 (a + len) e l'); (done || lia)| |done].
  intros [v2 d2] [Hlv Hd2]. split; [done|]. by eapply masked_app.
Qed.

Lemma acpi_process_madt_post ms v d tab t fuel l :
  as_live base ms v -> tab_map L pm tab t ∈ ms -> madt_apics L pm t = Some l ->
  (Z.to_nat (tab_len L pm t) < fuel)%nat -> Forall io_base l ->
  post (acpi_process_madt L pm fuel v d tab) (walked ms l d) exhausted.
Proof.
  intros Hl Hm Hp Hf Hio. set (m := tab_map L pm tab t) in *. unfold acpi_process_madt.
  change (tab + header_length L) with (m_va m + header_length L).
  rewrite (tab_len_live L HL pm base ms v m t Hl Hm eq_refl) by (cbn; unfold tab_size; lia). cbn [mbind result_bind].
  pose proof (madt_loop_post ms m _ fuel v d _ _ l Hp Hf Hl Hm) as H. change (m_pa m) with t in H. change (m_va m) with tab in H.
  replace (t + madt_ics L - t) with (madt_ics L) in H by lia.
  replace (t + tab_len L pm t - t) with (tab_len L pm t) in H by lia.
  apply H; [destruct HL as [_ [? _] _ _]; unfold madt_ics; lia|cbn; unfold tab_size; lia|done].
Qed.

(** One table of the XSDT: mapped, looked at, unmapped. *)
Lemma xsdt_step_post ms v d t fuel :
  as_live base ms v -> tab_wf L pm fuel t -> Forall io_base (apics_at L pm t) ->
  post (xsdt_step L pm fuel v d t) (walked ms (apics_at L pm t) d) exhausted.
Proof.
  intros Hl [Ht Hmadt] Hio. unfold xsdt_step. eapply post_bind; [by apply (acpi_map_tab_post L HL pm Hpm base ms)|].
  intros [tab v1] Hl1. set (m := tab_map L pm tab t) in *. assert (Hm : m ∈ m :: ms) by by left.
  destruct HL as [_ [H4 H5] _ _]. change tab with (m_va m).
  rewrite (vbytes_live pm base (m :: ms) v1 m 4 (m_va m) Hl1 Hm) by (split; [lia|cbn; unfold tab_size; lia]).
  cbn [mbind result_bind]. unfold behind. replace (m_pa m + (m_va m - m_va m)) with t by (cbn; lia).
  destruct (region_sig pm t madt_sig) as (c & Ec & Hc). change (zlen madt_sig) with (Z.of_nat 4) in *.
  change (length madt_sig) with 4%nat in *. rewrite Ec. cbn [mbind result_bind]. rewrite Hc.
  change (Z.of_nat 4) with 4 in *. change (m_va m) with tab.
  apply (post_bind _ _ (walked (m :: ms) (apics_at L pm t) d)).
  - unfold apics_at in *. destruct (bool_decide_reflect (region pm t 4 = madt_sig)) as [Hs|Hs]; [|split; [done|apply masked_nil]].
    destruct (Hmadt Hs) as [[l El] Hf]. rewrite El in *. cbn [default] in *.
    by apply (acpi_process_madt_post (m :: ms) v1 d tab t fuel l).
  - intros [v2 d2] [Hl2 Hd2]. eapply post_bind; [apply (acpi_unmap_tab_post L HL pm base ms v2 tab t); exact Hl2|].
    intros v3 Hl3. split; [exact Hl3|exact Hd2].
Qed.

Lemma xsdt_loop_post ms m fuel n : forall i v d,
  as_live base ms v -> m ∈ ms -> 0 <= i ->
  sizeof_header L + 8 * (i + Z.of_nat n) <= m_sz m ->
  (forall j, i <= j < i + Z.of_nat n -> tab_wf L pm fuel (xsdt_entry L pm (m_pa m) j)) ->
  Forall io_base (xsdt_apics L pm (m_pa m) i n) ->
  post (xsdt_loop L pm fuel v d (m_va m) i n) (walked ms (xsdt_apics L pm (m_pa m) i n) d) exhausted.
Proof.
  induction n as [|n IH]; intros i v d Hl Hm Hi Hsz Hwf Hio; cbn [xsdt_loop xsdt_apics] in *; [split; [done|apply masked_nil]|].
  apply Forall_app in Hio as [Hio0 Hio]. destruct HL as [_ [H4 _] _ _].
  rewrite (vread64_live pm base ms v m _ Hl Hm) by (split; lia). cbn [mbind result_bind].
  replace (m64 pm (behind m (m_va m + sizeof_header L + 8 * i))) with (xsdt_entry L pm (m_pa m) i)
    by (unfold xsdt_entry, behind; f_equal; lia).
  eapply post_bind; [apply (xsdt_step_post ms); [done|apply Hwf; lia|done]|]. intros [v1 d1] [Hl1 Hd1].
  eapply post_mono; [apply IH; [done|done|lia|lia|intros j Hj; apply Hwf; lia|done]| |done].
  intros [v2 d2] [Hl2 Hd2]. split; [done|]. by eapply masked_app.
Qed.

Definition xsdt_count (xsdt : Z) : nat := Z.to_nat ((tab_len L pm xsdt - sizeof_header L) / 8).

Lemma acpi_process_xsdt_post ms v d tab t fuel :
  as_live base ms v -> tab_map L pm tab t ∈ ms -> sizeof_header L <= tab_len L pm t ->
  (forall j, 0 <= j < Z.of_nat (xsdt_count t) -> tab_wf L pm fuel (xsdt_entry L pm t j)) ->
  Forall io_base (xsdt_apics L pm t 0 (xsdt_count t)) ->
  post (acpi_process_xsdt L pm fuel v d tab) (walked ms (xsdt_apics L pm t 0 (xsdt_count t)) d) exhausted.
Proof.
  intros Hl Hm Hlen Hwf Hio. set (m := tab_map L pm tab t) in *. unfold acpi_process_xsdt.
  change (tab + header_length L) with (m_va m + header_length L).
  rewrite (tab_len_live L HL pm base ms v m t Hl Hm eq_refl) by (cbn; unfold tab_size; lia). cbn [mbind result_bind].
  pose proof (m32_range pm Hpm (t + header_length L)) as Hr. fold (tab_len L pm t) in Hr.
  destruct HL as [_ [H4 _] _ _]. rewrite wrap_small by lia. fold (xsdt_count t). change tab with (m_va m).
  pose proof (Z.div_mod (tab_len L pm t - sizeof_header L) 8 ltac:(lia)).
  pose proof (Z.mod_pos_bound (tab_len L pm t - sizeof_header L) 8 ltac:(lia)).
  apply (xsdt_loop_post ms m fuel (xsdt_count t) 0 v d); try done.
  cbn [m_sz m tab_map]. unfold tab_size, xsdt_count. rewrite Z2Nat.id by (apply Z.div_pos; lia). lia.
Qed.

(** The RSDP at [r], as stage 1 accepts it, and tables that stage 2 can map. *)
Record irq_tables (fuel : nat) (r sz : Z) : Prop := {
  it_good : acpi_good L pm r (m64 pm (r + xsdp_xsdt L)) sz;
  it_rsdp : map_args r sz 0;
  it_xsdt : table_ok L pm (m64 pm (r + xsdp_xsdt L));
  it_tabs : forall j, 0 <= j < Z.of_nat (xsdt_count (m64 pm (r + xsdp_xsdt L))) ->
    tab_wf L pm fuel (xsdt_entry L pm (m64 pm (r + xsdp_xsdt L)) j);
}.

(** The I/O APICs that the tables name. *)
Definition listed_apics (r : Z) : list Z :=
  let xsdt := m64 pm (r + xsdp_xsdt L) in xsdt_apics L pm xsdt 0 (xsdt_count xsdt).

Lemma acpi_process_rsdp_post ms v d m fuel sz :
  as_live base ms v -> m ∈ ms -> m_sz m = sz -> irq_tables fuel (m_pa m) sz ->
  Forall io_base (listed_apics (m_pa m)) ->
  post (acpi_process_rsdp L pm fuel v d (m_va m)) (walked ms (listed_apics (m_pa m)) d) exhausted.
Proof.
  intros Hl Hm Esz [Hgood _ Hx Hwf] Hio. unfold acpi_process_rsdp. set (r := m_pa m) in *.
  pose proof (good_xsdt_size _ _ _ _ _ Hgood) as [Hsz Hsz8]. pose proof HL as [_ [H4 _] _ Hxo].
  rewrite (vbytes_live pm base ms v m 8 (m_va m) Hl Hm) by (split; lia). cbn [mbind result_bind].
  unfold behind. replace (m_pa m + (m_va m - m_va m)) with r by (unfold r; lia).
  destruct (region_sig pm r expect_rsdp_sig) as (c & Ec & Hc). change (zlen expect_rsdp_sig) with (Z.of_nat 8) in *.
  change (length expect_rsdp_sig) with 8%nat in *. rewrite Ec. cbn [mbind result_bind]. rewrite Hc.
  rewrite bool_decide_eq_true_2 by apply Hgood. cbn [negb].
  rewrite (vread64_live pm base ms v m _ Hl Hm) by (split; lia). cbn [mbind result_bind].
  replace (behind m (m_va m + xsdp_xsdt L)) with (r + xsdp_xsdt L) by (unfold behind, r; lia).
  unfold listed_apics in *. set (x := m64 pm (r + xsdp_xsdt L)) in *.
  eapply post_bind; [by apply (acpi_map_tab_post L HL pm Hpm base ms)|]. intros [tab v1] Hl1.
  eapply post_bind.
  { apply (acpi_process_xsdt_post (tab_map L pm tab x :: ms) v1 d tab x fuel Hl1); [by left| |done|done].
    unfold tab_len. lia. }
  intros [v2 d2] [Hl2 Hd2]. cbn [fst snd] in *.
  eapply post_bind; [apply (acpi_unmap_tab_post L HL pm base ms v2 tab x); exact Hl2|].
  intros v3 Hl3. split; [exact Hl3|exact Hd2].
Qed.
End walk.

(** ** The boot parameter *)

Lemma find_rsdp_first heap l1 : forall fuel p w l2 q,
  lseg heap p (l1 ++ w :: l2) q -> Forall (fun x => v_type x <> BP_RSDP) l1 -> v_type w = BP_RSDP ->
  (length l1 < fuel)%nat ->
  exists n, find_rsdp fuel heap p = Ok n /\ u n = v_data w.
Proof.
  induction l1 as [|x l1 IH]; intros fuel p w l2 q Hs Hl1 Hw Hf; (destruct fuel as [|fuel]; [cbn in Hf; lia|]);
    destruct Hs as (-> & _ & nx & Hn & Hs); cbn [find_rsdp]; unfold node_at in Hn; rewrite Hn; cbn [checked mbind result_bind type].
  - destruct (Z.eqb_spec (v_type w) BP_RSDP); [|done]. by eexists.
  - inversion_clear Hl1 as [|? ? Hx Hl1']. destruct (Z.eqb_spec (v_type x) BP_RSDP); [done|]. cbn [next].
    apply (IH fuel nx w l2 q); [done|done|done|cbn in Hf; lia].
Qed.

(** ** The 8259s and the timer, by their data sheets *)

(** What the next write to the data port is taken for. *)
Inductive pic_wait := WaitOcw1 | WaitIcw2 (cascade icw4 : bool) | WaitIcw3 (icw4 : bool) | WaitIcw4.

Record pic := { pic_base : Z; pic_cascade : Z; pic_mode : Z; pic_mask : Z; pic_next : pic_wait }.

Definition pic_cmd (p : pic) (v : Z) : pic :=
  if Z.testbit v 4
  then {| pic_base := pic_base p; pic_cascade := pic_cascade p; pic_mode := 0; pic_mask := 0;
          pic_next := WaitIcw2 (negb (Z.testbit v 1)) (Z.testbit v 0) |}
  else p.

Definition after_icw3 (icw4 : bool) : pic_wait := if icw4 then WaitIcw4 else WaitOcw1.

Definition pic_data (p : pic) (v : Z) : pic :=
  match pic_next p with
  | WaitOcw1 => {| pic_base := pic_base p; pic_cascade := pic_cascade p; pic_mode := pic_mode p; pic_mask := v;
                   pic_next := WaitOcw1 |}
  | WaitIcw2 cascade icw4 =>
      {| pic_base := Z.land v 0xf8; pic_cascade := pic_cascade p; pic_mode := pic_mode p; pic_mask := pic_mask p;
         pic_next := if cascade then WaitIcw3 icw4 else after_icw3 icw4 |}
  | WaitIcw3 icw4 => {| pic_base := pic_base p; pic_cascade := v; pic_mode := pic_mode p; pic_mask := pic_mask p;
                        pic_next := after_icw3 icw4 |}
  | WaitIcw4 => {| pic_base := pic_base p; pic_cascade := pic_cascade p; pic_mode := v; pic_mask := pic_mask p;
                   pic_next := WaitOcw1 |}
  end.

(** Channel 0 of the timer: the access and mode bits, the low byte awaiting the high one, the count. *)
Record pit := { pit_ctl : Z; pit_lo : option Z; pit_count : Z }.

Definition pit_data0 (t : pit) (v : Z) : pit :=
  match pit_lo t with
  | None => {| pit_ctl := pit_ctl t; pit_lo := Some v; pit_count := pit_count t |}
  | Some lo => {| pit_ctl := pit_ctl t; pit_lo := None;
                  pit_count := if lo + 256 * v =? 0 then 0x10000 else lo + 256 * v |}
  end.

Definition port_step (s : pic * pic * pit) (e : port_ev) : pic * pic * pit :=
  let '(p1, p2, t) := s in
  match e with
  | IoWait => s
  | PortOut p v =>
      if p =? 0x20 then (pic_cmd p1 v, p2, t)
      else if p =? 0x21 then (pic_data p1 v, p2, t)
      else if p =? 0xa0 then (p1, pic_cmd p2 v, t)
      else if p =? 0xa1 then (p1, pic_data p2 v, t)
      else if p =? 0x43 then (p1, p2, {| pit_ctl := v; pit_lo := None; pit_count := pit_count t |})
      else if p =? 0x40 then (p1, p2, pit_data0 t v)
      else s
  end.

(** Interrupts 0 to 7 at vectors 8 to 15 and 8 to 15 at 0x70 to 0x77, the second controller on input 2
    of the first, only the timer and the keyboard let through, and the timer at 1193182 / 65536 Hz. *)
Definition legacy_ready (s : pic * pic * pit) : Prop :=
  s = ({| pic_base := 0x08; pic_cascade := 2 ^ 2; pic_mode := 1; pic_mask := 0xff - 2 ^ 0 - 2 ^ 1; pic_next := WaitOcw1 |},
       {| pic_base := 0x70; pic_cascade := 2; pic_mode := 1; pic_mask := 0xff; pic_next := WaitOcw1 |},
       {| pit_ctl := 0x36; pit_lo := None; pit_count := 0x10000 |}).

Lemma pic_pit_init_ready s : legacy_ready (fold_left port_step pic_pit_init s).
Proof. destruct s as [[p1 p2] t]. reflexivity. Qed.

(** ** Tables in memory that stays the same *)

(** All tables are at or above [B]. *)
Record tables_above (L : acpi_layout) (pm : phys) (B r : Z) : Prop := {
  ta_rsdp : B <= r;
  ta_xsdt : B <= m64 pm (r + xsdp_xsdt L);
  ta_tabs : forall j, 0 <= j < Z.of_nat (xsdt_count L pm (m64 pm (r + xsdp_xsdt L))) ->
    B <= xsdt_entry L pm (m64 pm (r + xsdp_xsdt L)) j;
}.

Section same.
Context (L : acpi_layout) (pm pm' : phys) (B : Z) (HL : layout_ok L) (Hsame : forall x, B <= x -> pm' x = pm x).

Lemma same16 a : B <= a -> m16 pm' a = m16 pm a.
Proof. intros Ha. apply m16_ext. intros i Hi. apply Hsame. lia. Qed.
Lemma same32 a : B <= a -> m32 pm' a = m32 pm a.
Proof. intros Ha. apply m32_ext. intros i Hi. apply Hsame. lia. Qed.
Lemma same64 a : B <= a -> m64 pm' a = m64 pm a.
Proof. intros Ha. apply m64_ext. intros i Hi. apply Hsame. lia. Qed.
Lemma same_region a n : B <= a -> region pm' a n = region pm a n.
Proof. intros Ha. apply region_ext. intros i Hi. apply Hsame. lia. Qed.
Lemma same_len t : B <= t -> tab_len L pm' t = tab_len L pm t.
Proof. intros Ht. pose proof HL as [[O1 _] [O2 _] _ [O3 _] (O4 & O5 & O6)]. unfold tab_len. apply same32. lia. Qed.

Lemma same_ics n : forall a e, B <= a -> parse_ics pm' n a e = parse_ics pm n a e.
Proof.
  induction n as [|n IH]; intros a e Ha; cbn [parse_ics]; [done|]. destruct (a =? e); [done|].
  unfold ic_length, ic_type, ioapic_phy_addr. rewrite !Hsame, same32 by lia.
  destruct (Z.ltb_spec (pm (a + 1)) 2); [done|]. cbn [orb]. by rewrite (IH (a + pm (a + 1))) by lia.
Qed.

Lemma same_apics t : B <= t -> madt_apics L pm' t = madt_apics L pm t /\ apics_at L pm' t = apics_at L pm t.
Proof.
  intros Ht. assert (E : madt_apics L pm' t = madt_apics L pm t).
  { pose proof HL as [[O1 _] [O2 _] _ [O3 _] (O4 & O5 & O6)]. unfold madt_apics, madt_ics. rewrite same_len, same_ics by lia. done. }
  split; [done|]. unfold apics_at. by rewrite same_region, E.
Qed.

Lemma same_table_good t : B <= t -> table_good L pm t -> table_good L pm' t.
Proof.
  intros Ht. pose proof HL as [[O1 _] [O2 _] _ [O3 _] (O4 & O5 & O6)]. unfold table_good, fadt_good, madt_good.
  rewrite same_region, !same32, same16 by lia. done.
Qed.

Lemma same_tables fuel r sz :
  tables_above L pm B r -> irq_tables L pm fuel r sz ->
  irq_tables L pm' fuel r sz /\ listed_apics L pm' r = listed_apics L pm r.
Proof.
  intros [A1 A2 A3] [[G1 G2 G3 G4 G5 G6 G7 G8 G9] T2 T3 T4]. pose proof HL as [[O1 _] [O2 _] _ [O3 _] (O4 & O5 & O6)]. set (xsdt := m64 pm (r + xsdp_xsdt L)) in *.
  assert (Ex : m64 pm' (r + xsdp_xsdt L) = xsdt) by (apply same64; lia).
  assert (Ec : xsdt_count L pm' xsdt = xsdt_count L pm xsdt) by (unfold xsdt_count; by rewrite same_len by lia).
  assert (Ee : forall j, 0 <= j -> xsdt_entry L pm' xsdt j = xsdt_entry L pm xsdt j) by (intros j Hj; apply same64; lia).
  destruct G7 as [G7 G7']. assert (Esz : sz = tab_len L pm xsdt) by done.
  split; [split; rewrite ?Ex|].
  - split; rewrite ?same_region, ?same32, ?Hsame by lia; try done.
    + destruct G4. by split; unfold sums_to_zero; rewrite same_region by lia.
    + unfold sums_to_zero. by rewrite same_region by lia.
    + intros i Hi. change (m64 pm' (xsdt + sizeof_header L + 8 * i)) with (xsdt_entry L pm' xsdt i). rewrite Ee by lia.
      apply same_table_good; [|by apply G9]. apply A3. unfold xsdt_count. rewrite <- Esz. lia.
  - done.
  - destruct T3. unfold table_ok, tab_size. rewrite same_len by lia. by split.
  - rewrite Ec. intros j Hj. rewrite Ee by lia. destruct (T4 j Hj) as [[W1 W2] W3]. specialize (A3 j Hj).
    destruct (same_apics (xsdt_entry L pm xsdt j) A3) as [E1 _].
    split; [unfold table_ok, tab_size; rewrite same_len by lia; by split|]. rewrite same_region, same_len, E1 by lia. done.
  - unfold listed_apics. rewrite Ex, Ec. fold xsdt.
    enough (forall n i, 0 <= i -> (forall j, i <= j < i + Z.of_nat n -> B <= xsdt_entry L pm xsdt j) ->
      xsdt_apics L pm' xsdt i n = xsdt_apics L pm xsdt i n) as H by (apply H; [lia|]; intros j Hj; apply A3; lia).
    induction n as [|n IH]; intros i Hi Hj; cbn [xsdt_apics]; [done|]. rewrite Ee by lia.
    destruct (same_apics (xsdt_entry L pm xsdt i) (Hj i ltac:(lia))) as [_ ->]. f_equal. apply IH; [lia|].
    intros j Hj'. apply Hj. lia.
Qed.
End same.

(** ** The theorem *)

(** [irq_init] on every outcome. *)
Lemma irq_init_spec {V} `{HV : AddrSpace V} `{HVL : !AddrSpaceLaws V} {D} `{HD : IoApics D} `{HDL : !IoApicLaws D}
    L pm base fuel heap bps l1 w l2 (v : V) (d : D) r sz :
  layout_ok L -> (forall x, 0 <= pm x < 256) -> as_live base [] v ->
  lseg heap bps (l1 ++ w :: l2) NULL -> Forall (fun x => v_type x <> BP_RSDP) l1 -> v_type w = BP_RSDP ->
  v_data w = BdatRsdp {| rsdp_phy_addr := r; rsdp_sz := sz |} -> (length l1 < fuel)%nat ->
  irq_tables L pm fuel r sz -> Forall io_base (listed_apics L pm r) ->
  match irq_init L pm fuel heap bps v d with
  | Ok (v', d', ports) => masked (listed_apics L pm r) d d' /\ as_live base [] v' /\ ports = pic_pit_init
  | Fail f => exhausted f
  end.
Proof.
  intros HL Hpm Hl Hs Hl1 Hw Hd Hf Htab Hio. unfold irq_init.
  destruct (find_rsdp_first heap l1 fuel bps w l2 NULL Hs Hl1 Hw Hf) as (n & -> & Hn). cbn [mbind result_bind].
  unfold rsdp_data. rewrite Hn, Hd. cbn [mbind result_bind rsdp_sz rsdp_phy_addr].
  pose proof (as_map_live base [] v r sz 0 Hl (it_rsdp _ _ _ _ _ Htab)) as H1.
  destruct (as_map v r sz 0) as [[rsdp v1]|f]; cbn [mbind result_bind]; [|exact H1].
  set (m := {| m_va := rsdp; m_pa := r; m_sz := sz; m_flags := 0 |}) in *.
  pose proof (acpi_process_rsdp_post L HL pm Hpm base [m] v1 d m fuel sz H1 ltac:(by left) eq_refl Htab Hio) as H2.
  change (m_va m) with rsdp in H2. change (m_pa m) with r in H2.
  destruct (acpi_process_rsdp L pm fuel v1 d rsdp) as [[v2 d2]|f]; cbn [mbind result_bind]; [|exact H2].
  destruct H2 as [H2 Hm]. cbn [fst snd] in *. pose proof (as_unmap_live base [] m [] v2 H2) as H3.
  change (m_va m) with rsdp in H3. change (m_sz m) with sz in H3.
  destruct (as_unmap v2 rsdp sz) as [v3|f]; cbn [mbind result_bind]; [|exact H3].
  split_and!; [exact Hm|exact H3|done].
Qed.

(** C37: [irq_init], given the tables that [acpi_init] of stage 1 accepted and the list of boot
    parameters it built: it ends; every input of every I/O APIC named by an MADT is masked, no
    other bit of any entry of any I/O APIC has changed; all mappings have been taken back, so that
    every address is translated as before; and the port writes leave the two 8259s and the timer
    as an IBM PC's BIOS does.  It fails only when memory or addresses for a mapping run out -
    never by a page fault. *)
Theorem irq_init_masks {V} `{HV : AddrSpace V} `{HVL : !AddrSpaceLaws V} {D} `{HD : IoApics D} `{HDL : !IoApicLaws D}
    L pm base fuel heap bps l1 w l2 (v : V) (d : D) r sz :
  layout_ok L -> (forall x, 0 <= pm x < 256) -> as_live base [] v ->
  lseg heap bps (l1 ++ w :: l2) NULL -> Forall (fun x => v_type x <> BP_RSDP) l1 -> v_type w = BP_RSDP ->
  v_data w = BdatRsdp {| rsdp_phy_addr := r; rsdp_sz := sz |} -> (length l1 < fuel)%nat ->
  irq_tables L pm fuel r sz -> Forall io_base (listed_apics L pm r) ->
  match irq_init L pm fuel heap bps v d with
  | Ok (v', d', ports) =>
      (forall q j, io_base q -> 0 <= j < 24 -> redir d' q j =
        if bool_decide (q ∈ listed_apics L pm r) then Z.lor (redir d q j) IOAPIC_RTLO_MASKED else redir d q j) /\
      as_live base [] v' /\ (forall x, 0 <= x < 2 ^ 32 -> as_look v' x = as_look v x) /\
      forall s, legacy_ready (fold_left port_step ports s)
  | Fail f => exhausted f
  end.
Proof.
  intros HL Hpm Hl Hs Hl1 Hw Hd Hf Htab Hio.
  pose proof (irq_init_spec L pm base fuel heap bps l1 w l2 v d r sz HL Hpm Hl Hs Hl1 Hw Hd Hf Htab Hio) as H.
  destruct (irq_init L pm fuel heap bps v d) as [[[v' d'] ports]|f]; [|exact H].
  destruct H as (Hm & Hl' & ->). split_and!; [exact Hm|exact Hl'| |exact pic_pit_init_ready].
  intros x Hx. by rewrite (as_look_base base v' x Hl' Hx), (as_look_base base v x Hl Hx).
Qed.
