(* ===== verification/Stage2.v ===== *)
(** * Stage 2 as a whole (src/stage2/main.c)

    [stage2_main] sets up memory, makes room for the real-mode code, brings up the interrupt
    controllers, and then calls the option ROMs - those of display controllers first.  The state
    that the parts share is the list of boot parameters, the virtual memory of [Va] and the I/O
    APICs of [Irq]; what stage 2 does to the machine is recorded in order.  The theorem puts the
    parts together: it is about the C code from the list that stage 1 hands over to the last call
    of an option ROM. *)

From stdpp Require Import sorting.
From S2P Require Import Prelude Util Bmem Bparm MemMap Paging Va AddrSpace VaLive Rimg Phys Pci Acpi Irq RunStage2 Rm16.

(** ** What stage 2 does, in order *)

Inductive s2_ev :=
  | Port (e : port_ev)
  | Rm16Call (eax edx ecx ebx callee : Z).

(** [(farptr16_t)seg << 16 | off] *)
Definition MK_FP16 (seg off : Z) : Z := Z.lor (u32 (Z.shiftl seg 16)) off.

(** ** [rimg_init] *)

Definition pci_dev_data (n : bparm_t) : result bdat_pci_dev_t :=
  match u n with BdatPci d => Ok d | _ => Fail OutOfBounds end.

(** [switch (pd->class_if & 0xffff0000UL)]: VGA or XGA. *)
Definition rimg_is_vga (d : bdat_pci_dev_t) : bool :=
  let c := Z.land (class_if d) 0xffff0000 in (c =? 0x03000000) || (c =? 0x03010000).

(** The call of one device's option ROM, if it is to be made now. *)
Definition rimg_call (init_vga : bool) (pd : bdat_pci_dev_t) : list s2_ev :=
  let do_init := if rimg_is_vga pd then init_vga else negb init_vga in
  if negb do_init then []
  else if rimg_seg pd =? 0 then []
  else [Rm16Call (pci_locn pd) 0 0 (rimg_rt_seg pd) (MK_FP16 (rimg_seg pd) 0x0003)].

(** [for (bp = bparms; bp; bp = bp->next)] *)
Fixpoint rimg_init (fuel : nat) (heap : gmap Z bparm_t) (bp : Z) (init_vga : bool) : result (list s2_ev) :=
  match fuel with
  | O => Fail Diverges
  | S fuel =>
      if bp =? NULL then Ok []
      else
        n ← checked (heap !! bp);
        evs ← (if negb (type n =? BP_PCID) then Ok [] else pd ← pci_dev_data n; Ok (rimg_call init_vga pd));
        rest ← rimg_init fuel heap (next n) init_vga;
        Ok (evs ++ rest)
  end.

(** [hello16]'s offset is the linker's. *)
Definition hello (rm16_cs hello16 : Z) : list s2_ev := [Rm16Call 0 0 0 0 (MK_FP16 rm16_cs (u16 hello16))].

(** ** [stage2_main] *)

Section main.
Context {D : Type} `{HD : IoApics D}.
Context (L : acpi_layout) (I : rm16_image) (gdt_base : Z).

(** Up to the final [hlt()]: the virtual memory, the I/O APICs, memory as the real-mode code finds it
    at its first call, and what has been done, if each call of real-mode code comes back. *)
Definition stage2_main (fuel : nat) (heap : gmap Z bparm_t) (bparms : Z) (d : D) (pm : phys)
    : result (vm * D * phys * list s2_ev) :=
  ns ← bparm_walk fuel heap bparms;
  v ← mem_init ns;
  '(rm16_cs, _, _, v, pm) ← rm16_init I gdt_base v pm;
  '(v, d, ports) ← irq_init L pm fuel heap bparms v d;
  vga ← rimg_init fuel heap bparms true;
  others ← rimg_init fuel heap bparms false;
  Ok (v, d, pm, (Port <$> ports) ++ vga ++ hello rm16_cs (hello16 I) ++ others).
End main.

(** ** [rimg_init] *)

(** The devices of a list of parameters, and the option ROMs among them. *)
Definition pcid_data (w : bp_view) : list bdat_pci_dev_t :=
  if v_type w =? BP_PCID then match v_data w with BdatPci d => [d] | _ => [] end else [].

Definition devices (l : list bp_view) : list bdat_pci_dev_t := mjoin (pcid_data <$> l).

Definition pcid_ok (w : bp_view) : Prop := v_type w = BP_PCID -> exists d, v_data w = BdatPci d.

Definition rom_call (d : bdat_pci_dev_t) : s2_ev :=
  Rm16Call (pci_locn d) 0 0 (rimg_rt_seg d) (MK_FP16 (rimg_seg d) 3).

(** The calls for the display controllers, or for the others. *)
Definition rom_calls (display : bool) (ds : list bdat_pci_dev_t) : list s2_ev :=
  rom_call <$> List.filter (fun d => Bool.eqb (rimg_is_vga d) display && negb (rimg_seg d =? 0)) ds.

Lemma rimg_call_calls b d : rimg_call b d = rom_calls b [d].
Proof.
  unfold rimg_call, rom_calls. cbn [List.filter]. by destruct (rimg_is_vga d), b, (rimg_seg d =? 0).
Qed.

Lemma rom_calls_app b ds1 ds2 : rom_calls b (ds1 ++ ds2) = rom_calls b ds1 ++ rom_calls b ds2.
Proof. unfold rom_calls. by rewrite List.filter_app, fmap_app. Qed.

Lemma rimg_init_spec heap b l : forall fuel p,
  lseg heap p l NULL -> Forall pcid_ok l -> (length l < fuel)%nat ->
  rimg_init fuel heap p b = Ok (rom_calls b (devices l)).
Proof.
  induction l as [|w l IH]; intros fuel p Hs Hok Hf; (destruct fuel as [|fuel]; [cbn in Hf; lia|]); cbn [rimg_init].
  { cbn in Hs. subst p. done. }
  destruct Hs as (-> & Hne & nx & Hn & Hs). inversion_clear Hok as [|? ? Hw Hok'].
  destruct (Z.eqb_spec (v_addr w) NULL); [done|]. unfold node_at in Hn. rewrite Hn.
  cbn [checked mbind result_bind type next]. unfold devices. rewrite fmap_cons. cbn [mjoin list_join].
  rewrite rom_calls_app. cbn in Hf. unfold pcid_data at 1.
  destruct (Z.eqb_spec (v_type w) BP_PCID) as [Et|]; cbn [negb mbind result_bind].
  - destruct (Hw Et) as [d Ed]. unfold pci_dev_data. cbn [u]. rewrite Ed. cbn [mbind result_bind].
    rewrite (IH fuel nx Hs Hok' ltac:(lia)). cbn [mbind result_bind]. by rewrite rimg_call_calls.
  - by rewrite (IH fuel nx Hs Hok' ltac:(lia)).
Qed.

(** ** [mem_init] *)

(** The memory ranges of a list of parameters. *)
Definition mrng_data (w : bp_view) : list (Z * bdat_mem_range_t) :=
  if v_type w =? BP_MRNG then match v_data w with BdatMrng d => [(v_addr w, d)] | _ => [] end else [].

Definition mranges (l : list bp_view) : list (Z * bdat_mem_range_t) := mjoin (mrng_data <$> l).

Definition mrng_ok (w : bp_view) : Prop := v_type w = BP_MRNG -> exists d, v_data w = BdatMrng d.

Lemma mrng_nodes_views ns : Forall mrng_ok (view_of <$> ns) -> mrng_nodes ns = Ok (mranges (view_of <$> ns)).
Proof.
  induction ns as [|[a n] ns IH]; [done|]. rewrite fmap_cons. intros H. inversion_clear H as [|? ? Hn Hns].
  unfold mranges. rewrite fmap_cons. cbn [mjoin list_join mrng_nodes]. unfold mrng_data at 1, mem_range_data.
  unfold mrng_ok in Hn. cbn [view_of v_type v_data v_addr fst snd] in *.
  destruct (type n =? BP_MRNG) eqn:E; [|by rewrite (IH Hns)].
  apply Z.eqb_eq in E. destruct (Hn E) as [d Hd]. rewrite Hd. cbn [mbind result_bind]. by rewrite (IH Hns).
Qed.

(** Parameters that [mem_init] can work with: no byte above 1 MiB is in two ranges, and none in
    two of RAM. *)
Definition memory_ok (l : list bp_view) : Prop := Forall mrng_ok l /\ params_ok (mranges l).

Lemma mem_map_init_ready ns l :
  mrng_nodes ns = Ok l -> params_ok l ->
  post (mem_map_init ns) alloc_ready exhausted.
Proof.
  intros El Hok. pose proof (mem_map_init_spec ns l El Hok) as H. unfold post, exhausted.
  destruct (mem_map_init ns) as [s|[]]; try done; [|by left].
  destruct H as (Hinv & _ & bp & d & Hin & Hhold & _ & _ & Eat & Hb).
  pose proof Hhold as (Hty & Hst & Hend & Hneed)%can_hold_spec.
  assert (Hbytes : 0 < map_bytes l).
  { unfold map_bytes, sizeof_mem_range_t. destruct (map_capacity_spec l (params_len _ Hok)) as [? _]. lia. }
  split; [done|].
  assert (Hx : byte_is (mem_ranges s) (mem_ranges_at s) E820_RESERVED (mr_e820_ext_attr d) (mr_uefi_attr d)).
    { apply Hb. rewrite decide_True by lia. left. split; [done|]. exists bp, d. unfold in_range. split_and!; (done || lia). }
    destruct Hx as (r & Hr & _). destruct (mem_ranges s); [by apply not_elem_of_nil in Hr|cbn; lia].
Qed.

(** Below 4 GiB an address is not mapped, or mapped to itself. *)
Definition identity (v : vm) : Prop := forall x, 0 <= x < 2 ^ 32 ->
  translate (vm_pg v) x = None \/ exists f, flags_ok f /\ translate (vm_pg v) x = Some (x, 6 + f).

Lemma mem_init_post ns :
  memory_ok (view_of <$> ns) -> post (mem_init ns) (fun v => vm_ok v /\ identity v) exhausted.
Proof.
  intros (Hm & Hok). unfold mem_init. eapply post_bind.
  { apply (mem_map_init_ready ns _ (mrng_nodes_views ns Hm) Hok). }
  intros s Hs. pose proof (va_init_spec s Hs) as H. unfold post.
  destruct (va_init s) as [v|f].
  - destruct H as (Hv & _ & _ & Hid). split; [done|]. intros x Hx. by apply Hid.
  - destruct H as [H|[-> _]]; [|by right]. exact (no_page_failure s f Hs H).
Qed.

(** ** The theorem *)

Lemma stage2_main_spec {D} `{HD : IoApics D} `{HDL : !IoApicLaws D}
    L I gdt_base fuel heap bps l l1 w l2 (d : D) pm r sz :
  layout_ok L -> pm_ok pm -> image_ok I ->
  lseg heap bps l NULL -> (length l < fuel)%nat -> Forall pcid_ok l -> memory_ok l ->
  l = l1 ++ w :: l2 -> Forall (fun x => v_type x <> BP_RSDP) l1 -> v_type w = BP_RSDP ->
  v_data w = BdatRsdp {| rsdp_phy_addr := r; rsdp_sz := sz |} ->
  irq_tables L pm fuel r sz -> Forall io_base (listed_apics L pm r) -> tables_above L pm BMEM_MAX_ADDR r ->
  match stage2_main L I gdt_base fuel heap bps d pm with
  | Ok (v', d', pm', evs) => exists ns v0 v1 cs ds,
      bparm_walk fuel heap bps = Ok ns /\ mem_init ns = Ok v0 /\
      rm16_ready I v0 pm cs ds v1 pm' /\ vm_ok v' /\
      (forall x, 0 <= x < 2 ^ 32 -> translate (vm_pg v') x = translate (vm_pg v0) x) /\
      identity v' /\
      masked (listed_apics L pm r) d d' /\
      (forall s, legacy_ready (fold_left port_step pic_pit_init s)) /\
      evs = (Port <$> pic_pit_init) ++ rom_calls true (devices l) ++ hello cs (hello16 I) ++ rom_calls false (devices l)
  | Fail f => exhausted f
  end.
Proof.
  intros HL Hpm HI Hs Hf Hpcid Hmem El Hl1 Hw Hd Htab Hio Habove.
  destruct (lseg_walk heap bps l fuel Hs Hf) as (ns & Ewalk & Ens). unfold stage2_main. rewrite Ewalk. cbn [mbind result_bind].
  pose proof (mem_init_post ns ltac:(by rewrite Ens)) as H0. destruct (mem_init ns) as [v0|f] eqn:Einit; cbn [mbind result_bind]; [|exact H0].
  destruct H0 as [H0 Hid]. pose proof (rm16_init_post I gdt_base v0 pm H0 HI Hpm) as H1.
  destruct (rm16_init I gdt_base v0 pm) as [[[[[cs ds] gdt] v1] pm']|f]; cbn [mbind result_bind]; [|exact H1]. destruct H1 as [H1 _].
  destruct (same_tables L pm pm' BMEM_MAX_ADDR HL (rm_high _ _ _ _ _ _ _ H1) fuel r sz Habove Htab) as [Htab' Eio].
  pose proof (irq_init_spec L pm' (fun x => translate (vm_pg v1) x) fuel heap bps l1 w l2 v1 d r sz HL (rm_bytes _ _ _ _ _ _ _ H1 Hpm)
    (vm_live_nil v1 (rm_ok _ _ _ _ _ _ _ H1)) ltac:(by rewrite <- El) Hl1 Hw Hd ltac:(rewrite El, length_app in Hf; lia) Htab'
    ltac:(by rewrite Eio)) as H2. rewrite Eio in H2.
  destruct (irq_init L pm' fuel heap bps v1 d) as [[[v2 d2] ports]|f]; cbn [mbind result_bind]; [|exact H2].
  destruct H2 as (Hm & Hlive & -> ). rewrite !(rimg_init_spec heap _ l fuel bps Hs Hpcid Hf). cbn [mbind result_bind].
  assert (Hlook : forall x, 0 <= x < 2 ^ 32 -> translate (vm_pg v2) x = translate (vm_pg v0) x).
  { intros x Hx. rewrite <- (rm_look _ _ _ _ _ _ _ H1 x). apply (as_look_base _ v2 x Hlive Hx). }
  exists ns, v0, v1, cs, ds.
  split_and!; [done|done|exact H1|exact (lv_ok _ _ _ Hlive)|exact Hlook| |exact Hm|exact pic_pit_init_ready|done].
  intros x Hx. rewrite Hlook by done. by apply Hid.
Qed.


(** ** A concrete machine *)

(** I/O APICs with 32 bytes of registers each, all bits writable. *)
Record io_regs := { io_sel : Z -> Z; io_reg : Z -> Z -> Z }.

Definition io_at (a : Z) : Z := a - a mod 0x20.

#[export] Instance plain_ioapics : IoApics io_regs :=
  {| mmio_read d a := io_reg d (io_at a) (io_sel d (io_at a));
     mmio_write d a v :=
       if a mod 0x20 =? IOREGSEL
       then {| io_sel := fun p => if p =? a then v else io_sel d p; io_reg := io_reg d |}
       else {| io_sel := io_sel d;
               io_reg := fun p k => if (p =? io_at a) && (k =? io_sel d (io_at a)) then v else io_reg d p k |};
     io_base p := (0x20 | p);
     regsel d p := io_sel d p;
     redir d p i := io_reg d p (IOREDTBLLO i) |}.

Lemma io_sel_mod p : (0x20 | p) -> (p + IOREGSEL) mod 0x20 = IOREGSEL /\ p + IOREGSEL = p.
Proof. intros [k ->]. unfold IOREGSEL. rewrite Z.add_0_r, Z.mod_mul by lia. done. Qed.

Lemma io_win_at p : (0x20 | p) -> io_at (p + IOREGWIN) = p /\ (p + IOREGWIN) mod 0x20 = 0x10.
Proof. intros [k ->]. unfold io_at, IOREGWIN. rewrite Z.add_comm, Z.mod_add by lia. change (16 mod 32) with 16. lia. Qed.

#[export] Instance plain_ioapics_laws : IoApicLaws io_regs.
Proof.
  split; cbn [mmio_read mmio_write io_base regsel redir plain_ioapics].
  - intros d p v Hp. destruct (io_sel_mod p Hp) as [-> ->]. cbn. by rewrite Z.eqb_refl.
  - intros d p v q i Hp _. by destruct (io_sel_mod p Hp) as [-> ->].
  - intros d p i Hp _ Hs. destruct (io_win_at p Hp) as [-> _]. by rewrite Hs.
  - intros d p i v b Hp _ Hs _. destruct (io_win_at p Hp) as [-> ->]. cbn. rewrite Hs, !Z.eqb_refl. by left.
  - intros d p i v q j Hp Hq _ Hs Hne. destruct (io_win_at p Hp) as [-> ->]. cbn. rewrite Hs.
    destruct (Z.eqb_spec q p); [|done]. destruct (Z.eqb_spec (IOREDTBLLO j) (IOREDTBLLO i)) as [E|]; [|done].
    unfold IOREDTBLLO in E. lia.
Qed.

Lemma spec_layout_ok : layout_ok acpi_spec_layout.
Proof. split; cbn; lia. Qed.

(** The same tables, in a memory in which they can be computed. *)
Ltac demo_irq_tables pm :=
  let Hg := fresh in let Ex := fresh in let Ec := fresh in let En := fresh in
  pose proof (acpi_check_spec acpi_spec_layout pm 0x7fe10000) as Hg;
  assert (Ec : acpi_check acpi_spec_layout pm 0x7fe10000 = Ok 52) by (vm_compute; reflexivity);
  assert (Ex : m64 pm (0x7fe10000 + xsdp_xsdt acpi_spec_layout) = 0x7fe11000) by (vm_compute; reflexivity);
  assert (En : xsdt_count acpi_spec_layout pm 0x7fe11000 = 2%nat) by (vm_compute; reflexivity);
  rewrite Ec, Ex in Hg;
  split; rewrite ?Ex;
    [exact Hg|unfold map_args, flags_ok; lia|split; vm_compute; [discriminate|discriminate]|rewrite En];
  let j := fresh in let Hj := fresh in
  intros j Hj; assert (j = 0 \/ j = 1) as [->| ->] by lia; (split; [split; vm_compute; discriminate|]);
    [intros _; split; [eexists; vm_compute; reflexivity|apply Nat.ltb_lt; vm_compute; reflexivity]
    |let Hsig := fresh in intros Hsig; vm_compute in Hsig; discriminate Hsig].

Lemma demo2_irq_tables : irq_tables acpi_spec_layout demo2_tables 100 0x7fe10000 52.
Proof. demo_irq_tables demo2_tables. Qed.

Lemma demo2_apics : listed_apics acpi_spec_layout demo2_tables 0x7fe10000 = [0xfec00000].
Proof. vm_compute. reflexivity. Qed.

Lemma demo2_apics_ok : Forall io_base (listed_apics acpi_spec_layout demo2_tables 0x7fe10000).
Proof. rewrite demo2_apics. repeat constructor. by exists 0x7f60000. Qed.

(** The boot parameters: the RSDP, a network and a display controller, the memory map of [MemMap]. *)
Definition demo2_view (a : Z) (d : bdat_pci_dev_t) : bp_view :=
  {| v_addr := a; v_type := BP_PCID; v_size := sizeof_bdat_pci_dev_t; v_data := BdatPci d |}.

Definition demo2_rsdp_node : bp_view :=
  {| v_addr := 0x9100; v_type := BP_RSDP; v_size := sizeof_bdat_rsdp_t;
     v_data := BdatRsdp {| rsdp_phy_addr := 0x7fe10000; rsdp_sz := 52 |} |}.

Definition demo2_net : bdat_pci_dev_t :=
  {| pci_locn := 0x0300; pci_id := 0x100e8086; class_if := 0x02000000; rimg_seg := 0x9800; rimg_rt_seg := 0x9800; rimg_sz := 0x1000 |}.
Definition demo2_vga : bdat_pci_dev_t :=
  {| pci_locn := 0x0010; pci_id := 0x11111234; class_if := 0x03000000; rimg_seg := 0xc000; rimg_rt_seg := 0xc000; rimg_sz := 0x8000 |}.

Definition demo2_views : list bp_view :=
  [demo2_view 0x9160 demo2_net; demo2_rsdp_node] ++ (view_of <$> demo_nodes) ++ [demo2_view 0x9130 demo2_vga].

(** The list as [bparm_add] would have linked it. *)
Fixpoint heap_of (l : list bp_view) : gmap Z bparm_t :=
  match l with
  | [] => ∅
  | w :: l => <[v_addr w := {| next := match l with w' :: _ => v_addr w' | [] => NULL end; type := v_type w;
                               size := v_size w; u := v_data w |}]> (heap_of l)
  end.

Definition demo2_heap : gmap Z bparm_t := Eval vm_compute in heap_of demo2_views.

Lemma demo2_lseg : lseg demo2_heap 0x9160 demo2_views NULL.
Proof. repeat (split; [reflexivity|split; [discriminate|]]; eexists; split; [vm_compute; reflexivity|]). reflexivity. Qed.

Lemma demo2_pcid_ok : Forall pcid_ok demo2_views.
Proof. repeat constructor; intros E; first [discriminate E|by eexists]. Qed.

Lemma demo2_memory_ok : memory_ok demo2_views.
Proof.
  split; [repeat constructor; intros E; first [discriminate E|by eexists]|].
  replace (mranges demo2_views) with demo_params by (vm_compute; reflexivity). exact demo_params_ok.
Qed.

(** Every entry of the I/O APIC starts out as input [i] unmasked at vector 0x20 + [i]. *)
Definition demo2_io : io_regs := {| io_sel := fun _ => 0; io_reg := fun _ k => 0x20 + k |}.

Lemma irq_init_masks_witness :
  exists v' d' ports, irq_init acpi_spec_layout demo2_tables 100 demo2_heap 0x9160 demo_vm demo2_io = Ok (v', d', ports) /\
    redir d' 0xfec00000 1 = Z.lor 0x32 0x10000 /\ redir d' 0xfec10000 1 = 0x32.
Proof.
  pose proof (irq_init_masks acpi_spec_layout demo2_tables (fun x => translate (vm_pg demo_vm) x) 100 demo2_heap 0x9160
    [demo2_view 0x9160 demo2_net] demo2_rsdp_node ((view_of <$> demo_nodes) ++ [demo2_view 0x9130 demo2_vga])
    demo_vm demo2_io 0x7fe10000 52 spec_layout_ok demo2_bytes (vm_live_nil demo_vm demo_vm_ok) demo2_lseg
    ltac:(repeat constructor; discriminate) eq_refl eq_refl ltac:(cbn; lia) demo2_irq_tables demo2_apics_ok) as H.
  assert (Hok : match irq_init acpi_spec_layout demo2_tables 100 demo2_heap 0x9160 demo_vm demo2_io with
    | Ok _ => true | Fail _ => false end = true) by (vm_compute; reflexivity).
  destruct (irq_init _ _ _ _ _ _ _) as [[[v' d'] ports]|f]; [|discriminate Hok].
  destruct H as (Hm & _). exists v', d', ports. split; [reflexivity|]. rewrite demo2_apics in Hm. split.
  - rewrite (Hm 0xfec00000 1 ltac:(exists 0x7f60000; reflexivity) ltac:(lia)). vm_compute. reflexivity.
  - rewrite (Hm 0xfec10000 1 ltac:(exists 0x7f60800; reflexivity) ltac:(lia)). vm_compute. reflexivity.
Defined.

Lemma demo2_above : tables_above acpi_spec_layout demo2_tables BMEM_MAX_ADDR 0x7fe10000.
Proof.
  assert (Ex : m64 demo2_tables (0x7fe10000 + xsdp_xsdt acpi_spec_layout) = 0x7fe11000) by (vm_compute; reflexivity).
  split; rewrite ?Ex; [by vm_compute..|].
  replace (xsdt_count acpi_spec_layout demo2_tables 0x7fe11000) with 2%nat by (vm_compute; reflexivity).
  intros j Hj. assert (j = 0 \/ j = 1) as [-> | ->] by lia; vm_compute; discriminate.
Qed.

