(* ===== verification/Calls.v ===== *)
(** * Stage 2 and the code it calls in real mode

    [Stage2] says which calls of [rm16_call] stage 2 makes, [Rm16Call] what one of them does to the
    processor, [Hello] what the code does that one of them leads to.  Here they are put together: the
    calls are run one after the other, each from the state that C code has after the one before.
    [c_state] is the invariant of the C code: its segments, its page tables, its stack, and what it
    keeps in memory for the way back from real mode.  What the option ROMs do is a parameter, and so
    is what the compiled C code does between two calls. *)

From S2P Require Import Prelude Util Bmem Bparm MemMap Paging Va AddrSpace VaLive Rimg Phys Pci Acpi Irq RunStage2 Rm16 Stage2 X86 Rm16Call Start Time Vecs Hello.

(** ** One call *)

(** How real-mode code is entered: its far address, the processor and memory. *)
Record call_in := CallIn { at_seg : Z; at_off : Z; in_cpu : cpu; in_mem : phys }.

(** The call that the compiler makes of [rm16_call]: three arguments in registers, the others and the
    return address on the stack (GNUmakefile, -mregparm=3 -mrtd). *)
Definition c_call (ret a d c b callee : Z) (s : cpu * phys) : cpu * phys :=
  let s := push32 b (push32 callee s) in
  push32 ret (set_gp EAX a (set_gp EDX d (set_gp ECX c (fst s))), snd s).

Section calls.
Context (S : rm16_syms) (rom : Z -> Z -> cpu -> phys -> cpu * phys) (text : Z).

Definition call_entry (s : cpu * phys) : call_in :=
  let '(c, pm) := rm16_entry S text (fst s) (snd s) in CallIn (m16 pm (edi (gp c) + 2)) (m16 pm (edi (gp c))) c pm.

Definition make_call (ret : Z) (e : s2_ev) (s : cpu * phys) : result (list call_in * (cpu * phys)) :=
  match e with
  | Port _ => Ok ([], s)
  | Rm16Call a d c b callee =>
      let s := c_call ret a d c b callee s in
      '(eip, c', pm') ← rm16_call S rom text (fst s) (snd s);
      if eip =? ret then Ok ([call_entry s], (c', pm')) else Fail OutOfBounds
  end.

(** Before each call the C code runs. *)
Fixpoint run_calls (between : cpu * phys -> cpu * phys) (ret : Z) (evs : list s2_ev) (s : cpu * phys)
    : result (list call_in * (cpu * phys)) :=
  match evs with
  | [] => Ok ([], s)
  | e :: evs =>
      '(l, s) ← make_call ret e (between s); '(l', s) ← run_calls between ret evs s; Ok (l ++ l', s)
  end.
End calls.

(** ** The invariant *)

(** The stack of stage 2, what [lgdt] has loaded, the page tables, and the segments of the real-mode
    code and data. *)
Record frame := { bottom : Z; top : Z; table : Z * Z; pages : Z; cseg : Z; dseg : Z }.

(** The stack lies above base memory, the descriptors below 16 MiB, and the variables of [rm16_call]
    in its data segment. *)
Record frame_ok (S : rm16_syms) (F : frame) : Prop := {
  fr_syms : syms_ok S;
  fr_stack : 2 ^ 20 + 2 ^ 17 <= bottom F /\ top F + 16 < 2 ^ 32;
  fr_table : 0 <= fst (table F) < 2 ^ 16 /\ 0 <= snd (table F) < 2 ^ 24;
  fr_pages : 0 <= pages F < 2 ^ 32;
  fr_cseg : 0 <= cseg F < 2 ^ 16 /\ 0x600 <= 16 * cseg F + rm_cs16 S /\ 16 * cseg F + rm_cs16 S + 2 <= 2 ^ 20;
  fr_dseg : 0x600 <= 16 * dseg F /\ dseg F < 2 ^ 16;
  fr_apart : 16 * dseg F + Z.max (stack16 S) (gdtr S + 6) <= 16 * cseg F + rm_cs16 S \/
    16 * cseg F + rm_cs16 S + 2 <= 16 * dseg F + Z.min (stack16 S - 4) (sp32 S);
}.

Definition flat32 : segs := Segs SEL_DS32 SEL_DS32 SEL_DS32 SEL_DS32 SEL_DS32.

(** The stack that a call uses below its caller's: three words and those of [rm16_call]. *)
Definition call_room : Z := 40.

(** Protected mode with paging, room on the stack for a call, and the words in memory that
    [rm16_call] relies on. *)
Record c_state (S : rm16_syms) (F : frame) (s : cpu * phys) : Prop := {
  st_regs : regs_ok (gp (fst s));
  st_esp : bottom F + call_room <= esp (fst s) <= top F;
  st_segs : sg (fst s) = flat32 /\ cs (fst s) = SEL_CS32;
  st_flags : 0 <= efl (fst s) < 2 ^ 32 /\ Z.land (efl (fst s)) EFL_IF = 0;
  st_mode : Z.land (cr0 (fst s)) (Z.lor CR0_PG CR0_PE) = Z.lor CR0_PG CR0_PE /\ Z.land (cr4 (fst s)) CR4_PAE = CR4_PAE;
  st_tables : cr3 (fst s) = pages F /\ gdt (fst s) = table F;
  st_mem : pm_ok (snd s) /\ m16 (snd s) bda_ebda = dseg F /\ m16 (snd s) (16 * cseg F + rm_cs16 S) = cseg F;
}.

(** What the option ROMs must not touch. *)
Definition reserved (S : rm16_syms) (F : frame) (x : Z) : Prop :=
  in_range (bottom F) (top F - bottom F) x \/ in_range (16 * dseg F + sp32 S) 4 x \/
  in_range (16 * dseg F + ptpd32 S) 4 x \/ in_range (16 * dseg F + gdtr S) 6 x \/ in_range bda_ebda 2 x \/
  in_range (16 * cseg F + rm_cs16 S) 2 x.

(** What [rm16_call] itself may write. *)
Definition own (S : rm16_syms) (F : frame) (x : Z) : Prop :=
  in_range (bottom F) (top F - bottom F) x \/ in_range (16 * dseg F + sp32 S) 4 x \/
  in_range (16 * dseg F + ptpd32 S) 4 x \/ in_range (16 * dseg F + gdtr S) 6 x \/
  in_range (16 * dseg F + stack16 S - 4) 4 x.

(** The state in which the code at [seg]:[off] is entered, with the registers that were asked for. *)
Record entered_as (S : rm16_syms) (F : frame) (a d c b seg off : Z) (i : call_in) : Prop := {
  ea_at : at_seg i = seg /\ at_off i = off;
  ea_regs : eax (gp (in_cpu i)) = a /\ edx (gp (in_cpu i)) = d /\ ecx (gp (in_cpu i)) = c /\ ebx (gp (in_cpu i)) = b;
  ea_mode : Z.land (cr0 (in_cpu i)) (Z.lor CR0_PG CR0_PE) = 0 /\ Z.land (cr4 (in_cpu i)) CR4_PAE = 0 /\
    Z.land (efl (in_cpu i)) EFL_IF = 0;
  ea_segs : sg (in_cpu i) = Segs (dseg F) (dseg F) 0 0 (dseg F);
  ea_stack : esp (in_cpu i) = stack16 S - 4 /\ m16 (in_mem i) (16 * dseg F + esp (in_cpu i)) = ret16 S /\
    m16 (in_mem i) (16 * dseg F + esp (in_cpu i) + 2) = cseg F;
}.

Lemma MK_FP16_parts seg off :
  0 <= seg < 2 ^ 16 -> 0 <= off < 2 ^ 16 ->
  0 <= MK_FP16 seg off < 2 ^ 32 /\ MK_FP16 seg off mod 2 ^ 16 = off /\ MK_FP16 seg off / 2 ^ 16 = seg.
Proof.
  intros Hs Ho. unfold MK_FP16. rewrite Z.shiftl_mul_pow2, wrap_small by lia. rewrite <- Z.shiftl_mul_pow2, lor_shiftl16 by lia.
  change (2 ^ 32) with 4294967296. change (2 ^ 16) with 65536 in *. dlia.
Qed.

Lemma c_call_spec ret a d c b callee s :
  12 <= esp (fst s) < 2 ^ 32 ->
  c_call ret a d c b callee s =
    (set_esp (esp (fst s) - 12) (set_gp EAX a (set_gp EDX d (set_gp ECX c (fst s)))),
     store32 (store32 (store32 (snd s) (esp (fst s) - 4) callee) (esp (fst s) - 8) b) (esp (fst s) - 12) ret).
Proof.
  destruct s as [[[ra rb rc rd si di bp] sp sg0 cc f x0 x3 x4 g] pm]. unfold c_call, push32.
  cbn [fst snd set_esp esp set_gp gp sg cs efl cr0 cr3 cr4 gdt]. intros H.
  rewrite (wrap_small 32 (sp - 4)) by lia. rewrite (wrap_small 32 (sp - 4 - 4)) by lia. rewrite (wrap_small 32) by lia.
  by replace (sp - 4 - 4 - 4) with (sp - 12) by lia; replace (sp - 4 - 4) with (sp - 8) by lia.
Qed.

Lemma land_lor_same a b : Z.land (Z.lor a b) b = b.
Proof. apply Z.bits_inj'. intros i Hi. rewrite Z.land_spec, Z.lor_spec. by destruct (Z.testbit a i), (Z.testbit b i). Qed.

Section calls_spec.
Context (S : rm16_syms) (F : frame) (HF : frame_ok S F).
Context (rom : Z -> Z -> cpu -> phys -> cpu * phys) (keep : Z -> Prop).

(** Memory that the code relies on and that is not for [rm16_call] to write, such as the option ROMs. *)
Hypothesis keep_apart : forall x, keep x -> ~ own S F x.

(** The option ROMs return, and leave what is reserved or to be kept alone. *)
Hypothesis rom_ok : forall seg off c pm, pm_ok pm ->
  let '(c', pm') := rom seg off c pm in
  regs_ok (gp c') /\ pm_ok pm' /\ forall x, reserved S F x \/ keep x -> pm' x = pm x.

(** The state at the entry of [rm16_call]. *)
Lemma c_call_ok ret a d c b callee s :
  c_state S F s -> 0 <= a < 2 ^ 32 -> 0 <= d < 2 ^ 32 -> 0 <= c < 2 ^ 32 -> 0 <= b < 2 ^ 32 ->
  0 <= callee < 2 ^ 32 -> 0 <= ret < 2 ^ 32 ->
  let sp := esp (fst s) in
  let s0 := c_call ret a d c b callee s in
  cpu_ok (fst s0) /\ esp (fst s0) = sp - 12 /\ pm_ok (snd s0) /\
  m16 (snd s0) bda_ebda = dseg F /\ m16 (snd s0) (16 * cseg F + rm_cs16 S) = cseg F /\
  m32 (snd s0) (sp - 12) = ret /\ m32 (snd s0) (sp - 8) = b /\
  m16 (snd s0) (sp - 4) = callee mod 2 ^ 16 /\ m16 (snd s0) (sp - 2) = callee / 2 ^ 16 /\
  forall x, ~ in_range (sp - 12) 12 x -> snd s0 x = snd s x.
Proof.
  intros [Hg Hsp [Hs Hcs] [Hf _] _ [H3 Ht] (Hpm & Hds & Hc)] Ra Rd Rc Rb Rcal Rret. cbv zeta.
  destruct HF as [_ [F1 F2] F3 F4 (F5 & F6 & F7) _ _]. unfold call_room in Hsp.
  change (2 ^ 20 + 2 ^ 17) with 1179648 in *. change (2 ^ 20) with 1048576 in *.
  rewrite c_call_spec by lia. destruct s as [[g sp sg0 cc f x0 x3 x4 g0] pm]. cbn [fst snd esp gp sg cs efl cr3 gdt] in *.
  destruct (m16_store32 pm (sp - 4) callee Rcal) as [E1 E2]. replace (sp - 4 + 2) with (sp - 2) in E2 by lia.
  split_and!.
  - split; cbn [set_esp set_gp gp esp cs efl cr3 gdt]; try (by subst); try (by subst g0); [|rewrite ?Hcs; change (2 ^ 20 + 2 ^ 17) with 1179648; lia].
    by repeat apply set_reg_ok.
  - done.
  - by repeat apply store_ok.
  - rewrite !m16_skip32 by (unfold bda_ebda; lia). done.
  - rewrite !m16_skip32 by lia. done.
  - by apply m32_store32.
  - rewrite m32_skip32 by lia. by apply m32_store32.
  - rewrite !m16_skip32 by lia. done.
  - rewrite !m16_skip32 by lia. done.
  - intros x Hx. by frame.
Qed.

(** The registers and the stack pointer at the entry of [rm16_call], apart from the arguments. *)
Lemma c_call_regs ret a d c b callee s :
  12 <= esp (fst s) < 2 ^ 32 ->
  let c0 := fst (c_call ret a d c b callee s) in
  (eax (gp c0) = a /\ edx (gp c0) = d /\ ecx (gp c0) = c) /\
  (ebx (gp c0) = ebx (gp (fst s)) /\ esi (gp c0) = esi (gp (fst s)) /\ edi (gp c0) = edi (gp (fst s)) /\
   ebp (gp c0) = ebp (gp (fst s))) /\
  cs c0 = cs (fst s) /\ efl c0 = efl (fst s) /\ cr3 c0 = cr3 (fst s) /\ gdt c0 = gdt (fst s).
Proof. intros H. rewrite c_call_spec by done. by destruct s as [[[]] ?]. Qed.

(** The state after a call, when the code that was called has left [c2] and [pm2]. *)
Lemma return_ok s pm1 c2 pm2 :
  c_state S F s -> regs_ok (gp c2) -> pm_ok pm2 -> (forall x, reserved S F x -> pm2 x = pm1 x) ->
  m16 pm1 bda_ebda = dseg F -> m16 pm1 (16 * cseg F + rm_cs16 S) = cseg F ->
  let g := gp (fst s) in
  c_state S F (Cpu (Regs (eax (gp c2)) (ebx g) (ecx (gp c2)) (edx (gp c2)) (esi g) (edi g) (ebp g))
    (esp (fst s)) flat32 (cs (fst s)) (efl (fst s)) (Z.lor (cr0 c2) (Z.lor CR0_PG CR0_PE)) (cr3 (fst s))
    (Z.lor (cr4 c2) CR4_PAE) (gdt (fst s)), pm2).
Proof.
  intros [Hg Hsp [Hsg Hcs] Hf Hm [H3 Ht] _] Hg2 Hpm2 Hres Hd Hc g.
  split; cbn [fst snd gp esp sg cs efl cr0 cr3 cr4 gdt]; try done.
  - intros r. pose proof (Hg r). pose proof (Hg2 r). by destruct r.
  - split; apply land_lor_same.
  - split; [done|]. rewrite (m16_ext pm1 pm2 bda_ebda), (m16_ext pm1 pm2 (16 * cseg F + rm_cs16 S)); [done|..].
    all: intros j Hj; apply Hres; unfold reserved, in_range; lia.
Qed.

(** The variables of [rm16_call], its stacks and what it must find lie apart. *)
Lemma scratch_apart c0 x :
  bottom F + 28 <= esp c0 <= top F -> scratch S c0 (dseg F) x ->
  ~ in_range bda_ebda 2 x /\ ~ in_range (16 * cseg F + rm_cs16 S) 2 x /\ own S F x /\ ~ in_range (esp c0) 12 x.
Proof.
  destruct HF as [[[So1 So2] (So3 & So4 & So5 & So6) So7 _] [F1 F2] _ _ (F5 & F6 & F7) [F8 F9] F10].
  change (2 ^ 20 + 2 ^ 17) with 1179648 in *. change (2 ^ 20) with 1048576 in *. change (2 ^ 16) with 65536 in *.
  unfold scratch, own, in_range, bda_ebda. lia.
Qed.

(** One call: how the code is entered, and that the C code goes on as before. *)
Lemma call_ok ret a d c b seg off s :
  c_state S F s -> 0 <= a < 2 ^ 32 -> 0 <= d < 2 ^ 32 -> 0 <= c < 2 ^ 32 -> 0 <= b < 2 ^ 32 ->
  0 <= seg < 2 ^ 16 -> 0 <= off < 2 ^ 16 -> 0 <= ret < 2 ^ 32 ->
  let s0 := c_call ret a d c b (MK_FP16 seg off) s in
  let i := call_entry S (16 * cseg F) s0 in
  entered_as S F a d c b seg off i /\ (forall x, keep x -> in_mem i x = snd s x) /\ pm_ok (in_mem i) /\
  exists s', make_call S rom (16 * cseg F) ret (Stage2.Rm16Call a d c b (MK_FP16 seg off)) s = Ok ([i], s') /\
    c_state S F s' /\ forall x, keep x -> snd s' x = snd s x.
Proof.
  intros Hs Ra Rd Rc Rb Rseg Roff Rret. destruct (MK_FP16_parts seg off Rseg Roff) as (Rcal & Eoff & Eseg).
  destruct (c_call_ok ret a d c b _ s Hs Ra Rd Rc Rb Rcal Rret) as (Hc0 & Esp & Hpm0 & Eds & Ecs & Eret & Eb & Eo & Ese & Hrest).
  destruct (st_esp _ _ _ Hs) as [Sp1 Sp2], (fr_stack _ _ HF) as [F1 F2]. unfold call_room in Sp1.
  destruct (fr_cseg _ _ HF) as (F5 & F6 & F7). destruct (fr_dseg _ _ HF) as [F8 F9].
  assert (Hsp : 12 <= esp (fst s) < 2 ^ 32) by (change (2 ^ 20 + 2 ^ 17) with 1179648 in F1; lia).
  destruct (c_call_regs ret a d c b (MK_FP16 seg off) s Hsp) as ((Ea & Ed & Ec) & (X1 & X2 & X3 & X4) & Y1 & Y2 & Y3 & Y4).
  cbv zeta. cbn [make_call]. set (s0 := c_call _ _ _ _ _ _ s) in *. destruct s0 as [c0 pm0]. cbn [fst snd] in *.
  set (sp := esp (fst s)) in *.
  pose proof (rm16_entry_spec S (fr_syms _ _ HF) (16 * cseg F) c0 pm0 Hc0 Hpm0 ltac:(rewrite Eds; lia) ltac:(lia) ltac:(lia)) as He.
  pose proof (rm16_call_spec S rom (16 * cseg F) c0 pm0 (fr_syms _ _ HF) Hc0 Hpm0 ltac:(rewrite Eds; lia) ltac:(lia) ltac:(lia)) as Hcall.
  cbv zeta in He, Hcall. unfold call_entry. cbn [fst snd].
  destruct (rm16_entry S (16 * cseg F) c0 pm0) as [c1 pm1]. rewrite Eds, Ecs in He. destruct He as (Ec1 & _ & _ & _ & Hpm1 & Hrest1).
  replace (esp c0 + 10) with (sp - 2) in Hcall by lia. replace (esp c0 + 8) with (sp - 4) in * by lia.
  replace (esp c0 + 4) with (sp - 8) in * by lia. replace (esp c0) with (sp - 12) in Hcall by lia.
  rewrite Eds, Ecs, Ese, Eo, Eoff, Eseg, Eb, Eret, Ea, Ec, Ed, X1, X2, X3, X4, Y1, Y2, Y3, Y4 in Hcall.
  replace (sp - 12 + 12) with (esp (fst s)) in Hcall by lia.
  destruct (rom seg off c1 pm1) as [c2 pm2] eqn:Erom. pose proof (rom_ok seg off c1 pm1 Hpm1) as Hrom. rewrite Erom in Hrom.
  destruct Hrom as (Hg2 & Hpm2 & Hk2).
  destruct Hcall as [(A1 & A2 & A3 & A4 & M1 & M2 & M3 & G & P & R1 & R2 & _) Hret]; [done| |].
  { intros x Hx. apply Hk2. left. unfold untouchable, reserved, in_range in *. lia. }
  pose proof (fun x H => Hrest1 x H) as Hout. pose proof (scratch_apart c0) as Hap. specialize (fun x => Hap x ltac:(lia)).
  assert (Hread : forall x n, (forall j, 0 <= j < n -> in_range bda_ebda 2 (x + j) \/ in_range (16 * cseg F + rm_cs16 S) 2 (x + j) \/
    in_range (esp c0) 12 (x + j)) -> forall j, 0 <= j < n -> pm1 (x + j) = pm0 (x + j)).
  { intros x n Hx j Hj. apply Hout. intros Hsc. destruct (Hap _ Hsc) as (N1 & N2 & _ & N3). specialize (Hx j Hj). tauto. }
  assert (Hkeep1 : forall x, keep x -> pm1 x = snd s x).
  { intros x Hx. pose proof (keep_apart x Hx) as Hn. rewrite Hout by (intros Hsc; by destruct (Hap _ Hsc) as (_ & _ & ? & _)).
    apply Hrest. unfold own, in_range in *. lia. }
  split_and!; [split; cbn [at_seg at_off in_cpu in_mem]; try done|done|done|].
  - rewrite Ec1. cbn [gp edi]. replace (sp - 4 + 2) with (sp - 2) by lia.
    rewrite !(m16_ext pm0 pm1) by (apply Hread; intros j Hj; right; right; unfold in_range; lia). by rewrite Ese, Eo.
  - eexists. split; [rewrite Hret; cbn [mbind result_bind]; rewrite Z.eqb_refl; reflexivity|]. split.
    + apply (return_ok s pm1 c2 pm2 Hs Hg2 Hpm2); [auto|..]; (etrans; [apply m16_ext, Hread; intros j Hj|done]); unfold in_range; lia.
    + intros x Hx. cbn [snd]. rewrite Hk2 by auto. by apply Hkeep1.
Qed.

(** ** The calls in turn *)

(** The C code between two calls leaves the processor and memory as calls need them. *)
Context (between : cpu * phys -> cpu * phys).
Hypothesis between_ok : forall s, c_state S F s ->
  c_state S F (between s) /\ forall x, keep x -> snd (between s) x = snd s x.

(** The arguments of a call fit into their registers. *)
Definition call_fits (e : s2_ev) : Prop :=
  match e with
  | Stage2.Rm16Call a d c b callee =>
      0 <= a < 2 ^ 32 /\ 0 <= d < 2 ^ 32 /\ 0 <= c < 2 ^ 32 /\ 0 <= b < 2 ^ 32 /\
      exists seg off, 0 <= seg < 2 ^ 16 /\ 0 <= off < 2 ^ 16 /\ callee = MK_FP16 seg off
  | Port _ => False
  end.

(** The call [e] enters its code as [i] says, with what is to be kept as it was in [pm]. *)
Definition made (pm : phys) (e : s2_ev) (i : call_in) : Prop :=
  (forall x, keep x -> in_mem i x = pm x) /\ pm_ok (in_mem i) /\
  match e with
  | Stage2.Rm16Call a d c b callee => entered_as S F a d c b (callee / 2 ^ 16) (callee mod 2 ^ 16) i
  | Port _ => False
  end.

Lemma run_calls_ok ret evs s :
  0 <= ret < 2 ^ 32 -> Forall call_fits evs -> c_state S F s ->
  exists l s', run_calls S rom (16 * cseg F) between ret evs s = Ok (l, s') /\ Forall2 (made (snd s)) evs l /\
    c_state S F s' /\ forall x, keep x -> snd s' x = snd s x.
Proof.
  intros Hret Hev. revert s. induction Hev as [|e evs He _ IH]; intros s Hs; [by eexists _, _|].
  destruct (between_ok s Hs) as [Hb Hk]. destruct e as [|a d c b callee]; [done|].
  destruct He as (Ra & Rd & Rc & Rb & seg & off & Rseg & Roff & ->).
  destruct (call_ok ret a d c b seg off (between s) Hb Ra Rd Rc Rb Rseg Roff Hret) as (Hin & Hki & Hpi & s1 & E1 & Hs1 & Hk1).
  destruct (IH s1 Hs1) as (l & s' & E & Hl & Hs' & Hk'). eexists _, s'. split; [|split; [|split; [done|]]].
  - cbn [run_calls]. rewrite E1. cbn [mbind result_bind]. rewrite E. reflexivity.
  - cbn [app]. constructor.
    + split; [|split; [done|]]; [intros x Hx; by rewrite Hki, Hk|].
      destruct (MK_FP16_parts seg off Rseg Roff) as (_ & E2 & E3). by rewrite E2, E3.
    + eapply Forall2_impl; [exact Hl|]. intros e i (H1 & H2 & H3). split; [|done]. intros x Hx. by rewrite H1, Hk1, Hk.
  - intros x Hx. by rewrite Hk', Hk1, Hk.
Qed.
End calls_spec.

(** ** Stage 2 as a whole *)

(** The fields of a device fit their C types. *)
Definition dev_fits (d : bdat_pci_dev_t) : Prop :=
  0 <= pci_locn d < 2 ^ 32 /\ 0 <= rimg_seg d < 2 ^ 16 /\ 0 <= rimg_rt_seg d < 2 ^ 16.

Lemma rom_calls_fit b ds : Forall dev_fits ds -> Forall call_fits (rom_calls b ds).
Proof.
  intros H. unfold rom_calls. apply Forall_fmap, Forall_forall. intros d Hd. apply list_elem_of_In, filter_In in Hd as [Hd _].
  apply list_elem_of_In in Hd. rewrite Forall_forall in H. destruct (H d Hd) as (H1 & H2 & H3).
  cbn. split_and!; try lia. by exists (rimg_seg d), 3.
Qed.

(** The variables and the stack of the real-mode program are in its data segment. *)
Record linked (S : rm16_syms) (I : rm16_image) : Prop := {
  lk_syms : syms_ok S;
  lk_cs : rm_cs16 S = Rm16.rm_cs16 I;
  lk_data : stack16 S <= end16 I /\ gdtr S + 6 <= end16 I;
}.

(** The stack from [b] on, the descriptors at [g]. *)
Definition stage2_frame (L : start_syms) (b g : Z) (v : vm) (cs ds : Z) : frame :=
  {| bottom := b; top := starting_stack L; table := (gdt_limit, g); pages := u32 (pdpt (vm_pg v)); cseg := cs; dseg := ds |}.

Lemma stage2_frame_ok S I L b g v pm0 pm cs ds v1 pm' :
  linked S I -> image_ok I -> start_image L g pm0 -> 2 ^ 20 + 2 ^ 17 <= b ->
  rm16_ready I v pm cs ds v1 pm' -> LOW_AREA <= 16 * cs -> LOW_AREA <= 16 * ds ->
  frame_ok S (stage2_frame L b g v cs ds).
Proof.
  intros [K1 K2 [K3 K4]] HI Hi Hb Hr Lc Ld. pose proof (si_stack _ _ _ Hi) as Hs. destruct (rm_segs _ _ _ _ _ _ _ Hr) as [R1 R2].
  pose proof (rm_code _ _ _ _ _ _ _ Hr) as R3. destruct (rm_data _ _ _ _ _ _ _ Hr) as [R4 _]. pose proof (rm_apart _ _ _ _ _ _ _ Hr) as R5.
  destruct (im_cs _ HI) as [C1 C2], (im_text _ HI) as (T1 & _ & T2). destruct K1 as [So1 So2 So3 So4].
  unfold disjoint_ranges, LOW_AREA, BMEM_MAX_ADDR in *. change (2 ^ 32 - 16) with 4294967280 in Hs.
  split; cbn [bottom top table pages cseg dseg stage2_frame]; try lia; [done| |by apply wrap_range].
  split; [done|exact (si_gdt _ _ _ Hi)].
Qed.

(** C code of stage 2 in a state that it can have after [stage2_main] has set everything up: [c] is
    the processor after [_start] and [va_init], [pm] memory at the first call. *)
Record running (F : frame) (c : cpu) (pm : phys) (s : cpu * phys) : Prop := {
  ru_regs : regs_ok (gp (fst s));
  ru_esp : bottom F + call_room <= esp (fst s) <= top F;
  ru_segs : sg (fst s) = sg c /\ cs (fst s) = cs c;
  ru_flags : 0 <= efl (fst s) < 2 ^ 32 /\ Z.land (efl (fst s)) EFL_IF = Z.land (efl c) EFL_IF;
  ru_mode : cr0 (fst s) = cr0 c /\ cr3 (fst s) = cr3 c /\ cr4 (fst s) = cr4 c /\ gdt (fst s) = gdt c;
  ru_mem : pm_ok (snd s) /\ forall x, ~ in_range (bottom F) (top F - bottom F) x -> snd s x = pm x;
}.

(** The processor after [_start] and [enable_paging]. *)
Definition stage2_cpu (L : start_syms) (v : vm) (c : cpu) (pm : phys) : cpu :=
  let '(_, c, _) := _start L c pm in enable_paging (pdpt (vm_pg v)) c.

Lemma running_c_state S I L b g v c pm0 pm cs ds pm' s :
  start_image L g pm0 -> regs_ok (gp c) -> 0 <= efl c < 2 ^ 32 -> 0 <= cr3 c < 2 ^ 32 -> Z.land (cr0 c) CR0_PE = CR0_PE ->
  let F := stage2_frame L b g v cs ds in
  linked S I -> frame_ok S F -> placed I cs ds pm pm' -> running F (stage2_cpu L v c pm0) pm' s -> c_state S F s.
Proof.
  intros Hi Hg Hf H3 H0 F [_ K2 _] [_ [F1 _] _ _ (F5 & F6 & F7) _ _] Hp [R1 R2 [R3 R4] [R5 R6] (R7 & R8 & R9 & R10) [R11 R12]].
  unfold stage2_cpu in *. rewrite (start_spec L g c pm0 Hi Hg Hf H3) in *.
  unfold enable_paging, wr_cr0, wr_cr3, wr_cr4, rd_cr0, rd_cr4 in *.
  cbn [gp esp sg X86.ds Rm16Call.cs efl cr0 cr3 cr4 gdt set_cr0 set_cr3 set_cr4 cseg dseg F stage2_frame] in *.
  split; try done.
  - split; [done|]. rewrite R6. apply Z.bits_inj'. intros i Hb. rewrite Z.land_spec, !Z.ldiff_spec, Z.bits_0.
    by destruct (Z.testbit (efl c) i), (Z.testbit EFL_IF i), (Z.testbit EFL_DF i).
  - rewrite R7, R9. split; [|apply land_lor_same]. rewrite <- H0 at 2.
    apply Z.bits_inj'. intros i Hb. rewrite !Z.land_spec, !Z.lor_spec, !Z.land_spec.
    pose proof (f_equal (fun x => Z.testbit x i) H0) as Hbit. cbn beta in Hbit. rewrite Z.land_spec in Hbit.
    by destruct (Z.testbit (cr0 c) i), (Z.testbit CR0_PG i), (Z.testbit CR0_PE i).
  - split; [done|]. change (2 ^ 20 + 2 ^ 17) with 1179648 in F1. change (2 ^ 20) with 1048576 in F7. cbn [bottom F stage2_frame] in F1.
    change (dseg F) with ds. change (cseg F) with cs. rewrite K2 in F6, F7 |- *. split.
    + rewrite <- (pl_ebda _ _ _ _ _ Hp). apply m16_ext. intros j Hj. apply R12. unfold in_range, bda_ebda, BDA. cbn [bottom F stage2_frame]. lia.
    + rewrite <- (pl_cs _ _ _ _ _ Hp) at 2. apply m16_ext. intros j Hj. apply R12. unfold in_range. cbn [bottom F stage2_frame]. lia.
Qed.

(** What the theorem supposes of the code it does not model: the option ROMs return and leave alone
    what is reserved and what is to be kept; the C code between two calls leaves the processor and
    memory as the calls need them; and [running] holds to begin with. *)
Record surroundings (S : rm16_syms) (F : frame) (rom : Z -> Z -> cpu -> phys -> cpu * phys) (keep : Z -> Prop)
    (between : cpu * phys -> cpu * phys) : Prop := {
  su_keep : forall x, keep x -> ~ own S F x;
  su_rom : forall seg off c pm, pm_ok pm ->
    let '(c', pm') := rom seg off c pm in
    regs_ok (gp c') /\ pm_ok pm' /\ forall x, reserved S F x \/ keep x -> pm' x = pm x;
  su_between : forall s, c_state S F s ->
    c_state S F (between s) /\ forall x, keep x -> snd (between s) x = snd s x;
}.

(** Stage 2 calls the option ROMs of the displays in turn and then [hello16], from which it does not
    come back. *)
Lemma calls_then_hello S F rom keep between ret ret2 h ds s :
  frame_ok S F -> surroundings S F rom keep between -> Forall dev_fits ds ->
  0 <= ret < 2 ^ 32 -> 0 <= ret2 < 2 ^ 32 -> c_state S F s ->
  exists trace s', run_calls S rom (16 * cseg F) between ret (rom_calls true ds) s = Ok (trace, s') /\
    Forall2 (made S F keep (snd s)) (rom_calls true ds) trace /\ c_state S F s' /\
    let i := call_entry S (16 * cseg F) (c_call ret2 0 0 0 0 (MK_FP16 (cseg F) (u16 h)) (between s')) in
    made S F keep (snd s) (Stage2.Rm16Call 0 0 0 0 (MK_FP16 (cseg F) (u16 h))) i /\ at_seg i = cseg F /\ at_off i = u16 h.
Proof.
  intros HF [Hk Hrom Hb] Hds Hret Hret2 Hs.
  destruct (run_calls_ok S F HF rom keep Hk Hrom between Hb ret _ s Hret (rom_calls_fit true ds Hds) Hs)
    as (trace & s' & E & Htr & Hs' & Hk').
  exists trace, s'. split; [done|]. split; [done|]. split; [done|]. cbv zeta. destruct (Hb s' Hs') as [Hs2 Hk2].
  pose proof (proj1 (fr_cseg _ _ HF)) as Hcs. pose proof (u16_range h) as Hh.
  destruct (call_ok S F HF rom keep Hk Hrom ret2 0 0 0 0 (cseg F) (u16 h) (between s') Hs2) as (Hin & Hki & Hpi & _); try done.
  destruct (MK_FP16_parts (cseg F) (u16 h) Hcs Hh) as (_ & E2 & E3).
  split; [|exact (ea_at _ _ _ _ _ _ _ _ _ Hin)]. split; [|split; [done|]].
  - intros x Hx. by rewrite Hki, Hk2, Hk'.
  - by rewrite E2, E3.
Qed.

(** C3: What stage 2 does once [stage2_main] has set everything up, down to the processor, where there
    is room for the real-mode code above the BIOS data area.  From any
    state that its C code can have then - in the segments of [_start], with the page tables of
    [va_init] -, the option ROMs of the display controllers are entered one after the other in real
    mode, without paging and interrupts, each at its entry point with its device's location and
    run-time segment and with memory that is to be kept as it was, and each comes back to stage 2,
    which is in protected mode with its page tables again.  Then [hello16] is entered; it writes its
    message and stays, whatever interrupts come: the option ROMs of the other devices, whose calls
    come next in [stage2_main], are not reached. *)
Theorem stage2_calls_roms {D} `{HD : IoApics D} `{HDL : !IoApicLaws D}
    La I gdt_base fuel heap bps l l1 w l2 (d : D) pm r sz S L g b pm0 c :
  layout_ok La -> pm_ok pm -> image_ok I ->
  lseg heap bps l NULL -> (length l < fuel)%nat -> Forall pcid_ok l -> memory_ok l ->
  l = l1 ++ w :: l2 -> Forall (fun x => v_type x <> BP_RSDP) l1 -> v_type w = BP_RSDP ->
  v_data w = BdatRsdp {| rsdp_phy_addr := r; rsdp_sz := sz |} ->
  irq_tables La pm fuel r sz -> Forall io_base (listed_apics La pm r) -> tables_above La pm BMEM_MAX_ADDR r ->
  Forall dev_fits (devices l) -> linked S I -> start_image L g pm0 -> 2 ^ 20 + 2 ^ 17 <= b ->
  regs_ok (gp c) -> 0 <= efl c < 2 ^ 32 -> 0 <= cr3 c < 2 ^ 32 -> Z.land (cr0 c) CR0_PE = CR0_PE ->
  match stage2_main La I gdt_base fuel heap bps d pm with
  | Ok (_, _, pm', evs) => exists ns v0 v1 cs ds,
      bparm_walk fuel heap bps = Ok ns /\ mem_init ns = Ok v0 /\ rm16_ready I v0 pm cs ds v1 pm' /\
      evs = (Port <$> pic_pit_init) ++ rom_calls true (devices l) ++ hello cs (hello16 I) ++ rom_calls false (devices l) /\
      (headroom (vm_map v0) LOW_AREA (128 * KIBYTE) BMEM_MAX_ADDR ->
       let F := stage2_frame L b g v0 cs ds in
       forall rom keep between ret ret2 s,
         surroundings S F rom keep between -> 0 <= ret < 2 ^ 32 -> 0 <= ret2 < 2 ^ 32 ->
         running F (stage2_cpu L v0 c pm0) pm' s ->
         exists trace s', run_calls S rom (16 * cs) between ret (rom_calls true (devices l)) s = Ok (trace, s') /\
           Forall2 (made S F keep (snd s)) (rom_calls true (devices l)) trace /\ c_state S F s' /\
           let i := call_entry S (16 * cs) (c_call ret2 0 0 0 0 (MK_FP16 cs (u16 (hello16 I))) (between s')) in
           made S F keep (snd s) (Stage2.Rm16Call 0 0 0 0 (MK_FP16 cs (u16 (hello16 I)))) i /\
           at_seg i = cs /\ at_off i = u16 (hello16 I) /\
           forall (V : Type) (outb : Z -> Z -> V -> V) (inb : Z -> V -> Z * V) soft other msg len version (m : mach V),
             services soft msg len other -> 0 <= msg < 2 ^ 16 -> len = zlen (hello_msg version) -> len < 2 ^ 16 ->
             (forall x, in_range (16 * ds + msg) len x -> keep x) -> region (snd s) (16 * ds + msg) len = hello_msg version ->
             clock_ok (clock_of (in_mem i)) ->
             pc m = entry (hello_code msg len) "hello16" -> sgr m = sg (in_cpu i) -> mem m = in_mem i ->
             stays outb inb soft msg len other version m)
  | Fail f => exhausted f
  end.
Proof.
  intros HL Hpm HI Hs Hf Hpcid Hmem El Hl1 Hw Hd Htab Hio Habove Hfit Hlink Hi Hb Hg Hfl H3 H0.
  pose proof (stage2_main_spec La I gdt_base fuel heap bps l l1 w l2 d pm r sz HL Hpm HI Hs Hf Hpcid Hmem El Hl1 Hw Hd Htab Hio Habove) as H.
  destruct (stage2_main _ _ _ _ _ _ _ _) as [[[[v' d'] pm'] evs]|f]; [|done].
  destruct H as (ns & v0 & v1 & cs & ds & E1 & E2 & Hr & _ & _ & _ & _ & _ & ->). exists ns, v0, v1, cs, ds.
  split_and!; try done. intros [Lc Ld]%(rm_room _ _ _ _ _ _ _ Hr) F rom keep between ret ret2 s Hsur Hret Hret2 Hrun.
  pose proof (stage2_frame_ok S I L b g v0 pm0 pm cs ds v1 pm' Hlink HI Hi Hb Hr Lc Ld) as HF.
  pose proof (running_c_state S I L b g v0 c pm0 pm cs ds pm' s Hi Hg Hfl H3 H0 Hlink HF (rm_placed _ _ _ _ _ _ _ Hr Lc Ld) Hrun) as Hc.
  destruct (calls_then_hello S F rom keep between ret ret2 (hello16 I) (devices l) s HF Hsur Hfit Hret Hret2 Hc)
    as (trace & s' & Etr & Hmade & Hcs' & Hin & Hat & Hoff).
  exists trace, s'. split; [done|]. split; [done|]. split; [done|]. cbv zeta. split; [exact Hin|]. split; [done|]. split; [done|].
  intros V outb inb soft other msg len version m Hsv Hm Elen Hlen Hmsg Htext Hclk Hpc Hsg Emem. destruct Hin as (Hkeep & Hbytes & Hent).
  assert (Ees : es (sgr m) = ds) by (rewrite Hsg; exact (f_equal es (ea_segs _ _ _ _ _ _ _ _ _ Hent))).
  apply hello16_stays_spec; rewrite ?Emem, ?Ees; try done.
  rewrite <- Htext. apply region_ext. intros j Hj. apply Hkeep, Hmsg. unfold in_range. lia.
Qed.

(** ** A concrete machine *)

Definition demo_link : rm16_syms :=
  {| stack16 := 0x200; sp32 := 0x200; ptpd32 := 0x204; gdtr := 0x208; rm_cs16 := 4; ret16 := 0x70; ret32 := 0x301234 |}.

Lemma demo_linked : linked demo_link demo_image.
Proof. split; [split; cbn; lia|done|split; cbn; lia]. Qed.

(** An option ROM that leaves zeroes in the registers and in the control registers. *)
Definition demo_rom (seg off : Z) (c : cpu) (pm : phys) : cpu * phys :=
  (Cpu (Regs 0 0 0 0 0 0 0) 0 (Segs 0 0 0 0 0) 0 0 0 0 0 (0, 0), pm).

(** C code of stage 2, when it makes its first call. *)
Definition demo_caller (v : vm) (pm : phys) : cpu * phys :=
  (set_esp 0x30ff00 (stage2_cpu demo_start v demo_start_cpu demo_start_mem), pm).

Lemma demo_running v pm :
  pm_ok pm -> running (stage2_frame demo_start 0x30f000 0x302000 v 0 0) (stage2_cpu demo_start v demo_start_cpu demo_start_mem) pm
    (demo_caller v pm).
Proof.
  intros Hpm. unfold demo_caller, stage2_cpu.
  rewrite (start_spec demo_start 0x302000 demo_start_cpu demo_start_mem demo_start_image) by (try done; intros []; cbn; lia).
  split; cbn; try done. intros []; cbn; lia.
Qed.

(** Is there the room that the real-mode code needs? *)
Definition has_room (v : vm) : bool :=
  existsb (fun r => (e820_type r =? E820_RAM) && (start r <=? LOW_AREA) && (LOW_AREA + 128 * KIBYTE <=? range_end r) &&
    (range_end r <=? BMEM_MAX_ADDR)) (mem_ranges (vm_map v)).

Lemma has_room_spec v : has_room v = true -> headroom (vm_map v) LOW_AREA (128 * KIBYTE) BMEM_MAX_ADDR.
Proof.
  unfold has_room. rewrite existsb_exists. intros (r & Hr%list_elem_of_In & H). exists r.
  rewrite !andb_true_iff, Z.eqb_eq, !Z.leb_le in H. tauto.
Qed.

(** The machine of [Stage2]: its display's option ROM is entered at 0xc000:0x0003. *)
Lemma stage2_calls_roms_witness :
  exists pm' evs v0 cs s', (exists v' d', stage2_main acpi_spec_layout demo_image 0 100 demo2_heap 0x9160 demo2_io demo2_tables =
      Ok (v', d', pm', evs)) /\
    exists i, run_calls demo_link demo_rom (16 * cs) id 0x301500 (rom_calls true (devices demo2_views)) (demo_caller v0 pm') = Ok ([i], s') /\
      at_seg i = 0xc000 /\ at_off i = 3 /\ eax (gp (in_cpu i)) = 0x10 /\ cr3 (fst s') = u32 (pdpt (vm_pg v0)).
Proof.
  assert (Hfit : Forall dev_fits (devices demo2_views)) by (repeat constructor; done).
  pose proof (stage2_calls_roms acpi_spec_layout demo_image 0 100 demo2_heap 0x9160 demo2_views
    [demo2_view 0x9160 demo2_net] demo2_rsdp_node ((view_of <$> demo_nodes) ++ [demo2_view 0x9130 demo2_vga])
    demo2_io demo2_tables 0x7fe10000 52 demo_link demo_start 0x302000 0x30f000 demo_start_mem demo_start_cpu
    spec_layout_ok demo2_bytes demo_image_ok demo2_lseg ltac:(cbn; lia) demo2_pcid_ok demo2_memory_ok
    eq_refl ltac:(repeat constructor; discriminate) eq_refl eq_refl demo2_irq_tables demo2_apics_ok demo2_above Hfit demo_linked
    demo_start_image ltac:(done) ltac:(intros []; cbn; lia) ltac:(done) ltac:(done) eq_refl) as H.
  assert (Hok : match stage2_main acpi_spec_layout demo_image 0 100 demo2_heap 0x9160 demo2_io demo2_tables with
    | Ok _ => true | Fail _ => false end = true) by (vm_compute; reflexivity).
  assert (Hroom : match bparm_walk 100 demo2_heap 0x9160 with
    | Ok ns => match mem_init ns with Ok v => has_room v | Fail _ => false end | Fail _ => false end = true) by (vm_compute; reflexivity).
  destruct (stage2_main _ _ _ _ _ _ _ _) as [[[[v' d'] pm'] evs]|f]; [|discriminate Hok].
  destruct H as (ns & v0 & v1 & cs & ds & E1 & E2 & Hr & _ & H). rewrite E1, E2 in Hroom.
  specialize (H (has_room_spec v0 Hroom)). cbv zeta in H.
  pose proof (demo_running v0 pm' (rm_bytes _ _ _ _ _ _ _ Hr demo2_bytes)) as [U1 U2 U3 U4 U5 U6].
  destruct (H demo_rom (fun _ => False) id 0x301500 0x301600 (demo_caller v0 pm')) as (trace & s' & Etr & Hmade & Hc & _); [|done|done|by split|].
  { split; [done| |done]. intros seg off c pm Hpm. split; [intros []; cbn; lia|]. split; [exact Hpm|done]. }
  replace (rom_calls true (devices demo2_views)) with [rom_call demo2_vga] in * by (vm_compute; reflexivity).
  inversion Hmade as [|e i es tr Hi Hnil X1 X2]. subst. inversion Hnil. subst.
  exists pm', evs, v0, cs, s'. split; [by eexists _, _|]. exists i. split; [exact Etr|]. destruct Hi as (_ & _ & [[A1 A2] (A3 & _) _ _ _]).
  split; [exact A1|]. split; [exact A2|]. split; [exact A3|exact (proj1 (st_tables _ _ _ Hc))].
Defined.
