(* ===== verification/Mp.v ===== *)
(** * Multiprocessor tables (src/mp.h, [fake_mp_table] of src/stage1/main.c)

    For one operating system stage 1 makes up a minimal set of Intel MP tables in a temporary
    extended BIOS data area: a floating pointer structure, a configuration table with one
    processor and one I/O APIC.  The values of the processor's and the APICs' registers are
    parameters.  The theorem is about what a reader of the tables finds; a lemma shows that the
    processor entry is shorter than the MP specification has it. *)

From S2P Require Import Prelude Util Bmem Bparm Rimg Phys Pci Elf Acpi.

(** ** mp.h *)

Record intel_mp_flt_t := {
  flt_sig : Z; mp_conf_addr : Z; flt_len : Z; flt_spec_rev : Z; flt_cksum : Z; features : list Z;
}.

Record intel_mp_conf_hdr_t := {
  conf_sig : Z; base_tbl_len : Z; conf_spec_rev : Z; conf_cksum : Z; oem_id : list Z; prod_id : list Z;
  oem_tbl_ptr : Z; oem_tbl_sz : Z; ent_cnt : Z; lapic_addr : Z; ext_tbl_len : Z; ext_tbl_cksum : Z; conf_reserved : Z;
}.

Record intel_mp_cpu_t := {
  cpu_type : Z; lapic_id : Z; lapic_ver : Z; cpu_flags : Z; cpu_sig : Z; cpu_features : Z;
}.

Record intel_mp_ioapic_t := { ioapic_type : Z; ic_id : Z; ic_ver : Z; ic_flags : Z; ic_addr : Z }.

Definition sizeof_mp_flt : Z := 16.
Definition sizeof_mp_conf_hdr : Z := 44.
Definition sizeof_mp_cpu : Z := 12.
Definition sizeof_mp_ioapic : Z := 8.

Definition MP_FEAT1_IMCRP : Z := 0x80.
Definition MP_CPU : Z := 0.
Definition MP_CPU_EN : Z := 0x01.
Definition MP_CPU_BP : Z := 0x02.
Definition MP_IOAPIC : Z := 2.
Definition MP_IOAPIC_EN : Z := 0x01.
Definition IOAPIC_ADDR : Z := 0xfec00000.

Definition bytes_of_flt (t : intel_mp_flt_t) : list Z :=
  enc 4 (flt_sig t) ++ enc 4 (mp_conf_addr t) ++ [flt_len t; flt_spec_rev t; flt_cksum t] ++ features t.

Definition bytes_of_conf (t : intel_mp_conf_hdr_t) : list Z :=
  enc 4 (conf_sig t) ++ enc 2 (base_tbl_len t) ++ [conf_spec_rev t; conf_cksum t] ++ oem_id t ++ prod_id t ++
  enc 4 (oem_tbl_ptr t) ++ enc 2 (oem_tbl_sz t) ++ enc 2 (ent_cnt t) ++ enc 4 (lapic_addr t) ++
  enc 2 (ext_tbl_len t) ++ [ext_tbl_cksum t; conf_reserved t].

Definition bytes_of_cpu (t : intel_mp_cpu_t) : list Z :=
  [cpu_type t; lapic_id t; lapic_ver t; cpu_flags t] ++ enc 4 (cpu_sig t) ++ enc 4 (cpu_features t).

Definition bytes_of_ioapic (t : intel_mp_ioapic_t) : list Z :=
  [ioapic_type t; ic_id t; ic_ver t; ic_flags t] ++ enc 4 (ic_addr t).

(** ** [fake_mp_table] *)

(** [mp_bundle_t]: 16 bytes of EBDA, then the tables. *)
Definition off_flt : Z := 16.
Definition off_conf : Z := off_flt + sizeof_mp_flt.
Definition sizeof_mp_bundle_t : Z := off_conf + sizeof_mp_conf_hdr + sizeof_mp_cpu + sizeof_mp_ioapic.

(** "BOCHSCPU" and "0.1         " *)
Definition oem_id_chars : list Z := [66; 79; 67; 72; 83; 67; 80; 85].
Definition prod_id_chars : list Z := [48; 46; 49; 32; 32; 32; 32; 32; 32; 32; 32; 32].

Section fake.
(** [rdmsr(0x1b)], [eax] and [edx] of [cpuid(1, ...)], the local APIC's registers by offset, and what
    the I/O APIC's window shows when a register is selected. *)
Context (msr_1b cpuid_eax cpuid_edx : Z) (lapic_reg ioapic_reg : Z -> Z).

Definition mp_flt (u cksum : Z) : intel_mp_flt_t :=
  {| flt_sig := MAGIC32 95 77 80 95; mp_conf_addr := u32 (u + off_conf); flt_len := sizeof_mp_flt; flt_spec_rev := 4;
     flt_cksum := cksum; features := [0; MP_FEAT1_IMCRP; 0; 0; 0] |}.

Definition mp_conf (lapic cksum : Z) : intel_mp_conf_hdr_t :=
  {| conf_sig := MAGIC32 80 67 77 80; base_tbl_len := sizeof_mp_conf_hdr + sizeof_mp_cpu + sizeof_mp_ioapic;
     conf_spec_rev := 4; conf_cksum := cksum; oem_id := oem_id_chars; prod_id := prod_id_chars; oem_tbl_ptr := 0;
     oem_tbl_sz := 0; ent_cnt := 2; lapic_addr := u32 lapic; ext_tbl_len := 0; ext_tbl_cksum := 0; conf_reserved := 0 |}.

Definition mp_cpu : intel_mp_cpu_t :=
  {| cpu_type := MP_CPU; lapic_id := u8 (lapic_reg 0x20); lapic_ver := u8 (lapic_reg 0x30);
     cpu_flags := Z.lor MP_CPU_EN MP_CPU_BP; cpu_sig := cpuid_eax; cpu_features := cpuid_edx |}.

Definition mp_ioapic : intel_mp_ioapic_t :=
  {| ioapic_type := MP_IOAPIC; ic_id := u8 (Z.shiftr (ioapic_reg 0x00) 24); ic_ver := u8 (ioapic_reg 0x01);
     ic_flags := MP_IOAPIC_EN; ic_addr := u32 IOAPIC_ADDR |}.

(** The base-memory allocator, memory, and [temp_ebda_seg]; the checksum bytes hold what memory held
    before. *)
Definition fake_mp_table (s : bmem) (pm : phys) : result (bmem * phys * Z) :=
  let lapic := Z.land msr_1b 0x000ffffffffff000 in
  '(u, s) ← bmem_alloc_boottime s sizeof_mp_bundle_t PARA_SIZE;
  let ebda := 1 :: replicate 15 0 in
  flt ← update_cksum (bytes_of_flt (mp_flt u (pm (u + off_flt + 10)))) (Z.to_nat sizeof_mp_flt) 10;
  let tbl := bytes_of_conf (mp_conf lapic (pm (u + off_conf + 7))) ++ bytes_of_cpu mp_cpu ++ bytes_of_ioapic mp_ioapic in
  tbl ← update_cksum tbl (Z.to_nat (sizeof_mp_conf_hdr + sizeof_mp_cpu + sizeof_mp_ioapic)) 7;
  Ok (s, write_bytes pm u (ebda ++ flt ++ tbl), u16 (u / PARA_SIZE)).
End fake.

(** ** How the tables are read *)

(** A search for the floating pointer on 16-byte boundaries, [n] of them from [p] on. *)
Fixpoint mp_search (pm : phys) (p : Z) (n : nat) : option Z :=
  match n with
  | O => None
  | S n =>
      if bool_decide (region pm p 4 = [95; 77; 80; 95] /\ byte_sum (region pm p 16) mod 256 = 0) then Some p
      else mp_search pm (p + 16) n
  end.

(** The entries of a configuration table by the lengths that the MP specification gives: 20 bytes
    for a processor, 8 for every other type; the addresses and types of the entries. *)
Fixpoint mp_walk (pm : phys) (n : nat) (p e : Z) : list (Z * Z) :=
  match n with
  | O => []
  | S n => if p <? e then (p, pm p) :: mp_walk pm n (p + (if pm p =? 0 then 20 else 8)) e else []
  end.

Section valid.
Context (msr_1b cpuid_eax cpuid_edx : Z) (lapic_reg ioapic_reg : Z -> Z).

Definition lapic_base : Z := Z.land msr_1b 0x000ffffffffff000.

(** The bytes at [u], with the checksums [c1] and [c2]. *)
Definition flt_bytes (u c1 : Z) : list Z := bytes_of_flt (mp_flt u c1).
Definition tbl_bytes (c2 : Z) : list Z :=
  bytes_of_conf (mp_conf lapic_base c2) ++ bytes_of_cpu (mp_cpu cpuid_eax cpuid_edx lapic_reg) ++
  bytes_of_ioapic (mp_ioapic ioapic_reg).
Definition bundle_bytes (u c1 c2 : Z) : list Z := (1 :: replicate 15 0) ++ flt_bytes u c1 ++ tbl_bytes c2.

Lemma fake_mp_table_spec s pm :
  bmem_inv s ->
  match fake_mp_table msr_1b cpuid_eax cpuid_edx lapic_reg ioapic_reg s pm with
  | Ok (s', pm', seg) => exists u c1 c2,
      bmem_alloc_boottime s sizeof_mp_bundle_t PARA_SIZE = Ok (u, s') /\
      pm' = write_bytes pm u (bundle_bytes u c1 c2) /\ seg = u16 (u / PARA_SIZE) /\
      0 <= c1 < 256 /\ 0 <= c2 < 256 /\
      byte_sum (flt_bytes u c1) mod 256 = 0 /\ byte_sum (tbl_bytes c2) mod 256 = 0
  | Fail f => bmem_alloc_boottime s sizeof_mp_bundle_t PARA_SIZE = Fail f
  end.
Proof.
  intros Hs. unfold fake_mp_table. destruct (bmem_alloc_boottime s _ _) as [[u s']|f] eqn:E; cbn [mbind result_bind]; [|done].
  set (g1 := pm (u + off_flt + 10)). set (g2 := pm (u + off_conf + 7)).
  destruct (update_cksum_ok (bytes_of_flt (mp_flt u g1)) 16 10 (proj1 (Nat.ltb_lt 10 16) eq_refl) (Nat.eq_le_incl _ _ eq_refl)) as (c1 & Hc1 & E1 & S1).
  change (Z.to_nat sizeof_mp_flt) with 16%nat. rewrite E1. cbn [mbind result_bind]. fold lapic_base.
  change (Z.to_nat (sizeof_mp_conf_hdr + sizeof_mp_cpu + sizeof_mp_ioapic)) with 64%nat.
  destruct (update_cksum_ok (bytes_of_conf (mp_conf lapic_base g2) ++ bytes_of_cpu (mp_cpu cpuid_eax cpuid_edx lapic_reg) ++
    bytes_of_ioapic (mp_ioapic ioapic_reg)) 64 7 (proj1 (Nat.ltb_lt 7 64) eq_refl) (Nat.eq_le_incl _ _ eq_refl)) as (c2 & Hc2 & E2 & S2).
  rewrite E2. cbn [mbind result_bind]. exists u, c1, c2. split; [reflexivity|].
  change (<[10%nat:=c1]> (bytes_of_flt (mp_flt u g1))) with (flt_bytes u c1) in *.
  change (<[7%nat:=c2]> _) with (tbl_bytes c2) in *.
  rewrite (take_ge (flt_bytes u c1)) in S1 by (apply Nat.eq_le_incl; reflexivity).
  rewrite (take_ge (tbl_bytes c2)) in S2 by (apply Nat.eq_le_incl; reflexivity).
  split; [reflexivity|]. split; [reflexivity|]. split; [exact Hc1|]. split; [exact Hc2|]. split; [exact S1|exact S2].
Qed.

Lemma bundle_at pm u c1 c2 o x :
  0 <= o < 96 -> le8 (bundle_bytes u c1 c2) o = x -> write_bytes pm u (bundle_bytes u c1 c2) (u + o) = x.
Proof. intros Ho <-. apply write_bytes_at. exact Ho. Qed.

Lemma bundle_m32 pm u c1 c2 o x :
  0 <= o -> o + 4 <= 96 -> 0 <= x < 2 ^ 32 ->
  le8 (bundle_bytes u c1 c2) o = x mod 256 -> le8 (bundle_bytes u c1 c2) (o + 1) = x / 256 mod 256 ->
  le8 (bundle_bytes u c1 c2) (o + 2) = x / 256 / 256 mod 256 ->
  le8 (bundle_bytes u c1 c2) (o + 3) = x / 256 / 256 / 256 mod 256 ->
  m32 (write_bytes pm u (bundle_bytes u c1 c2)) (u + o) = x.
Proof.
  intros Ho Hle Hx E0 E1 E2 E3. unfold m32, m16.
  rewrite (bundle_at pm u c1 c2 o _ ltac:(lia) E0).
  replace (u + o + 1) with (u + (o + 1)) by lia. rewrite (bundle_at pm u c1 c2 (o + 1) _ ltac:(lia) E1).
  replace (u + o + 2) with (u + (o + 2)) by lia. rewrite (bundle_at pm u c1 c2 (o + 2) _ ltac:(lia) E2).
  replace (u + (o + 2) + 1) with (u + (o + 3)) by lia. rewrite (bundle_at pm u c1 c2 (o + 3) _ ltac:(lia) E3).
  by apply enc32_dec.
Qed.

Lemma bundle_m16 pm u c1 c2 o x y :
  0 <= o -> o + 2 <= 96 -> le8 (bundle_bytes u c1 c2) o = x -> le8 (bundle_bytes u c1 c2) (o + 1) = y ->
  m16 (write_bytes pm u (bundle_bytes u c1 c2)) (u + o) = x + 256 * y.
Proof.
  intros Ho Hle E0 E1. unfold m16. rewrite (bundle_at pm u c1 c2 o _ ltac:(lia) E0).
  replace (u + o + 1) with (u + (o + 1)) by lia. by rewrite (bundle_at pm u c1 c2 (o + 1) _ ltac:(lia) E1).
Qed.

Lemma bundle_flt pm u c1 c2 : region (write_bytes pm u (bundle_bytes u c1 c2)) (u + 16) 16 = flt_bytes u c1.
Proof. exact (region_write pm u (1 :: replicate 15 0) (flt_bytes u c1) (tbl_bytes c2)). Qed.

Lemma bundle_tbl pm u c1 c2 : region (write_bytes pm u (bundle_bytes u c1 c2)) (u + 32) 64 = tbl_bytes c2.
Proof.
  unfold bundle_bytes. rewrite app_assoc. rewrite <- (app_nil_r (tbl_bytes c2)) at 1.
  exact (region_write pm u ((1 :: replicate 15 0) ++ flt_bytes u c1) (tbl_bytes c2) []).
Qed.

Lemma bundle_search pm u c1 c2 :
  byte_sum (flt_bytes u c1) mod 256 = 0 ->
  mp_search (write_bytes pm u (bundle_bytes u c1 c2)) u 64 = Some (u + 16).
Proof.
  intros Hsum. set (pm' := write_bytes pm u (bundle_bytes u c1 c2)). cbn [mp_search].
  rewrite bool_decide_eq_false_2; cycle 1.
  { intros [H _]. apply (f_equal (fun l => nth 0 l 0)) in H. change (pm' (u + 0) = 95) in H. unfold pm' in H.
    rewrite (bundle_at pm u c1 c2 0 1 ltac:(lia) eq_refl) in H. discriminate H. }
  rewrite bool_decide_eq_true_2; [done|]. rewrite <- (region_take pm' (u + 16) 16 4) by lia.
  unfold pm'. rewrite bundle_flt. split; [reflexivity|exact Hsum].
Qed.

(** What the next reader - an operating system - finds at the segment that it gets. *)
Record mp_tables_at (pm : phys) (u : Z) : Prop := {
  mp_ebda : pm u = 1;
  mp_found : mp_search pm u 64 = Some (u + 16);
  mp_ptr : m32 pm (u + 16 + 4) = u + 32;
  mp_signature : region pm (u + 32) 4 = [80; 67; 77; 80];
  mp_length : m16 pm (u + 32 + 4) = 64;
  mp_sum : byte_sum (region pm (u + 32) 64) mod 256 = 0;
  mp_count : m16 pm (u + 32 + 34) = 2;
  mp_lapic : m32 pm (u + 32 + 36) = u32 lapic_base;
  mp_proc : pm (u + 76) = MP_CPU /\ pm (u + 77) = u8 (lapic_reg 0x20) /\ pm (u + 79) = 3;
  mp_io : pm (u + 88) = MP_IOAPIC /\ pm (u + 89) = u8 (Z.shiftr (ioapic_reg 0) 24) /\ m32 pm (u + 92) = IOAPIC_ADDR;
}.

Lemma bundle_tables pm u c1 c2 :
  0 <= u < 2 ^ 20 -> byte_sum (flt_bytes u c1) mod 256 = 0 -> byte_sum (tbl_bytes c2) mod 256 = 0 ->
  mp_tables_at (write_bytes pm u (bundle_bytes u c1 c2)) u.
Proof.
  intros Hu Hs1 Hs2. assert (Eu : u32 (u + off_conf) = u + 32) by (change off_conf with 32; apply wrap_small; lia).
  split.
  - pose proof (bundle_at pm u c1 c2 0 1 ltac:(lia) eq_refl) as H. by rewrite Z.add_0_r in H.
  - by apply bundle_search.
  - rewrite <- Z.add_assoc. rewrite <- Eu. apply bundle_m32; (reflexivity || (rewrite ?Eu; lia)).
  - rewrite <- (region_take _ _ 64 4) by lia. by rewrite bundle_tbl.
  - rewrite <- Z.add_assoc. by rewrite (bundle_m16 pm u c1 c2 (32 + 4) 64 0).
  - by rewrite bundle_tbl.
  - rewrite <- Z.add_assoc. by rewrite (bundle_m16 pm u c1 c2 (32 + 34) 2 0).
  - rewrite <- Z.add_assoc. pose proof (wrap_range 32 lapic_base ltac:(lia)). apply bundle_m32; (reflexivity || lia).
  - split_and!; by apply bundle_at.
  - split_and!; [by apply bundle_at|by apply bundle_at|]. by apply bundle_m32.
Qed.
End valid.

Lemma fake_mp_table_facts msr_1b cpuid_eax cpuid_edx lapic_reg ioapic_reg s pm :
  bmem_inv s ->
  match fake_mp_table msr_1b cpuid_eax cpuid_edx lapic_reg ioapic_reg s pm with
  | Ok (s', pm', seg) =>
      bmem_inv s' /\
      (forall x, in_range (16 * seg) sizeof_mp_bundle_t x -> bmem_free s x /\ ~ bmem_free s' x) /\
      (forall x, ~ in_range (16 * seg) sizeof_mp_bundle_t x -> pm' x = pm x) /\
      mp_tables_at msr_1b lapic_reg ioapic_reg pm' (16 * seg) /\
      (forall x, bmem_free s' x -> bmem_free s x) /\ marks_move s s' /\ 0 <= seg < 2 ^ 16
  | Fail f => f = Error cannot_alloc_boottime
  end.
Proof.
  intros Hs. pose proof (fake_mp_table_spec msr_1b cpuid_eax cpuid_edx lapic_reg ioapic_reg s pm Hs) as H.
  pose proof (bmem_alloc_boottime_spec s sizeof_mp_bundle_t PARA_SIZE Hs ltac:(done)
    (valid_align_page 16 ltac:(by exists 4) ltac:(lia))) as Ha.
  destruct (fake_mp_table _ _ _ _ _ s pm) as [[[s' pm'] seg]|f]; [|rewrite H in Ha; by apply Ha].
  destruct H as (u & c1 & c2 & E & -> & -> & _ & _ & S1 & S2). rewrite E in Ha.
  destruct Ha as (Hi' & Hd & Hlo & Hhi & Hfree & Hmono & Et & Eb). pose proof (inv_top _ Hs) as Ht.
  assert (Hu : 0 <= u < BMEM_MAX_ADDR).
  { change sizeof_mp_bundle_t with 96 in Hhi. change EFI_PAGE_SIZE with 4096 in Hlo. zsolve. }
  assert (Eseg : 16 * u16 (u / PARA_SIZE) = u) by exact (rm_seg_addr u Hu Hd).
  pose proof (wrap_range 16 (u / PARA_SIZE) ltac:(lia)) as Hseg. rewrite Eseg.
  split_and!; [exact Hi'|exact Hfree| |apply bundle_tables; [exact Hu|exact S1|exact S2]|exact Hmono| |apply Hseg|apply Hseg].
  2: { unfold marks_move. rewrite Et, Eb. change sizeof_mp_bundle_t with 96. split; lia. }
  intros x Hx. unfold write_bytes. change (zlen (bundle_bytes _ _ _ _ _ u c1 c2)) with sizeof_mp_bundle_t.
  unfold in_range in Hx. destruct (Z.leb_spec u x), (Z.ltb_spec x (u + sizeof_mp_bundle_t)); try done. lia.
Qed.

Lemma fake_mp_table_bytes msr_1b cpuid_eax cpuid_edx lapic_reg ioapic_reg s pm :
  bmem_inv s -> pm_ok pm ->
  match fake_mp_table msr_1b cpuid_eax cpuid_edx lapic_reg ioapic_reg s pm with
  | Ok (_, pm', _) => pm_ok pm'
  | Fail _ => True
  end.
Proof.
  intros Hs Hpm. pose proof (fake_mp_table_spec msr_1b cpuid_eax cpuid_edx lapic_reg ioapic_reg s pm Hs) as H.
  destruct (fake_mp_table _ _ _ _ _ s pm) as [[[s' pm'] seg]|f]; [|done].
  destruct H as (u & c1 & c2 & _ & -> & _ & H1 & H2 & _). apply write_bytes_ok; [done|].
  assert (Hu : forall x, byte_ok (u8 x)) by (intros x; apply (wrap_range 8); lia).
  unfold bundle_bytes, flt_bytes, tbl_bytes, bytes_of_flt, bytes_of_conf, bytes_of_cpu, bytes_of_ioapic.
  cbn [oem_id prod_id features mp_flt mp_conf mp_cpu mp_ioapic replicate].
  unfold oem_id_chars, prod_id_chars.
  repeat first [apply Forall_app_2 | apply enc_ok | apply Forall_cons_2 | apply Forall_nil_2 | apply Hu];
    (exact H1 || exact H2 || by vm_compute).
Qed.


(** The MP specification gives a processor entry 20 bytes, [intel_mp_cpu_t] has 12: read by the
    specification's lengths, the second of the two entries that the header counts - the I/O
    APIC's - is skipped. *)
Lemma fake_mp_ioapic_skipped msr_1b cpuid_eax cpuid_edx lapic_reg ioapic_reg pm u c1 c2 :
  let pm' := write_bytes pm u (bundle_bytes msr_1b cpuid_eax cpuid_edx lapic_reg ioapic_reg u c1 c2) in
  m16 pm' (u + 32 + 34) = 2 /\ mp_walk pm' 10 (u + 76) (u + 32 + 64) = [(u + 76, MP_CPU)].
Proof.
  intros pm'. split.
  - unfold pm'. rewrite <- Z.add_assoc. by rewrite (bundle_m16 _ _ _ _ _ pm u c1 c2 (32 + 34) 2 0).
  - assert (E : pm' (u + 76) = 0) by (by apply bundle_at). cbn [mp_walk]. rewrite E. cbn [Z.eqb].
    destruct (Z.ltb_spec (u + 76) (u + 32 + 64)), (Z.ltb_spec (u + 76 + 20) (u + 32 + 64)); (lia || reflexivity).
Qed.

(** ** Witness *)

