(* ===== verification/Stage1.v ===== *)
(** * Stage 1 as a whole (src/stage1/main.c)

    [efi_main] runs the parts of stage 1 one after another: base memory, firmware volumes, the ACPI
    tables, the boot medium, the PCI devices, a page for the way out, the ELF program, and the
    hand-over.  The parts share the boot-services state of the firmware, the block table and the
    list of boot parameters in it, and physical memory.  The theorem puts the parts together: it
    is about what [run_stage2] is called with. *)

From stdpp Require Import sorting.
From S2P Require Import Prelude Util Bmem BmemInit Bparm BmemFini Rimg Phys Fv Pci Elf Handover Acpi Mp.

(** ** The configuration tables *)

(** The bytes of an EFI_GUID in memory. *)
Definition Acpi20TableGuid : list Z :=
  [0x71; 0xe8; 0x68; 0x88; 0xf1; 0xe4; 0xd3; 0x11; 0xbc; 0x22; 0x00; 0x80; 0xc7; 0x3c; 0x88; 0x81].

Definition no_rsdp : string := "no ACPI 2+ RSDP".
Definition no_loaded_image : string := "cannot get EFI_LOADED_IMAGE_PROTOCOL".
Definition no_trampoline : string := "cannot get mem. for trampoline & stk.".

(** The loop over the tables, each with [VendorGuid] and [VendorTable]. *)
Fixpoint find_rsdp_table (tabs : list (list Z * Z)) (rsdp : Z) : result Z :=
  match tabs with
  | [] => Ok rsdp
  | (vguid, tab) :: tabs =>
      c ← memcmp vguid Acpi20TableGuid 16;
      find_rsdp_table tabs (if c =? 0 then tab else rsdp)
  end.

Definition process_efi_conf_tables (L : acpi_layout) (pm : phys) (tabs : list (list Z * Z)) (st : bparms bmem)
    : result (bparms bmem) :=
  rsdp ← find_rsdp_table tabs NULL;
  if rsdp =? NULL then Fail (Error no_rsdp) else acpi_init L pm rsdp st.

(** ** Single calls of the firmware *)

(** [LibImageHandle]'s device, if it has the protocol. *)
Definition find_boot_media (device : option Z) : result Z := or_error no_loaded_image device.

(** What [GetVariable] stores for "SecureBoot", if it succeeds. *)
Definition test_if_secure_boot (data : option Z) : bool :=
  match data with Some d => negb (d =? 0) | None => false end.

Section stage1.
Context {fw : Type} `{HB : BootServices fw}.

Definition alloc_trampoline (w : fw) : result (Z * fw) :=
  '(addr, w) ← or_error no_trampoline (AllocatePages w 0x100000000 1);
  Ok (u32 addr, w).

(** ** [init] *)

Definition init (AllocatePool : nat -> gset Z -> Z) (sxn0 : list Z) (vs : list (option fv_volume)) (w : fw)
    : result (bmem * fw * fv_state) :=
  '(b, w) ← bmem_init w;
  fvs ← fv_init AllocatePool fv_state0 sxn0 vs;
  Ok (b, w, fvs).

(** ** [efi_main] *)

(** The machine: what the protocols answer, by the part of the program that asks. *)
Record machine := {
  AllocatePool : nat -> gset Z -> Z;
  section_buf : list Z;
  volumes : list (option fv_volume);
  acpi_tables : acpi_layout;
  conf_tables : list (list Z * Z);
  device_handle : option Z;
  secure_boot : option Z;
  pci_handles : list (option pci_io);
  media : Z -> medium;
  allocate_at : fw -> list (Z * Z) -> Z -> Z -> bool;
  msr_1b : Z; cpuid_eax : Z; cpuid_edx : Z;
  lapic_reg : Z -> Z; ioapic_reg : Z -> Z;
  GetTime : nat -> option efi_time;
  ExitBootServices : bool;
  (** memory after the firmware volumes have been looked through, which fills pool memory *)
  memory : fv_state -> phys;
}.

(** The arguments of [run_stage2], and the state it is called in. *)
Record handed := {
  h_entry : Z; h_trampoline : Z; h_base_kib : Z; h_ebda_seg : Z; h_bparms : Z;
  h_heap : gmap Z bparm_t; h_mem : phys; h_secure_boot_p : bool;
}.

(** The end of [efi_main], after [process_pci]; [xv6_compat] is whether XV6_COMPAT is defined. *)
Definition leave_uefi (xv6_compat : bool) (M : machine) (fuel : nat) (boot_media_handle : Z) (secure_boot_p : bool)
    (st : pci_st) (w : fw) : result handed :=
  '(trampoline, w) ← alloc_trampoline w;
  let ld := {| ld_mem := mem st; ld_pages := [(trampoline, 1)]; ld_frees := [] |} in
  let '(ld, entry) := load_stage2 (media M boot_media_handle) (allocate_at M w) ld in
  entry ← entry;
  '(b, pm, temp_ebda_seg) ←
    (if xv6_compat
     then fake_mp_table (msr_1b M) (cpuid_eax M) (cpuid_edx M) (lapic_reg M) (ioapic_reg M) (bp_alloc (bps st)) (ld_mem ld)
     else Ok (bp_alloc (bps st), ld_mem ld, 0));
  let st := {| bp_alloc := b; bp_heap := bp_heap (bps st); bp_head := bp_head (bps st); bp_tail := bp_tail (bps st) |} in
  '(base_kib, st) ← prepare_to_hand_over (GetTime M) (ExitBootServices M) fuel 0 w st;
  Ok {| h_entry := entry; h_trampoline := trampoline; h_base_kib := base_kib; h_ebda_seg := temp_ebda_seg;
        h_bparms := bparm_get st; h_heap := bp_heap st; h_mem := pm; h_secure_boot_p := secure_boot_p |}.

Definition efi_main (xv6_compat : bool) (M : machine) (fuel : nat) (w : fw) : result handed :=
  '(b, w, fvs) ← init (AllocatePool M) (section_buf M) (volumes M) w;
  let pm := memory M fvs in
  st ← process_efi_conf_tables (acpi_tables M) pm (conf_tables M) (bparms0 b);
  boot_media_handle ← find_boot_media (device_handle M);
  let secure_boot_p := test_if_secure_boot (secure_boot M) in
  st ← process_pci fvs (pci_handles M) {| bps := st; mem := pm |};
  leave_uefi xv6_compat M fuel boot_media_handle secure_boot_p st w.
End stage1.

(** ** The tables *)

(** The last entry with the GUID counts. *)
Definition rsdp_of (tabs : list (list Z * Z)) : option Z :=
  last (snd <$> List.filter (fun t => bool_decide (t.1 = Acpi20TableGuid)) tabs).

Lemma find_rsdp_table_spec tabs : forall r0,
  Forall (fun t => zlen t.1 = 16) tabs -> find_rsdp_table tabs r0 = Ok (default r0 (rsdp_of tabs)).
Proof.
  induction tabs as [|[g t] tabs IH]; intros r0 Hl; cbn [find_rsdp_table]; [done|].
  apply Forall_cons in Hl as [H1 Hl]. cbn [fst] in H1. unfold zlen in H1.
  destruct (memcmp_zero g Acpi20TableGuid 16 ltac:(lia) (Nat.eq_le_incl 16 _ eq_refl)) as (c & -> & Hc). cbn [mbind result_bind].
  rewrite (IH _ Hl), Hc, (take_ge g), (take_ge Acpi20TableGuid) by (lia || exact (Nat.eq_le_incl _ 16 eq_refl)). f_equal. unfold rsdp_of. cbn [List.filter fst].
  destruct (bool_decide_reflect (g = Acpi20TableGuid)) as [E|E]; [|done].
  rewrite fmap_cons, last_cons. by destruct (last _).
Qed.

Definition rsdp_node (a r sz : Z) : bp_view :=
  {| v_addr := a; v_type := BP_RSDP; v_size := sizeof_bdat_rsdp_t;
     v_data := BdatRsdp {| rsdp_phy_addr := r; rsdp_sz := sz |} |}.

Lemma stage1_repr0 b : bmem_inv b -> stage1_repr (bparms0 b) [].
Proof. intros H. split; [by apply bparms0_repr|]. by intros v ?%not_elem_of_nil. Qed.

(** [acpi_init] on a list that lies in the part that stage 2 gives back. *)
Lemma acpi_init_stage1 L pm r st l :
  stage1_repr st l ->
  match acpi_init L pm r st with
  | Ok st' => exists a sz, acpi_good L pm r (m64 pm (r + xsdp_xsdt L)) sz /\
      stage1_repr st' (l ++ [rsdp_node a r sz]) /\
      later (rom_of {| bps := st; mem := pm |}) (rom_of {| bps := st'; mem := pm |})
  | Fail f => f <> Diverges
  end.
Proof.
  intros Hs. unfold acpi_init. pose proof (acpi_check_spec L pm r) as Hc.
  destruct (acpi_check L pm r) as [sz|f]; cbn [mbind result_bind]; [|by destruct Hc as [[msg ->] _]].
  pose proof (bparm_add_ends st BP_RSDP sizeof_bdat_rsdp_t) as Hends.
  destruct (bparm_add st BP_RSDP sizeof_bdat_rsdp_t) as [[p st1]|f] eqn:Eadd; cbn [mbind result_bind].
  2: { intros ->. by apply Hends. }
  destruct (add_stage1 st l BP_RSDP sizeof_bdat_rsdp_t p st1 Hs ltac:(done) Eadd) as [[Hr1 Hb1] Ht1].
  destruct (add_node_later st st1 l p BP_RSDP sizeof_bdat_rsdp_t pm (s1_repr _ _ Hs) ltac:(done) Eadd) as [Hl _].
  destruct (bparm_store_repr st1 l _ (BdatRsdp {| rsdp_phy_addr := r; rsdp_sz := sz |}) Hr1) as (st2 & E & Ea & Hr2).
  cbn [v_addr] in E. replace (p - sizeof_bparm_t + sizeof_bparm_t) with p in E by lia. rewrite E.
  exists (p - sizeof_bparm_t), sz. split_and!; [done| |].
  - split; [exact Hr2|]. rewrite Ea. intros v [Hv| ->%list_elem_of_singleton]%elem_of_app.
    + apply Hb1, elem_of_app. by left.
    + pose proof (Hb1 _ (proj2 (elem_of_app _ _ _) (or_intror (proj2 (list_elem_of_singleton _ _) eq_refl)))) as H. exact H.
  - unfold rom_of. cbn [bps mem]. by rewrite Ea.
Qed.

(** ** What the machine promises *)

Section whole.
Context {fw : Type} `{HB : BootServices fw} `{HL : !BootServicesLaws fw}.

(** Memory that the firmware itself uses, or that is not base memory. *)
Definition in_use (w : fw) (a n : Z) : Prop :=
  forall x, in_range a n x -> EFI_PAGE_SIZE <= x < BMEM_MAX_ADDR -> page_free w (x / EFI_PAGE_SIZE) = false.

(** [file d name] is the file of that name on device [d]. *)
Record machine_ok (M : machine (fw := fw)) (file : Z -> string -> list Z) (w : fw) : Prop := {
  mk_map : forall w', Forall desc_ok (LibMemoryMap w') /\ Forall ext_desc_ok (LibMemoryMap w') /\
    StronglySorted desc_apart (LibMemoryMap w');
  (** not all of the first MiB is memory: there is the display's *)
  mk_video : forall s w', bmem_init w = Ok (s, w') -> exists p, 0 <= p < 256 /\ usable w w' p = false;
  mk_pool : forall k live, AllocatePool M k live ∉ live;
  mk_buf : bytes_ok (section_buf M) /\ MAX_OROM_SZ <= zlen (section_buf M);
  mk_volumes : forall v, Some v ∈ volumes M -> volume_ok v;
  mk_bytes : forall fvs, pm_ok (memory M fvs);
  (** the copies in pool memory are in memory *)
  mk_copies : forall fvs a bytes,
    fv_init (AllocatePool M) fv_state0 (section_buf M) (volumes M) = Ok fvs -> pool fvs !! a = Some bytes ->
    0 < a /\ region (memory M fvs) a (zlen bytes) = bytes /\ in_use w a (zlen bytes);
  mk_guids : Forall (fun t => zlen t.1 = 16) (conf_tables M);
  mk_pci : forall io, Some io ∈ pci_handles M -> reads_six io /\
    (RomImage io = 0 \/ RomSize io = 0 \/
     0 < RomImage io /\ 0 < RomSize io <= BMEM_MAX_ADDR /\ in_use w (RomImage io) (RomSize io));
  mk_bios : in_use w 0xc0000 0x40000;
  (** [AllocatePages] at an address: free pages, and none twice *)
  mk_free : forall w' ps a n x, allocate_at M w' ps a n = true -> in_range a (EFI_PAGE_SIZE * n) x ->
    page_free w' (x / EFI_PAGE_SIZE) = true;
  mk_pages : forall w', pages_ok (allocate_at M w');
  mk_files : forall d name, prog_ok (medium_read (media M d) name) (file d name);
  mk_no_wrap : forall d name phdrs entry ph,
    elf_header (file d name) phdrs entry -> ph ∈ phdrs -> loads ph -> no_wrap ph;
}.

(** ** What stage 2 is given *)

Definition rom_in_place (pm : phys) (d : bdat_pci_dev_t) : Prop :=
  rimg_seg d = 0 \/
  (0 < rimg_seg d /\ 16 * rimg_seg d + rimg_sz d <= BMEM_MAX_ADDR /\
   callable (region pm (16 * rimg_seg d) (rimg_sz d)) (rimg_sz d)).

(** The list has the RSDP first, then the devices, extended memory, the marks, base memory. *)
Record handed_ok (M : machine (fw := fw)) (file : Z -> string -> list Z) (xv6_compat : bool) (descs : list mem_desc)
    (pm : phys) (h : handed) (rsdp : bp_view) (ds : list (Z * bdat_pci_dev_t)) (ext vs : list bp_view) (v : bp_view)
    (d : bdat_bmem_t) : Prop := {
  ho_list : lseg (h_heap h) (h_bparms h) (rsdp :: (pci_view <$> ds) ++ ext ++ v :: vs) NULL;
  ho_rsdp : exists a r sz, rsdp = rsdp_node a r sz /\ rsdp_of (conf_tables M) = Some r /\
    acpi_good (acpi_tables M) pm r (m64 pm (r + xsdp_xsdt (acpi_tables M))) sz;
  ho_devs : dev_ids_of <$> ds = omap dev_of (pci_handles M);
  ho_roms : Forall (fun p => rom_in_place (h_mem h) p.2) ds;
  ho_display : exists p, p ∈ ds /\ is_display (class_if p.2) = true /\ rimg_seg p.2 <> 0;
  ho_ext : Forall2 is_mrng ext (mjoin (ext_range <$> descs));
  ho_base : base_reported descs vs;
  ho_marks : v_type v = BP_BMEM /\ v_data v = BdatBmem d /\
    16 * boottime_bmem_bot_seg d + 128 * KIBYTE <= 16 * runtime_bmem_top_seg d /\
    16 * runtime_bmem_top_seg d = KIBYTE * h_base_kib h /\ 192 <= h_base_kib h < 1024;
  ho_low : forall x, x ∈ rsdp :: (pci_view <$> ds) ++ ext ++ v :: vs ->
    EFI_PAGE_SIZE <= v_addr x /\ v_addr x + sizeof_bparm_t + v_size x <= 16 * boottime_bmem_bot_seg d;
  ho_program : exists dev name phdrs, device_handle M = Some dev /\ first_that_opens (media M dev) name /\
    elf_header (file dev name) phdrs (h_entry h) /\
    forall ph, ph ∈ phdrs -> loads ph -> seg_at (file dev name) (h_mem h) ph;
  ho_trampoline : (EFI_PAGE_SIZE | h_trampoline h) /\ BMEM_MAX_ADDR <= h_trampoline h /\
    h_trampoline h + EFI_PAGE_SIZE <= 2 ^ 32 /\
    forall x, in_range (h_trampoline h) EFI_PAGE_SIZE x -> h_mem h x = pm x;
  ho_ebda : 0 <= h_ebda_seg h < 2 ^ 16 /\
    if xv6_compat then mp_tables_at (msr_1b M) (lapic_reg M) (ioapic_reg M) (h_mem h) (16 * h_ebda_seg h)
            else h_ebda_seg h = 0;
  ho_secure : h_secure_boot_p h = true <-> exists x, secure_boot M = Some x /\ x <> 0;
  ho_bytes : pm_ok (h_mem h);
}.

(** ** The parts in turn *)

Context (M : machine (fw := fw)) (file : Z -> string -> list Z) (w : fw) (HM : machine_ok M file w).

(** [init]. *)
Lemma init_spec :
  match init (AllocatePool M) (section_buf M) (volumes M) w with
  | Ok (b, w', fvs) =>
      bmem_inv b /\ runtime_bmem_top b < BMEM_MAX_ADDR /\
      (forall x, bmem_free b x -> EFI_PAGE_SIZE <= x < BMEM_MAX_ADDR /\ page_free w (x / EFI_PAGE_SIZE) = true) /\
      (forall p, 0 <= p < 256 -> page_free w' p = false) /\
      fv_init (AllocatePool M) fv_state0 (section_buf M) (volumes M) = Ok fvs /\
      forall id c, exists r, fv_find_rimg fvs id c = Ok r /\
        forall copy sz, r = Some (copy, sz) -> stored fvs (entry c copy sz id)
  | Fail f => f <> Diverges
  end.
Proof.
  destruct HM as [H1 H2 H3 [H4 H5] H6 _ _ _ _ _ _ _ _ _]. unfold init.
  destruct (bmem_init_spec w ltac:(intros w'; apply H1)) as (w' & n & Hnone & Hn & Hpre & Hend & Hcase).
  destruct Hcase as [[_ E]|[[_ E]|[Hge (s & E & Hinv & Ht & _ & _ & Hfree)]]]; rewrite E; cbn [mbind result_bind]; try done.
  pose proof (fv_init_spec (AllocatePool M) (section_buf M) (volumes M) H3 H4 H5 H6) as Hf.
  destruct (fv_init _ _ _ _) as [fvs|f] eqn:Ef; cbn [mbind result_bind].
  - split_and!; try done; [|intros x; apply Hfree]. destruct (H2 s w' E) as (p & Hp & Hu).
    destruct (decide (p < n)) as [Hlt|]; [by rewrite Hpre in Hu by lia|]. rewrite Ht. zsolve.
  - unfold out_of_pool in Hf. intros ->. naive_solver.
Qed.

(** Memory in use is never handed out. *)
Lemma in_use_held b a n pm :
  (forall x, bmem_free b x -> EFI_PAGE_SIZE <= x < BMEM_MAX_ADDR /\ page_free w (x / EFI_PAGE_SIZE) = true) ->
  in_use w a n -> held {| bm := b; pm := pm |} a n.
Proof. intros Hb Hu x Hx Hf. destruct (Hb x Hf) as [Hr Hp]. by rewrite (Hu x Hx Hr) in Hp. Qed.

Lemma init_sources b fvs :
  bmem_inv b ->
  (forall x, bmem_free b x -> EFI_PAGE_SIZE <= x < BMEM_MAX_ADDR /\ page_free w (x / EFI_PAGE_SIZE) = true) ->
  fv_init (AllocatePool M) fv_state0 (section_buf M) (volumes M) = Ok fvs ->
  (forall id c, exists r, fv_find_rimg fvs id c = Ok r /\
     forall copy sz, r = Some (copy, sz) -> stored fvs (entry c copy sz id)) ->
  sources fvs (pci_handles M) {| bm := b; pm := memory M fvs |}.
Proof.
  intros Hinv Hfree Ef Hfind. pose proof HM as [_ _ _ _ _ H6 H7 _ H9 H10 _ _ _ _]. split.
  - exact Hinv.
  - apply H6.
  - intros io Hio. destruct (H9 io Hio) as [_ [?|[?|(R1 & R2 & R3)]]]; [by left|by right; left|].
    right; right. split_and!; [exact R1|apply R2|apply R2|by apply in_use_held].
  - apply fvs_held_stored; [exact Hfind|]. intros a bytes Ha. destruct (H7 fvs a bytes Ef Ha) as (P1 & P2 & P3).
    split_and!; [exact P1|exact P2|by apply in_use_held].
  - by apply in_use_held.
Qed.
End whole.

(** A list under another state of the allocator. *)
Lemma stage1_alloc (st : bparms bmem) l b :
  stage1_repr st l -> bmem_inv b -> (forall x, bmem_free b x -> bmem_free (bp_alloc st) x) -> marks_move (bp_alloc st) b ->
  stage1_repr {| bp_alloc := b; bp_heap := bp_heap st; bp_head := bp_head st; bp_tail := bp_tail st |} l.
Proof.
  intros [Hr Hb] Hi Hf [Hm _]. split; [by apply repr_alloc|]. intros v Hv. destruct (Hb v Hv). cbn [bp_alloc]. split; lia.
Qed.

Lemma process_pci_stage1 fvs ios st l :
  stage1_repr (bps st) l -> sources fvs ios (rom_of st) -> (forall io, Some io ∈ ios -> reads_six io) ->
  match process_pci fvs ios st with
  | Ok st' => exists ds, stage1_repr (bps st') (l ++ (pci_view <$> ds)) /\ later (rom_of st) (rom_of st') /\
      dev_ids_of <$> ds = omap dev_of ios /\ Forall (fun d => rom_ok (rom_of st') d.2) ds /\
      exists d, d ∈ ds /\ is_display (class_if d.2) = true /\ rimg_seg d.2 <> 0
  | Fail f => f <> Diverges
  end.
Proof.
  intros [Hr Hb] Hs Hsix. pose proof (process_pci_spec fvs ios st l Hr Hs Hsix) as H.
  destruct (process_pci _ _ _) as [st'|f]; [|done]. destruct H as (ds & vga & [A1 A2 A3 A4 A5 _] & Hd).
  exists ds. split_and!; try done. split; [exact A2|].
  intros v [Hv|(d & -> & Hin)%list_elem_of_fmap]%elem_of_app.
  - destruct (Hb v Hv). pose proof (later_marks _ _ A1) as [Hm _]. cbn [rom_of bm] in Hm. split; lia.
  - rewrite Forall_forall in A5. destruct (A5 d Hin). by split.
Qed.

(** The tables for XV6_COMPAT, or none. *)
Lemma ebda_spec (xv6_compat : bool) msr_1b cpuid_eax cpuid_edx lapic_reg ioapic_reg b pm :
  bmem_inv b ->
  match (if xv6_compat then fake_mp_table msr_1b cpuid_eax cpuid_edx lapic_reg ioapic_reg b pm else Ok (b, pm, 0)) with
  | Ok (b', pm', seg) => bmem_inv b' /\ (forall x, bmem_free b' x -> bmem_free b x) /\ marks_move b b' /\
      (forall x, ~ bmem_free b x -> pm' x = pm x) /\ (pm_ok pm -> pm_ok pm') /\
      0 <= seg < 2 ^ 16 /\ if xv6_compat then mp_tables_at msr_1b lapic_reg ioapic_reg pm' (16 * seg) else seg = 0
  | Fail f => f <> Diverges
  end.
Proof.
  intros Hb. destruct xv6_compat; [|split_and!; try done; lia].
  pose proof (fake_mp_table_facts msr_1b cpuid_eax cpuid_edx lapic_reg ioapic_reg b pm Hb) as H.
  pose proof (fake_mp_table_bytes msr_1b cpuid_eax cpuid_edx lapic_reg ioapic_reg b pm Hb) as Hok.
  destruct (fake_mp_table _ _ _ _ _ _ _) as [[[b' pm'] seg]|f]; [|by rewrite H].
  destruct H as (H1 & H2 & H3 & H4 & H5 & H6 & H7). split_and!; try done; try apply H6; try apply H7.
  intros x Hx. apply H3. intros Hin. by apply Hx, H2.
Qed.

(** ** The trampoline and the program *)

Section program.
Context {fw : Type} `{HB : BootServices fw} `{HL : !BootServicesLaws fw}.

Lemma alloc_trampoline_spec (w : fw) :
  (forall p, 0 <= p < 256 -> page_free w p = false) ->
  match alloc_trampoline w with
  | Ok (tr, w') => (EFI_PAGE_SIZE | tr) /\ BMEM_MAX_ADDR <= tr /\ tr + EFI_PAGE_SIZE <= 2 ^ 32 /\
      forall p, 0 <= p < 256 -> page_free w' p = false
  | Fail f => f <> Diverges
  end.
Proof.
  intros Hw. unfold alloc_trampoline. destruct (AllocatePages w 0x100000000 1) as [[a w']|] eqn:E; cbn [or_error mbind result_bind]; [|done].
  destruct (AllocatePages_grant w 0x100000000 1 a w' ltac:(lia) E) as (p & -> & Hp & Hmax & Hfree & Hrest).
  assert (Hp256 : 256 <= p).
  { destruct (decide (p < 256)); [|lia]. pose proof (Hfree p ltac:(lia)) as H. by rewrite Hw in H by lia. }
  change EFI_PAGE_SIZE with 4096 in *. change BMEM_MAX_ADDR with 0x100000. rewrite wrap_small by lia.
  split_and!; [by exists p|lia|lia|]. intros q Hq. by rewrite Hrest, Hw by lia.
Qed.

(** Pages that were granted are not base memory. *)
Lemma granted_high (w : fw) alloc_pages new old p x :
  (forall q, 0 <= q < 256 -> page_free w q = false) ->
  (forall ps a n x, alloc_pages ps a n = true -> in_range a (EFI_PAGE_SIZE * n) x -> page_free w (x / EFI_PAGE_SIZE) = true) ->
  granted alloc_pages new old -> p ∈ new -> page_bytes p x -> ~ 0 <= x < BMEM_MAX_ADDR.
Proof.
  intros Hw Hal [Hg _] Hp Hx Hr. rewrite Forall_forall in Hg. destruct (Hg p Hp) as [ps Hps].
  pose proof (Hal ps p.1 p.2 x Hps Hx) as H. change EFI_PAGE_SIZE with 4096 in H. change BMEM_MAX_ADDR with 0x100000 in Hr.
  rewrite Hw in H by dlia. done.
Qed.

(** [load_stage2] leaves base memory and the page of the trampoline alone, and its segments lie
    elsewhere. *)
Lemma load_stage2_apart (w : fw) md alloc_pages (file : string -> list Z) pm tr :
  (forall q, 0 <= q < 256 -> page_free w q = false) ->
  (forall ps a n x, alloc_pages ps a n = true -> in_range a (EFI_PAGE_SIZE * n) x -> page_free w (x / EFI_PAGE_SIZE) = true) ->
  pages_ok alloc_pages -> (forall name, prog_ok (medium_read md name) (file name)) ->
  (forall name phdrs entry ph, elf_header (file name) phdrs entry -> ph ∈ phdrs -> loads ph -> no_wrap ph) ->
  match load_stage2 md alloc_pages {| ld_mem := pm; ld_pages := [(tr, 1)]; ld_frees := [] |} with
  | (st', r) =>
      (forall x, 0 <= x < BMEM_MAX_ADDR \/ in_range tr EFI_PAGE_SIZE x -> ld_mem st' x = pm x) /\
      match r with
      | Ok entry => exists name phdrs, first_that_opens md name /\ elf_header (file name) phdrs entry /\
          forall ph, ph ∈ phdrs -> loads ph -> seg_at (file name) (ld_mem st') ph /\
            forall i, 0 <= i < p_memsz ph -> ~ 0 <= p_paddr ph + i < BMEM_MAX_ADDR
      | Fail f => f <> Diverges
      end
  end.
Proof.
  intros Hw Hal Hp Hf Hn.
  pose proof (load_stage2_spec md alloc_pages file {| ld_mem := pm; ld_pages := [(tr, 1)]; ld_frees := [] |} Hf Hp Hn) as H.
  destruct (load_stage2 _ _ _) as [st' r]. destruct H as (new & _ & Hmem & Hg & Hr). cbn [ld_mem ld_pages] in *. split.
  - intros x Hx. destruct (decide (ld_mem st' x = pm x)) as [|Hne]; [done|]. exfalso.
    destruct (Hmem x Hne) as (p & Hpn & Hpx). destruct Hx as [Hx|Hx].
    + by apply (granted_high w alloc_pages new _ p x Hw Hal Hg Hpn Hpx).
    + apply (proj2 Hg p (tr, 1) x Hpn ltac:(by left) Hpx). unfold page_bytes. by rewrite Z.mul_1_r.
  - destruct r as [entry|f]; [|by destruct Hr as [msg ->]]. destruct Hr as (name & phdrs & H1 & H2 & H3).
    exists name, phdrs. split_and!; [done|done|]. intros ph Hin Hl. destruct (H3 ph Hin Hl) as [Hpg Hseg].
    split; [done|]. intros i Hi. apply (granted_high w alloc_pages new _ (seg_pages ph) _ Hw Hal Hg Hpg).
    apply seg_in_pages; [|done]. rewrite (elf_phdrs _ _ _ H2) in Hin. apply list_elem_of_fmap in Hin as (j & -> & _).
    apply phdr_at_ok, Hf.
Qed.
End program.

Lemma seg_at_ext file pm pm' ph :
  seg_at file pm ph -> (forall i, 0 <= i < p_memsz ph -> pm' (p_paddr ph + i) = pm (p_paddr ph + i)) -> seg_at file pm' ph.
Proof. intros H He i Hi. rewrite He by done. by apply H. Qed.

(** A ROM stays in place while memory outside free base memory does. *)
Lemma rom_stays st d pm' :
  rom_ok st d -> (forall x, 0 <= x < BMEM_MAX_ADDR -> ~ bmem_free (bm st) x -> pm' x = pm st x) -> rom_in_place pm' d.
Proof.
  intros [H|(H1 & H2 & H3 & H4)] Hpm; [by left|right]. split_and!; [done|done|].
  rewrite (region_ext (pm st) pm' (16 * rimg_seg d) (16 * rimg_seg d) (rimg_sz d)); [done|].
  intros i Hi. apply Hpm; [lia|]. apply H4. unfold in_range. lia.
Qed.

Lemma secure_boot_spec o : test_if_secure_boot o = true <-> exists x, o = Some x /\ x <> 0.
Proof.
  destruct o as [x|]; cbn; [|naive_solver]. destruct (Z.eqb_spec x 0); cbn; naive_solver.
Qed.

(** ** The whole *)

(** From the trampoline on: what is added to a list [l]. *)
Lemma leave_uefi_spec {fw : Type} `{HB : BootServices fw} `{HL : !BootServicesLaws fw}
    (M : machine (fw := fw)) (file : Z -> string -> list Z) (w0 w : fw) (xv6_compat secure_boot_p : bool) (st : pci_st)
    (l : list bp_view) dev fuel t :
  machine_ok M file w0 -> ticking (GetTime M) t fuel -> stage1_repr (bps st) l ->
  runtime_bmem_top (bp_alloc (bps st)) < BMEM_MAX_ADDR ->
  (forall p, 0 <= p < 256 -> page_free w p = false) ->
  match leave_uefi xv6_compat M fuel dev secure_boot_p st w with
  | Ok h => exists w' ext v vs d,
      lseg (h_heap h) (h_bparms h) (l ++ ext ++ v :: vs) NULL /\
      Forall2 is_mrng ext (mjoin (ext_range <$> LibMemoryMap w')) /\ base_reported (LibMemoryMap w') vs /\
      (v_type v = BP_BMEM /\ v_data v = BdatBmem d /\
       16 * boottime_bmem_bot_seg d + 128 * KIBYTE <= 16 * runtime_bmem_top_seg d /\
       16 * runtime_bmem_top_seg d = KIBYTE * h_base_kib h /\ 192 <= h_base_kib h < 1024) /\
      (forall x, x ∈ l ++ ext ++ v :: vs ->
        EFI_PAGE_SIZE <= v_addr x /\ v_addr x + sizeof_bparm_t + v_size x <= 16 * boottime_bmem_bot_seg d) /\
      (forall x, 0 <= x < BMEM_MAX_ADDR -> ~ bmem_free (bp_alloc (bps st)) x -> h_mem h x = mem st x) /\
      (exists name phdrs, first_that_opens (media M dev) name /\ elf_header (file dev name) phdrs (h_entry h) /\
        forall ph, ph ∈ phdrs -> loads ph -> seg_at (file dev name) (h_mem h) ph) /\
      ((EFI_PAGE_SIZE | h_trampoline h) /\ BMEM_MAX_ADDR <= h_trampoline h /\ h_trampoline h + EFI_PAGE_SIZE <= 2 ^ 32 /\
       forall x, in_range (h_trampoline h) EFI_PAGE_SIZE x -> h_mem h x = mem st x) /\
      (0 <= h_ebda_seg h < 2 ^ 16 /\
       if xv6_compat then mp_tables_at (msr_1b M) (lapic_reg M) (ioapic_reg M) (h_mem h) (16 * h_ebda_seg h)
       else h_ebda_seg h = 0) /\
      h_secure_boot_p h = secure_boot_p /\ (pm_ok (mem st) -> pm_ok (h_mem h))
  | Fail f => f <> Diverges
  end.
Proof.
  intros HM Hclock Hs Htop Hw. unfold leave_uefi. pose proof HM as [Hmap _ _ _ _ _ _ _ _ _ Hal Hpg Hfiles Hnw].
  pose proof (alloc_trampoline_spec w Hw) as Ht.
  destruct (alloc_trampoline w) as [[tr w1]|f]; cbn [mbind result_bind]; [|done]. destruct Ht as (T1 & T2 & T3 & Hw1).
  pose proof (load_stage2_apart w1 (media M dev) (allocate_at M w1) (file dev) (mem st) tr Hw1 (Hal w1) (Hpg w1) (Hfiles dev) (Hnw dev)) as Hl.
  pose proof (load_stage2_bytes (media M dev) (allocate_at M w1) (file dev)
    {| ld_mem := mem st; ld_pages := [(tr, 1)]; ld_frees := [] |} (Hfiles dev)) as Hbytes. cbn [ld_mem] in Hbytes.
  cbv zeta. destruct (load_stage2 _ _ _) as [ld [entry|f]]; destruct Hl as [Hbase Hl]; cbn [mbind result_bind]; [|done].
  destruct Hl as (name & phdrs & P1 & P2 & P3).
  pose proof (ebda_spec xv6_compat (msr_1b M) (cpuid_eax M) (cpuid_edx M) (lapic_reg M) (ioapic_reg M)
    (bp_alloc (bps st)) (ld_mem ld) (repr_inv _ _ (s1_repr _ _ Hs))) as He.
  destruct (if xv6_compat then _ else _) as [[[b pm'] seg]|f]; cbn [mbind result_bind]; [|done].
  destruct He as (E1 & E2 & E3 & E4 & E6 & [E7 E7'] & E5). pose proof (stage1_alloc _ _ b Hs E1 E2 E3) as Hs1.
  assert (Hfree : forall x, bmem_free (bp_alloc (bps st)) x -> 0 <= x < BMEM_MAX_ADDR).
  { intros x (i & c & Hc & Hx). pose proof (inv_blk _ (repr_inv _ _ (s1_repr _ _ Hs)) i c Hc) as Hok.
    unfold blk_ok in Hok. zsolve. }
  set (st1 := {| bp_alloc := b; bp_heap := _; bp_head := _; bp_tail := _ |}) in *.
  pose proof (prepare_ends (GetTime M) t (ExitBootServices M) fuel 0 w1 st1 Hclock) as Hends.
  destruct (prepare_to_hand_over _ _ _ _ _ _) as [[base_kib st2]|f] eqn:Ep; cbn [mbind result_bind].
  2: { intros ->. by apply Hends. }
  destruct (hand_over_spec (GetTime M) (ExitBootServices M) fuel 0 w1 st1 l base_kib st2 Hs1 ltac:(apply Hmap)
    ltac:(destruct E3 as [_ E3]; cbn [st1 bp_alloc]; lia) Ep) as (ext & v & vs & d & O1 & O2 & O3 & O4 & O5 & O6 & O7 & O8 & O10 & O9).
  exists w1, ext, v, vs, d. cbn [h_heap h_bparms h_mem h_entry h_trampoline h_ebda_seg h_base_kib h_secure_boot_p].
  assert (O11 : runtime_bmem_top (bp_alloc st1) < BMEM_MAX_ADDR) by (destruct E3 as [_ E3]; cbn [st1 bp_alloc]; lia).
  split_and!; try done.
  - clear - O7 O10 O11. zsolve.
  - intros x Hx Hnf. rewrite E4 by done. apply Hbase. by left.
  - exists name, phdrs. split_and!; [done|done|]. intros ph Hin Hld. destruct (P3 ph Hin Hld) as [Hseg Hhigh].
    apply (seg_at_ext _ (ld_mem ld)); [done|]. intros i Hi. apply E4. intros Hf. by apply (Hhigh i Hi), Hfree.
  - intros x Hx. rewrite E4; [apply Hbase; by right|]. intros Hf. apply Hfree in Hf. unfold in_range in Hx. lia.
  - intros Hpm. by apply E6, Hbytes.
Qed.

Lemma efi_main_spec {fw : Type} `{HB : BootServices fw} `{HL : !BootServicesLaws fw}
    (M : machine (fw := fw)) file (w : fw) xv6_compat fuel t :
  machine_ok M file w -> ticking (GetTime M) t fuel ->
  match efi_main xv6_compat M fuel w with
  | Ok h => exists fvs w' rsdp ds ext vs v d,
      handed_ok M file xv6_compat (LibMemoryMap w') (memory M fvs) h rsdp ds ext vs v d
  | Fail f => f <> Diverges
  end.
Proof.
  intros HM Hclock. unfold efi_main. pose proof (init_spec M file w HM) as Hi.
  destruct (init _ _ _ w) as [[[b w1] fvs]|f]; cbn [mbind result_bind]; [|done].
  destruct Hi as (Hinv & Htop & Hfree & Hw1 & Ef & Hfind). cbv zeta. set (pm := memory M fvs).
  unfold process_efi_conf_tables. rewrite (find_rsdp_table_spec _ _ (mk_guids _ _ _ HM)). cbn [mbind result_bind].
  destruct (Z.eqb_spec (default NULL (rsdp_of (conf_tables M))) NULL) as [|Hr]; [done|].
  destruct (rsdp_of (conf_tables M)) as [r|] eqn:Er; [|done]. cbn [default] in *.
  pose proof (acpi_init_stage1 (acpi_tables M) pm r (bparms0 b) [] (stage1_repr0 b Hinv)) as Ha.
  destruct (acpi_init _ _ _ _) as [st1|f]; cbn [mbind result_bind]; [|done]. destruct Ha as (a & sz & Hgood & Hs1 & L1).
  unfold find_boot_media. destruct (device_handle M) as [dev|] eqn:Edev; cbn [or_error mbind result_bind]; [|done].
  pose proof (process_pci_stage1 fvs (pci_handles M) {| bps := st1; mem := pm |} _ Hs1
    (sources_later _ _ _ _ L1 (init_sources M file w HM b fvs Hinv Hfree Ef Hfind))
    (fun io Hio => proj1 (mk_pci _ _ _ HM io Hio))) as Hp.
  destruct (process_pci _ _ _) as [st2|f]; cbn [mbind result_bind]; [|done].
  destruct Hp as (ds & Hs2 & L2 & D1 & D2 & D3). cbn [app] in Hs2.
  assert (Ht2 : runtime_bmem_top (bp_alloc (bps st2)) < BMEM_MAX_ADDR).
  { pose proof (later_marks _ _ L1) as [_ M1]. pose proof (later_marks _ _ L2) as [_ M2]. cbn in M1, M2. lia. }
  pose proof (leave_uefi_spec M file w w1 xv6_compat (test_if_secure_boot (secure_boot M)) st2 _ dev fuel t HM Hclock Hs2 Ht2 Hw1) as H.
  destruct (leave_uefi _ _ _ _ _ _ _) as [h|f]; [|done].
  destruct H as (w' & ext & v & vs & d & F1 & F2 & F3 & F4 & F5 & F6 & F7 & F8 & F9 & F10 & F11).
  exists fvs, w', (rsdp_node a r sz), ds, ext, vs, v, d. split; try done.
  - by exists a, r, sz.
  - eapply Forall_impl; [exact D2|]. intros p Hp. by apply (rom_stays (rom_of st2)).
  - destruct F7 as (name & phdrs & F7). by exists dev, name, phdrs.
  - destruct F8 as (G1 & G2 & G3 & G4). split_and!; try done. intros x Hx. rewrite G4 by done.
    assert (Hn : ~ bmem_free b x).
    { intros Hf. destruct (Hfree x Hf). unfold in_range in Hx. lia. }
    apply (later_mem _ _ L2 x). intros Hf. by apply Hn, (later_free _ _ L1).
  - rewrite F10. apply secure_boot_spec.
  - apply F11, (later_ok _ _ L2), (mk_bytes _ _ _ HM).
Qed.


(** ** A concrete machine *)

(** The firmware of [BmemInit] with two free pages above 1 MiB. *)
Definition demo1_fw : list Z := fw_pages ++ [0x300; 0x100].

Definition demo1_mem : phys := fun x =>
  if (0x200000 <=? x) && (x <? 0x200200) then le8 demo_rimg (x - 0x200000) else demo2_tables x.

Definition demo1_grant (w : list Z) (ps : list (Z * Z)) (a n : Z) : bool :=
  (a mod EFI_PAGE_SIZE =? 0) && forallb (fw_free w) (seqZ (a / EFI_PAGE_SIZE) n) && demo_pages ps a n.

Definition demo1 : machine (fw := list Z) := {|
  AllocatePool := demo_pool;
  section_buf := demo_sxn;
  volumes := [];
  acpi_tables := acpi_spec_layout;
  conf_tables := [(replicate 16 0, 0x1234); (Acpi20TableGuid, 0x7fe10000)];
  device_handle := Some 7;
  secure_boot := None;
  pci_handles := [Some demo_io];
  media := fun _ => demo_medium;
  allocate_at := demo1_grant;
  msr_1b := 0xfee00900; cpuid_eax := 0x306a9; cpuid_edx := 0xbfebfbff;
  lapic_reg := fun _ => 0x15; ioapic_reg := fun _ => 0x02000011;
  GetTime := demo_time;
  ExitBootServices := true;
  memory := fun _ => demo1_mem;
|}.

Lemma demo1_free p : fw_free demo1_fw p = true -> 0 <= p < 160 \/ p = 0x300 \/ p = 0x100.
Proof.
  unfold fw_free. intros H%bool_decide_eq_true. unfold demo1_fw, fw_pages in H.
  rewrite !elem_of_app, !elem_of_seqZ, !elem_of_cons in H. destruct H as [[?|?]|[?|[?|?%not_elem_of_nil]]]; lia || done.
Qed.

Lemma demo1_in_use a n : (BMEM_MAX_ADDR <= a \/ 0xa0000 <= a /\ a + n <= BMEM_MAX_ADDR) -> in_use demo1_fw a n.
Proof.
  intros Ha x Hx Hr. change (fw_free demo1_fw (x / EFI_PAGE_SIZE) = false). apply not_true_is_false. intros H%demo1_free.
  unfold in_range in Hx. change EFI_PAGE_SIZE with 4096 in *. change BMEM_MAX_ADDR with 0x100000 in *. dlia.
Qed.

Lemma demo1_bytes : pm_ok demo1_mem.
Proof. intros x. unfold demo1_mem. destruct (_ && _); [apply le8_range, demo_rimg_bytes|apply demo2_bytes]. Qed.

Lemma demo1_video s w' : bmem_init demo1_fw = Ok (s, w') -> exists p, 0 <= p < 256 /\ usable demo1_fw w' p = false.
Proof. intros _. exists 200. split; [lia|]. vm_compute. reflexivity. Qed.

Lemma demo1_fw_map_ok (w' : list Z) : Forall desc_ok (LibMemoryMap w') /\ Forall ext_desc_ok (LibMemoryMap w') /\
  StronglySorted desc_apart (LibMemoryMap w').
Proof.
  split; [apply fw_map_ok|]. split; [repeat constructor; cbn; vm_compute; done|].
  sorted_pairs; unfold desc_apart, disjoint_ranges; cbn; zsolve.
Qed.

Lemma demo1_free_pages w' ps a n x :
  demo1_grant w' ps a n = true -> in_range a (EFI_PAGE_SIZE * n) x -> fw_free w' (x / EFI_PAGE_SIZE) = true.
Proof.
  unfold demo1_grant. intros [[Ha%Z.eqb_eq Hf]%andb_true_iff _]%andb_true_iff Hx.
  rewrite forallb_forall in Hf. apply Hf, list_elem_of_In, elem_of_seqZ. unfold in_range in Hx.
  change EFI_PAGE_SIZE with 4096 in *. dlia.
Qed.

Lemma demo1_ok : machine_ok demo1 (fun _ _ => demo_elf) demo1_fw.
Proof.
  split.
  - exact demo1_fw_map_ok.
  - exact demo1_video.
  - intros k live. exact (proj1 (demo_pool_fresh k live)).
  - exact demo_sxn_ok.
  - intros v H. by apply not_elem_of_nil in H.
  - intros fvs. exact demo1_bytes.
  - intros fvs a bytes E. cbn in E. injection E as <-. cbn [fv_state0 pool]. by rewrite lookup_empty.
  - repeat constructor.
  - intros io H. split; [by apply demo_reads_six|]. apply list_elem_of_singleton in H as [= ->]. right; right.
    cbn [demo_io RomImage RomSize]. split_and!; [lia|lia|done|]. apply demo1_in_use. left. done.
  - apply demo1_in_use. right. split; done.
  - exact demo1_free_pages.
  - intros w' ps a n H. apply (demo_pages_ok ps a n). by apply andb_true_iff in H as [_ H].
  - intros d name. exact demo_prog_ok.
  - intros d name. exact demo_no_wrap.
Qed.

Lemma demo1_ticking : ticking demo_time demo_ticks 20.
Proof.
  split; [exact demo_clock|]. intros k. split.
  - exists (S k). split; [lia|]. unfold clock_at, demo_ticks, ns. cbn [Second Nanosecond]. intros [_ H]. dlia.
  - exists (k + 3)%nat. split; [lia|]. unfold demo_ticks, ns. lia.
Qed.

