(* ===== verification/Boot.v ===== *)
(** * From stage 1 to stage 2 (src/stage1/main.c, src/stage1/run-stage2.asm, src/stage2/main.c)

    The list of boot parameters is the interface between the two programs: [Stage1] says what
    [efi_main] leaves in memory, [Stage2] and [Irq] read it.  [handed_readable] says that the nodes
    are such as stage 2 can read, [handed_memory_ok] that their ranges are a memory map it can work
    with, and [machine_boots] runs the two programs one after the other, with [run_stage2] between
    them: whatever the machine, stage 2 comes to its end on the list and the memory that it is
    entered with, and calls exactly the option ROMs that stage 1 has put in place. *)

From stdpp Require Import sorting.
From S2P Require Import Prelude Kb Util Bmem BmemInit Bparm BmemFini MemMap Paging Va AddrSpace VaLive Rimg Phys Fv Pci Elf Handover Acpi Irq RunStage2 Rm16 Stage2 Mp Stage1.

(** ** What the readers see of a node that stage 1 writes *)

Lemma is_mrng_data v d : is_mrng v d -> pcid_data v = [] /\ mrng_data v = [(v_addr v, d)].
Proof. intros (E & _ & Ed). unfold pcid_data, mrng_data. by rewrite E, Ed. Qed.

Lemma some_mrng_pcid l : Forall some_mrng l -> Forall pcid_ok l /\ Forall mrng_ok l /\ devices l = [].
Proof.
  induction 1 as [|v l [d Hd] _ (IH1 & IH2 & IH3)]; [done|]. pose proof Hd as (Et & _ & Ed).
  split_and!; [constructor; [|done]; intros E; by rewrite Et in E|constructor; [|done]; by eexists|].
  unfold devices. rewrite fmap_cons. cbn [mjoin list_join]. by rewrite (proj1 (is_mrng_data v d Hd)).
Qed.

Lemma pci_views_data ds :
  Forall pcid_ok (pci_view <$> ds) /\ Forall mrng_ok (pci_view <$> ds) /\ devices (pci_view <$> ds) = snd <$> ds.
Proof.
  induction ds as [|p ds (IH1 & IH2 & IH3)]; [done|]. rewrite !fmap_cons.
  split_and!; [constructor; [|done]; by eexists|constructor; [|done]; by intros E|].
  change (devices (pci_view p :: (pci_view <$> ds))) with ([p.2] ++ devices (pci_view <$> ds)). by rewrite IH3.
Qed.

Lemma devices_app l1 l2 : devices (l1 ++ l2) = devices l1 ++ devices l2.
Proof. unfold devices. by rewrite fmap_app, join_app. Qed.

(** The whole list. *)
Lemma handed_readable {fw : Type} `{HB : BootServices fw} (M : machine (fw := fw)) file xv6_compat descs pm h rsdp ds ext vs v d :
  handed_ok M file xv6_compat descs pm h rsdp ds ext vs v d ->
  let l := rsdp :: (pci_view <$> ds) ++ ext ++ v :: vs in
  Forall pcid_ok l /\ Forall mrng_ok l /\ devices l = snd <$> ds.
Proof.
  intros H l. destruct (ho_rsdp _ _ _ _ _ _ _ _ _ _ _ _ H) as (a & r & sz & -> & _).
  destruct (ho_marks _ _ _ _ _ _ _ _ _ _ _ _ H) as (Et & _).
  destruct (some_mrng_pcid ext (Forall2_some_mrng _ _ (ho_ext _ _ _ _ _ _ _ _ _ _ _ _ H))) as (X1 & X2 & X3).
  destruct (ho_base _ _ _ _ _ _ _ _ _ _ _ _ H) as (base & Hbase & _).
  destruct (some_mrng_pcid vs (Forall2_some_mrng _ _ Hbase)) as (Y1 & Y2 & Y3).
  destruct (pci_views_data ds) as (Z1 & Z2 & Z3).
  assert (V1 : pcid_ok v) by (intros E; by rewrite Et in E). assert (V2 : mrng_ok v) by (intros E; by rewrite Et in E).
  assert (Dv : pcid_data v = []) by (unfold pcid_data; by rewrite Et).
  split_and!.
  - constructor; [by intros E|]. apply Forall_app_2; [done|]. apply Forall_app_2; [done|]. by constructor.
  - constructor; [by intros E|]. apply Forall_app_2; [done|]. apply Forall_app_2; [done|]. by constructor.
  - unfold l. change (rsdp_node a r sz :: ?x) with ([rsdp_node a r sz] ++ x).
    change (v :: vs) with ([v] ++ vs). rewrite !devices_app, X3, Y3, Z3.
    change (devices [v]) with (pcid_data v ++ []).
    change (devices [rsdp_node a r sz]) with (@nil bdat_pci_dev_t). rewrite Dv. cbn [app]. by rewrite app_nil_r.
Qed.

(** ** The memory map of the list *)

Lemma mranges_app l1 l2 : mranges (l1 ++ l2) = mranges l1 ++ mranges l2.
Proof. unfold mranges. by rewrite fmap_app, join_app. Qed.

Lemma mranges_mrng vs es : Forall2 is_mrng vs es -> mranges vs = zip (v_addr <$> vs) es.
Proof.
  induction 1 as [|v e vs es Hv _ IH]; [done|].
  change (mranges (v :: vs)) with (mrng_data v ++ mranges vs). by rewrite (proj2 (is_mrng_data v e Hv)), IH.
Qed.

Lemma mranges_pci ds : mranges (pci_view <$> ds) = [].
Proof. induction ds as [|p ds IH]; [done|exact IH]. Qed.

(** Addresses of nodes that are different and in base memory are not many. *)
Lemma low_addrs_few (l : list Z) : NoDup l -> Forall (fun a => 0 <= a < BMEM_MAX_ADDR) l -> Z.of_nat (length l) <= 2 ^ 24.
Proof.
  intros Hnd Hl. assert (Hsub : l ⊆+ seqZ 0 BMEM_MAX_ADDR).
  { apply NoDup_submseteq; [done|]. intros a Ha. rewrite Forall_forall in Hl. specialize (Hl a Ha). apply elem_of_seqZ. lia. }
  apply submseteq_length in Hsub. rewrite length_seqZ in Hsub. unfold BMEM_MAX_ADDR in Hsub. lia.
Qed.

Definition bdat_apart (d e : bdat_mem_range_t) : Prop := apart (of_bdat d) (of_bdat e).

Definition bdat_ok (d : bdat_mem_range_t) : Prop := mr_len d = 0 \/ range_ok (of_bdat d).

(** Ranges at or above 1 MiB, of different memory each, and ranges below of which those of the
    firmware are not RAM. *)
Lemma ext_range_high d e : e ∈ ext_range d ->
  BMEM_MAX_ADDR <= mr_start e /\ PhysicalStart d <= mr_start e /\ 0 < mr_len e /\
  mr_start e + mr_len e <= PhysicalStart d + NumberOfPages d * EFI_PAGE_SIZE.
Proof.
  unfold ext_range, bmem_range.
  set (n := Z.max 0 _). destruct (Z.eqb_spec n 0) as [|Hn]; [by intros ?%not_elem_of_nil|].
  intros ->%list_elem_of_singleton. cbn [mr_start mr_len]. unfold n in *. lia.
Qed.

Lemma uefi_range_low d e : ext_desc_ok d -> e ∈ uefi_range d ->
  0 <= mr_start e /\ 0 < mr_len e /\ mr_start e + mr_len e <= BMEM_MAX_ADDR /\ mr_e820_type e <> E820_RAM.
Proof.
  intros (H1 & H2 & H3). unfold uefi_range. destruct (Z.geb_spec (PhysicalStart d) BMEM_MAX_ADDR); [by intros ?%not_elem_of_nil|].
  destruct (freed_on_exit (Type_ d)); [by intros ?%not_elem_of_nil|].
  pose proof (wrap_range 64 (NumberOfPages d * EFI_PAGE_SIZE) ltac:(lia)).
  destruct (Z.eqb_spec (u64 (NumberOfPages d * EFI_PAGE_SIZE)) 0); [by intros ?%not_elem_of_nil|].
  intros ->%list_elem_of_singleton. cbn [mr_start mr_len mr_e820_type]. split_and!; [lia|lia|lia|].
  unfold e820_type_of, E820_RAM, E820_ACPI, E820_NVS, E820_PMEM, E820_RESERVED. by destruct (Type_ d).
Qed.

Section map.
Context (descs : list mem_desc) (base : list bdat_mem_range_t).
Hypothesis Hok : Forall ext_desc_ok descs.
Hypothesis Hapart : StronglySorted desc_apart descs.
Hypothesis Hbase : in_order 0 base.

Let ranges : list bdat_mem_range_t := mjoin (ext_range <$> descs) ++ mjoin (uefi_range <$> descs) ++ base.

Lemma in_ext e : e ∈ mjoin (ext_range <$> descs) -> exists d, ext_desc_ok d /\ d ∈ descs /\ e ∈ ext_range d.
Proof.
  intros (l & He & (d & -> & Hd)%list_elem_of_fmap)%list_elem_of_join. exists d. rewrite Forall_forall in Hok. auto.
Qed.

Lemma in_uefi e : e ∈ mjoin (uefi_range <$> descs) -> exists d, ext_desc_ok d /\ e ∈ uefi_range d.
Proof.
  intros (l & He & (d & -> & Hd)%list_elem_of_fmap)%list_elem_of_join. exists d. rewrite Forall_forall in Hok. auto.
Qed.

Lemma handed_ranges_ok : Forall bdat_ok ranges.
Proof.
  apply Forall_forall. intros e [He|[He|He]%elem_of_app]%elem_of_app; unfold bdat_ok, range_ok, range_end; cbn.
  - destruct (in_ext e He) as (d & (_ & _ & Hd) & _ & H). destruct (ext_range_high d e H) as (? & ? & ? & ?). zsolve.
  - destruct (in_uefi e He) as (d & Hd & H). destruct (uefi_range_low d e Hd H) as (? & ? & ? & ?). zsolve.
  - destruct Hbase as [_ Hl]. rewrite Forall_forall in Hl. destruct (Hl e He) as (? & ? & ?). zsolve.
Qed.

Lemma handed_ranges_apart : StronglySorted bdat_apart ranges.
Proof.
  unfold ranges. apply StronglySorted_app; split_and!; [| |apply StronglySorted_app; split_and!].
  - intros x y Hx Hy. left. destruct (in_ext x Hx) as (d & _ & _ & H). destruct (ext_range_high d x H) as (? & ? & ? & ?).
    assert (Hlow : mr_start y + mr_len y <= BMEM_MAX_ADDR).
    { apply elem_of_app in Hy as [Hy|Hy].
      - destruct (in_uefi y Hy) as (e & He & H'). by destruct (uefi_range_low e y He H') as (? & ? & ? & ?).
      - destruct Hbase as [_ Hl]. rewrite Forall_forall in Hl. by destruct (Hl y Hy) as (? & ? & ?). }
    unfold disjoint_ranges. cbn. lia.
  - apply (sorted_mjoin desc_apart); [| |exact Hapart].
    + intros d. unfold ext_range, bmem_range. destruct (_ =? 0); repeat constructor.
    + intros d e x y Hde Hx Hy. left. destruct (ext_range_high d x Hx) as (? & ? & ? & ?), (ext_range_high e y Hy) as (? & ? & ? & ?).
      unfold desc_apart, disjoint_ranges in *. cbn. lia.
  - intros x y Hx Hy. right. destruct (in_uefi x Hx) as (d & Hd & H). destruct (uefi_range_low d x Hd H) as (? & ? & ? & ?).
    destruct Hbase as [_ Hl]. rewrite Forall_forall in Hl. destruct (Hl y Hy) as (? & ? & ?).
    unfold both_low, range_end. cbn. tauto.
  - apply sorted_all. intros x y Hx Hy. right. destruct (in_uefi x Hx) as (d & Hd & H), (in_uefi y Hy) as (e & He & H').
    destruct (uefi_range_low d x Hd H) as (? & ? & ? & ?), (uefi_range_low e y He H') as (? & ? & ? & ?).
    unfold both_low, range_end. cbn. tauto.
  - destruct Hbase as [Hs _]. eapply sorted_impl; [|exact Hs]. intros x y Hxy. left. unfold range_after, disjoint_ranges in *. cbn. lia.
Qed.
End map.

Lemma params_of m es :
  m.*2 = es -> Forall bdat_ok es -> StronglySorted bdat_apart es -> NoDup m.*1 -> Z.of_nat (length m) <= 2 ^ 24 ->
  params_ok m.
Proof.
  intros <- Hok Hs Hnd Hl. split; [|by apply sorted_map_filter|done|done].
  apply Forall_fmap, Forall_forall. intros d Hd. apply list_elem_of_In, filter_In in Hd as [Hd Hz].
  rewrite Forall_forall in Hok. destruct (Hok d ltac:(by apply list_elem_of_In)) as [E|?]; [by rewrite E in Hz|done].
Qed.

Lemma zip_pair {A B} (l : list A) (k : list B) : length l = length k -> (zip l k).*1 = l /\ (zip l k).*2 = k.
Proof. intros H. split; [apply fst_zip|apply snd_zip]; lia. Qed.

(** Stage 2 can work with the memory map that stage 1 passes on. *)
Lemma handed_memory_ok {fw : Type} `{HB : BootServices fw} (M : machine (fw := fw)) file xv6_compat descs pm h rsdp ds ext vs v d :
  handed_ok M file xv6_compat descs pm h rsdp ds ext vs v d ->
  Forall ext_desc_ok descs -> StronglySorted desc_apart descs ->
  memory_ok (rsdp :: (pci_view <$> ds) ++ ext ++ v :: vs).
Proof.
  intros H Hok Hap. split; [by eapply handed_readable|].
  destruct (ho_rsdp _ _ _ _ _ _ _ _ _ _ _ _ H) as (a & r & sz & -> & _).
  destruct (ho_marks _ _ _ _ _ _ _ _ _ _ _ _ H) as (Et & _ & Hgap & Hmark & Hkib).
  destruct (ho_base _ _ _ _ _ _ _ _ _ _ _ _ H) as (base & Hvs & Hbase).
  pose proof (ho_ext _ _ _ _ _ _ _ _ _ _ _ _ H) as Hext.
  destruct (zip_pair (v_addr <$> ext) _ (eq_trans (length_fmap _ _) (Forall2_length _ _ _ Hext))) as [X1 X2].
  destruct (zip_pair (v_addr <$> vs) _ (eq_trans (length_fmap _ _) (Forall2_length _ _ _ Hvs))) as [Y1 Y2].
  assert (E : mranges (rsdp_node a r sz :: (pci_view <$> ds) ++ ext ++ v :: vs) =
    zip (v_addr <$> ext) (mjoin (ext_range <$> descs)) ++ zip (v_addr <$> vs) (mjoin (uefi_range <$> descs) ++ base)).
  { change (mranges (?x :: ?l)) with (mrng_data x ++ mranges l). rewrite !mranges_app, mranges_pci.
    change (mranges (v :: vs)) with (mrng_data v ++ mranges vs). rewrite (mranges_mrng _ _ Hext), (mranges_mrng _ _ Hvs).
    unfold mrng_data. by rewrite Et. }
  pose proof (lseg_NoDup _ _ _ (ho_list _ _ _ _ _ _ _ _ _ _ _ _ H)) as Hnd.
  rewrite fmap_cons, !fmap_app, fmap_cons in Hnd.
  assert (Hsub : (v_addr <$> ext) ++ (v_addr <$> vs) `sublist_of`
    v_addr (rsdp_node a r sz) :: (v_addr <$> (pci_view <$> ds)) ++ (v_addr <$> ext) ++ v_addr v :: (v_addr <$> vs)).
  { apply sublist_cons, sublist_inserts_l, sublist_app; [done|]. by apply sublist_cons. }
  assert (Hnd' : NoDup ((v_addr <$> ext) ++ (v_addr <$> vs))) by (by eapply sublist_NoDup).
  apply (params_of _ (mjoin (ext_range <$> descs) ++ mjoin (uefi_range <$> descs) ++ base)); rewrite ?E.
  - by rewrite fmap_app, X2, Y2.
  - by apply handed_ranges_ok.
  - by apply handed_ranges_apart.
  - by rewrite fmap_app, X1, Y1.
  - rewrite <- (length_fmap fst), fmap_app, X1, Y1. apply low_addrs_few; [done|].
    assert (Hlow : forall x, some_mrng x -> x ∈ ext ++ vs -> 0 <= v_addr x < BMEM_MAX_ADDR).
    { intros x (dx & _ & Hsz & _) Hx.
      destruct (ho_low _ _ _ _ _ _ _ _ _ _ _ _ H x) as [L1 L2]; [set_solver|]. rewrite Hsz in L2.
      unfold sizeof_bparm_t, sizeof_bdat_mem_range_t in L2. zsolve. }
    assert (Hsome : Forall some_mrng (ext ++ vs)) by (apply Forall_app_2; by eapply Forall2_some_mrng).
    rewrite <- fmap_app. apply Forall_fmap, Forall_forall. intros x Hx. rewrite Forall_forall in Hsome.
    apply list_elem_of_In in Hx. apply (Hlow x); [by apply Hsome, list_elem_of_In|by apply list_elem_of_In].
Qed.

(** ** The contract *)

(** Memory that neither [run_stage2] nor [rm16_init] writes to, if it is below 1 MiB. *)
Definition untouched (I : rm16_image) (cs ds a n : Z) : Prop :=
  LOW_AREA <= a /\ disjoint_ranges a n (16 * cs) (etext16 I) /\ disjoint_ranges a n (16 * ds) (end16 I).

(** The call of an option ROM at its entry point; the image is in memory. *)
Definition good_call (I : rm16_image) (cs dseg : Z) (pm : phys) (ds : list bdat_pci_dev_t) (e : s2_ev) : Prop :=
  exists d, d ∈ ds /\ e = rom_call d /\ 0 < rimg_seg d /\
    (untouched I cs dseg (16 * rimg_seg d) (rimg_sz d) ->
     callable (region pm (16 * rimg_seg d) (rimg_sz d)) (rimg_sz d)).

Lemma good_calls I cs dseg pm pm' ds b :
  Forall (rom_in_place pm) ds ->
  (forall a n, a + n <= BMEM_MAX_ADDR -> untouched I cs dseg a n -> region pm' a n = region pm a n) ->
  Forall (good_call I cs dseg pm' ds) (rom_calls b ds).
Proof.
  intros Hr Hsame. apply Forall_forall. intros e He. unfold rom_calls in He.
  apply list_elem_of_fmap in He as (d & -> & Hd). apply list_elem_of_In, filter_In in Hd as [Hd Hc].
  apply list_elem_of_In in Hd. rewrite Forall_forall in Hr. apply andb_true_iff in Hc as [_ Hc].
  destruct (Hr d Hd) as [E|(H1 & H2 & H3)]; [by rewrite E in Hc|]. exists d. split_and!; try done.
  intros Hu. by rewrite Hsame.
Qed.

(** A display controller with an option ROM is called. *)
Lemma display_called (ds : list (Z * bdat_pci_dev_t)) p :
  p ∈ ds -> is_display (class_if p.2) = true -> rimg_seg p.2 <> 0 -> rom_calls true (snd <$> ds) <> [].
Proof.
  intros Hp Hd Hs Hnil. change (is_display (class_if p.2)) with (rimg_is_vga p.2) in Hd.
  assert (Hin : p.2 ∈ List.filter (fun d => Bool.eqb (rimg_is_vga d) true && negb (rimg_seg d =? 0)) (snd <$> ds)).
  { apply list_elem_of_In, filter_In. split; [by apply list_elem_of_In, list_elem_of_fmap_2|].
    rewrite Hd. by destruct (Z.eqb_spec (rimg_seg p.2) 0). }
  unfold rom_calls in Hnil. apply fmap_nil_inv in Hnil. rewrite Hnil in Hin. by apply not_elem_of_nil in Hin.
Qed.

(** What stage 2 needs of the memory in which it starts: the ACPI tables that the RSDP leads to are
    ones that it can map, above base memory, and name I/O APICs. *)
Record tables_in_memory {D} `{IoApics D} (L : acpi_layout) (pm : phys) (n : nat) (r sz : Z) : Prop := {
  tm_layout : layout_ok L;
  tm_tables : irq_tables L pm n r sz;
  tm_above : tables_above L pm BMEM_MAX_ADDR r;
  tm_apics : Forall io_base (listed_apics L pm r);
}.

(** The outcome of stage 2, started in memory [pm] with the nodes [ns], the devices [ds] and the I/O
    APICs [d]; the boot parameters end at [mark]. *)
Record booted {D} `{IoApics D} (L : acpi_layout) (I : rm16_image) (mark r : Z) (ds : list bdat_pci_dev_t)
    (ns : list (Z * bparm_t)) (pm : phys) (d : D) (v' : vm) (d' : D) (pm' : phys) (evs : list s2_ev) : Prop := {
  bo_memory : exists v0 v1 cs dseg, mem_init ns = Ok v0 /\ rm16_ready I v0 pm cs dseg v1 pm' /\
    (forall x, 0 <= x < 2 ^ 32 -> translate (vm_pg v') x = translate (vm_pg v0) x) /\
    evs = (Port <$> pic_pit_init) ++ rom_calls true ds ++ hello cs (hello16 I) ++ rom_calls false ds /\
    Forall (good_call I cs dseg pm' ds) (rom_calls true ds ++ rom_calls false ds) /\
    (** with the room that stage 1 has made sure of *)
    (headroom (vm_map v0) mark (128 * KIBYTE) BMEM_MAX_ADDR ->
      placed I cs dseg pm pm' /\
      (ring (seg40 pm') def_kb_buf 16 0 0 /\ decode (seg40 pm') def_kb_buf 16 0 0 = idle_keyboard) /\
      forall a k, LOW_AREA <= a -> a + k <= mark -> untouched I cs dseg a k);
  bo_vm : vm_ok v' /\ identity v';
  bo_apics : masked (listed_apics L pm r) d d';
  bo_legacy : forall s, legacy_ready (fold_left port_step pic_pit_init s);
  bo_display : rom_calls true ds <> [];
}.

(** The arguments of [run_stage2] fit into their registers. *)
Lemma handed_args {fw : Type} `{HB : BootServices fw} `{HL : !BootServicesLaws fw} (M : machine (fw := fw)) file (w : fw) xv6_compat descs pm h rsdp ds ext vs v d :
  machine_ok M file w -> handed_ok M file xv6_compat descs pm h rsdp ds ext vs v d ->
  BMEM_MAX_ADDR <= h_trampoline h /\ 0 <= h_entry h < 2 ^ 32 /\ 0 <= h_base_kib h < 2 ^ 16 /\ 0 <= h_ebda_seg h < 2 ^ 16 /\
  0 <= h_bparms h < 2 ^ 32.
Proof.
  intros HM H. destruct (ho_trampoline _ _ _ _ _ _ _ _ _ _ _ _ H) as (_ & H1 & _).
  destruct (ho_program _ _ _ _ _ _ _ _ _ _ _ _ H) as (dev & name & phdrs & _ & _ & Helf & _).
  destruct (ho_marks _ _ _ _ _ _ _ _ _ _ _ _ H) as (_ & _ & Hgap & Hmark & Hkib). destruct (ho_ebda _ _ _ _ _ _ _ _ _ _ _ _ H) as [H4 _].
  split_and!; try lia.
  - rewrite (elf_entry _ _ _ Helf). apply le32_range, (mk_files _ _ _ HM).
  - rewrite (elf_entry _ _ _ Helf). apply le32_range, (mk_files _ _ _ HM).
  - destruct (ho_list _ _ _ _ _ _ _ _ _ _ _ _ H) as (-> & _).
    destruct (ho_low _ _ _ _ _ _ _ _ _ _ _ _ H rsdp ltac:(by left)) as [L1 _]. change EFI_PAGE_SIZE with 4096 in L1. lia.
  - destruct (ho_list _ _ _ _ _ _ _ _ _ _ _ _ H) as (-> & _).
    destruct (ho_low _ _ _ _ _ _ _ _ _ _ _ _ H rsdp ltac:(by left)) as [L1 L2].
    destruct (ho_rsdp _ _ _ _ _ _ _ _ _ _ _ _ H) as (a & r & sz & -> & _). cbn [rsdp_node v_addr v_size] in *.
    unfold sizeof_bparm_t, sizeof_bdat_rsdp_t, KIBYTE in *. lia.
Qed.

(** The second half: stage 2 from the moment it is entered. *)
Lemma stage2_boots {fw : Type} `{HB : BootServices fw} {D} `{HD : IoApics D} `{HDL : !IoApicLaws D}
    (M : machine (fw := fw)) file xv6_compat descs pm0 h rsdp ds ext vs v d a r sz L I gdt_base n ns (io : D) code gdtr gdt_off misc e :
  handed_ok M file xv6_compat descs pm0 h rsdp ds ext vs v d -> rsdp = rsdp_node a r sz ->
  Forall ext_desc_ok descs -> StronglySorted desc_apart descs -> image_ok I ->
  entered_ok code gdtr gdt_off (h_entry h) (h_trampoline h) (h_base_kib h) (h_ebda_seg h) (h_bparms h) misc (h_mem h) e ->
  bparm_walk n (h_heap h) (h_bparms h) = Ok ns -> tables_in_memory L (s2_mem e) n r sz ->
  match stage2_main L I gdt_base n (h_heap h) (h_bparms h) io (s2_mem e) with
  | Ok (v', io', pm', evs) => booted L I (16 * boottime_bmem_bot_seg d) r (snd <$> ds) ns (s2_mem e) io v' io' pm' evs
  | Fail f => exhausted f
  end.
Proof.
  intros Hh Er Hext Hap HI He Ewalk [T1 T2 T3 T4].
  destruct (handed_readable M file xv6_compat _ _ h rsdp ds ext vs v d Hh) as (R1 & R2 & R3).
  pose proof (handed_memory_ok M file xv6_compat _ _ h rsdp ds ext vs v d Hh Hext Hap) as Hmem.
  pose proof (ho_list _ _ _ _ _ _ _ _ _ _ _ _ Hh) as Hl.
  destruct (lseg_walk_Ok _ _ _ _ _ Hl Ewalk) as [_ Hn]. pose proof (ho_bytes _ _ _ _ _ _ _ _ _ _ _ _ Hh) as Hpm0.
  pose proof (en_bytes _ _ _ _ _ _ _ _ _ _ _ He Hpm0) as Hpm.
  pose proof (stage2_main_spec L I gdt_base n (h_heap h) (h_bparms h) _ [] rsdp
    ((pci_view <$> ds) ++ ext ++ v :: vs) io (s2_mem e) r sz T1 Hpm HI Hl Hn R1 Hmem eq_refl ltac:(constructor)
    ltac:(by rewrite Er) ltac:(by rewrite Er) T2 T4 T3) as H.
  rewrite R3 in H. destruct (stage2_main _ _ _ _ _ _ _ _) as [[[[v' io'] pm'] evs]|f]; [|exact H].
  destruct H as (ns' & v0 & v1 & cs & dseg & E1 & E2 & H1 & H2 & H3 & H4 & H5 & H6 & H7).
  assert (ns' = ns) as -> by congruence.
  destruct (ho_trampoline _ _ _ _ _ _ _ _ _ _ _ _ Hh) as (_ & Ht & _).
  split; try done; [|destruct (ho_display _ _ _ _ _ _ _ _ _ _ _ _ Hh) as (p & Hp & Hd & Hs); by apply (display_called _ p)].
  exists v0, v1, cs, dseg. split_and!; try done.
  - apply Forall_app_2; (apply (good_calls I cs dseg (h_mem h)); [apply Forall_fmap, (ho_roms _ _ _ _ _ _ _ _ _ _ _ _ Hh)|]).
    1,2: intros a' k Hk (U1 & U2 & U3); apply region_ext; intros i Hi;
      rewrite (rm_rest _ _ _ _ _ _ _ H1), (en_rest _ _ _ _ _ _ _ _ _ _ _ He);
      unfold scratch, in_range, disjoint_ranges in *; try done; unfold LOW_AREA in *; lia.
  - intros Hroom. destruct (rm_room _ _ _ _ _ _ _ H1 _ Hroom) as [Bc Bd].
    assert (Hmark : LOW_AREA <= 16 * boottime_bmem_bot_seg d).
    { destruct (ho_low _ _ _ _ _ _ _ _ _ _ _ _ Hh rsdp ltac:(by left)) as [L1 L2]. rewrite Er in L1, L2. cbn [rsdp_node v_addr v_size] in *.
      unfold sizeof_bparm_t, sizeof_bdat_rsdp_t in *. change EFI_PAGE_SIZE with 4096 in *. unfold LOW_AREA. lia. }
    pose proof (rm_placed _ _ _ _ _ _ _ H1 ltac:(lia) ltac:(lia)) as Hp. split; [exact Hp|]. split.
    + apply (keyboard_ready I cs dseg (s2_mem e) pm' HI Hp (rm_bytes _ _ _ _ _ _ _ H1 Hpm));
        by rewrite (en_low _ _ _ _ _ _ _ _ _ _ _ He) by (vm_compute; split; [discriminate|reflexivity]).
    + intros a' k L1 L2. unfold untouched, disjoint_ranges. lia.
Qed.


(** ** A concrete machine, from one end to the other *)

(** What [efi_main] hands over on the machine of [Stage1], and the memory in which stage 2 starts. *)
Definition demo1_run : result handed := efi_main true demo1 20 demo1_fw.

Definition demo1_enter (h : handed) : Z * Z * entered :=
  run_stage2 demo_code 0x20 0x40 0 0x66 (h_entry h) (h_trampoline h) (h_base_kib h) (h_ebda_seg h) (h_bparms h) (h_mem h).

Definition memory_at_entry (r : result handed) : phys :=
  match r with Ok h => s2_mem (snd (demo1_enter h)) | Fail _ => demo1_mem end.

Definition demo1_pm : phys := memory_at_entry demo1_run.

Lemma demo1_tables h rip rip2 e :
  efi_main true demo1 20 demo1_fw = Ok h ->
  run_stage2 demo_code 0x20 0x40 0 0x66 (h_entry h) (h_trampoline h) (h_base_kib h) (h_ebda_seg h) (h_bparms h) (h_mem h) =
    (rip, rip2, e) ->
  tables_in_memory (D := io_regs) acpi_spec_layout (s2_mem e) 100 0x7fe10000 52.
Proof.
  intros Eh Ee. replace (s2_mem e) with demo1_pm by (unfold demo1_pm, demo1_run; rewrite Eh; cbn [memory_at_entry]; unfold demo1_enter; by rewrite Ee).
  split; [exact spec_layout_ok|demo_irq_tables demo1_pm| |].
  - assert (Ex : m64 demo1_pm (0x7fe10000 + xsdp_xsdt acpi_spec_layout) = 0x7fe11000) by (vm_compute; reflexivity).
    split; rewrite ?Ex; [by vm_compute..|].
    replace (xsdt_count acpi_spec_layout demo1_pm 0x7fe11000) with 2%nat by (vm_compute; reflexivity).
    intros j Hj. assert (j = 0 \/ j = 1) as [-> | ->] by lia; vm_compute; discriminate.
  - assert (E : listed_apics acpi_spec_layout demo1_pm 0x7fe10000 = [0xfec00000]) by (vm_compute; reflexivity).
    rewrite E. repeat constructor. by exists 0x7f60000.
Qed.

