(* ===== verification/RomDump.v ===== *)
(** * The ROM dumper (src/romdumper.c)

    A separate UEFI program that writes the option ROMs of the PCI devices, the memory from 0xc0000
    to 1 MiB and the top 8 MiB below 4 GiB to files on the boot medium.  The state is the files of
    the medium; the answers of the file protocol are a parameter, as are the names that
    UnicodeSPrint of gnu-efi makes.  The specification is the list of files that are wanted: the
    program writes them in order, and stops with an error at the first that it cannot write. *)

From S2P Require Import Prelude Util Bmem Bparm Rimg Phys Fv Pci.

(** ** A monad for programs that change files and may stop *)

Abbreviation files := (gmap string (list Z)).
Definition fio (A : Type) : Type := files -> files * result A.

#[export] Instance fio_ret : MRet fio := fun A a fs => (fs, Ok a).
#[export] Instance fio_bind : MBind fio :=
  fun A B k m fs => match m fs with (fs, Ok a) => k a fs | (fs, Fail f) => (fs, Fail f) end.

Definition fail_with {A} (msg : string) : fio A := fun fs => (fs, Fail (Error msg)).
Definition lift_error {A} (msg : string) (o : option A) : fio A :=
  match o with Some a => mret a | None => fail_with msg end.
Definition require (msg : string) (b : bool) : fio unit := if b then mret () else fail_with msg.

(** ** The file protocol *)

(** Whether the medium has a file system and a root directory, and by name: whether a file can be
    deleted, can be created, and how many bytes a write of a size stores, unless it is an error. *)
Record file_ops := {
  fs_protocol : bool;
  fs_volume : bool;
  can_delete : string -> bool;
  can_create : string -> bool;
  Write : string -> Z -> option Z;
}.

(** [out->Delete] and [vol->Open] with EFI_FILE_MODE_CREATE, when they succeed. *)
Definition remove (name : string) : fio unit := fun fs => (delete name fs, Ok ()).
Definition create (name : string) : fio unit := fun fs => (<[name := default [] (fs !! name)]> fs, Ok ()).
Definition exists_ (name : string) : fio bool := fun fs => (fs, Ok (bool_decide (is_Some (fs !! name)))).
(** [out->Write] at the start of the file: the bytes behind those written stay. *)
Definition put_bytes (name : string) (l : list Z) : fio unit :=
  fun fs => (<[name := l ++ drop (length l) (default [] (fs !! name))]> fs, Ok ()).

Section dumper.
Variable F : file_ops.
(** The names for [(seg, bus, dev, fn, vendor, device)] and for an address. *)
Variable pci_name : Z -> Z -> Z -> Z -> Z -> Z -> string.
Variable fv_name : Z -> string.
Variable mem : phys.

(** ** Operations *)

Definition write_dump (name : string) (buf : list Z) : fio unit :=
  write_size ← lift_error "cannot write dump file" (Write F name (zlen buf));
  _ ← put_bytes name (take (Z.to_nat write_size) buf);
  require "short write to dump file" (write_size =? zlen buf).

(** [buf] are the [size] bytes at the C code's [buf]. *)
Definition dump_rom (name : string) (buf : list Z) : fio unit :=
  _ ← require "cannot get EFI_SIMPLE_FILE_SYSTEM_PROTOCOL" (fs_protocol F);
  _ ← require "cannot get EFI_FILE_PROTOCOL" (fs_volume F);
  there ← exists_ name;
  _ ← (if there : bool
       then _ ← require "cannot delete pre-existing dump file" (can_delete F name); remove name
       else mret ());
  _ ← require "cannot create dump file" (can_create F name);
  _ ← create name;
  write_dump name buf.

Definition process_one_pci_io (io : pci_io) : fio bool :=
  if RomSize io =? 0 then mret false
  else
    '(seg, bus, dev, fn) ← lift_error no_locn (GetLocation io);
    conf ← lift_error no_conf (Pci_Read io 0 1);
    pci_id ← (fun fs => (fs, aget conf 0));
    let name := pci_name seg bus dev fn (Z.land pci_id 0xffff) (Z.shiftr pci_id 16) in
    _ ← dump_rom name (region mem (RomImage io) (RomSize io));
    mret true.

(** The loop over the handles; [None] is a handle whose protocol cannot be had. *)
Fixpoint pci_roms_loop (ios : list (option pci_io)) (got_rom : bool) : fio bool :=
  match ios with
  | [] => mret got_rom
  | io :: ios =>
      io ← lift_error no_pci_io io;
      got ← process_one_pci_io io;
      pci_roms_loop ios (got_rom || got)
  end.

(** The result is whether there was a ROM; otherwise a message is printed. *)
Definition dump_pci_roms (ios : list (option pci_io)) : fio bool :=
  match ios with [] => fail_with no_devices | _ => pci_roms_loop ios false end.

Definition OPT_ROM_OUT : string := "0x000C0000.dump".

Definition dump_opt_rom_area : fio unit :=
  let start := 0xc0000 in let end_ := 0x100000 in
  dump_rom OPT_ROM_OUT (region mem start (end_ - start)).

Definition CHUNK : Z := 0x10000.

(** [while (start < end)] *)
Fixpoint fv_area_loop (fuel : nat) (start end_ : Z) : fio unit :=
  match fuel with
  | O => fun fs => (fs, Fail Diverges)
  | S fuel =>
      if start <? end_ then
        _ ← dump_rom (fv_name start) (region mem start CHUNK);
        fv_area_loop fuel (u64 (start + CHUNK)) end_
      else mret ()
  end.

Definition dump_fv_area : fio unit := fv_area_loop 129 0xff800000 0x100000000.

(** [romdumper.c] up to the final [wait_and_exit(0)]; [device] is the boot medium, if it can be
    told. *)
Definition rom_dumper (device : option Z) (ios : list (option pci_io)) : fio unit :=
  _ ← lift_error "cannot get EFI_LOADED_IMAGE_PROTOCOL" device;
  _ ← dump_pci_roms ios;
  _ ← dump_opt_rom_area;
  dump_fv_area.

(** ** The files that are wanted *)

(** The ROM of a device that has one. *)
Definition pci_file (o : option pci_io) : list (string * list Z) :=
  match o with
  | Some io =>
      if RomSize io =? 0 then []
      else match GetLocation io, Pci_Read io 0 1 with
           | Some (seg, bus, dev, fn), Some (id :: _) =>
               [(pci_name seg bus dev fn (Z.land id 0xffff) (Z.shiftr id 16), region mem (RomImage io) (RomSize io))]
           | _, _ => []
           end
  | None => []
  end.

Definition fv_files : list (string * list Z) :=
  (fun i => let a := 0xff800000 + CHUNK * Z.of_nat i in (fv_name a, region mem a CHUNK)) <$> seq 0 128.

Definition wanted (ios : list (option pci_io)) : list (string * list Z) :=
  mjoin (pci_file <$> ios) ++ [(OPT_ROM_OUT, region mem 0xc0000 0x40000)] ++ fv_files.

Definition put_all (l : list (string * list Z)) (fs : files) : files :=
  foldl (fun fs p => <[p.1 := p.2]> fs) fs l.

(** The program writes [l]; if it stops, it has written the files of a part of [l] from the
    beginning on, and touched at most the next one. *)
Definition dumps {A} (m : fio A) (l : list (string * list Z)) : Prop :=
  forall fs, match m fs with
  | (fs', Ok _) => fs' = put_all l fs
  | (fs', Fail f) => f <> Diverges /\ exists done rest, l = done ++ rest /\
      forall n, Some n <> (fst <$> head rest) -> fs' !! n = put_all done fs !! n
  end.

Lemma put_all_app l1 l2 fs : put_all (l1 ++ l2) fs = put_all l2 (put_all l1 fs).
Proof. apply foldl_app. Qed.

Lemma dumps_ret {A} (a : A) : dumps (mret a) [].
Proof. by intros fs. Qed.

Lemma dumps_fail {A} msg l : dumps (fail_with (A := A) msg) l.
Proof. intros fs. split; [done|]. by exists [], l. Qed.

Lemma dumps_bind {A B} (m : fio A) (k : A -> fio B) l1 l2 :
  dumps m l1 -> (forall a, dumps (k a) l2) -> dumps (m ≫= k) (l1 ++ l2).
Proof.
  intros Hm Hk fs. unfold mbind, fio_bind. specialize (Hm fs). destruct (m fs) as [fs1 [a|f]].
  - subst fs1. specialize (Hk a (put_all l1 fs)). destruct (k a _) as [fs2 [b|f]]; [by rewrite put_all_app|].
    destruct Hk as (Hf & dn & rest & -> & H). split; [done|]. exists (l1 ++ dn), rest. rewrite <- app_assoc.
    split; [done|]. intros n Hn. by rewrite put_all_app, H.
  - destruct Hm as (Hf & dn & rest & -> & H). split; [done|]. exists dn, (rest ++ l2). rewrite <- app_assoc.
    split; [done|]. intros n Hn. apply H. by destruct rest.
Qed.

Lemma dumps_then {A B} (m : fio A) (k : A -> fio B) l :
  dumps m [] -> (forall a, dumps (k a) l) -> dumps (m ≫= k) l.
Proof. apply (dumps_bind m k [] l). Qed.

Lemma dumps_lift {A} msg (o : option A) : dumps (lift_error msg o) [].
Proof. destruct o; [apply dumps_ret|apply dumps_fail]. Qed.

(** Only the file of the name that [H] speaks of has changed. *)
Ltac stopped H := split; [done|apply H; intros; by simplify_map_eq].

Lemma dump_rom_dumps name buf : dumps (dump_rom name buf) [(name, buf)].
Proof.
  intros fs. unfold dump_rom, require, exists_, write_dump, lift_error, put_bytes, create, remove.
  cbv [mbind fio_bind mret fio_ret fail_with].
  assert (Hstop : forall fs' : files, (forall n, n <> name -> fs' !! n = fs !! n) -> exists dn rest,
    [(name, buf)] = dn ++ rest /\ forall n, Some n <> (fst <$> head rest) -> fs' !! n = put_all dn fs !! n).
  { intros fs' H. exists [], [(name, buf)]. split; [done|]. intros n Hn. apply H. cbn in Hn. congruence. }
  destruct (fs_protocol F); [|stopped Hstop]. destruct (fs_volume F); [|stopped Hstop].
  destruct (bool_decide_reflect (is_Some (fs !! name))) as [_|Hnone];
    [destruct (can_delete F name); [|stopped Hstop]|].
  all: destruct (can_create F name); [|stopped Hstop].
  all: destruct (Write F name (zlen buf)) as [n|]; [|stopped Hstop].
  all: destruct (Z.eqb_spec n (zlen buf)) as [->|]; [|stopped Hstop].
  all: unfold zlen, put_all; cbn [foldl fst snd]; rewrite Nat2Z.id, firstn_all.
  - rewrite lookup_insert_eq, lookup_delete_eq. simpl. rewrite drop_nil, app_nil_r.
    by rewrite insert_insert_eq, insert_delete_eq.
  - apply eq_None_not_Some in Hnone. rewrite lookup_insert_eq, Hnone. simpl.
    rewrite drop_nil, app_nil_r. by rewrite insert_insert_eq.
Qed.

Lemma process_one_dumps io : dumps (process_one_pci_io io) (pci_file (Some io)).
Proof.
  unfold process_one_pci_io, pci_file. destruct (_ =? 0); [apply dumps_ret|].
  destruct (GetLocation io) as [[[[seg bus] dev] fn]|]; [|apply dumps_fail].
  destruct (Pci_Read io 0 1) as [[|id conf]|]; [| |apply dumps_fail].
  - intros fs. split; [done|]. by exists [], [].
  - exact (dumps_bind (dump_rom _ _) (fun _ => mret true) [_] [] (dump_rom_dumps _ _) (fun _ => dumps_ret _)).
Qed.

Lemma pci_roms_loop_dumps ios got : dumps (pci_roms_loop ios got) (mjoin (pci_file <$> ios)).
Proof.
  revert got. induction ios as [|[io|] ios IH]; intros got; [apply dumps_ret| |apply dumps_fail].
  exact (dumps_bind (process_one_pci_io io) _ _ _ (process_one_dumps io) (fun b => IH (got || b))).
Qed.

Lemma dump_pci_roms_dumps ios : dumps (dump_pci_roms ios) (mjoin (pci_file <$> ios)).
Proof. destruct ios; [apply dumps_fail|apply pci_roms_loop_dumps]. Qed.

(** From chunk [i] on. *)
Lemma fv_area_loop_dumps n i : (i + n = 128)%nat ->
  dumps (fv_area_loop (S n) (0xff800000 + CHUNK * Z.of_nat i) 0x100000000)
    ((fun i => let a := 0xff800000 + CHUNK * Z.of_nat i in (fv_name a, region mem a CHUNK)) <$> seq i n).
Proof.
  revert i. induction n as [|n IH]; intros i Hn; cbn [fv_area_loop]; unfold CHUNK in *.
  - rewrite (proj2 (Z.ltb_ge _ _)) by lia. apply dumps_ret.
  - rewrite (proj2 (Z.ltb_lt _ _)) by lia.
    apply (dumps_bind _ _ [_] _ (dump_rom_dumps _ _)). intros _. specialize (IH (S i)).
    replace (u64 _) with (0xff800000 + 0x10000 * Z.of_nat (S i)) by (rewrite (wrap_small 64); lia).
    apply IH. lia.
Qed.

Lemma dump_fv_area_dumps : dumps dump_fv_area fv_files.
Proof. exact (fv_area_loop_dumps 128 0 eq_refl). Qed.

Lemma rom_dumper_dumps device ios : dumps (rom_dumper device ios) (wanted ios).
Proof.
  apply dumps_then; [apply dumps_lift|intros _].
  apply dumps_bind; [apply dump_pci_roms_dumps|intros _].
  apply dumps_bind; [apply dump_rom_dumps|intros _]. apply dump_fv_area_dumps.
Qed.

Lemma put_all_other l fs n : n ∉ l.*1 -> put_all l fs !! n = fs !! n.
Proof.
  revert fs. induction l as [|[m c] l IH]; intros fs Hn; [done|]. rewrite fmap_cons in Hn.
  transitivity (put_all l (<[m := c]> fs) !! n); [done|]. rewrite IH by set_solver.
  apply lookup_insert_ne. set_solver.
Qed.

(** Files of different names do not overwrite each other. *)
Lemma put_all_get l fs n b : NoDup l.*1 -> (n, b) ∈ l -> put_all l fs !! n = Some b.
Proof.
  revert fs. induction l as [|[m c] l IH]; intros fs Hnd Hin; [by apply not_elem_of_nil in Hin|].
  rewrite fmap_cons in Hnd. apply NoDup_cons in Hnd as [Hm Hnd].
  apply elem_of_cons in Hin as [[= -> ->]|Hin]; [|by apply (IH (<[m := c]> fs))].
  transitivity (put_all l (<[m := c]> fs) !! m); [done|]. by rewrite put_all_other, lookup_insert_eq.
Qed.

(** The chunks of the firmware area, put together, are the 8 MiB below 4 GiB. *)
Lemma chunks_join n a :
  mjoin ((fun i => region mem (a + CHUNK * Z.of_nat i) CHUNK) <$> seq 0 n) = region mem a (CHUNK * Z.of_nat n).
Proof.
  induction n as [|n IH]; [done|]. rewrite seq_S, fmap_app, join_app, IH. cbn. rewrite app_nil_r.
  rewrite <- region_app by (unfold CHUNK; lia). f_equal. lia.
Qed.

Lemma fv_files_join : mjoin (fv_files.*2) = region mem 0xff800000 0x800000.
Proof.
  unfold fv_files. rewrite <- list_fmap_compose. exact (chunks_join 128 0xff800000).
Qed.

(** ** When the medium and the devices answer *)

(** Everything is allowed, and writes store what they are given. *)
Record medium_ok : Prop := {
  mo_protocol : fs_protocol F = true;
  mo_volume : fs_volume F = true;
  mo_delete n : can_delete F n = true;
  mo_create n : can_create F n = true;
  mo_write n size : Write F n size = Some size;
}.

Definition answers (o : option pci_io) : bool :=
  match o with
  | Some io => (RomSize io =? 0) ||
      match GetLocation io, Pci_Read io 0 1 with Some _, Some (_ :: _) => true | _, _ => false end
  | None => false
  end.

Definition works {A} (m : fio A) : Prop := forall fs, exists fs' a, m fs = (fs', Ok a).

Lemma works_ret {A} (a : A) : works (mret a).
Proof. intros fs. by exists fs, a. Qed.

Lemma works_bind {A B} (m : fio A) (k : A -> fio B) : works m -> (forall a, works (k a)) -> works (m ≫= k).
Proof.
  intros Hm Hk fs. destruct (Hm fs) as (fs1 & a & E). destruct (Hk a fs1) as (fs2 & b & E').
  exists fs2, b. unfold mbind, fio_bind. by rewrite E.
Qed.

Lemma dump_rom_works name buf : medium_ok -> works (dump_rom name buf).
Proof.
  intros [] fs. unfold dump_rom, require, exists_, write_dump, lift_error, put_bytes, create, remove.
  cbv [mbind fio_bind mret fio_ret fail_with].
  rewrite mo_protocol0, mo_volume0, mo_delete0, mo_create0, mo_write0, Z.eqb_refl.
  destruct (bool_decide _); eauto.
Qed.

Lemma pci_roms_loop_works ios got : medium_ok -> forallb answers ios = true -> works (pci_roms_loop ios got).
Proof.
  intros Hmo. revert got. induction ios as [|[io|] ios IH]; intros got Ha; [apply works_ret| |done].
  apply andb_true_iff in Ha as [Ha Hs].
  apply (works_bind (process_one_pci_io io)); [|intros a; by apply IH].
  unfold process_one_pci_io. unfold answers in Ha. destruct (_ =? 0); [apply works_ret|].
  destruct (GetLocation io) as [[[[seg bus] dev] fn]|]; [|done]. destruct (Pci_Read io 0 1) as [[|id conf]|]; try done.
  apply (works_bind (dump_rom _ _)); [by apply dump_rom_works|intros _; apply works_ret].
Qed.

Lemma fv_area_loop_works n i : (i + n = 128)%nat -> medium_ok ->
  works (fv_area_loop (S n) (0xff800000 + CHUNK * Z.of_nat i) 0x100000000).
Proof.
  intros Hn Hmo. revert i Hn. induction n as [|n IH]; intros i Hn; cbn [fv_area_loop]; unfold CHUNK in *.
  - rewrite (proj2 (Z.ltb_ge _ _)) by lia. apply works_ret.
  - rewrite (proj2 (Z.ltb_lt _ _)) by lia. apply works_bind; [by apply dump_rom_works|intros _].
    specialize (IH (S i)). replace (u64 _) with (0xff800000 + 0x10000 * Z.of_nat (S i)) by (rewrite (wrap_small 64); lia).
    apply IH. lia.
Qed.

Lemma rom_dumper_works device ios : medium_ok -> forallb answers ios = true -> ios <> [] ->
  works (rom_dumper (Some device) ios).
Proof.
  intros Hmo Ha Hne. apply (works_bind (dump_pci_roms ios)).
  - destruct ios; [done|]. by apply pci_roms_loop_works.
  - intros _. apply works_bind; [by apply dump_rom_works|intros _]. by apply (fv_area_loop_works 128 0).
Qed.
End dumper.

(** ** What the program leaves on the medium *)


(** An adapter with a ROM of 512 bytes, one without, and a medium with an older dump on it. *)
Fixpoint hex (digits : nat) (x : Z) : string :=
  match digits with
  | O => EmptyString
  | S n =>
      let d := Z.to_nat (x mod 16) in
      String.append (hex n (x / 16)) (String.substring d 1 "0123456789abcdef")
  end.

Definition demo_pci_name (seg bus dev fn vendor device : Z) : string :=
  String.append (hex 4 vendor) (String.append "." (hex 4 device)).

Definition demo_adapter (size : Z) : pci_io := {|
  GetLocation := Some (0, 1, 2, 3); Attributes_Get := None; Attributes_Supported := None;
  Attributes_Enable := fun _ => false; Pci_Read := fun _ _ => Some [0x12348086];
  RomImage := 0x80000000; RomSize := size |}.

Definition demo_medium : file_ops := {|
  fs_protocol := true; fs_volume := true; can_delete := fun _ => true; can_create := fun _ => true;
  Write := fun _ size => Some size |}.

