(* ===== verification/Mbr.v ===== *)
(** * The boot sector for legacy BIOSes (src/legacy-mbr.asm)

    When a BIOS that is not UEFI starts the medium, this sector tells the user so, waits for a key and
    resets the machine.  The state is the registers of [X86] and whatever the BIOS calls work on,
    which are a parameter; memory is that of the sector.  The theorem: the message is shown to its
    last character, a key is waited for, and the machine is reset in the way its processor allows. *)

From S2P Require Import Prelude Util Bmem Bparm Rimg Phys X86 Vecs.

Definition mbr_msg : list Z :=
  [13; 10] ++ text "System started in legacy BIOS mode" ++ [13; 10] ++ text "Please restart in UEFI mode" ++ [13; 10; 7].

(** [_start], where the BIOS puts the sector. *)
Definition ORG : Z := 0x7c00.

(** The last instruction: [int3] without a table of vectors, or the jump to 0xf000:0xfff0. *)
Inductive reset := TripleFault | ResetVector.

Section mbr.
(** Interrupt [n] of the BIOS; by how much string instructions move; whether [push sp] pushes what
    the pointer is afterwards, as the 8086 does it; and where the assembler puts [bad_idtr] and [msg]. *)
Context {D : Type} (bios : Z -> regs -> D -> regs * D) (dir : Z) (is_8086 : bool) (bad_idtr msg : Z).

Definition lodsb (pm : phys) (ds : Z) (g : regs) : regs :=
  let si := lo16 (esi g) in
  set_reg ESI (with16 (esi g) (u16 (si + dir))) (set_reg EAX (with_lo8 (eax g) (pm (16 * ds + si))) g).

(** [.loop] *)
Fixpoint print_loop (fuel : nat) (pm : phys) (ds : Z) (g : regs) (d : D) : result (regs * D) :=
  match fuel with
  | O => Fail Diverges
  | S fuel =>
      let g := lodsb pm ds g in
      let g := set_reg EAX (with_hi8 (eax g) 0x0e) g in
      let g := set_reg EBX (with16 (ebx g) 0x0007) g in
      let '(g, d) := bios 0x10 g d in
      let di := u16 (lo16 (edi g) - 1) in
      let g := set_reg EDI (with16 (edi g) di) g in
      if negb (di =? 0) then print_loop fuel pm ds g d else Ok (g, d)
  end.

(** The whole sector; the stack is empty at [sp]. *)
Definition mbr (fuel : nat) (pm : phys) (g : regs) (d : D) : result (reset * D) :=
  let g := set_reg EAX (with16 (eax g) 0) g in
  let sp := ORG in
  let ds := lo16 (eax g) in
  let g := set_reg ESI (with16 (esi g) msg) g in
  let g := set_reg EDI (with16 (edi g) (zlen mbr_msg)) g in
  '(g, d) ← print_loop fuel pm ds g d;
  let g := set_reg EAX (with_hi8 (eax g) 0) g in
  let '(g, d) := bios 0x16 g d in
  let ax := if is_8086 then u16 (sp - 2) else sp in
  if negb (ax =? sp) then Ok (ResetVector, d)
  else if m16 pm bad_idtr <? 4 * 3 + 3 then Ok (TripleFault, d) else Fail OutOfBounds.

(** ** What is shown *)

(** Teletype output of one character, and waiting for a key. *)
Context (tty : Z -> D -> D) (key : D -> D).

Record bios_ok : Prop := {
  bi_tty : forall g d, hi8 (eax g) = 0x0e -> lo16 (ebx g) = 7 ->
    snd (bios 0x10 g d) = tty (lo8 (eax g)) d /\
    lo16 (esi (fst (bios 0x10 g d))) = lo16 (esi g) /\ lo16 (edi (fst (bios 0x10 g d))) = lo16 (edi g);
  bi_key : forall g d, hi8 (eax g) = 0 -> snd (bios 0x16 g d) = key d;
}.

Hypothesis Hbios : bios_ok.
Hypothesis Hdir : dir = 1.

Lemma print_loop_spec pm ds l : forall fuel g d,
  l <> [] -> Forall (fun c => 0 <= c < 2 ^ 8) l ->
  lo16 (esi g) + zlen l <= 2 ^ 16 -> lo16 (edi g) = zlen l -> region pm (16 * ds + lo16 (esi g)) (zlen l) = l ->
  (length l <= fuel)%nat ->
  exists g', print_loop fuel pm ds g d = Ok (g', fold_left (fun d c => tty c d) l d).
Proof.
  induction l as [|c l IH]; intros fuel g d Hne Hc Hs Hd Hr Hf; [done|]. destruct fuel as [|fuel]; [cbn in Hf; lia|].
  inversion_clear Hc as [|? ? Hc0 Hcl]. unfold zlen in *. cbn [length] in *.
  replace (Z.of_nat (S (length l))) with (1 + Z.of_nat (length l)) in * by lia.
  pose proof (lo16_range (esi g)) as Rsi. pose proof (lo16_range (edi g)) as Rdi.
  rewrite region_app in Hr by lia. change (region pm ?a 1) with [pm (a + 0)] in Hr. cbn [app] in Hr. injection Hr as Ec Hr.
  rewrite Z.add_0_r in Ec. cbn [print_loop]. unfold lodsb. rewrite Hdir, Ec.
  match goal with |- context [bios 0x10 ?r d] => set (g1 := r) end.
  assert (E1 : hi8 (eax g1) = 0x0e /\ lo16 (ebx g1) = 7 /\ lo8 (eax g1) = c /\ lo16 (esi g1) = u16 (lo16 (esi g) + 1) /\
    lo16 (edi g1) = lo16 (edi g)).
  { unfold g1. destruct g as [ga gb gc gx gsi gdi gbp]. cbn [set_reg eax ebx esi edi]. split_and!; try done.
    - by apply hi8_with_hi8.
    - by apply lo16_with16.
    - rewrite lo8_with_hi8. by apply lo8_with_lo8.
    - apply lo16_with16, u16_range. }
  destruct E1 as (A1 & B1 & C1 & S1 & D1). destruct (bi_tty Hbios g1 d A1 B1) as (Et & Es & Ed).
  destruct (bios 0x10 g1 d) as [g2 d2]. cbn [fst snd] in *. subst d2. rewrite Ed, D1, Hd, C1.
  rewrite (wrap_small 16 (1 + Z.of_nat (length l) - 1)) by lia. cbn [fold_left].
  destruct l as [|c' l]; [cbn; by eexists|]. destruct (Z.eqb_spec (1 + Z.of_nat (length (c' :: l)) - 1) 0); [cbn in *; lia|]. cbn [negb].
  set (g3 := set_reg EDI _ g2).
  assert (E3 : lo16 (esi g3) = lo16 (esi g) + 1 /\ lo16 (edi g3) = Z.of_nat (length (c' :: l))).
  { unfold g3. destruct g2 as [ga gb gc gx gsi gdi gbp]. cbn [set_reg esi edi] in *. rewrite Es, S1, (wrap_small 16) by (cbn [length] in *; lia). split; [done|].
    rewrite lo16_with16 by lia. lia. }
  destruct E3 as [Es3 Ed3]. destruct (IH fuel g3 (tty c d)) as [g' E]; try done.
  - rewrite Es3. lia.
  - rewrite Es3. by rewrite Z.add_assoc.
  - lia.
  - by exists g'.
Qed.

(** The sector shows its message, from the first character to the last, waits for a key, and then
    resets the machine: by a fault without a table of vectors from the 80286 on, and otherwise by a
    jump to where the processor starts. *)
Theorem mbr_tells_and_resets pm g d :
  0 <= msg -> msg + zlen mbr_msg <= 2 ^ 16 -> region pm msg (zlen mbr_msg) = mbr_msg -> m16 pm bad_idtr = 0 ->
  mbr (length mbr_msg) pm g d =
    Ok (if is_8086 then ResetVector else TripleFault, key (fold_left (fun d c => tty c d) mbr_msg d)).
Proof.
  intros H0 H1 Hr Hi. unfold mbr.
  assert (Hz : zlen mbr_msg = 68) by (vm_compute; reflexivity).
  assert (Hb : Forall (fun c => 0 <= c < 2 ^ 8) mbr_msg).
  { assert (H : forallb (fun b => (0 <=? b) && (b <? 2 ^ 8)) mbr_msg = true) by (vm_compute; reflexivity).
    apply Forall_forall. intros b Hb. rewrite forallb_forall in H. apply list_elem_of_In, H in Hb.
    apply andb_prop in Hb as [?%Z.leb_le ?%Z.ltb_lt]. done. }
  match goal with |- context [print_loop _ _ ?s ?r _] => set (ds := s); set (g1 := r) end.
  assert (E : ds = 0 /\ lo16 (esi g1) = msg /\ lo16 (edi g1) = zlen mbr_msg).
  { unfold ds, g1. destruct g as [ga gb gc gx gsi gdi gbp]. cbn [set_reg eax esi edi]. rewrite !lo16_with16 by (rewrite ?Hz; lia). done. }
  destruct E as (-> & Es & Ed).
  destruct (print_loop_spec pm 0 mbr_msg (length mbr_msg) g1 d) as [g' E]; try done; [by rewrite Es|by rewrite Es|].
  rewrite E. cbn [mbind result_bind].
  assert (Ek : snd (bios 0x16 (set_reg EAX (with_hi8 (eax g') 0) g') (fold_left (fun d c => tty c d) mbr_msg d)) =
    key (fold_left (fun d c => tty c d) mbr_msg d)).
  { apply (bi_key Hbios). destruct g' as [ga gb gc gx gsi gdi gbp]. cbn [set_reg eax]. by apply hi8_with_hi8. }
  destruct (bios 0x16 _ _) as [g2 d2]. cbn [snd] in Ek. subst d2. destruct is_8086; [done|]. by rewrite Hi.
Qed.
End mbr.

(** ** A concrete machine: what is shown is recorded *)

Definition demo_bios (n : Z) (g : regs) (d : list Z) : regs * list Z :=
  (g, if n =? 0x10 then d ++ [lo8 (eax g)] else d).

Lemma mbr_tells_and_resets_witness :
  mbr demo_bios 1 false 0x7c40 0x7c42 (length mbr_msg) (write_bytes (fun _ => 0) 0x7c42 mbr_msg) (Regs 1 2 3 4 5 6 7) [] =
    Ok (TripleFault, mbr_msg).
Proof.
  assert (Hb : bios_ok demo_bios (fun c d => d ++ [c]) (fun d => d)) by (split; done).
  assert (Hr : region (write_bytes (fun _ => 0) 0x7c42 mbr_msg) 0x7c42 (zlen mbr_msg) = mbr_msg) by (vm_compute; reflexivity).
  assert (Hi : m16 (write_bytes (fun _ => 0) 0x7c42 mbr_msg) 0x7c40 = 0) by (vm_compute; reflexivity).
  assert (Hm : 0 <= 0x7c42 /\ 0x7c42 + zlen mbr_msg <= 2 ^ 16) by (split; [done|vm_compute; discriminate]).
  etrans; [exact (mbr_tells_and_resets demo_bios 1 false 0x7c40 0x7c42 _ _ Hb eq_refl _ (Regs 1 2 3 4 5 6 7) [] (proj1 Hm) (proj2 Hm) Hr Hi)|].
  vm_compute. reflexivity.
Defined.
